(* ===== verification/_CoqProject ===== *)
-Q . S2P
Prelude.v
Entry.v
Bits.v
Print.v
MemType.v
PhysMem.v
Linux.v
Kernel.v
Machine.v
KernelProps.v
KernelOps.v
Loader.v
Walk.v
Mmu.v
MmuArm.v
Update.v
Pte.v
Agree.v
KernelUpdate.v
Requests.v
Threads.v
Exclusion.v
Concurrent.v
Serial.v
Lib.v
LibProps.v
LibImpl.v
LibWitness.v
Process.v
ProcessWitness.v
Example.v
MapPt.v
MapPtManual.v
Performance.v
Demos.v
Uncachable.v
Memmap.v
Driver.v
Windows.v
WinImpl.v
WinProps.v
ServiceLoader.v
