(* ===== verification/Prelude.v ===== *)
(** * PTEditor: a verification library

    PTEditor reads and changes the page tables of processes from user space.
    The repository has four parts, which this library models one by one:

    - the kernel module ([module/pteditor.c], [module/pteditor.h]): a device
      that one process at a time can open, and an [ioctl] handler that resolves
      an address to its page-table entries, updates entries, reads and writes
      physical pages, the roots of paging and the memory types, and invalidates
      the TLB;
    - the library ([ptedit.c], [ptedit.h]): opens the device and the module's
      file [/proc/umem], which gives access to physical memory, and offers
      three implementations of [ptedit_resolve] and [ptedit_update]: through the
      module, through the memory file, and through a mapping of it; on top of
      them it has functions that change bits, frame numbers and memory types of
      entries and that print entries;
    - a driver for Windows ([driver/PTEdit/Driver.c]), which serves the
      requests of the library there, and the program that installs and starts it
      ([driver/PTEditorLoader]);
    - programs that use the library ([demos/], [example.c]).

    ** The model

    Integers are [Z], with the wrap-around of [size_t], [int] and the
    bit-fields written out ([Prelude]).  A function that has effects is a
    computation of the monad [M] of [Prelude]: it takes the state and returns a
    value and the new state ([Ret]), or it is a caller that sleeps for ever
    ([Sleep]), or its behaviour is undefined in C, it faults, or it depends on
    what the model does not describe ([Undef]).  No theorem assumes that a
    function returns, unless it says what the caller has to provide for that.

    What is not in the repository is an interface: physical memory
    ([PhysMem.PhysMem]), semaphores, the page-table macros of Linux and the
    TLB ([Linux.RwSem], [Linux.LinuxPT], [Linux.TlbOps]), the service manager
    of Windows ([ServiceLoader.ServiceControl]), each with the laws
    its documentation gives and an implementation of the laws on which the
    witnesses of the theorems are evaluated.  Between the parts of the program
    there are interfaces too: the memory-type register ([MemType.MtsOps]),
    memory as the walker needs it ([Update.WalkMem]), and the resolver and the
    updater as the functions on entries need them ([Pte.PteAccess]); [LibImpl]
    and [WinImpl] prove that the library satisfies them.

    ** Files

    - [Prelude]: C integers, the monad, bits, bytes, lists; the tactic [bits]
      and the hint databases.
    - [Entry], [Bits]: [ptedit_entry_t], the bit-field structures and
      [ptedit_cast], the constants [PTEDIT_PAGE_BIT_*], frame numbers.  A
      structure is the list of its fields with their widths.
    - [Print]: [ptedit_print_entry_line], [ptedit_print_entry],
      [ptedit_print_entry_t].
    - [MemType]: the functions on memory types, over [MtsOps].
    - [PhysMem], [Linux]: the interfaces named above.
    - [Kernel]: the module: its globals and what it uses of Linux are the
      record [kernel]; each [case] of [device_ioctl] that is longer than a line is
      a definition [ioctl_...].  [Machine] is a concrete state of it.
    - [KernelProps], [KernelOps], [Agree], [KernelUpdate], [Requests]: its
      theorems.
    - [Threads]: programs as trees of actions, and threads that run them on one
      kernel and take turns.  [Exclusion]: what holds of all programs that use
      locks properly.  [Concurrent]: [device_ioctl] and what it calls, action by
      action, as such programs, named as in [Kernel] with the suffix [_prog].
      [Serial]: the requests that change an address space.
    - [Loader]: [pteditor_init], [pteditor_exit], [devmem_bypass].
    - [Walk]: [ptedit_resolve_user_ext] and [ptedit_update_user_ext]; [Mmu],
      [MmuArm] and [Update] are the theorems about them.
    - [Pte]: the functions from [ptedit_pte_set_bit] to [ptedit_pte_set_pfn].
    - [Lib]: all other functions of [ptedit.c] as compiled for Linux, on the
      record [lib], which has the globals of the library, the files of the process
      and the kernel; [LibProps], [LibImpl], [LibWitness] are its theorems.
    - [Driver]: the driver for Windows.  [Windows]: the functions of [ptedit.c]
      as compiled for Windows, on the record [client], which has the globals of the
      library, the handles of the process and the machine of [Driver]; [WinImpl] and
      [WinProps] are its theorems.  [ServiceLoader]: the loader of the driver, as a
      tree of its calls to the system.
    - [Process]: a program as the processor runs it: its accesses to its own
      memory go through the page tables and the TLB; [ProcessWitness] is a
      concrete process.
    - The programs: [Example] is [example.c]; [MapPt], [MapPtManual],
      [Performance], [Uncachable], [Memmap] are the demos of these names;
      [Demos] has [virt2phys.c], [tlb_test.c], [clear_bits.c] and [nx.c].

    ** Theorems

    - The walk.  The walker in user space implements a walk that is defined by a
      table of levels, on every paging definition it installs, and its update
      changes exactly the entries of the levels marked valid
      ([Walk.resolve_implements_walk], [Update.update_implements_walk],
      [Update.update_then_resolve]).  On x86-64 its result is the translation
      of the processor ([Mmu.resolve_agrees_with_mmu]), except in 1 GB pages
      ([Mmu.resolve_1g_page]); so it is on AArch64
      ([MmuArm.resolve_agrees_with_arm_mmu]).  The resolver of the module gives the same
      entries ([Agree.resolvers_agree]), and so does the walker on mapped
      memory ([LibImpl.map_agrees_with_pread]).
    - The module.  Resolving leaves everything as it was, locks included
      ([KernelProps.resolve_vm_ok]); an update stores what it should where the
      processor reads it ([KernelUpdate.update_vm_x86]); every request but the one
      that locks returns and leaves the locks as it found them
      ([Requests.requests_return], [Requests.requests_balanced]); memory types, if the processor
      takes them, and roots that are written are read back
      ([KernelOps.pat_roundtrip], [KernelOps.root_roundtrip]); invalidation of
      the TLB ([KernelOps.custom_invalidation_flushes]); at most one process has the
      device open, in every sequence of system calls
      ([KernelProps.device_exclusive]); loading and unloading
      ([Loader.load_unload]).
    - Requests at the same time.  The process that has the device open may make
      requests from several threads.  The programs of [Concurrent] do, when they are not
      interrupted, what [device_ioctl] does
      ([Concurrent.device_ioctl_implements]), so that the theorems above hold of
      them; interleaved, they exclude each other
      ([Concurrent.requests_exclude]) and all end
      ([Concurrent.requests_finish]); updates of one address space have the effect of
      some order of them ([Serial.updates_serialize]).
    - The library.  Initialisation and clean-up ([LibProps.init_then_cleanup]),
      physical pages and mappings, the functions on PTEs ([Pte], for both
      implementations), bit-fields, frame numbers, memory types and printing.
    - Windows.  A program that initialises the library of a loaded driver and
      resolves an address gets what the processor translates it to
      ([WinProps.windows_resolve_translates]); physical pages
      ([WinProps.windows_page_roundtrip]); an update of a PTE is read back
      ([WinImpl.update_run], with which [Pte] holds there too); the loader closes every handle
      ([ServiceLoader.loader_handles]) and leaves a system on which
      [ptedit_init] succeeds ([ServiceLoader.loader_then_init]).
    - The programs.  The memory map lists exactly what the processor translates
      ([Memmap.memmap_lists_mapped]); the example and the two programs that map
      page tables see what they are written to see, with a processor that
      caches translations ([Example.example_succeeds],
      [MapPt.map_pt_redirects], [MapPtManual.map_pt_manual_redirects]); the
      theorems of the other programs are in their files.
    - What goes wrong.  Some theorems state behaviour that is not intended:
      [KernelProps.vm_lock_self_deadlock], [KernelUpdate.pgd_update_lost],
      [KernelOps.kernel_invalidation_is_own], [Mmu.resolve_1g_page],
      [Serial.resolve_torn],
      [Driver.set_cr3_undone], [WinProps.windows_settings_lost], and the second
      parts of [KernelOps.pat_roundtrip],
      [KernelOps.custom_invalidation_flushes], [Entry.cast_pfn_get_pfn],
      [WinProps.windows_read_page],
      [MemType.ptedit_set_mt_spec], [Entry.ptedit_set_get_pfn],
      [Loader.load_unload] and [Driver.dispatch_device_ctl_bounds].

    ** Bounds

    Every loop of the program that is modelled by recursion on a number has the
    bound of the source: 4096 tags of [invpcid], 32 bits of [__builtin_ffs], 8
    slots of memory types, 512 entries of a table, 27 major functions, and the
    numbers of repetitions of the programs.  Two
    bounds are the model's: the search for a free file descriptor looks at one
    more number than there are open files, so that it finds one
    ([LibProps.free_fd_free]), and a hexadecimal number has at most 16 digits,
    which is enough for 64 bits.

    ** Not modelled

    - Interference, except between requests to the module.  In [Concurrent] a
      copy of a page, a flush of the TLB and the search for a process are one
      action each, a lock is given to any thread that can have it, and processes
      do not end while a request for them runs.  The other theorems on the
      module are about requests one after the other, the library runs its
      operations one after the other, and the only other processes are the
      ones of [KernelProps.device_exclusive].
    - The caches and the order in which memory accesses become visible: fences
      and cache flushes have no effect in this model, and clocks are parameters.
      A TLB has what its laws give ([Linux.TlbLaws]): what each invalidation drops
      at least.  Between the load of CR3 and the detaching in the driver for
      Windows nothing is modelled that would need the tables of the new root.
    - The tests and the test framework ([test/]); [ptedit_header.h], which the
      Makefile generates by concatenating [module/pteditor.h], [ptedit.h] and
      [ptedit.c], so that what is proved of these holds of it. *)

From Stdlib Require Import ZArith Lia Bool Btauto.
From stdpp Require Import base numbers list gmap strings.

Open Scope Z_scope.

(** ** C integers

    [size_t] is a 64-bit unsigned integer, [int] a 32-bit signed one and
    [unsigned char] an 8-bit unsigned one.  All are integers [Z] here; the
    conversions write their wrap-around out. *)

Definition u64 (z : Z) : Prop := 0 <= z < 2 ^ 64.
Definition u8 (z : Z) : Prop := 0 <= z < 2 ^ 8.

(** Conversion of any integer value to [size_t] (C11 6.3.1.3p2). *)
Definition wrap64 (z : Z) : Z := z mod 2 ^ 64.
(** Conversion to [unsigned char]. *)
Definition wrap8 (z : Z) : Z := z mod 2 ^ 8.
(** Conversion of any integer to [int], which GCC defines as wrapping. *)
Definition to_int (z : Z) : Z := (z + 2 ^ 31) mod 2 ^ 32 - 2 ^ 31.
(** [~x] on a [size_t]. *)
Definition not64 (z : Z) : Z := Z.lxor z (Z.ones 64).
(** [1ull << b] for a constant [b] below 64. *)
Definition bit (b : Z) : Z := Z.shiftl 1 b.
(** [!!(v)] of a C integer, as the integer 0 or 1. *)
Definition nz (z : Z) : Z := if z =? 0 then 0 else 1.

(** A shift by a variable amount is undefined when the amount is negative or
    not smaller than the width of the promoted left operand (C11 6.5.7p3). *)
Definition shl64 (z k : Z) : option Z :=
  if (0 <=? k) && (k <? 64) then Some (wrap64 (Z.shiftl z k)) else None.
Definition shr64 (z k : Z) : option Z :=
  if (0 <=? k) && (k <? 64) then Some (Z.shiftr z k) else None.
(** A left shift of a non-negative [int] is undefined, in addition, when the
    result is not representable (C11 6.5.7p4). *)
Definition shl_int (z k : Z) : option Z :=
  if (0 <=? k) && (k <? 32) && (Z.shiftl z k <? 2 ^ 31)
  then Some (Z.shiftl z k) else None.

(** *** Registers of x86

    A write of the PAT (register 0x277) faults unless each of its eight bytes
    is a memory type: 0, 1, 4, 5, 6 or 7; so the upper bits of each byte are
    reserved.  A write of CR3 faults when a bit is set that the processor reserves. *)
Definition pat_type_ok (t : Z) : bool := (t =? 0) || (t =? 1) || ((4 <=? t) && (t <=? 7)).
Definition pat_ok (v : Z) : bool :=
  forallb (fun i => pat_type_ok (Z.land (Z.shiftr v (8 * i)) 0xff)) [0; 1; 2; 3; 4; 5; 6; 7].
Definition cr3_ok (reserved v : Z) : bool := Z.land v reserved =? 0.

(** ** Bits of integers *)

Lemma testbit_shiftl a n i :
  Z.testbit (Z.shiftl a n) i = (0 <=? i) && Z.testbit a (i - n).
Proof.
  destruct (Z.leb_spec 0 i); [by rewrite Z.shiftl_spec|].
  by rewrite Z.testbit_neg_r.
Qed.

Lemma testbit_shiftr a n i :
  Z.testbit (Z.shiftr a n) i = (0 <=? i) && Z.testbit a (i + n).
Proof.
  destruct (Z.leb_spec 0 i); [by rewrite Z.shiftr_spec|].
  by rewrite Z.testbit_neg_r.
Qed.

Lemma testbit_lnot a i : Z.testbit (Z.lnot a) i = (0 <=? i) && negb (Z.testbit a i).
Proof.
  destruct (Z.leb_spec 0 i); [by rewrite Z.lnot_spec|].
  by rewrite Z.testbit_neg_r.
Qed.

Lemma testbit_bit b i : Z.testbit (bit b) i = (0 <=? i) && (i =? b).
Proof.
  unfold bit. rewrite testbit_shiftl. f_equal.
  destruct (Z.eqb_spec i b) as [->|Hne]; [by rewrite Z.sub_diag|].
  destruct (Z.ltb_spec i b).
  - by rewrite Z.testbit_neg_r by lia.
  - apply (Z.bits_above_log2 1); simpl; lia.
Qed.

Lemma testbit_not64 z i :
  Z.testbit (not64 z) i = (0 <=? i) && xorb (Z.testbit z i) (i <? 64).
Proof.
  unfold not64. rewrite Z.lxor_spec, Z.testbit_ones by lia.
  destruct (Z.leb_spec 0 i); [done|]. by rewrite Z.testbit_neg_r.
Qed.

Lemma testbit_wrap64 z i : Z.testbit (wrap64 z) i = (i <? 64) && Z.testbit z i.
Proof. apply Z.testbit_mod_pow2; lia. Qed.

Lemma testbit_wrap8 z i : Z.testbit (wrap8 z) i = (i <? 8) && Z.testbit z i.
Proof. apply Z.testbit_mod_pow2; lia. Qed.

Lemma testbit_if (b : bool) x y i :
  Z.testbit (if b then x else y) i = if b then Z.testbit x i else Z.testbit y i.
Proof. by destruct b. Qed.

Lemma testbit_bound w z i : 0 <= z < 2 ^ w -> w <= i -> Z.testbit z i = false.
Proof.
  intros Hz Hi. destruct (Z.ltb_spec w 0).
  - rewrite Z.pow_neg_r in Hz by done. lia.
  - rewrite <- (Z.mod_small z (2 ^ w)) by done. apply Z.mod_pow2_bits_high. lia.
Qed.

Lemma u64_testbit z i : u64 z -> 64 <= i -> Z.testbit z i = false.
Proof. apply (testbit_bound 64). Qed.

Lemma bound_of_testbit w z :
  0 <= w -> 0 <= z -> (forall i, w <= i -> Z.testbit z i = false) -> z < 2 ^ w.
Proof.
  intros Hw Hz H. destruct (Z.eqb_spec z 0) as [->|Hne].
  { apply Z.pow_pos_nonneg; lia. }
  apply Z.log2_lt_pow2; [lia|].
  destruct (Z.ltb_spec (Z.log2 z) w) as [|Hge]; [done|].
  pose proof (Z.bit_log2 z ltac:(lia)) as Hb. rewrite H in Hb; [done|lia].
Qed.

(** Bit 31 is one of the reserved ones. *)
Lemma pat_ok_bit31 v : pat_ok v = true -> Z.testbit v 31 = false.
Proof.
  unfold pat_ok. cbn [forallb]. rewrite !andb_true_iff. intros (_ & _ & _ & H3 & _).
  assert (Z.testbit (Z.land (Z.shiftr v 24) 0xff) 7 = Z.testbit v 31) as <-.
  { rewrite Z.land_spec, Z.shiftr_spec by done. by rewrite andb_true_r. }
  revert H3. change (8 * 3) with 24. generalize (Z.land (Z.shiftr v 24) 0xff) as t.
  unfold pat_type_ok. intros t Ht. apply (testbit_bound 3); [|done].
  rewrite !orb_true_iff, andb_true_iff, !Z.eqb_eq, !Z.leb_le in Ht. lia.
Qed.

#[global] Arguments bit : simpl never.
#[global] Arguments not64 : simpl never.
#[global] Arguments wrap64 : simpl never.
#[global] Arguments wrap8 : simpl never.
#[global] Arguments Z.shiftl : simpl never.
#[global] Arguments Z.shiftr : simpl never.
#[global] Arguments Z.ones : simpl never.
#[global] Arguments Z.testbit : simpl never.
#[global] Arguments Z.pow : simpl never.

Lemma testbit_b2z b i : Z.testbit (Z.b2z b) i = (i =? 0) && b.
Proof.
  destruct (Z.eqb_spec i 0) as [->|Hi]; [by destruct b|].
  destruct (Z.ltb_spec i 0); [by rewrite Z.testbit_neg_r|].
  destruct b; [|by rewrite Z.bits_0]. apply (Z.bits_above_log2 1); simpl; lia.
Qed.

Lemma lor_shift x y n : 0 <= n -> 0 <= x < 2 ^ n -> 0 <= y -> Z.lor x (Z.shiftl y n) = x + y * 2 ^ n.
Proof.
  intros Hn Hx Hy. rewrite <- Z.shiftl_mul_pow2 by done.
  assert (Z.land x (Z.shiftl y n) = 0) as Hl.
  { apply Z.bits_inj'. intros i Hi. rewrite Z.land_spec, Z.shiftl_spec, Z.bits_0 by done.
    destruct (Z.ltb_spec i n); [by rewrite (Z.testbit_neg_r y), andb_false_r by lia|].
    by rewrite (testbit_bound n x i). }
  by rewrite Z.add_nocarry_lxor, Z.lxor_lor.
Qed.

Create Rewrite HintDb bits.
#[export] Hint Rewrite Z.land_spec Z.lor_spec Z.lxor_spec Z.bits_0 testbit_if
  testbit_wrap64 testbit_wrap8 : bits.
#[export] Hint Rewrite testbit_shiftl testbit_shiftr testbit_lnot testbit_bit testbit_b2z
  testbit_not64 : bits.
#[export] Hint Rewrite Z.testbit_mod_pow2 Z.testbit_ones using lia : bits.

(** Case analysis on the integer comparisons of a goal. *)
Ltac split_comparisons :=
  repeat match goal with
  | |- context [?a <? ?b] => destruct (Z.ltb_spec a b); try lia
  | |- context [?a <=? ?b] => destruct (Z.leb_spec a b); try lia
  | |- context [?a =? ?b] => destruct (Z.eqb_spec a b); try lia
  end.

(** Normalise the indices of the bits a goal mentions: negative ones and the
    ones above the width of a bounded integer are [false], and two indices of
    the same integer that are provably equal are made the same. *)
Ltac normalise_bits :=
  repeat first
  [ match goal with
    | |- context [Z.testbit ?x ?j] => rewrite (Z.testbit_neg_r x j) by lia
    | H : u64 ?x |- context [Z.testbit ?x ?j] => rewrite (u64_testbit x j H) by lia
    | H : 0 <= ?x < 2 ^ ?w |- context [Z.testbit ?x ?j] =>
        rewrite (testbit_bound w x j H) by lia
    end
  | match goal with
    | |- context [Z.testbit ?x ?j] =>
        match goal with
        | |- context [Z.testbit x ?k] =>
            assert_fails (constr_eq j k);
            replace (Z.testbit x k) with (Z.testbit x j) by (f_equal; lia)
        end
    end ].

Ltac use_known_bits :=
  repeat match goal with
  | H : Z.testbit ?x ?j = ?c |- context [Z.testbit ?x ?k] =>
      replace (Z.testbit x k) with c by (rewrite <- H; f_equal; lia)
  end.

Ltac bits_at :=
  autorewrite with bits; split_comparisons; subst; normalise_bits; use_known_bits;
  simpl; try reflexivity; try btauto.

(** [!!(z & (1ull << b))] is the bit as an integer. *)
Lemma nz_bit z b : 0 <= b -> nz (Z.land z (bit b)) = Z.b2z (Z.testbit z b).
Proof.
  intros Hb. unfold nz. destruct (Z.eqb_spec (Z.land z (bit b)) 0) as [H|H].
  - apply (f_equal (fun z => Z.testbit z b)) in H.
    rewrite Z.land_spec, Z.bits_0, testbit_bit, Z.eqb_refl in H.
    destruct (Z.leb_spec 0 b); [|lia]. rewrite andb_true_r in H. by rewrite H.
  - destruct (Z.testbit z b) eqn:E; [done|]. destruct H.
    apply Z.bits_inj'. intros i Hi. bits_at.
Qed.

(** Equality of two integers, bit by bit. *)
Ltac bits :=
  apply Z.bits_inj'; let i := fresh "i" in let Hi := fresh "Hi" in
  intros i Hi; bits_at.

Lemma u64_wrap64 z : u64 (wrap64 z).
Proof. apply Z.mod_pos_bound. lia. Qed.

Lemma wrap64_id z : u64 z -> wrap64 z = z.
Proof. apply Z.mod_small. Qed.

Lemma u64_of_testbit z :
  0 <= z -> (forall i, 64 <= i -> Z.testbit z i = false) -> u64 z.
Proof. split; [done|]. apply bound_of_testbit; [lia|done..]. Qed.

Lemma u64_land_l x y : u64 x -> 0 <= y -> u64 (Z.land x y).
Proof.
  intros Hx Hy. apply u64_of_testbit.
  - apply Z.land_nonneg. by right.
  - intros i Hi. bits_at.
Qed.

Lemma u64_land x y : u64 x -> u64 y -> u64 (Z.land x y).
Proof. intros Hx [? ?]. by apply u64_land_l. Qed.

Lemma u64_lor x y : u64 x -> u64 y -> u64 (Z.lor x y).
Proof.
  intros Hx Hy. apply u64_of_testbit.
  - apply Z.lor_nonneg. split; [apply Hx|apply Hy].
  - intros i Hi. bits_at.
Qed.

Lemma u64_bit b : 0 <= b < 64 -> u64 (bit b).
Proof.
  intros Hb. apply u64_of_testbit.
  - by apply Z.shiftl_nonneg.
  - intros i Hi. bits_at.
Qed.

Lemma u64_shiftr x k : 0 <= k -> u64 x -> u64 (Z.shiftr x k).
Proof.
  intros Hk Hx. apply u64_of_testbit.
  - apply Z.shiftr_nonneg, Hx.
  - intros i Hi. bits_at.
Qed.

Lemma u64_not64 x : u64 x -> u64 (not64 x).
Proof.
  intros Hx. apply u64_of_testbit.
  - unfold not64. apply Z.lxor_nonneg. split; intros; [done|apply Hx].
  - intros i Hi. bits_at.
Qed.

Lemma u64_if (b : bool) x y : u64 x -> u64 y -> u64 (if b then x else y).
Proof. by destruct b. Qed.

Lemma u64_0 : u64 0.
Proof. done. Qed.

Create HintDb width discriminated.
#[export] Hint Resolve u64_wrap64 u64_land u64_lor u64_not64 u64_if u64_0 : width.
#[export] Hint Extern 2 (u64 (bit _)) => apply u64_bit; lia : width.
#[export] Hint Extern 2 (u64 (Z.shiftr _ _)) => apply u64_shiftr; [lia|] : width.

(** ** Outcomes and the state monad of the model

    A call returns a value and a new state, or never returns because the
    calling thread sleeps on a lock nobody will release (the state reached by
    then stays), or has undefined behaviour (an access outside every mapping,
    a call through a null pointer, an undefined shift). *)

Inductive outcome (S A : Type) : Type :=
| Ret (a : A) (s : S)
| Sleep (s : S)
| Undef.
Arguments Ret {S A} a s.
Arguments Sleep {S A} s.
Arguments Undef {S A}.

Definition M (S A : Type) : Type := S -> outcome S A.

Definition ret {S A} (a : A) : M S A := fun s => Ret a s.
Definition undef {S A} : M S A := fun _ => Undef.
Definition sleep {S A} : M S A := fun s => Sleep s.
Definition bind {S A B} (m : M S A) (k : A -> M S B) : M S B :=
  fun s => match m s with
           | Ret a s' => k a s'
           | Sleep s' => Sleep s'
           | Undef => Undef
           end.
Definition gets {S A} (f : S -> A) : M S A := fun s => Ret (f s) s.
Definition modify {S} (f : S -> S) : M S unit := fun s => Ret tt (f s).
(** [if(c) m;] *)
Definition when {S} (c : bool) (m : M S unit) : M S unit :=
  if c then m else ret tt.
(** The value of an expression whose evaluation may be undefined. *)
Definition defined {S A} (o : option A) : M S A :=
  match o with Some a => ret a | None => undef end.

Declare Scope c_scope.
Delimit Scope c_scope with c.
Notation "'let*' x := m 'in' k" := (bind m (fun x => k))
  (at level 10, x binder, m at level 100, k at level 200) : c_scope.
Notation "m ;;; k" := (bind m (fun _ => k))
  (at level 199, right associativity) : c_scope.
Open Scope c_scope.

(** [for(i = lo; i < lo + n; i++) x = body(i, x)] *)
Fixpoint for_range {S A} (n : nat) (lo : Z) (body : Z -> A -> M S A) (x : A) : M S A :=
  match n with
  | O => ret x
  | Datatypes.S n => let* x := body lo x in for_range n (lo + 1) body x
  end.
#[global] Arguments for_range : simpl never.

Section monad.
Context {S A B C : Type}.
Implicit Types (m : M S A) (k : A -> M S B).

Lemma bind_ret_l (a : A) k s : bind (ret a) k s = k a s.
Proof. done. Qed.

Lemma bind_assoc m k (l : B -> M S C) s :
  bind (bind m k) l s = bind m (fun a => bind (k a) l) s.
Proof. unfold bind. by destruct (m s). Qed.

Lemma bind_Ret m k s a s' : m s = Ret a s' -> bind m k s = k a s'.
Proof. unfold bind. by intros ->. Qed.

Lemma bind_Sleep m k s s' : m s = Sleep s' -> bind m k s = Sleep s'.
Proof. unfold bind. by intros ->. Qed.

Lemma bind_Undef m k s : m s = Undef -> bind m k s = Undef.
Proof. unfold bind. by intros ->. Qed.

Lemma bind_gets {D} (f : S -> D) (k : D -> M S B) s :
  bind (gets f) k s = k (f s) s.
Proof. done. Qed.

Lemma bind_modify (f : S -> S) (k : unit -> M S B) s :
  bind (modify f) k s = k tt (f s).
Proof. done. Qed.

Lemma bind_Ret_inv m k s b s'' :
  bind m k s = Ret b s'' -> exists a s', m s = Ret a s' /\ k a s' = Ret b s''.
Proof. unfold bind. destruct (m s) as [a s'| |]; [eauto|done..]. Qed.
End monad.

(** A body that returns and keeps an invariant. *)
Lemma for_range_run {S A} (I : S -> Prop) n lo (body : Z -> A -> M S A) x s :
  I s -> (forall i x s, I s -> exists x' s', body i x s = Ret x' s' /\ I s') ->
  exists x' s', for_range n lo body x s = Ret x' s' /\ I s'.
Proof.
  intros Hs Hbody. revert lo x s Hs. induction n as [|n IH]; intros lo x s Hs; [by exists x, s|].
  destruct (Hbody lo x s Hs) as (x1 & s1 & H1 & Hs1). destruct (IH (lo + 1) x1 s1 Hs1) as (x2 & s2 & H2 & Hs2).
  exists x2, s2. split; [|done]. unfold for_range; fold (@for_range S A).
  by rewrite (bind_Ret _ _ _ _ _ H1).
Qed.

(** A body that always gives the same. *)
Lemma for_range_const {S A} n lo (body : Z -> A -> M S A) x v s : (0 < n)%nat ->
  (forall i x, body i x s = Ret v s) -> for_range n lo body x s = Ret v s.
Proof.
  intros Hn Hbody. revert lo x. induction n as [|n IH]; intros lo x; [lia|].
  unfold for_range; fold (@for_range S A). rewrite (bind_Ret _ _ _ _ _ (Hbody lo x)).
  destruct n; [done|]. apply IH. lia.
Qed.

(** ** Postconditions

    [post m s Q]: if [m] returns from [s], its result and the state after it
    satisfy [Q].  What may sleep or be undefined is stated apart. *)
Definition post {S A} (m : M S A) (s : S) (Q : A -> S -> Prop) : Prop :=
  match m s with Ret a s' => Q a s' | _ => True end.

(** A computation that reads the state only. *)
Definition reader {S A} (m : M S A) : Prop :=
  forall s, match m s with Ret _ s' => s' = s | Sleep _ => False | Undef => True end.

Section post.
Context {S A B : Type}.
Implicit Types (m : M S A) (k : A -> M S B).

Lemma post_bind m k s (Q : B -> S -> Prop) :
  post m s (fun a s' => post (k a) s' Q) -> post (bind m k) s Q.
Proof. unfold post, bind. by destruct (m s). Qed.

Lemma post_ret (a : A) s (Q : A -> S -> Prop) : Q a s -> post (ret a) s Q.
Proof. done. Qed.

Lemma post_undef s (Q : A -> S -> Prop) : post undef s Q.
Proof. done. Qed.

Lemma post_defined (o : option A) s (Q : A -> S -> Prop) :
  (forall a, o = Some a -> Q a s) -> post (defined o) s Q.
Proof. intros H. destruct o; [by apply H|done]. Qed.

Lemma post_mono m s (Q R : A -> S -> Prop) :
  post m s Q -> (forall a s', Q a s' -> R a s') -> post m s R.
Proof. unfold post. destruct (m s); auto. Qed.

Lemma post_reader m s (Q : A -> S -> Prop) :
  reader m -> (forall a, m s = Ret a s -> Q a s) -> post m s Q.
Proof. intros Hm HQ. unfold post. specialize (Hm s). destruct (m s); subst; auto. Qed.

Lemma reader_ret (a : A) : reader (ret a : M S A).
Proof. done. Qed.

Lemma reader_undef : reader (undef : M S A).
Proof. done. Qed.

Lemma reader_gets (f : S -> A) : reader (gets f).
Proof. done. Qed.

Lemma reader_defined (o : option A) : reader (defined o : M S A).
Proof. by destruct o. Qed.

Lemma reader_bind m k : reader m -> (forall a, reader (k a)) -> reader (bind m k).
Proof.
  intros Hm Hk s. unfold bind. specialize (Hm s). destruct (m s); subst; [apply Hk|done..].
Qed.

Lemma post_gets (f : S -> A) s (Q : A -> S -> Prop) : Q (f s) s -> post (gets f) s Q.
Proof. done. Qed.
End post.

Lemma post_modify {S} (f : S -> S) s (Q : unit -> S -> Prop) : Q tt (f s) -> post (modify f) s Q.
Proof. done. Qed.

Lemma post_when {S} (c : bool) (m : M S unit) s (Q : unit -> S -> Prop) :
  (c = true -> post m s Q) -> (c = false -> Q tt s) -> post (when c m) s Q.
Proof. destruct c; intros H1 H2; [by apply H1|by apply H2]. Qed.

Create HintDb reader discriminated.
#[export] Hint Resolve reader_ret reader_undef reader_gets reader_defined : reader.
#[export] Hint Extern 4 (reader (bind _ _)) => apply reader_bind; [|intros ?] : reader.
#[export] Hint Extern 5 (reader (match ?x with _ => _ end)) => destruct x : reader.

(** Symbolic execution of the primitive computations of a goal [post m s Q]. *)
Ltac post_step :=
  lazymatch goal with
  | |- post (bind _ _) _ _ => apply post_bind
  | |- post (ret _) _ _ => apply post_ret
  | |- post (gets _) _ _ => apply post_gets
  | |- post (modify _) _ _ => apply post_modify
  | |- post (defined _) _ _ => apply post_defined; intros ? ?
  | |- post undef _ _ => apply post_undef
  | |- post (when _ _) _ _ => apply post_when; intros ?
  | |- post (if ?b then _ else _) _ _ => destruct b eqn:?
  | |- post (match ?x with _ => _ end) _ _ => destruct x eqn:?
  end.
Ltac post_steps := repeat (post_step; cbv beta).

Create Rewrite HintDb monad.
#[export] Hint Rewrite @bind_ret_l @bind_gets @bind_modify @bind_assoc : monad.

(** ** Little-endian byte sequences *)

Definition byte_ok (b : Z) : Prop := 0 <= b < 2 ^ 8.

Fixpoint bytes_of (n : nat) (z : Z) : list Z :=
  match n with
  | O => []
  | S n => Z.land z (Z.ones 8) :: bytes_of n (Z.shiftr z 8)
  end.

Fixpoint word_of (bs : list Z) : Z :=
  match bs with
  | [] => 0
  | b :: bs => Z.lor b (Z.shiftl (word_of bs) 8)
  end.

Lemma length_bytes_of n z : length (bytes_of n z) = n.
Proof. revert z. induction n as [|n IH]; intros z; simpl; [done|]. by rewrite IH. Qed.

Lemma byte_ok_land z : byte_ok (Z.land z (Z.ones 8)).
Proof. unfold byte_ok. rewrite Z.land_ones by lia. by apply Z.mod_pos_bound. Qed.

Lemma bytes_of_ok n z : Forall byte_ok (bytes_of n z).
Proof.
  revert z. induction n as [|n IH]; intros z; simpl; constructor; [|done].
  apply byte_ok_land.
Qed.

Lemma word_of_bytes_of n z : word_of (bytes_of n z) = z mod 2 ^ (8 * Z.of_nat n).
Proof.
  revert z. induction n as [|n IH]; intros z; cbn [word_of bytes_of].
  { by rewrite Z.mod_1_r. }
  rewrite IH. bits.
Qed.

Lemma word_of_bytes_of_u64 z : u64 z -> word_of (bytes_of 8 z) = z.
Proof. intros Hz. rewrite word_of_bytes_of. by apply Z.mod_small. Qed.

Lemma word_of_nonneg bs : Forall byte_ok bs -> 0 <= word_of bs.
Proof.
  induction 1 as [|b bs Hb _ IH]; simpl; [done|].
  apply Z.lor_nonneg. split; [apply Hb|]. by apply Z.shiftl_nonneg.
Qed.

Lemma word_of_testbit bs i :
  Forall byte_ok bs -> 8 * Z.of_nat (length bs) <= i -> Z.testbit (word_of bs) i = false.
Proof.
  intros H. revert i. induction H as [|b bs Hb _ IH]; intros i Hi; simpl.
  { apply Z.bits_0. }
  simpl in Hi. autorewrite with bits. unfold byte_ok in Hb.
  rewrite (testbit_bound 8 b i), IH by lia. by destruct (_ <=? _).
Qed.

Lemma word_of_u64 bs : Forall byte_ok bs -> (length bs <= 8)%nat -> u64 (word_of bs).
Proof.
  intros H Hl. apply u64_of_testbit; [by apply word_of_nonneg|].
  intros i Hi. apply word_of_testbit; [done|lia].
Qed.
#[export] Hint Resolve word_of_u64 bytes_of_ok : width.
