(* ===== verification/Entry.v ===== *)
(** * Paging-structure entries

    The data of [module/pteditor.h] and [ptedit.h]: the resolved entry
    [ptedit_entry_t], its validity masks, the bits of an entry, and the
    bit-field structures that [ptedit_cast] reads an entry through; with the
    page-frame-number accessors of [ptedit.c]. *)

From stdpp Require Import base numbers list strings.
From S2P Require Import Prelude.
Local Open Scope Z_scope.

(** The two architectures the sources distinguish with [#if]. *)
Inductive arch := X86_64 | AARCH64.

#[export] Instance arch_eq_dec : EqDecision arch.
Proof. solve_decision. Defined.

(** ** The resolved entry

    The anonymous unions alias the Intel names [pml5], [pml4], [pdpt] and
    [pd] with the Linux ones, so one field stands for both. *)
Record ptedit_entry_t := mk_entry {
  pid : Z;
  vaddr : Z;
  pgd : Z;
  p4d : Z;
  pud : Z;
  pmd : Z;
  pte : Z;
  valid : Z }.

#[export] Instance entry_eq_dec : EqDecision ptedit_entry_t.
Proof. solve_decision. Defined.

Definition PTEDIT_VALID_MASK_PGD : Z := bit 0.
Definition PTEDIT_VALID_MASK_P4D : Z := bit 1.
Definition PTEDIT_VALID_MASK_PUD : Z := bit 2.
Definition PTEDIT_VALID_MASK_PMD : Z := bit 3.
Definition PTEDIT_VALID_MASK_PTE : Z := bit 4.

(** [entry.valid & mask], as a condition. *)
Definition has (v mask : Z) : bool := negb (Z.land v mask =? 0).

(** [memset(&e, 0, sizeof(e))]. *)
Definition zero_entry : ptedit_entry_t := mk_entry 0 0 0 0 0 0 0 0.

Definition set_vaddr (v : Z) (e : ptedit_entry_t) : ptedit_entry_t :=
  mk_entry (pid e) v (pgd e) (p4d e) (pud e) (pmd e) (pte e) (valid e).
Definition set_pid (v : Z) (e : ptedit_entry_t) : ptedit_entry_t :=
  mk_entry v (vaddr e) (pgd e) (p4d e) (pud e) (pmd e) (pte e) (valid e).
Definition set_pgd (v : Z) (e : ptedit_entry_t) : ptedit_entry_t :=
  mk_entry (pid e) (vaddr e) v (p4d e) (pud e) (pmd e) (pte e) (valid e).
Definition set_p4d (v : Z) (e : ptedit_entry_t) : ptedit_entry_t :=
  mk_entry (pid e) (vaddr e) (pgd e) v (pud e) (pmd e) (pte e) (valid e).
Definition set_pud (v : Z) (e : ptedit_entry_t) : ptedit_entry_t :=
  mk_entry (pid e) (vaddr e) (pgd e) (p4d e) v (pmd e) (pte e) (valid e).
Definition set_pmd (v : Z) (e : ptedit_entry_t) : ptedit_entry_t :=
  mk_entry (pid e) (vaddr e) (pgd e) (p4d e) (pud e) v (pte e) (valid e).
Definition set_pte (v : Z) (e : ptedit_entry_t) : ptedit_entry_t :=
  mk_entry (pid e) (vaddr e) (pgd e) (p4d e) (pud e) (pmd e) v (valid e).
Definition set_valid (v : Z) (e : ptedit_entry_t) : ptedit_entry_t :=
  mk_entry (pid e) (vaddr e) (pgd e) (p4d e) (pud e) (pmd e) (pte e) v.
(** [e.valid |= mask]. *)
Definition or_valid (mask : Z) (e : ptedit_entry_t) : ptedit_entry_t :=
  set_valid (Z.lor (valid e) mask) e.

(** ** Levels of paging *)

Inductive level := PGD | P4D | PUD | PMD | PTE.

#[export] Instance level_eq_dec : EqDecision level.
Proof. solve_decision. Defined.

Definition level_bit (l : level) : Z :=
  match l with PGD => 0 | P4D => 1 | PUD => 2 | PMD => 3 | PTE => 4 end.
Definition level_mask (l : level) : Z := bit (level_bit l).
(** The field of a resolved entry for a level, and whether it is valid. *)
Definition level_entry (l : level) (e : ptedit_entry_t) : Z :=
  match l with PGD => pgd e | P4D => p4d e | PUD => pud e | PMD => pmd e | PTE => pte e end.
Definition level_valid (l : level) (e : ptedit_entry_t) : bool := has (valid e) (level_mask l).

(** ** Bits of an entry *)

Module Bit.
(** x86-64 *)
Definition PRESENT : Z := 0.
Definition RW : Z := 1.
Definition USER : Z := 2.
Definition PWT : Z := 3.
Definition PCD : Z := 4.
Definition ACCESSED_X86 : Z := 5.
Definition DIRTY : Z := 6.
Definition PSE : Z := 7.
Definition PAT : Z := 7.
Definition GLOBAL : Z := 8.
Definition SOFTW1_X86 : Z := 9.
Definition SOFTW2_X86 : Z := 10.
Definition SOFTW3_X86 : Z := 11.
Definition PAT_LARGE : Z := 12.
Definition SOFTW4_X86 : Z := 58.
Definition PKEY_BIT0 : Z := 59.
Definition PKEY_BIT1 : Z := 60.
Definition PKEY_BIT2 : Z := 61.
Definition PKEY_BIT3 : Z := 62.
Definition NX : Z := 63.
(** AArch64 *)
Definition TYPE_BIT0 : Z := 0.
Definition TYPE_BIT1 : Z := 1.
Definition MAIR_BIT0 : Z := 2.
Definition MAIR_BIT1 : Z := 3.
Definition MAIR_BIT2 : Z := 4.
Definition NON_SECURE : Z := 5.
Definition PERMISSION_BIT0 : Z := 6.
Definition PERMISSION_BIT1 : Z := 7.
Definition SHARE_BIT0 : Z := 8.
Definition SHARE_BIT1 : Z := 9.
Definition ACCESSED_ARM : Z := 10.
Definition NOT_GLOBAL : Z := 11.
Definition CONTIGUOUS : Z := 52.
Definition PXN : Z := 53.
Definition XN : Z := 54.
Definition SOFTW1_ARM : Z := 55.
Definition SOFTW2_ARM : Z := 56.
Definition SOFTW3_ARM : Z := 57.
Definition SOFTW4_ARM : Z := 58.
Definition SOFTW5_ARM : Z := 59.
Definition SOFTW6_ARM : Z := 60.
Definition SOFTW7_ARM : Z := 61.
Definition SOFTW8_ARM : Z := 62.
Definition SOFTW9_ARM : Z := 63.
End Bit.

(** [PTEDIT_PAGE_PRESENT] *)
Definition PTEDIT_PAGE_PRESENT (a : arch) : Z :=
  match a with X86_64 => 1 | AARCH64 => 3 end.

(** ** Bit-field structures

    A structure made of bit-fields of one [size_t] is the list of its fields,
    name and width, the first in the least significant bits (the allocation
    order of the little-endian ABIs of both architectures).  [ptedit_cast]
    reads an entry's own memory as such a structure. *)

Definition layout : Type := list (string * Z).

Section layouts.
Local Open Scope string_scope.

(** [ptedit_pgd_t], which [ptedit_p4d_t], [ptedit_pud_t] and [ptedit_pmd_t]
    are aliases of. *)
Definition ptedit_pgd_t_x86 : layout :=
  [ ("present", 1); ("writeable", 1); ("user_access", 1); ("write_through", 1);
    ("cache_disabled", 1); ("accessed", 1); ("ignored_3", 1); ("size", 1);
    ("ignored_2", 4); ("pfn", 28); ("reserved_1", 12); ("ignored_1", 11);
    ("execution_disabled", 1) ].

Definition ptedit_pmd_large_t_x86 : layout :=
  [ ("present", 1); ("writeable", 1); ("user_access", 1); ("write_through", 1);
    ("cache_disabled", 1); ("accessed", 1); ("dirty", 1); ("size", 1);
    ("global", 1); ("ignored_2", 3); ("pat", 1); ("reserved_2", 8);
    ("pfn", 19); ("reserved_1", 12); ("ignored_1", 11);
    ("execution_disabled", 1) ].

Definition ptedit_pte_t_x86 : layout :=
  [ ("present", 1); ("writeable", 1); ("user_access", 1); ("write_through", 1);
    ("cache_disabled", 1); ("accessed", 1); ("dirty", 1); ("size", 1);
    ("global", 1); ("ignored_2", 3); ("pfn", 28); ("reserved_1", 12);
    ("ignored_1", 11); ("execution_disabled", 1) ].

Definition ptedit_pgd_t_arm : layout :=
  [ ("present", 2); ("ignored_1", 10); ("pfn", 36); ("reserved", 4);
    ("ignored_2", 7); ("pxn_table", 1); ("xn_table", 1); ("ap_table", 2);
    ("ns_table", 1) ].

Definition ptedit_pgd_large_t_arm : layout :=
  [ ("present", 2); ("memory_attributes_index", 3); ("non_secure", 1);
    ("access_permissions", 2); ("shareability_field", 2); ("access_flag", 1);
    ("not_global", 1); ("reserved_1", 18); ("pfn", 18); ("reserved_2", 4);
    ("contiguous", 1); ("privileged_execute_never", 1); ("execute_never", 1);
    ("ingored_1", 4); ("ignored_2", 5) ].

Definition ptedit_pmd_large_t_arm : layout :=
  [ ("present", 2); ("memory_attributes_index", 3); ("non_secure", 1);
    ("access_permissions", 2); ("shareability_field", 2); ("access_flag", 1);
    ("not_global", 1); ("reserved_1", 9); ("pfn", 27); ("reserved_2", 4);
    ("contiguous", 1); ("privileged_execute_never", 1); ("execute_never", 1);
    ("ingored_1", 4); ("ignored_2", 5) ].

Definition ptedit_pte_t_arm : layout :=
  [ ("present", 2); ("memory_attributes_index", 3); ("non_secure", 1);
    ("access_permissions", 2); ("shareability_field", 2); ("access_flag", 1);
    ("not_global", 1); ("pfn", 36); ("reserved_1", 4); ("contiguous", 1);
    ("privileged_execute_never", 1); ("execute_never", 1); ("ingored_1", 4);
    ("ignored_2", 5) ].
End layouts.

Definition ptedit_pgd_t (a : arch) : layout :=
  match a with X86_64 => ptedit_pgd_t_x86 | AARCH64 => ptedit_pgd_t_arm end.
Definition ptedit_pmd_large_t (a : arch) : layout :=
  match a with X86_64 => ptedit_pmd_large_t_x86 | AARCH64 => ptedit_pmd_large_t_arm end.
Definition ptedit_pte_t (a : arch) : layout :=
  match a with X86_64 => ptedit_pte_t_x86 | AARCH64 => ptedit_pte_t_arm end.

(** The value of a named field: the bits from the sum of the widths before it. *)
Fixpoint field (l : layout) (name : string) (v : Z) : Z :=
  match l with
  | [] => 0
  | (n, w) :: l' =>
      if String.eqb n name then Z.land v (Z.ones w)
      else field l' name (Z.shiftr v w)
  end.

(** All fields at once, and the entry made of given field values. *)
Fixpoint ptedit_cast (l : layout) (v : Z) : list Z :=
  match l with
  | [] => []
  | (_, w) :: l' => Z.land v (Z.ones w) :: ptedit_cast l' (Z.shiftr v w)
  end.

Fixpoint pack (l : layout) (fs : list Z) : Z :=
  match l, fs with
  | (_, w) :: l', f :: fs' => Z.lor f (Z.shiftl (pack l' fs') w)
  | _, _ => 0
  end.

Definition width (l : layout) : Z := foldr (fun f n => snd f + n) 0 l.

(** The fields the library reads. *)
Definition present (a : arch) (e : Z) : bool :=
  field (ptedit_pgd_t a) "present" e =? PTEDIT_PAGE_PRESENT a.
Definition pte_present (a : arch) (e : Z) : bool :=
  field (ptedit_pte_t a) "present" e =? PTEDIT_PAGE_PRESENT a.
Definition table_pfn (a : arch) (e : Z) : Z := field (ptedit_pgd_t a) "pfn" e.
Definition pte_pfn (a : arch) (e : Z) : Z := field (ptedit_pte_t a) "pfn" e.

(** ** Page-frame numbers *)

Definition pfn_bits (a : arch) : Z := match a with X86_64 => 40 | AARCH64 => 36 end.

(** [((1ull << 40) - 1) << 12], with 36 on AArch64. *)
Definition pfn_mask (a : arch) : Z := wrap64 (Z.shiftl (bit (pfn_bits a) - 1) 12).

Definition ptedit_set_pfn (a : arch) (pte pfn : Z) : Z :=
  let pte := Z.land pte (not64 (pfn_mask a)) in
  Z.lor pte (wrap64 (Z.shiftl pfn 12)).

Definition ptedit_get_pfn (a : arch) (pte : Z) : Z :=
  Z.shiftr (Z.land pte (pfn_mask a)) 12.

(** * Theorems *)

(** ** The validity mask *)

Lemma has_testbit v b : 0 <= b -> has v (bit b) = Z.testbit v b.
Proof.
  intros Hb. unfold has. destruct (Z.eqb_spec (Z.land v (bit b)) 0) as [H|H]; simpl.
  - apply (f_equal (fun z => Z.testbit z b)) in H. rewrite Z.land_spec, Z.bits_0 in H.
    rewrite testbit_bit, Z.eqb_refl in H.
    destruct (Z.leb_spec 0 b); [|lia]. by rewrite !andb_true_r in H.
  - destruct (Z.testbit v b) eqn:E; [done|]. destruct H. bits.
Qed.

(** The five masks are the five lowest bits. *)
Lemma has_masks v :
  has v PTEDIT_VALID_MASK_PGD = Z.testbit v 0 /\
  has v PTEDIT_VALID_MASK_P4D = Z.testbit v 1 /\
  has v PTEDIT_VALID_MASK_PUD = Z.testbit v 2 /\
  has v PTEDIT_VALID_MASK_PMD = Z.testbit v 3 /\
  has v PTEDIT_VALID_MASK_PTE = Z.testbit v 4.
Proof. repeat split; by apply has_testbit. Qed.

(** ** Bit-fields *)

Lemma field_x86_present e : field ptedit_pgd_t_x86 "present" e = Z.land e (Z.ones 1).
Proof. done. Qed.

Lemma ptedit_cast_length l v : length (ptedit_cast l v) = length l.
Proof. revert v. induction l as [|[n w] l IH]; intros v; simpl; [done|]. by rewrite IH. Qed.

Definition widths_ok (l : layout) : Prop := Forall (fun f => 0 < snd f) l.

Lemma width_nonneg l : widths_ok l -> 0 <= width l.
Proof. induction 1 as [|[n w] l Hw _ IH]; simpl in *; lia. Qed.

Lemma pack_cast l v : widths_ok l -> 0 <= v < 2 ^ width l -> pack l (ptedit_cast l v) = v.
Proof.
  intros Hl. revert v. induction Hl as [|[n w] l Hw Hl IH]; intros v Hv.
  - unfold width in Hv. simpl in *. change (2 ^ 0) with 1 in Hv. lia.
  - pose proof (width_nonneg l Hl). cbn [ptedit_cast pack snd] in *.
    rewrite IH; [bits|].
    split; [apply Z.shiftr_nonneg, Hv|].
    apply bound_of_testbit; [done|apply Z.shiftr_nonneg, Hv|].
    intros i Hi. change (width ((n, w) :: l)) with (w + width l) in Hv.
    rewrite testbit_shiftr, (testbit_bound _ _ _ Hv) by lia. by destruct (_ <=? _).
Qed.

Lemma cast_pack l fs :
  Forall2 (fun f v => 0 < snd f /\ 0 <= v < 2 ^ snd f) l fs ->
  ptedit_cast l (pack l fs) = fs.
Proof.
  induction 1 as [|[n w] v l fs [Hw Hv] _ IH]; [done|].
  cbn [ptedit_cast pack snd] in *. f_equal.
  - bits.
  - rewrite <- IH at 2. f_equal. bits.
Qed.

(** Every structure [ptedit_cast] is used with covers one [size_t] exactly. *)
Definition entry_layouts : list layout :=
  [ptedit_pgd_t_x86; ptedit_pmd_large_t_x86; ptedit_pte_t_x86; ptedit_pgd_t_arm;
   ptedit_pgd_large_t_arm; ptedit_pmd_large_t_arm; ptedit_pte_t_arm].

Lemma entry_layouts_64 l : l ∈ entry_layouts -> widths_ok l /\ width l = 64.
Proof.
  intros Hl. assert (Forall (fun l => widths_ok l /\ width l = 64) entry_layouts) as H.
  { repeat constructor. }
  rewrite Forall_forall in H. by apply H.
Qed.

(** The bit-field structures of [ptedit.h] are a lossless view of an
    entry: each of them covers the 64 bits of a [size_t], so reading all the
    fields of an entry through [ptedit_cast] and putting them back yields the
    entry, and field values within their widths are read back unchanged. *)
Theorem ptedit_cast_lossless l : l ∈ entry_layouts ->
  (forall e, u64 e -> pack l (ptedit_cast l e) = e) /\
  (forall fs, Forall2 (fun f v => 0 <= v < 2 ^ snd f) l fs -> ptedit_cast l (pack l fs) = fs).
Proof.
  intros [Hok Hw]%entry_layouts_64. split.
  - intros e He. apply pack_cast; [done|]. by rewrite Hw.
  - intros fs H. apply cast_pack. revert Hok. clear Hw.
    induction H; intros Hok; inversion_clear Hok; constructor; auto.
Qed.

Lemma ptedit_cast_lossless_witness :
  ptedit_pte_t_x86 ∈ entry_layouts /\
  pack ptedit_pte_t_x86 (ptedit_cast ptedit_pte_t_x86 0x8000000012345067) = 0x8000000012345067.
Proof.
  split; [vm_compute; repeat constructor|].
  apply (ptedit_cast_lossless ptedit_pte_t_x86); [vm_compute; repeat constructor|done].
Defined.

(** ** Page-frame numbers *)

Lemma pfn_mask_ones a : pfn_mask a = Z.shiftl (Z.ones (pfn_bits a)) 12.
Proof. by destruct a. Qed.

Lemma pfn_bits_range a : 36 <= pfn_bits a <= 40.
Proof. by destruct a. Qed.

Lemma u64_get_pfn a e : u64 e -> u64 (ptedit_get_pfn a e).
Proof.
  intros He. unfold ptedit_get_pfn. apply u64_shiftr; [lia|].
  apply u64_land; [done|]. by destruct a.
Qed.

Lemma u64_set_pfn a e p : u64 e -> u64 (ptedit_set_pfn a e p).
Proof.
  intros He. unfold ptedit_set_pfn. apply u64_lor; [|apply u64_wrap64].
  apply u64_land; [done|]. apply u64_not64. by destruct a.
Qed.
#[export] Hint Resolve u64_get_pfn u64_set_pfn : width.

Lemma get_pfn_testbit a e i :
  Z.testbit (ptedit_get_pfn a e) i = (0 <=? i) && (i <? pfn_bits a) && Z.testbit e (i + 12).
Proof.
  unfold ptedit_get_pfn. rewrite pfn_mask_ones. pose proof (pfn_bits_range a).
  bits_at.
Qed.

Lemma set_pfn_testbit a e p i : u64 e -> 0 <= i ->
  Z.testbit (ptedit_set_pfn a e p) i =
    if i <? 12 then Z.testbit e i
    else if i <? 12 + pfn_bits a then Z.testbit p (i - 12)
    else (i <? 64) && (Z.testbit e i || Z.testbit p (i - 12)).
Proof.
  intros He Hi. unfold ptedit_set_pfn. rewrite pfn_mask_ones.
  pose proof (pfn_bits_range a). bits_at.
Qed.

Lemma set_get_pfn a e p : u64 e -> 0 <= p < 2 ^ pfn_bits a ->
  ptedit_get_pfn a (ptedit_set_pfn a e p) = p /\
  (forall i, 0 <= i -> ~ 12 <= i < 12 + pfn_bits a ->
     Z.testbit (ptedit_set_pfn a e p) i = Z.testbit e i) /\
  ptedit_set_pfn a e (ptedit_get_pfn a e) = e /\
  (forall q, 0 <= q < 2 ^ pfn_bits a ->
     ptedit_set_pfn a (ptedit_set_pfn a e q) p = ptedit_set_pfn a e p).
Proof.
  intros He Hp. pose proof (pfn_bits_range a) as Ha. repeat split.
  - apply Z.bits_inj'. intros i Hi. rewrite get_pfn_testbit, set_pfn_testbit by (done || lia).
    bits_at.
  - intros i Hi Hout. rewrite set_pfn_testbit by done. bits_at.
  - apply Z.bits_inj'. intros i Hi. rewrite set_pfn_testbit, get_pfn_testbit by done.
    bits_at.
  - intros q Hq. apply Z.bits_inj'. intros i Hi.
    rewrite !set_pfn_testbit by auto with width. bits_at.
Qed.

(** C8: [ptedit_set_pfn] and [ptedit_get_pfn] are a correct setter and getter
    of the frame number: a frame number that fits its field is read back and
    no other bit of the entry changes; writing back the frame number an entry
    has leaves the entry alone; and a second write replaces the first.  The
    argument is not masked, though: a frame number that does not fit is read
    back modulo the width of the field, and its excess bits are or-ed into the
    flags above the field. *)
Theorem ptedit_set_get_pfn a e p : u64 e -> u64 p ->
  ptedit_get_pfn a (ptedit_set_pfn a e p) = p mod 2 ^ pfn_bits a /\
  (p < 2 ^ pfn_bits a ->
     ptedit_get_pfn a (ptedit_set_pfn a e p) = p /\
     (forall i, 0 <= i -> ~ 12 <= i < 12 + pfn_bits a ->
        Z.testbit (ptedit_set_pfn a e p) i = Z.testbit e i) /\
     (forall q, 0 <= q < 2 ^ pfn_bits a ->
        ptedit_set_pfn a (ptedit_set_pfn a e q) p = ptedit_set_pfn a e p)) /\
  (forall i, 12 + pfn_bits a <= i < 64 ->
     Z.testbit (ptedit_set_pfn a e p) i = Z.testbit e i || Z.testbit p (i - 12)) /\
  ptedit_set_pfn a e (ptedit_get_pfn a e) = e.
Proof.
  intros He Hp. pose proof (pfn_bits_range a). split; [|split; [|split]].
  - apply Z.bits_inj'. intros i Hi. rewrite get_pfn_testbit, set_pfn_testbit by (done || lia).
    bits_at.
  - intros Hlt. assert (0 <= p < 2 ^ pfn_bits a) as Hr by (unfold u64 in Hp; lia).
    destruct (set_get_pfn a e p He Hr) as (H1 & H2 & _ & H3). done.
  - intros i Hi. rewrite set_pfn_testbit by (done || lia). bits_at.
  - apply (set_get_pfn a e 0 He). split; [done|]. apply Z.pow_pos_nonneg; lia.
Qed.

Lemma ptedit_set_get_pfn_witness :
  (u64 0x8000000012345067 /\ u64 0x1234 /\
   ptedit_get_pfn X86_64 (ptedit_set_pfn X86_64 0x8000000012345067 0x1234) = 0x1234) /\
  (u64 0x67 /\ u64 (2 ^ 51) /\
   Z.testbit (ptedit_set_pfn X86_64 0x67 (2 ^ 51)) Bit.NX = true).
Proof.
  split; (split; [done|]); (split; [done|]).
  - by apply (ptedit_set_get_pfn X86_64 0x8000000012345067 0x1234).
  - destruct (ptedit_set_get_pfn X86_64 0x67 (2 ^ 51) ltac:(done) ltac:(done)) as (_ & _ & H & _).
    exact (H 63 ltac:(done)).
Defined.

(** The bit-fields the walker reads, as bits. *)
Lemma table_pfn_x86 e : table_pfn X86_64 e = Z.land (Z.shiftr e 12) (Z.ones 28).
Proof.
  unfold table_pfn. cbn [field ptedit_pgd_t ptedit_pgd_t_x86]. simpl.
  rewrite !Z.shiftr_shiftr by lia. done.
Qed.

Lemma table_pfn_arm e : table_pfn AARCH64 e = Z.land (Z.shiftr e 12) (Z.ones 36).
Proof.
  unfold table_pfn. simpl. by rewrite !Z.shiftr_shiftr by lia.
Qed.

Lemma pte_pfn_table_pfn a e : pte_pfn a e = table_pfn a e.
Proof.
  destruct a; unfold pte_pfn, table_pfn; simpl; by rewrite !Z.shiftr_shiftr by lia.
Qed.

Lemma table_pfn_testbit a e i :
  Z.testbit (table_pfn a e) i =
    (0 <=? i) && (i <? match a with X86_64 => 28 | AARCH64 => 36 end) && Z.testbit e (i + 12).
Proof. destruct a; [rewrite table_pfn_x86|rewrite table_pfn_arm]; bits_at. Qed.

Lemma table_pfn_range a e : 0 <= table_pfn a e < 2 ^ 36.
Proof.
  split.
  - destruct a; [rewrite table_pfn_x86|rewrite table_pfn_arm];
      apply Z.land_nonneg; by right.
  - apply bound_of_testbit; [done| |].
    + destruct a; [rewrite table_pfn_x86|rewrite table_pfn_arm];
        apply Z.land_nonneg; by right.
    + intros i Hi. rewrite table_pfn_testbit. destruct a; bits_at.
Qed.

Lemma present_x86 e : present X86_64 e = Z.testbit e 0.
Proof.
  unfold present. simpl. destruct (Z.eqb_spec (Z.land e (Z.ones 1)) 1) as [H|H].
  - apply (f_equal (fun z => Z.testbit z 0)) in H. rewrite Z.land_spec in H.
    change (Z.testbit (Z.ones 1) 0) with true in H. by rewrite andb_true_r in H.
  - destruct (Z.testbit e 0) eqn:E; [|done]. destruct H.
    change 1 with (bit 0). change (Z.ones (bit 0)) with (bit 0). bits.
Qed.

Lemma pte_present_present a e : pte_present a e = present a e.
Proof. by destruct a. Qed.

(** C9: the frame number of a page-table entry as the bit-field structures
    give it is the one [ptedit_get_pfn] gives on AArch64; on x86-64 the
    structures have 28 bits for it, so the two agree exactly when bits 40 to
    51 of the entry, which [ptedit_get_pfn] counts as part of the frame
    number, are zero. *)
Theorem cast_pfn_get_pfn e : u64 e ->
  pte_pfn AARCH64 e = ptedit_get_pfn AARCH64 e /\
  pte_pfn X86_64 e = ptedit_get_pfn X86_64 e mod 2 ^ 28 /\
  (pte_pfn X86_64 e = ptedit_get_pfn X86_64 e <->
   field ptedit_pte_t_x86 "reserved_1" e = 0).
Proof.
  intros He. rewrite !pte_pfn_table_pfn. split; [|split; [|split]].
  - apply Z.bits_inj'. intros i Hi. rewrite table_pfn_testbit, get_pfn_testbit. simpl. bits_at.
  - apply Z.bits_inj'. intros i Hi.
    rewrite table_pfn_testbit, Z.testbit_mod_pow2, get_pfn_testbit by lia. simpl. bits_at.
  - intros H. simpl. rewrite !Z.shiftr_shiftr by lia. simpl. apply Z.bits_inj'. intros i Hi.
    apply (f_equal (fun z => Z.testbit z (i + 28))) in H.
    rewrite table_pfn_testbit, get_pfn_testbit in H. simpl in H. revert H. 
    replace (i + 28 + 12) with (i + 40) by lia. bits_at; rewrite ?andb_true_r; congruence.
  - simpl. rewrite !Z.shiftr_shiftr by lia. simpl. intros H. apply Z.bits_inj'. intros i Hi.
    rewrite table_pfn_testbit, get_pfn_testbit. simpl.
    apply (f_equal (fun z => Z.testbit z (i - 28))) in H. revert H. bits_at; rewrite ?andb_true_r; intros; congruence.
Qed.

Lemma cast_pfn_get_pfn_witness :
  u64 (bit 40 + 0x12345067) /\
  pte_pfn X86_64 (bit 40 + 0x12345067) = ptedit_get_pfn X86_64 (bit 40 + 0x12345067) mod 2 ^ 28 /\
  pte_pfn X86_64 (bit 40 + 0x12345067) <> ptedit_get_pfn X86_64 (bit 40 + 0x12345067).
Proof.
  destruct (cast_pfn_get_pfn (bit 40 + 0x12345067)) as (_ & Hmod & Hiff); [done|].
  split; [done|]. split; [exact Hmod|]. intros E%Hiff. discriminate E.
Defined.
