(* ===== verification/Bits.v ===== *)
(** * The two views of an entry's bits

    [ptedit.h] names the bits of an entry twice: by the constants
    [PTEDIT_PAGE_BIT_*] and by the fields of the bit-field structures.  This
    file has the constants as tables and proves that the two views are of the
    same bits. *)

From stdpp Require Import base numbers list strings.
From S2P Require Import Prelude Entry.
Local Open Scope Z_scope.

Section tables.
Local Open Scope string_scope.

(** The names and values of [PTEDIT_PAGE_BIT_*]. *)
Definition PTEDIT_PAGE_BIT_x86 : list (string * Z) :=
  [ ("PRESENT", Bit.PRESENT); ("RW", Bit.RW); ("USER", Bit.USER); ("PWT", Bit.PWT);
    ("PCD", Bit.PCD); ("ACCESSED", Bit.ACCESSED_X86); ("DIRTY", Bit.DIRTY);
    ("PSE", Bit.PSE); ("PAT", Bit.PAT); ("GLOBAL", Bit.GLOBAL);
    ("SOFTW1", Bit.SOFTW1_X86); ("SOFTW2", Bit.SOFTW2_X86); ("SOFTW3", Bit.SOFTW3_X86);
    ("PAT_LARGE", Bit.PAT_LARGE); ("SOFTW4", Bit.SOFTW4_X86);
    ("PKEY_BIT0", Bit.PKEY_BIT0); ("PKEY_BIT1", Bit.PKEY_BIT1);
    ("PKEY_BIT2", Bit.PKEY_BIT2); ("PKEY_BIT3", Bit.PKEY_BIT3); ("NX", Bit.NX) ].

Definition PTEDIT_PAGE_BIT_arm : list (string * Z) :=
  [ ("TYPE_BIT0", Bit.TYPE_BIT0); ("TYPE_BIT1", Bit.TYPE_BIT1);
    ("MAIR_BIT0", Bit.MAIR_BIT0); ("MAIR_BIT1", Bit.MAIR_BIT1);
    ("MAIR_BIT2", Bit.MAIR_BIT2); ("NON_SECURE", Bit.NON_SECURE);
    ("PERMISSION_BIT0", Bit.PERMISSION_BIT0); ("PERMISSION_BIT1", Bit.PERMISSION_BIT1);
    ("SHARE_BIT0", Bit.SHARE_BIT0); ("SHARE_BIT1", Bit.SHARE_BIT1);
    ("ACCESSED", Bit.ACCESSED_ARM); ("NOT_GLOBAL", Bit.NOT_GLOBAL);
    ("CONTIGUOUS", Bit.CONTIGUOUS); ("PXN", Bit.PXN); ("XN", Bit.XN);
    ("SOFTW1", Bit.SOFTW1_ARM); ("SOFTW2", Bit.SOFTW2_ARM); ("SOFTW3", Bit.SOFTW3_ARM);
    ("SOFTW4", Bit.SOFTW4_ARM); ("SOFTW5", Bit.SOFTW5_ARM); ("SOFTW6", Bit.SOFTW6_ARM);
    ("SOFTW7", Bit.SOFTW7_ARM); ("SOFTW8", Bit.SOFTW8_ARM); ("SOFTW9", Bit.SOFTW9_ARM) ].

Definition PTEDIT_PAGE_BIT (a : arch) : list (string * Z) :=
  match a with X86_64 => PTEDIT_PAGE_BIT_x86 | AARCH64 => PTEDIT_PAGE_BIT_arm end.

(** Specification: the structure, the field and the bit of the field each
    constant is meant to name, in the order of the tables above.  The PTE
    structure of x86-64 calls bit 7, its PAT bit, "size" as the others do. *)
Definition named_field (a : arch) : list (layout * string * Z) :=
  match a with
  | X86_64 =>
      let p := ptedit_pte_t_x86 in
      [ (p, "present", 0%Z); (p, "writeable", 0%Z); (p, "user_access", 0%Z);
        (p, "write_through", 0%Z); (p, "cache_disabled", 0%Z); (p, "accessed", 0%Z);
        (p, "dirty", 0%Z); (ptedit_pgd_t_x86, "size", 0%Z); (p, "size", 0%Z);
        (p, "global", 0%Z); (p, "ignored_2", 0%Z); (p, "ignored_2", 1%Z);
        (p, "ignored_2", 2%Z); (ptedit_pmd_large_t_x86, "pat", 0%Z);
        (p, "ignored_1", 6%Z); (p, "ignored_1", 7%Z); (p, "ignored_1", 8%Z);
        (p, "ignored_1", 9%Z); (p, "ignored_1", 10%Z); (p, "execution_disabled", 0%Z) ]
  | AARCH64 =>
      let p := ptedit_pte_t_arm in
      [ (p, "present", 0%Z); (p, "present", 1%Z); (p, "memory_attributes_index", 0%Z);
        (p, "memory_attributes_index", 1%Z); (p, "memory_attributes_index", 2%Z);
        (p, "non_secure", 0%Z); (p, "access_permissions", 0%Z);
        (p, "access_permissions", 1%Z); (p, "shareability_field", 0%Z);
        (p, "shareability_field", 1%Z); (p, "access_flag", 0%Z); (p, "not_global", 0%Z);
        (p, "contiguous", 0%Z); (p, "privileged_execute_never", 0%Z);
        (p, "execute_never", 0%Z); (p, "ingored_1", 0%Z); (p, "ingored_1", 1%Z);
        (p, "ingored_1", 2%Z); (p, "ingored_1", 3%Z); (p, "ignored_2", 0%Z);
        (p, "ignored_2", 1%Z); (p, "ignored_2", 2%Z); (p, "ignored_2", 3%Z);
        (p, "ignored_2", 4%Z) ]
  end.
End tables.

(** The offset and the width of a field. *)
Fixpoint field_range (l : layout) (name : string) : option (Z * Z) :=
  match l with
  | [] => None
  | (n, w) :: l' =>
      if String.eqb n name then Some (0, w)
      else match field_range l' name with
           | Some (o, w') => Some (w + o, w')
           | None => None
           end
  end.

(** Bit [k] of the field is bit [b] of the entry. *)
Definition field_bit (l : layout) (name : string) (k b : Z) : bool :=
  match field_range l name with
  | Some (o, w) => (0 <=? k) && (k <? w) && (o + k =? b) && (o + w <=? 64)
  | None => false
  end.

(** * Theorems *)

Lemma field_range_nonneg l n o w : widths_ok l -> field_range l n = Some (o, w) -> 0 <= o /\ 0 < w.
Proof.
  intros Hl. revert o w. induction Hl as [|[m v] l Hv _ IH]; intros o w; simpl in *; [done|].
  destruct (String.eqb m n); [intros [= <- <-]; lia|].
  destruct (field_range l n) as [[o' w']|]; [|done]. intros [= <- <-].
  destruct (IH _ _ eq_refl). lia.
Qed.

Lemma field_testbit l n v i : widths_ok l -> 0 <= i ->
  Z.testbit (field l n v) i =
    match field_range l n with
    | Some (o, w) => (i <? w) && Z.testbit v (o + i)
    | None => false
    end.
Proof.
  intros Hl Hi. revert v. induction Hl as [|[m u] l Hu Hl IH]; intros v; simpl in *.
  { apply Z.bits_0. }
  destruct (String.eqb m n).
  - rewrite Z.land_spec, Z.testbit_ones_nonneg by lia. rewrite Z.add_0_l. apply andb_comm.
  - rewrite IH. destruct (field_range l n) as [[o w]|] eqn:E; [|done].
    destruct (field_range_nonneg _ _ _ _ Hl E). rewrite Z.shiftr_spec by lia.
    do 2 f_equal. lia.
Qed.

Lemma field_shift l n v o w : widths_ok l -> field_range l n = Some (o, w) ->
  field l n v = Z.land (Z.shiftr v o) (Z.ones w).
Proof.
  intros Hl E. destruct (field_range_nonneg _ _ _ _ Hl E).
  apply Z.bits_inj'. intros i Hi. rewrite field_testbit, E by done. bits_at.
Qed.

(** Different fields are different bits. *)
Lemma field_range_disjoint l n m o w o' w' : widths_ok l -> n <> m ->
  field_range l n = Some (o, w) -> field_range l m = Some (o', w') ->
  o + w <= o' \/ o' + w' <= o.
Proof.
  intros Hl Hne. revert o w o' w'.
  induction Hl as [|[k u] l Hu Hl IH]; intros o w o' w'; simpl in *; [done|].
  destruct (field_range l n) as [[p q]|] eqn:En, (field_range l m) as [[p' q']|] eqn:Em;
    destruct (String.eqb_spec k n), (String.eqb_spec k m); try done; try congruence;
    intros; simplify_eq;
    repeat match goal with
    | H : field_range l _ = Some _ |- _ => apply field_range_nonneg in H as [??]; [|done]
    end; try lia.
  destruct (IH _ _ _ _ eq_refl eq_refl); lia.
Qed.

Lemma tables_match a :
  forallb (fun '((n, b), (l, f, k)) => field_bit l f k b)
    (zip (PTEDIT_PAGE_BIT a) (named_field a)) = true.
Proof. by destruct a. Qed.

Lemma named_field_layout a i l f k : named_field a !! i = Some (l, f, k) -> l ∈ entry_layouts.
Proof.
  intros H. apply list_elem_of_lookup_2 in H.
  assert (Forall (fun '(l, _, _) => l ∈ entry_layouts) (named_field a)) as HF.
  { destruct a; repeat constructor. }
  rewrite Forall_forall in HF. exact (HF _ H).
Qed.

Lemma field_bit_spec l f k b : widths_ok l -> field_bit l f k b = true ->
  0 <= b < 64 /\ 0 <= k /\
  (forall e, Z.testbit e b = Z.testbit (field l f e) k) /\
  (forall e, field l f (Z.lor e (bit b)) = Z.lor (field l f e) (bit k)) /\
  (forall e, field l f (Z.land e (not64 (bit b))) = Z.land (field l f e) (not64 (bit k))) /\
  (forall e g, g <> f -> field l g (Z.lor e (bit b)) = field l g e).
Proof.
  intros Hl H. unfold field_bit in H. destruct (field_range l f) as [[o w]|] eqn:E; [|done].
  destruct (field_range_nonneg _ _ _ _ Hl E).
  rewrite !andb_true_iff, !Z.leb_le, Z.ltb_lt, Z.eqb_eq in H. destruct H as [[[? ?] <-] ?].
  split; [lia|]. split; [done|].
  repeat split; intros.
  - rewrite field_testbit, E by done. by destruct (Z.ltb_spec k w); [|lia].
  - apply Z.bits_inj'. intros i Hi. rewrite Z.lor_spec, !field_testbit, E by done. bits_at.
  - apply Z.bits_inj'. intros i Hi. rewrite Z.land_spec, !field_testbit, E by done. bits_at.
  - apply Z.bits_inj'. intros i Hi. rewrite !field_testbit by done.
    destruct (field_range l g) as [[o' w']|] eqn:Eg; [|done].
    destruct (field_range_disjoint _ _ _ _ _ _ _ Hl ltac:(eassumption) Eg E); bits_at.
Qed.

(** Every constant [PTEDIT_PAGE_BIT_*] names the bit that the structure
    of the entry gives the field of that meaning: testing the bit is reading
    the field, setting or clearing the bit does so in the field, and setting
    it changes no other field of the structure. *)
Theorem page_bits_are_fields a i name b l f k :
  PTEDIT_PAGE_BIT a !! i = Some (name, b) -> named_field a !! i = Some (l, f, k) ->
  0 <= b < 64 /\
  (forall e, Z.testbit e b = Z.testbit (field l f e) k) /\
  (forall e, field l f (Z.lor e (bit b)) = Z.lor (field l f e) (bit k)) /\
  (forall e, field l f (Z.land e (not64 (bit b))) = Z.land (field l f e) (not64 (bit k))) /\
  (forall e g, g <> f -> field l g (Z.lor e (bit b)) = field l g e).
Proof.
  intros Hb Hf. destruct (entry_layouts_64 l (named_field_layout _ _ _ _ _ Hf)) as [Hl _].
  pose proof (tables_match a) as H. rewrite forallb_forall in H.
  specialize (H ((name, b), (l, f, k))). cbv beta iota in H.
  destruct (field_bit_spec l f k b Hl) as (H1 & _ & H2); [|done].
  apply H, list_elem_of_In, (list_elem_of_lookup_2 _ i).
  rewrite lookup_zip_with, Hb. cbn. by rewrite Hf.
Qed.

Lemma page_bits_are_fields_witness :
  PTEDIT_PAGE_BIT X86_64 !! 19%nat = Some ("NX"%string, 63) /\
  named_field X86_64 !! 19%nat = Some (ptedit_pte_t_x86, "execution_disabled"%string, 0) /\
  forall e, Z.testbit e 63 = Z.testbit (field ptedit_pte_t_x86 "execution_disabled"%string e) 0.
Proof.
  split; [reflexivity|]. split; [reflexivity|].
  apply (page_bits_are_fields X86_64 19 "NX"%string 63 ptedit_pte_t_x86
    "execution_disabled"%string 0 eq_refl eq_refl).
Defined.
