(* ===== verification/Print.v ===== *)
(** * Printing entries

    [ptedit_print_entry_line], [ptedit_print_entry] and [ptedit_print_entry_t]
    of [ptedit.c].  What a function prints is the list of the strings its
    [printf] calls write, in order. *)

From stdpp Require Import base numbers list strings pretty.
From S2P Require Import Prelude Entry Bits.
Local Open Scope Z_scope.

(** ** [printf] *)

Definition PTEDIT_COLOR_GREEN : string := String (Ascii.ascii_of_nat 27) "[32m".
Definition PTEDIT_COLOR_RESET : string := String (Ascii.ascii_of_nat 27) "[0m".

Fixpoint spaces (n : nat) : string :=
  match n with O => "" | S n => String (Ascii.ascii_of_nat 32) (spaces n) end.
Definition pad (width : nat) (s : string) : string :=
  (spaces (width - String.length s) ++ s)%string.

(** The conversions [%d], [%2d] and [%16p]; the C library prints a pointer in
    hexadecimal, and the null pointer as [(nil)].  Sixteen digits are enough
    for 64 bits. *)
Definition fmt_d (n : Z) : string := pretty n.
Definition fmt_2d (n : Z) : string := pad 2 (pretty n).

Definition hex_char (d : Z) : Ascii.ascii :=
  default (Ascii.ascii_of_nat 48) (String.get (Z.to_nat d) "0123456789abcdef").

Fixpoint hex_digits (n : nat) (z : Z) (acc : string) : string :=
  match n with
  | O => acc
  | S n => if z =? 0 then acc
           else hex_digits n (Z.shiftr z 4) (String (hex_char (Z.land z 15)) acc)
  end.

Definition fmt_p (p : Z) : string :=
  if p =? 0 then "(nil)" else ("0x" ++ hex_digits 16 p "")%string.
Definition fmt_16p (p : Z) : string := pad 16 (fmt_p p).
(** [%zx], [%zd] and [%c] *)
Definition fmt_zx (n : Z) : string := if n =? 0 then "0" else hex_digits 16 n "".
Definition fmt_zd (n : Z) : string := fmt_d n.
Definition fmt_c (n : Z) : string := String (Ascii.ascii_of_nat (Z.to_nat n)) "".

(** ** The macros *)

Definition PTEDIT_B (val bit_ : Z) : Z := nz (Z.land val (bit bit_)).

(** [fmt] is the string the format gives for a value. *)
Definition PEDIT_PRINT_B (fmt : Z -> string) (b : Z) : list string :=
  (if negb (b =? 0) then [PTEDIT_COLOR_GREEN; fmt b; PTEDIT_COLOR_RESET] else [fmt b])
  ++ ["|"%string].

(** ** The functions *)

Section lines.
Local Open Scope string_scope.

Definition newline : string := String (Ascii.ascii_of_nat 10) "".
Definition line_of (s : string) : string := s ++ newline.
Definition sp_d (n : Z) : string := " " ++ fmt_d n.
(** [" %16p |"] *)
Definition pfn_cell (p : Z) : string := " " ++ fmt_16p p ++ " |".
Definition sp_d_sp (n : Z) : string := " " ++ fmt_d n ++ " ".

Definition print_row_x86 (entry : Z) : list string :=
  (["|"]
  ++ PEDIT_PRINT_B sp_d (PTEDIT_B entry Bit.NX)
  ++ [pfn_cell (Z.land (Z.shiftr entry 12) (bit 40 - 1))]
  ++ PEDIT_PRINT_B fmt_d (PTEDIT_B entry Bit.PAT_LARGE)
  ++ PEDIT_PRINT_B fmt_d (PTEDIT_B entry Bit.SOFTW3_X86)
  ++ PEDIT_PRINT_B fmt_d (PTEDIT_B entry Bit.SOFTW2_X86)
  ++ PEDIT_PRINT_B fmt_d (PTEDIT_B entry Bit.SOFTW1_X86)
  ++ PEDIT_PRINT_B fmt_d (PTEDIT_B entry Bit.GLOBAL)
  ++ PEDIT_PRINT_B fmt_d (PTEDIT_B entry Bit.PSE)
  ++ PEDIT_PRINT_B fmt_d (PTEDIT_B entry Bit.DIRTY)
  ++ PEDIT_PRINT_B fmt_d (PTEDIT_B entry Bit.ACCESSED_X86)
  ++ PEDIT_PRINT_B sp_d (PTEDIT_B entry Bit.PCD)
  ++ PEDIT_PRINT_B sp_d (PTEDIT_B entry Bit.PWT)
  ++ PEDIT_PRINT_B fmt_d (PTEDIT_B entry Bit.USER)
  ++ PEDIT_PRINT_B fmt_d (PTEDIT_B entry Bit.RW)
  ++ PEDIT_PRINT_B fmt_d (PTEDIT_B entry Bit.PRESENT)
  ++ [newline])%list.

Definition print_row_arm (entry : Z) : list string :=
  let B := PTEDIT_B entry in
  (["|"]
  ++ PEDIT_PRINT_B fmt_2d
       (Z.lor (Z.lor (Z.lor (Z.lor (Z.shiftl (B 63%Z) 4) (Z.shiftl (B 62%Z) 3))
         (Z.shiftl (B 61%Z) 2)) (Z.shiftl (B 60%Z) 1)) (B 59%Z))
  ++ PEDIT_PRINT_B fmt_2d
       (Z.lor (Z.lor (Z.lor (Z.shiftl (B 58%Z) 3) (Z.shiftl (B 57%Z) 2))
         (Z.shiftl (B 56%Z) 1)) (B 55%Z))
  ++ PEDIT_PRINT_B sp_d (B 54%Z)
  ++ PEDIT_PRINT_B sp_d_sp (B 53%Z)
  ++ PEDIT_PRINT_B fmt_d (B 52%Z)
  ++ PEDIT_PRINT_B fmt_2d
       (Z.lor (Z.lor (Z.lor (Z.shiftl (B 51%Z) 3) (Z.shiftl (B 50%Z) 2))
         (Z.shiftl (B 49%Z) 1)) (B 48%Z))
  ++ [pfn_cell (Z.land (Z.shiftr entry 12) (bit 36 - 1))]
  ++ PEDIT_PRINT_B sp_d (B 11%Z)
  ++ PEDIT_PRINT_B fmt_d (B 10%Z)
  ++ PEDIT_PRINT_B fmt_d (Z.lor (Z.shiftl (B 9%Z) 1) (B 8%Z))
  ++ PEDIT_PRINT_B fmt_d (Z.lor (Z.shiftl (B 7%Z) 1) (B 6%Z))
  ++ PEDIT_PRINT_B sp_d (B 5%Z)
  ++ PEDIT_PRINT_B sp_d_sp
       (Z.lor (Z.lor (Z.shiftl (B 4%Z) 2) (Z.shiftl (B 3%Z) 1)) (B 2%Z))
  ++ PEDIT_PRINT_B fmt_d (Z.lor (Z.shiftl (B 1%Z) 1) (B 0%Z))
  ++ [newline])%list.

Definition ptedit_print_entry_line (a : arch) (entry line : Z) : list string :=
  match a with
  | X86_64 =>
      ((if (line =? 0)%Z || (line =? 3)%Z
        then [line_of "+--+------------------+-+-+-+-+-+-+-+-+--+--+-+-+-+"] else [])
      ++ (if (line =? 1)%Z
          then [line_of "|NX|       PFN        |H|?|?|?|G|S|D|A|UC|WT|U|W|P|"] else [])
      ++ (if (line =? 2)%Z then print_row_x86 entry else []))%list
  | AARCH64 =>
      ((if (line =? 0)%Z || (line =? 3)%Z
        then [line_of "+--+--+--+---+-+--+------------------+--+-+-+-+--+---+-+"] else [])
      ++ (if (line =? 1)%Z
          then [line_of "| ?| ?|XN|PXN|C| ?|        PFN       |NG|A|S|P|NS|MAI|T|"] else [])
      ++ (if (line =? 2)%Z then print_row_arm entry else []))%list
  end.

Definition ptedit_print_entry (a : arch) (entry : Z) : list string :=
  List.concat (map (ptedit_print_entry_line a entry) [0%Z; 1%Z; 2%Z; 3%Z]).

Definition ptedit_print_entry_t (a : arch) (entry : ptedit_entry_t) : list string :=
  ((if has (valid entry) PTEDIT_VALID_MASK_PGD
    then (line_of "PGD of address") :: ptedit_print_entry a (pgd entry) else [])
  ++ (if has (valid entry) PTEDIT_VALID_MASK_P4D
      then (line_of "P4D of address") :: ptedit_print_entry a (p4d entry) else [])
  ++ (if has (valid entry) PTEDIT_VALID_MASK_PUD
      then (line_of "PUD of address") :: ptedit_print_entry a (pud entry) else [])
  ++ (if has (valid entry) PTEDIT_VALID_MASK_PMD
      then (line_of "PMD of address") :: ptedit_print_entry a (pmd entry) else [])
  ++ (if has (valid entry) PTEDIT_VALID_MASK_PTE
      then (line_of "PTE of address") :: ptedit_print_entry a (pte entry) else []))%list.
End lines.

(** ** What a row shows

    Specification: what is visible of a line, without the colours, and the row
    as the fields of the entry. *)

Definition visible (log : list string) : list string :=
  filter (fun s => s <> PTEDIT_COLOR_GREEN /\ s <> PTEDIT_COLOR_RESET) log.

Definition text (log : list string) : string := foldr String.append ""%string log.

Definition visible_line (a : arch) (entry line : Z) : string :=
  text (visible (ptedit_print_entry_line a entry line)).

Definition bar (s : string) : list string := [s; "|"%string].

Definition row_x86 (e : Z) : list string :=
  let f name := field ptedit_pte_t_x86 name e in
  ("|"%string :: bar (sp_d (f "execution_disabled"%string))
  ++ pfn_cell (ptedit_get_pfn X86_64 e)
  :: bar (fmt_d (field ptedit_pmd_large_t_x86 "pat"%string e))
  ++ bar (fmt_d (Z.b2z (Z.testbit (f "ignored_2"%string) 2)))
  ++ bar (fmt_d (Z.b2z (Z.testbit (f "ignored_2"%string) 1)))
  ++ bar (fmt_d (Z.b2z (Z.testbit (f "ignored_2"%string) 0)))
  ++ bar (fmt_d (f "global"%string)) ++ bar (fmt_d (f "size"%string))
  ++ bar (fmt_d (f "dirty"%string)) ++ bar (fmt_d (f "accessed"%string))
  ++ bar (sp_d (f "cache_disabled"%string)) ++ bar (sp_d (f "write_through"%string))
  ++ bar (fmt_d (f "user_access"%string)) ++ bar (fmt_d (f "writeable"%string))
  ++ bar (fmt_d (f "present"%string)) ++ [newline])%list.

Definition row_arm (e : Z) : list string :=
  let f name := field ptedit_pte_t_arm name e in
  ("|"%string :: bar (fmt_2d (f "ignored_2"%string)) ++ bar (fmt_2d (f "ingored_1"%string))
  ++ bar (sp_d (f "execute_never"%string)) ++ bar (sp_d_sp (f "privileged_execute_never"%string))
  ++ bar (fmt_d (f "contiguous"%string)) ++ bar (fmt_2d (f "reserved_1"%string))
  ++ pfn_cell (ptedit_get_pfn AARCH64 e)
  :: bar (sp_d (f "not_global"%string)) ++ bar (fmt_d (f "access_flag"%string))
  ++ bar (fmt_d (f "shareability_field"%string)) ++ bar (fmt_d (f "access_permissions"%string))
  ++ bar (sp_d (f "non_secure"%string)) ++ bar (sp_d_sp (f "memory_attributes_index"%string))
  ++ bar (fmt_d (f "present"%string)) ++ [newline])%list.

Definition row (a : arch) : Z -> list string :=
  match a with X86_64 => row_x86 | AARCH64 => row_arm end.

(** Two entries that differ in no bit a row shows. *)
Definition same_row (a : arch) (e1 e2 : Z) : Prop :=
  match a with
  | X86_64 => forall i, 0 <= i < 64 -> ~ 52 <= i < 63 -> Z.testbit e1 i = Z.testbit e2 i
  | AARCH64 => e1 = e2
  end.

(** * Theorems *)

(** ** Strings *)

Lemma append_inj s1 s2 t1 t2 : String.length s1 = String.length s2 ->
  (s1 ++ t1 = s2 ++ t2)%string -> s1 = s2 /\ t1 = t2.
Proof.
  revert s2. induction s1 as [|c s1 IH]; intros [|d s2]; simpl; try done.
  intros [= Hl] [= -> Ht]. by destruct (IH _ Hl Ht) as [-> ->].
Qed.

Lemma text_inj l1 l2 : Forall2 (fun s t => String.length s = String.length t) l1 l2 ->
  text l1 = text l2 -> l1 = l2.
Proof.
  induction 1 as [|s t l1 l2 Hl _ IH]; [done|]. simpl. intros H.
  apply append_inj in H as [-> H]; [|done]. f_equal. auto.
Qed.

Lemma length_append s t : String.length (s ++ t)%string = (String.length s + String.length t)%nat.
Proof. induction s as [|c s IH]; simpl; [done|]. by rewrite IH. Qed.

Lemma length_spaces n : String.length (spaces n) = n.
Proof. induction n as [|n IH]; simpl; [done|]. by rewrite IH. Qed.

Lemma length_pad w s : String.length (pad w s) = Nat.max w (String.length s).
Proof. unfold pad. rewrite length_append, length_spaces. lia. Qed.

(** ** Numbers *)

(** What the columns with [%d] and [%2d] show is at most 31. *)
Definition small : list Z := map Z.of_nat (seq 0 32).

Lemma small_complete n : 0 <= n < 32 -> n ∈ small.
Proof.
  intros Hn. apply list_elem_of_In, in_map_iff. exists (Z.to_nat n).
  rewrite in_seq. lia.
Qed.

Lemma small_lengths : Forall (fun n =>
  String.length (fmt_2d n) = 2%nat /\
  (n < 10 -> String.length (fmt_d n) = 1%nat)) small.
Proof. repeat constructor; vm_compute; try reflexivity; intros; discriminate. Qed.

Lemma length_fmt_2d n : 0 <= n < 32 -> String.length (fmt_2d n) = 2%nat.
Proof.
  intros Hn. pose proof small_lengths as H. rewrite Forall_forall in H.
  by apply H, small_complete.
Qed.

Lemma length_fmt_d n : 0 <= n < 8 -> String.length (fmt_d n) = 1%nat.
Proof.
  intros Hn. pose proof small_lengths as H. rewrite Forall_forall in H.
  apply H; [apply small_complete|]; lia.
Qed.

Lemma fmt_d_inj m n : fmt_d m = fmt_d n -> m = n.
Proof. apply (inj pretty). Qed.

Lemma fmt_2d_inj m n : 0 <= m < 32 -> 0 <= n < 32 -> fmt_2d m = fmt_2d n -> m = n.
Proof.
  intros Hm Hn. assert (forallb (fun m => forallb (fun n =>
    implb (String.eqb (fmt_2d m) (fmt_2d n)) (m =? n)) small) small = true) as H.
  { vm_compute. reflexivity. }
  rewrite forallb_forall in H.
  specialize (H m (proj1 (list_elem_of_In _ _) (small_complete m Hm))).
  rewrite forallb_forall in H.
  specialize (H n (proj1 (list_elem_of_In _ _) (small_complete n Hn))).
  intros E. rewrite E, String.eqb_refl in H. by apply Z.eqb_eq.
Qed.

(** Reading a pointer back. *)
Definition hex_value (c : Ascii.ascii) : Z :=
  let n := Z.of_nat (Ascii.nat_of_ascii c) in if n <? 58 then n - 48 else n - 87.

Fixpoint parse_hex (s : string) (v : Z) : Z :=
  match s with
  | EmptyString => v
  | String c s => parse_hex s (16 * v + hex_value c)
  end.

(** ["(nil)"] is 0, and the leading spaces and ["0x"] are skipped. *)
Fixpoint parse_p (s : string) : Z :=
  match s with
  | String c s' =>
      if Ascii.eqb c (Ascii.ascii_of_nat 32) then parse_p s'
      else if Ascii.eqb c (Ascii.ascii_of_nat 40) then 0
      else match s' with String _ s'' => parse_hex s'' 0 | EmptyString => 0 end
  | EmptyString => 0
  end.

Lemma hex_value_char d : 0 <= d < 16 -> hex_value (hex_char d) = d.
Proof.
  intros Hd. assert (forallb (fun d => hex_value (hex_char d) =? d) (take 16 small) = true) as H
    by (vm_compute; reflexivity).
  rewrite forallb_forall in H. apply Z.eqb_eq, H, list_elem_of_In.
  apply (list_elem_of_lookup_2 _ (Z.to_nat d)). rewrite lookup_take_lt by lia.
  unfold small. rewrite list_lookup_fmap, lookup_seq_lt by lia. simpl. f_equal. lia.
Qed.

Lemma low_digit z : 0 <= z -> 16 * Z.shiftr z 4 + Z.land z 15 = z.
Proof.
  intros Hz. change 15 with (Z.ones 4). rewrite Z.land_ones, Z.shiftr_div_pow2 by lia.
  pose proof (Z.div_mod z (2 ^ 4)). change (2 ^ 4) with 16 in *. lia.
Qed.

Lemma parse_hex_digits n z acc : 0 <= z < 16 ^ Z.of_nat n ->
  parse_hex (hex_digits n z acc) 0 = parse_hex acc z.
Proof.
  revert z acc. induction n as [|n IH]; intros z acc Hz.
  { change (16 ^ Z.of_nat 0) with 1 in Hz. simpl. f_equal. lia. }
  cbn [hex_digits]. destruct (Z.eqb_spec z 0) as [->|Hne]; [done|].
  rewrite IH.
  - cbn [parse_hex]. rewrite hex_value_char; [by rewrite low_digit by lia|].
    change 15 with (Z.ones 4). rewrite Z.land_ones by lia. by apply Z.mod_pos_bound.
  - rewrite Z.shiftr_div_pow2 by lia. change (2 ^ 4) with 16.
    rewrite Nat2Z.inj_succ, Z.pow_succ_r in Hz by lia. split; [apply Z.div_pos; lia|].
    apply Z.div_lt_upper_bound; lia.
Qed.

Lemma length_hex_digits n k z acc : 0 <= z < 16 ^ Z.of_nat k ->
  (String.length (hex_digits n z acc) <= k + String.length acc)%nat.
Proof.
  revert k z acc. induction n as [|n IH]; intros k z acc Hz; simpl; [lia|].
  destruct (Z.eqb_spec z 0); [lia|]. destruct k as [|k].
  { change (16 ^ Z.of_nat 0) with 1 in Hz. lia. }
  etrans; [apply (IH k)|simpl; lia].
  rewrite Z.shiftr_div_pow2 by lia. change (2 ^ 4) with 16.
  rewrite Nat2Z.inj_succ, Z.pow_succ_r in Hz by lia. split; [apply Z.div_pos; lia|].
  apply Z.div_lt_upper_bound; lia.
Qed.

Lemma parse_spaces n s : parse_p (spaces n ++ s)%string = parse_p s.
Proof. by induction n. Qed.

Lemma parse_fmt_16p p : u64 p -> parse_p (fmt_16p p) = p.
Proof.
  intros Hp. unfold fmt_16p, pad. rewrite parse_spaces. unfold fmt_p.
  destruct (Z.eqb_spec p 0) as [->|Hne]; [done|]. cbn [parse_p String.append].
  apply (parse_hex_digits 16).
  assert (16 ^ Z.of_nat 16 = 2 ^ 64) as -> by (vm_compute; reflexivity). exact Hp.
Qed.

Lemma length_fmt_16p p : 0 <= p < 2 ^ 40 -> String.length (fmt_16p p) = 16%nat.
Proof.
  intros Hp. unfold fmt_16p. rewrite length_pad. unfold fmt_p.
  destruct (p =? 0); [done|]. rewrite length_append.
  assert (16 ^ Z.of_nat 10 = 2 ^ 40) as E by (vm_compute; reflexivity). rewrite <- E in Hp.
  pose proof (length_hex_digits 16 10 p "" Hp) as Hlen. cbn [String.length] in *. lia.
Qed.

(** ** Columns *)

Lemma PTEDIT_B_bit e b : 0 <= b -> PTEDIT_B e b = Z.b2z (Z.testbit e b).
Proof. apply nz_bit. Qed.

Lemma field_B l n e o : widths_ok l -> field_range l n = Some (o, 1) ->
  field l n e = PTEDIT_B e o.
Proof.
  intros Hl E. rewrite PTEDIT_B_bit by by destruct (field_range_nonneg _ _ _ _ Hl E).
  destruct (field_range_nonneg _ _ _ _ Hl E).
  rewrite (field_shift _ _ _ _ _ Hl E). bits.
Qed.

Lemma field_bit_B l n e o w i b : widths_ok l -> field_range l n = Some (o, w) ->
  0 <= i < w -> o + i = b -> Z.b2z (Z.testbit (field l n e) i) = PTEDIT_B e b.
Proof.
  intros Hl E Hi <-. destruct (field_range_nonneg _ _ _ _ Hl E).
  rewrite field_testbit, E, PTEDIT_B_bit by (done || lia). by destruct (Z.ltb_spec i w); [|lia].
Qed.

(** The columns of several bits. *)
Section columns.
Variables (e o : Z).
Hypothesis Ho : 0 <= o.
Local Abbreviation B i := (PTEDIT_B e (o + i)).
Local Abbreviation fld w := (Z.land (Z.shiftr e o) (Z.ones w)).

Lemma column2 : Z.lor (Z.shiftl (B 1) 1) (B 0) = fld 2.
Proof. rewrite !PTEDIT_B_bit by lia. bits. Qed.

Lemma column3 : Z.lor (Z.lor (Z.shiftl (B 2) 2) (Z.shiftl (B 1) 1)) (B 0) = fld 3.
Proof. rewrite !PTEDIT_B_bit by lia. bits. Qed.

Lemma column4 :
  Z.lor (Z.lor (Z.lor (Z.shiftl (B 3) 3) (Z.shiftl (B 2) 2)) (Z.shiftl (B 1) 1)) (B 0) = fld 4.
Proof. rewrite !PTEDIT_B_bit by lia. bits. Qed.

Lemma column5 :
  Z.lor (Z.lor (Z.lor (Z.lor (Z.shiftl (B 4) 4) (Z.shiftl (B 3) 3)) (Z.shiftl (B 2) 2))
    (Z.shiftl (B 1) 1)) (B 0) = fld 5.
Proof. rewrite !PTEDIT_B_bit by lia. bits. Qed.
End columns.

Lemma visible_cell fmt b : (String.length (fmt b) < 4)%nat ->
  visible (PEDIT_PRINT_B fmt b) = bar (fmt b).
Proof.
  intros Hl. unfold visible, PEDIT_PRINT_B.
  assert (fmt b <> PTEDIT_COLOR_GREEN /\ fmt b <> PTEDIT_COLOR_RESET).
  { split; intros E; rewrite E in Hl; vm_compute in Hl; lia. }
  destruct (b =? 0); simpl.
  - rewrite !filter_cons_True by (done || (by split)). done.
  - rewrite filter_cons_False by tauto. rewrite filter_cons_True by done.
    rewrite filter_cons_False by tauto. by rewrite filter_cons_True.
Qed.

Lemma visible_app l1 l2 : visible (l1 ++ l2)%list = (visible l1 ++ visible l2)%list.
Proof. apply filter_app. Qed.

Lemma visible_one s : (5 < String.length s)%nat \/ (String.length s < 4)%nat -> visible [s] = [s].
Proof.
  intros Hl. unfold visible. rewrite filter_cons_True; [done|].
  split; intros ->; vm_compute in Hl; lia.
Qed.

(** ** Rows *)

(** The fields of a goal as columns. *)
Ltac fields_to_columns :=
  repeat match goal with
  | |- context [Z.b2z (Z.testbit (field ?l ?n ?e) ?i)] =>
      let r := eval vm_compute in (field_range l n) in
      match r with
      | Some (?o, ?w) =>
          let b := eval vm_compute in (o + i) in
          rewrite (field_bit_B l n e o w i b) by first [done | repeat constructor]
      end
  | |- context [field ?l ?n ?e] =>
      let r := eval vm_compute in (field_range l n) in
      match r with
      | Some (?o, 1) => rewrite (field_B l n e o) by (repeat constructor)
      | Some (?o, ?w) => rewrite (field_shift l n e o w) by (repeat constructor)
      end
  end.

Lemma B_range e b : 0 <= b -> 0 <= PTEDIT_B e b < 2.
Proof. intros Hb. rewrite PTEDIT_B_bit by done. by destruct (Z.testbit e b). Qed.

Lemma column_range e o w : 0 <= w <= 5 -> 0 <= Z.land (Z.shiftr e o) (Z.ones w) < 32.
Proof.
  intros Hw. rewrite Z.land_ones by lia. pose proof (Z.mod_pos_bound (Z.shiftr e o) (2 ^ w)).
  assert (0 < 2 ^ w <= 2 ^ 5); [|change (2 ^ 5) with 32 in *; lia].
  split; [apply Z.pow_pos_nonneg; lia|apply Z.pow_le_mono_r; lia].
Qed.

Lemma column_range3 e o w : 0 <= w <= 3 -> 0 <= Z.land (Z.shiftr e o) (Z.ones w) < 8.
Proof.
  intros Hw. rewrite Z.land_ones by lia. pose proof (Z.mod_pos_bound (Z.shiftr e o) (2 ^ w)).
  assert (0 < 2 ^ w <= 2 ^ 3); [|change (2 ^ 3) with 8 in *; lia].
  split; [apply Z.pow_pos_nonneg; lia|apply Z.pow_le_mono_r; lia].
Qed.

Lemma b2z_range b : 0 <= Z.b2z b < 8.
Proof. by destruct b. Qed.

Lemma length_sp_d n : 0 <= n < 8 -> String.length (sp_d n) = 2%nat.
Proof. intros. unfold sp_d. by rewrite length_append, length_fmt_d. Qed.

Lemma length_sp_d_sp n : 0 <= n < 8 -> String.length (sp_d_sp n) = 3%nat.
Proof. intros. unfold sp_d_sp. by rewrite !length_append, length_fmt_d. Qed.

Lemma get_pfn_range a e : 0 <= ptedit_get_pfn a e < 2 ^ 40.
Proof.
  assert (0 <= ptedit_get_pfn a e) as Hp.
  { unfold ptedit_get_pfn. apply Z.shiftr_nonneg, Z.land_nonneg. right. by destruct a. }
  split; [done|]. apply bound_of_testbit; [done..|]. intros i Hi.
  rewrite get_pfn_testbit. pose proof (pfn_bits_range a). bits_at.
Qed.

Lemma length_pfn_cell a e : String.length (pfn_cell (ptedit_get_pfn a e)) = 19%nat.
Proof.
  unfold pfn_cell. rewrite !length_append, length_fmt_16p; [done|]. apply get_pfn_range.
Qed.

Create HintDb columns discriminated.
#[export] Hint Extern 1 (0 <= Z.b2z _ < 8) => apply b2z_range : columns.
#[export] Hint Extern 1 (0 <= Z.land (Z.shiftr _ _) (Z.ones _) < 32) =>
  apply column_range; lia : columns.
#[export] Hint Extern 1 (0 <= Z.land (Z.shiftr _ _) (Z.ones _) < 8) =>
  apply column_range3; lia : columns.
#[export] Hint Extern 1 (0 <= PTEDIT_B ?e ?b < _) =>
  pose proof (B_range e b ltac:(done)); lia : columns.

(** The widths of the columns of a goal. *)
Ltac column_widths :=
  repeat match goal with
  | |- context [String.length (fmt_d ?n)] => rewrite (length_fmt_d n) by auto with columns
  | |- context [String.length (fmt_2d ?n)] => rewrite (length_fmt_2d n) by auto with columns
  | |- context [String.length (sp_d ?n)] => rewrite (length_sp_d n) by auto with columns
  | |- context [String.length (sp_d_sp ?n)] => rewrite (length_sp_d_sp n) by auto with columns
  | |- context [String.length (pfn_cell (ptedit_get_pfn ?a ?e))] => rewrite (length_pfn_cell a e)
  end.

Ltac visible_cells :=
  repeat first
    [ rewrite visible_cell by (column_widths; lia)
    | rewrite visible_one by (column_widths; first [left; simpl; lia|right; simpl; lia]) ].

Lemma pfn_x86 e : Z.land (Z.shiftr e 12) (bit 40 - 1) = ptedit_get_pfn X86_64 e.
Proof.
  change (bit 40 - 1) with (Z.ones 40). apply Z.bits_inj'. intros i Hi.
  rewrite get_pfn_testbit. simpl. bits_at.
Qed.

Lemma pfn_arm e : Z.land (Z.shiftr e 12) (bit 36 - 1) = ptedit_get_pfn AARCH64 e.
Proof.
  change (bit 36 - 1) with (Z.ones 36). apply Z.bits_inj'. intros i Hi.
  rewrite get_pfn_testbit. simpl. bits_at.
Qed.

Ltac rewrite_column lem :=
  let H := fresh in
  pose proof (lem ltac:(done)) as H; cbv [Z.add Pos.add Pos.succ Pos.add_carry] in H;
  rewrite H; clear H.

Lemma visible_row_x86 e : visible (print_row_x86 e) = row_x86 e.
Proof.
  unfold print_row_x86. rewrite pfn_x86, !visible_app. visible_cells.
  unfold row_x86. fields_to_columns. reflexivity.
Qed.

Lemma visible_row_arm e : visible (print_row_arm e) = row_arm e.
Proof.
  unfold print_row_arm. rewrite pfn_arm.
  rewrite_column (column5 e 59). rewrite_column (column4 e 55). rewrite_column (column4 e 48).
  rewrite_column (column3 e 2). rewrite_column (column2 e 8). rewrite_column (column2 e 6).
  rewrite_column (column2 e 0).
  rewrite !visible_app. visible_cells. unfold row_arm. fields_to_columns. reflexivity.
Qed.

(** ** What a row tells *)

Lemma visible_row a e : visible (ptedit_print_entry_line a e 2) = row a e.
Proof.
  destruct a; [apply visible_row_x86|]. apply visible_row_arm.
Qed.

Lemma row_widths a e e' : Forall2 (fun s t => String.length s = String.length t) (row a e) (row a e').
Proof.
  destruct a; unfold row, row_x86, row_arm, bar; fields_to_columns; cbn [app];
    repeat (apply Forall2_cons_2; [column_widths; reflexivity|]); apply Forall2_nil_2.
Qed.

Lemma length_text l1 l2 : Forall2 (fun s t => String.length s = String.length t) l1 l2 ->
  String.length (text l1) = String.length (text l2).
Proof. induction 1 as [|s t l1 l2 Hl _ IH]; [done|]. simpl. rewrite !length_append. lia. Qed.

Lemma line_length a e line : 0 <= line <= 3 ->
  String.length (visible_line a e line) = String.length (visible_line a 0 0).
Proof.
  intros Hl. destruct (decide (line = 2)) as [->|Hne].
  2: { assert (line = 0 \/ line = 1 \/ line = 3) as [->|[->| ->]] by lia;
       destruct a; vm_compute; reflexivity. }
  trans (String.length (visible_line a 0 2)); [|destruct a; vm_compute; reflexivity].
  unfold visible_line. rewrite !visible_row. apply length_text, row_widths.
Qed.

Lemma sp_d_inj m n : sp_d m = sp_d n -> m = n.
Proof. intros [_ H]%append_inj; [by apply fmt_d_inj|done]. Qed.

Lemma sp_d_sp_inj m n : 0 <= m < 8 -> 0 <= n < 8 -> sp_d_sp m = sp_d_sp n -> m = n.
Proof.
  intros Hm Hn [_ H]%append_inj; [|done]. apply append_inj in H as [H _]; [by apply fmt_d_inj|].
  by rewrite !length_fmt_d.
Qed.

Lemma pfn_cell_inj a e e' : u64 e -> u64 e' ->
  pfn_cell (ptedit_get_pfn a e) = pfn_cell (ptedit_get_pfn a e') ->
  ptedit_get_pfn a e = ptedit_get_pfn a e'.
Proof.
  intros He He' [_ H]%append_inj; [|done]. apply append_inj in H as [H _].
  - rewrite <- (parse_fmt_16p (ptedit_get_pfn a e)), H by auto with width.
    apply parse_fmt_16p. auto with width.
  - by rewrite !length_fmt_16p by apply get_pfn_range.
Qed.

Lemma cons_inj {A} (x y : A) l k : x :: l = y :: k -> x = y /\ l = k.
Proof. by intros [= -> ->]. Qed.

Lemma PTEDIT_B_inj e e' b : 0 <= b -> PTEDIT_B e b = PTEDIT_B e' b ->
  Z.testbit e b = Z.testbit e' b.
Proof.
  intros Hb. rewrite !PTEDIT_B_bit by done.
  by destruct (Z.testbit e b), (Z.testbit e' b).
Qed.

Lemma column_inj e e' o w : Z.land (Z.shiftr e o) (Z.ones w) = Z.land (Z.shiftr e' o) (Z.ones w) ->
  0 <= o -> forall i, o <= i < o + w -> Z.testbit e i = Z.testbit e' i.
Proof.
  intros H Ho i Hi. apply (f_equal (fun z => Z.testbit z (i - o))) in H. revert H.
  rewrite !Z.land_spec, !Z.shiftr_spec, Z.testbit_ones_nonneg by lia.
  destruct (Z.ltb_spec (i - o) w); [|lia]. rewrite !andb_true_r.
  by replace (i - o + o) with i by lia.
Qed.

Lemma pfn_inj a e e' : ptedit_get_pfn a e = ptedit_get_pfn a e' ->
  forall i, 12 <= i < 12 + pfn_bits a -> Z.testbit e i = Z.testbit e' i.
Proof.
  intros H i Hi. apply (f_equal (fun z => Z.testbit z (i - 12))) in H. revert H.
  rewrite !get_pfn_testbit. replace (i - 12 + 12) with i by lia.
  by destruct (Z.leb_spec 0 (i - 12)), (Z.ltb_spec (i - 12) (pfn_bits a)); try lia.
Qed.

(** Equal rows have equal columns, and equal columns equal bits. *)
Ltac split_columns H :=
  repeat match type of H with
  | _ :: _ = _ :: _ => apply cons_inj in H as [? H]
  end;
  repeat match goal with
  | E : fmt_d _ = fmt_d _ |- _ => apply fmt_d_inj in E
  | E : sp_d _ = sp_d _ |- _ => apply sp_d_inj in E
  | E : fmt_2d _ = fmt_2d _ |- _ => apply fmt_2d_inj in E; [|auto with columns..]
  | E : sp_d_sp _ = sp_d_sp _ |- _ => apply sp_d_sp_inj in E; [|auto with columns..]
  | E : pfn_cell _ = pfn_cell _ |- _ => apply pfn_cell_inj in E; [|assumption..]
  end.

Lemma row_inj_x86 e e' : u64 e -> u64 e' -> row_x86 e = row_x86 e' -> same_row X86_64 e e'.
Proof.
  intros He He'. unfold row_x86, bar. fields_to_columns. cbn [app]. intros H. split_columns H.
  repeat match goal with
  | E : PTEDIT_B _ _ = PTEDIT_B _ _ |- _ => apply PTEDIT_B_inj in E; [|done]
  end.
  match goal with E : ptedit_get_pfn _ _ = _ |- _ => pose proof (pfn_inj _ _ _ E) as Hpfn end.
  intros i Hi Hout. destruct (decide (12 <= i < 52)); [by apply Hpfn|].
  assert (i = 0 \/ i = 1 \/ i = 2 \/ i = 3 \/ i = 4 \/ i = 5 \/ i = 6 \/ i = 7 \/ i = 8 \/
    i = 9 \/ i = 10 \/ i = 11 \/ i = 63) as Hcases by lia.
  repeat (destruct Hcases as [->|Hcases]; [assumption|]). by subst.
Qed.

Lemma row_inj_arm e e' : u64 e -> u64 e' -> row_arm e = row_arm e' -> e = e'.
Proof.
  intros He He'. unfold row_arm, bar. fields_to_columns. cbn [app]. intros H. split_columns H.
  repeat match goal with
  | E : PTEDIT_B _ _ = PTEDIT_B _ _ |- _ => apply PTEDIT_B_inj in E; [|done]
  | E : Z.land _ _ = Z.land _ _ |- _ => apply column_inj in E; [|done]
  | E : Z.land (Z.shiftr ?x ?o) (Z.ones ?w) = _ |- _ =>
      let HE := fresh "HE" in pose proof (column_inj _ _ _ _ E ltac:(done)) as HE; clear E
  end.
  match goal with E : ptedit_get_pfn _ _ = _ |- _ => pose proof (pfn_inj _ _ _ E) as Hpfn end.
  apply Z.bits_inj'. intros i Hi.
  destruct (Z.ltb_spec i 64); [|by rewrite !u64_testbit by (done || lia)].
  simpl in Hpfn. destruct (decide (12 <= i < 48)); [by apply Hpfn|].
  assert (i = 5 \/ i = 10 \/ i = 11 \/ i = 52 \/ i = 53 \/ i = 54 \/
    0 <= i < 2 \/ 2 <= i < 5 \/ 6 <= i < 8 \/ 8 <= i < 10 \/
    48 <= i < 52 \/ 55 <= i < 59 \/ 59 <= i < 64) as Hcases by lia.
  repeat (destruct Hcases as [Hc|Hcases]; [subst; eauto 2 with lia|]); eauto 2 with lia.
Qed.

Lemma row_of_same_bits e e' : same_row X86_64 e e' -> row_x86 e = row_x86 e'.
Proof.
  intros H. assert (forall b, 0 <= b < 64 -> ~ 52 <= b < 63 -> PTEDIT_B e b = PTEDIT_B e' b) as HB.
  { intros b Hb Hout. rewrite !PTEDIT_B_bit by lia. by rewrite H. }
  unfold row_x86, bar. fields_to_columns. cbn [app].
  replace (ptedit_get_pfn X86_64 e) with (ptedit_get_pfn X86_64 e').
  - repeat match goal with |- context [PTEDIT_B e ?b] => rewrite (HB b) by lia end. done.
  - apply Z.bits_inj'. intros i Hi. rewrite !get_pfn_testbit. simpl.
    destruct (Z.ltb_spec i 40); [|by rewrite !andb_false_r]. by rewrite H by lia.
Qed.

(** [ptedit_print_entry_line] prints a table: each of its four lines has,
    apart from the colours, the width of the border; the row shows the fields
    of the structure of the entry (the frame number as [ptedit_get_pfn] gives
    it); and what the row shows of two entries is the same exactly when they
    agree on all bits, on x86-64 on all but bits 52 to 62, which it leaves
    out. *)
Theorem ptedit_print_entry_line_spec a e line e' : u64 e -> u64 e' -> 0 <= line <= 3 ->
  String.length (visible_line a e line) = String.length (visible_line a 0 0) /\
  visible (ptedit_print_entry_line a e 2) = row a e /\
  (visible_line a e 2 = visible_line a e' 2 <-> same_row a e e').
Proof.
  intros He He' Hl. split; [by apply line_length|]. split; [apply visible_row|].
  unfold visible_line. rewrite !visible_row. split.
  - intros H%text_inj; [|apply row_widths].
    destruct a; [by apply row_inj_x86|by apply row_inj_arm].
  - intros H. f_equal. destruct a; [by apply row_of_same_bits|]. by rewrite (H : e = e').
Qed.

Lemma ptedit_print_entry_line_spec_witness :
  u64 0x12345067 /\ u64 (0x12345067 + 2 ^ 52) /\ 0 <= 2 <= 3 /\
  visible_line X86_64 0x12345067 2 = visible_line X86_64 (0x12345067 + 2 ^ 52) 2.
Proof.
  split; [done|]. split; [done|]. split; [done|].
  apply (ptedit_print_entry_line_spec X86_64 0x12345067 2 (0x12345067 + 2 ^ 52)); [done..|].
  change (0x12345067 + 2 ^ 52) with (Z.lor 0x12345067 (bit 52)).
  intros i Hi Hout. rewrite Z.lor_spec, testbit_bit.
  destruct (Z.eqb_spec i 52); [lia|]. by rewrite andb_false_r, orb_false_r.
Defined.
