(* ===== verification/MemType.v ===== *)
(** * Memory types

    The memory-type functions of [ptedit.c]: reading and programming one of
    the eight types held by the PAT (x86) or MAIR (AArch64) register,
    searching it, naming a type, and choosing the type an entry uses.  The
    register itself is reached through the interface [MtsOps], which the
    library's ioctl path implements. *)

From stdpp Require Import base numbers list strings.
From S2P Require Import Prelude Entry.
Local Open Scope Z_scope.

(** The register, as the functions of this file use it. *)
Class MtsOps (S : Type) := {
  ptedit_get_mts : M S Z;
  ptedit_set_mts : Z -> M S unit }.

(** What the functions promise about it: [mts_reg] is the value of the
    register, reading returns it, programming a value [mts_ok] accepts
    replaces it. *)
Class MtsLaws (S : Type) `{MtsOps S} := {
  mts_reg : S -> Z;
  mts_ready : S -> Prop;
  mts_ok : Z -> Prop;
  mts_reg_u64 s : mts_ready s -> u64 (mts_reg s);
  get_mts_reg s : mts_ready s -> ptedit_get_mts s = Ret (mts_reg s) s;
  set_mts_reg s v : mts_ready s -> mts_ok v -> exists s',
    ptedit_set_mts v s = Ret tt s' /\ mts_reg s' = v /\ mts_ready s' }.

(** The width mask of one slot: PAT entries have three bits, MAIR ones eight. *)
Definition slot_mask (a : arch) : Z := match a with X86_64 => 7 | AARCH64 => 0xff end.

Section functions.
Context {S : Type} `{MtsOps S} (a : arch).

Definition ptedit_get_mt (mt : Z) : M S Z :=
  let* mts := ptedit_get_mts in
  let* v := defined (shr64 mts (mt * 8)) in
  ret (Z.land v (slot_mask a)).

(** [7] and [0xff] are [int]s, so the mask is computed in [int] and converted
    to [size_t] by the [&=]. *)
Definition ptedit_set_mt (mt value : Z) : M S unit :=
  let* mts := ptedit_get_mts in
  let* mask := defined (shl_int (slot_mask a) (mt * 8)) in
  let mts := Z.land mts (wrap64 (Z.lnot mask)) in
  let* v := defined (shl64 value (mt * 8)) in
  ptedit_set_mts (Z.lor mts v).

(** The test of one iteration of the loop of [ptedit_find_mt]. *)
Definition slot_matches (mts type i : Z) : bool :=
  match a with
  | X86_64 => Z.land (Z.shiftr mts (i * 8)) 7 =? type
  | AARCH64 =>
      if Z.land (Z.shiftr mts (i * 8)) 0xff =? type then true
      else
        let plow := Z.land (Z.shiftr mts (i * 8)) 0xf in
        let phigh := Z.land (Z.shiftr (Z.shiftr mts (i * 8)) 4) 0xf in
        (plow =? phigh) && (plow =? type)
  end.

Definition find_step (mts type found i : Z) : Z :=
  if slot_matches mts type i then wrap8 (Z.lor found (bit i)) else found.

Definition find_mt_in (mts type : Z) : Z :=
  foldl (find_step mts type) 0 [0; 1; 2; 3; 4; 5; 6; 7].

Definition ptedit_find_mt (type : Z) : M S Z :=
  let* mts := ptedit_get_mts in
  ret (find_mt_in mts type).

(** [__builtin_ffs]: one plus the index of the least significant set bit, or
    zero; [n] bounds the bits still to look at. *)
Fixpoint ffs_from (n : nat) (i x : Z) : Z :=
  match n with
  | O => 0
  | Datatypes.S n => if Z.testbit x i then i + 1 else ffs_from n (i + 1) x
  end.
Definition builtin_ffs (x : Z) : Z := ffs_from 32 0 x.

Definition ptedit_find_first_mt (type : Z) : M S Z :=
  let* found := ptedit_find_mt type in
  ret (builtin_ffs found - 1).
End functions.

(** ** The type of an entry *)

Definition clear_x86 (entry : Z) (pat_bit : Z) : Z :=
  Z.land entry (not64 (Z.lor (Z.lor (bit Bit.PWT) (bit Bit.PCD)) (bit pat_bit))).

Definition apply_x86 (pat_bit entry mt : Z) : Z :=
  let entry := clear_x86 entry pat_bit in
  let entry := if has mt 1 then Z.lor entry (bit Bit.PWT) else entry in
  let entry := if has mt 2 then Z.lor entry (bit Bit.PCD) else entry in
  if has mt 4 then Z.lor entry (bit pat_bit) else entry.

Definition apply_arm (entry mt : Z) : Z :=
  let entry := Z.land entry (wrap64 (Z.lnot 0x1c)) in
  Z.lor entry (Z.shiftl (Z.land mt 7) 2).

Definition ptedit_apply_mt (a : arch) (entry mt : Z) : Z :=
  match a with
  | X86_64 => apply_x86 Bit.PAT entry mt
  | AARCH64 => apply_arm entry mt
  end.

Definition ptedit_apply_mt_huge (a : arch) (entry mt : Z) : Z :=
  match a with
  | X86_64 => apply_x86 Bit.PAT_LARGE entry mt
  | AARCH64 => apply_arm entry mt
  end.

Definition extract_x86 (pat_bit entry : Z) : Z :=
  Z.lor (Z.lor (nz (Z.land entry (bit Bit.PWT)))
               (Z.shiftl (nz (Z.land entry (bit Bit.PCD))) 1))
        (Z.shiftl (nz (Z.land entry (bit pat_bit))) 2).

Definition extract_arm (entry : Z) : Z := Z.land (Z.shiftr entry 2) 7.

Definition ptedit_extract_mt (a : arch) (entry : Z) : Z :=
  match a with
  | X86_64 => extract_x86 Bit.PAT entry
  | AARCH64 => extract_arm entry
  end.

Definition ptedit_extract_mt_huge (a : arch) (entry : Z) : Z :=
  match a with
  | X86_64 => extract_x86 Bit.PAT_LARGE entry
  | AARCH64 => extract_arm entry
  end.

(** ** Names of types *)

Section names.
Local Open Scope string_scope.

Definition mts_x86 : list string :=
  ["UC"; "WC"; "Rsvd"; "Rsvd"; "WT"; "WP"; "WB"; "UC-"; "Rsvd"].

(** [strcat] on the 16-byte static buffer: with the terminating zero the
    result must fit, or the call writes outside the buffer. *)
Definition strcat16 (buf s : string) : option string :=
  if Nat.ltb (String.length (buf ++ s)) 16 then Some (buf ++ s) else None.

Definition nibble_name (n : Z) : string :=
  if (n =? 0)%Z then "DM"
  else if ((n =? 1) || (n =? 2) || (n =? 3))%Z then "WT"
  else if (n =? 4)%Z then "UC"
  else if ((n =? 5) || (n =? 6) || (n =? 7))%Z then "WB"
  else if ((n =? 8) || (n =? 9) || (n =? 10) || (n =? 11))%Z then "WT"
  else if ((n =? 12) || (n =? 13) || (n =? 14) || (n =? 15))%Z then "WB"
  else "".

(** One iteration of the loop on AArch64. *)
Definition name_step (mt i : Z) (buf : string) : option string :=
  match strcat16 buf (if (i =? 0)%Z then "I" else "O") with
  | None => None
  | Some buf =>
      let buf := if (Z.land mt 0xf =? Z.land (Z.shiftr mt 4) 0xf)%Z then "" else buf in
      strcat16 buf (nibble_name (Z.land (Z.shiftr mt (i * 4)) 0xf))
  end.

(** [PTEDIT_MT_*], with the names they are printed as. *)
Definition PTEDIT_MT_x86 : list (Z * string) :=
  [(0%Z, "UC"); (1%Z, "WC"); (4%Z, "WT"); (5%Z, "WP"); (6%Z, "WB"); (7%Z, "UC-")].
Definition PTEDIT_MT_arm : list (Z * string) :=
  [(0x44%Z, "UC"); (0xbb%Z, "WT"); (0xff%Z, "WB")].
Definition PTEDIT_MT (a : arch) : list (Z * string) :=
  match a with X86_64 => PTEDIT_MT_x86 | AARCH64 => PTEDIT_MT_arm end.

(** [Ret None] is the null pointer. *)
Definition ptedit_mt_to_string {S} (a : arch) (mt : Z) : M S (option string) :=
  match a with
  | X86_64 =>
      ret (if (mt <=? 7)%Z then mts_x86 !! Z.to_nat mt else None)
  | AARCH64 =>
      let* buf := defined (name_step mt 0 "") in
      let* buf := defined (name_step mt 1 buf) in
      ret (Some buf)
  end.
End names.

(** * Theorems *)

(** ** The type of an entry *)

(** The bits of an entry that hold the index of its memory type. *)
Definition mt_bit (a : arch) (huge : bool) (k : Z) : Z :=
  match a with
  | X86_64 => if k =? 0 then Bit.PWT else if k =? 1 then Bit.PCD
              else if huge then Bit.PAT_LARGE else Bit.PAT
  | AARCH64 => k + 2
  end.

Lemma has_literals mt :
  has mt 1 = Z.testbit mt 0 /\ has mt 2 = Z.testbit mt 1 /\ has mt 4 = Z.testbit mt 2.
Proof.
  change (has mt 1) with (has mt (bit 0)). change (has mt 2) with (has mt (bit 1)).
  change (has mt 4) with (has mt (bit 2)). by rewrite !has_testbit by lia.
Qed.

Lemma apply_x86_testbit pb e mt i : u64 e -> 4 < pb < 64 -> 0 <= i ->
  Z.testbit (apply_x86 pb e mt) i =
    if i =? 3 then Z.testbit mt 0 else if i =? 4 then Z.testbit mt 1
    else if i =? pb then Z.testbit mt 2 else Z.testbit e i.
Proof.
  intros He Hpb Hi. unfold apply_x86, clear_x86.
  destruct (has_literals mt) as (-> & -> & ->). unfold Bit.PWT, Bit.PCD.
  destruct (Z.testbit mt 0), (Z.testbit mt 1), (Z.testbit mt 2); bits_at.
Qed.

Lemma extract_x86_testbit pb e i : 0 <= pb -> 0 <= i ->
  Z.testbit (extract_x86 pb e) i =
    if i =? 0 then Z.testbit e 3 else if i =? 1 then Z.testbit e 4
    else (i =? 2) && Z.testbit e pb.
Proof.
  intros Hpb Hi. unfold extract_x86. rewrite !nz_bit by done. unfold Bit.PWT, Bit.PCD.
  bits_at.
Qed.

Lemma apply_arm_testbit e mt i : u64 e -> 0 <= i ->
  Z.testbit (apply_arm e mt) i =
    if (2 <=? i) && (i <? 5) then Z.testbit mt (i - 2) else Z.testbit e i.
Proof.
  intros He Hi. unfold apply_arm.
  change 0x1c with (Z.shiftl (Z.ones 3) 2). change 7 with (Z.ones 3). bits_at.
Qed.

Lemma extract_arm_testbit e i : 0 <= i ->
  Z.testbit (extract_arm e) i = (i <? 3) && Z.testbit e (i + 2).
Proof. intros Hi. unfold extract_arm. change 7 with (Z.ones 3). bits_at. Qed.

(** C10: choosing the memory type of an entry and reading it back gives the
    low three bits of the type, for 4 KB pages and for huge ones and on both
    architectures; every bit of the entry outside the three bits of the type
    keeps its value; and choosing the type the entry has changes nothing. *)
Theorem ptedit_apply_extract_mt a (huge : bool) e mt : u64 e -> u8 mt ->
  let apply := if huge then ptedit_apply_mt_huge a else ptedit_apply_mt a in
  let extract := if huge then ptedit_extract_mt_huge a else ptedit_extract_mt a in
  extract (apply e mt) = mt mod 8 /\
  (forall i, 0 <= i -> (forall k, 0 <= k < 3 -> i <> mt_bit a huge k) ->
     Z.testbit (apply e mt) i = Z.testbit e i) /\
  apply e (extract e) = e.
Proof.
  intros He Hmt apply extract. change 8 with (2 ^ 3).
  assert (exists pb, 4 < pb < 64 /\
    (forall e mt, apply e mt = match a with X86_64 => apply_x86 pb e mt | AARCH64 => apply_arm e mt end) /\
    (forall e, extract e = match a with X86_64 => extract_x86 pb e | AARCH64 => extract_arm e end) /\
    (a = X86_64 -> mt_bit a huge 2 = pb)) as (pb & Hpb & Happly & Hextract & Hbit).
  { subst apply extract. destruct huge; [exists 12|exists 7]; by destruct a. }
  clearbody apply extract. rewrite !Hextract, !Happly. destruct a.
  - split; [|split].
    + apply Z.bits_inj'. intros i Hi.
      rewrite extract_x86_testbit, !apply_x86_testbit by (done || lia). bits_at.
    + intros i Hi Hout. rewrite apply_x86_testbit by done.
      pose proof (Hout 0 ltac:(lia)). pose proof (Hout 1 ltac:(lia)).
      pose proof (Hout 2 ltac:(lia)). rewrite Hbit in * by done.
      change (mt_bit X86_64 huge 0) with 3 in *. change (mt_bit X86_64 huge 1) with 4 in *.
      bits_at.
    + apply Z.bits_inj'. intros i Hi.
      rewrite apply_x86_testbit, !extract_x86_testbit by (done || lia). bits_at.
  - split; [|split].
    + apply Z.bits_inj'. intros i Hi.
      rewrite extract_arm_testbit, apply_arm_testbit by (done || lia). bits_at.
    + intros i Hi Hout. rewrite apply_arm_testbit by done.
      pose proof (Hout (i - 2)) as H. unfold mt_bit in H. bits_at.
    + apply Z.bits_inj'. intros i Hi. rewrite apply_arm_testbit by done.
      destruct (Z.leb_spec 2 i); simpl; [|done].
      rewrite extract_arm_testbit by lia. bits_at.
Qed.

Lemma ptedit_apply_extract_mt_witness :
  u64 (2 ^ 64 - 1) /\ u8 2 /\
  ptedit_extract_mt X86_64 (ptedit_apply_mt X86_64 (2 ^ 64 - 1) 2) = 2 mod 8.
Proof.
  split; [done|]. split; [done|].
  by apply (ptedit_apply_extract_mt X86_64 false (2 ^ 64 - 1) 2).
Defined.

(** ** Searching the register *)

Lemma slot_matches_spec a mts type i :
  slot_matches a mts type i = true <->
  match a with
  | X86_64 => Z.land (Z.shiftr mts (i * 8)) 7 = type
  | AARCH64 =>
      Z.land (Z.shiftr mts (i * 8)) 0xff = type \/
      (Z.land (Z.shiftr mts (i * 8)) 0xf = type /\
       Z.land (Z.shiftr (Z.shiftr mts (i * 8)) 4) 0xf = type)
  end.
Proof.
  unfold slot_matches. destruct a; [by rewrite Z.eqb_eq|].
  destruct (Z.eqb_spec (Z.land (Z.shiftr mts (i * 8)) 0xff) type); [tauto|].
  rewrite andb_true_iff, !Z.eqb_eq. intuition congruence.
Qed.

Lemma testbit_find_step a mts type found i j : 0 <= i < 8 ->
  Z.testbit (find_step a mts type found i) j =
    if slot_matches a mts type i
    then (j <? 8) && (Z.testbit found j || (j =? i)) else Z.testbit found j.
Proof.
  intros Hi. unfold find_step. destruct (slot_matches a mts type i); [|done].
  bits_at.
Qed.

Lemma find_mt_in_testbit a mts type j :
  Z.testbit (find_mt_in a mts type) j = (0 <=? j) && (j <? 8) && slot_matches a mts type j.
Proof.
  unfold find_mt_in, foldl. rewrite !testbit_find_step, Z.bits_0 by lia.
  destruct (Z.leb_spec 0 j); [destruct (Z.ltb_spec j 8)|]; simpl.
  - assert (j = 0 \/ j = 1 \/ j = 2 \/ j = 3 \/ j = 4 \/ j = 5 \/ j = 6 \/ j = 7)
      as Hj by lia.
    destruct Hj as [->|[->|[->|[->|[->|[->|[->| ->]]]]]]];
      repeat case_match; simpl in *; congruence.
  - repeat case_match; simpl; try done; rewrite ?orb_false_r; bits_at.
  - repeat case_match; simpl; bits_at.
Qed.

Lemma ffs_from_spec n i x : 0 <= i ->
  (ffs_from n i x = 0 /\ forall j, i <= j < i + Z.of_nat n -> Z.testbit x j = false) \/
  (exists j, i <= j < i + Z.of_nat n /\ ffs_from n i x = j + 1 /\ Z.testbit x j = true /\
     forall k, i <= k < j -> Z.testbit x k = false).
Proof.
  revert i. induction n as [|n IH]; intros i Hi; cbn [ffs_from].
  { left. split; [done|]. intros; lia. }
  destruct (Z.testbit x i) eqn:E.
  { right. exists i. repeat split; try lia. done. }
  destruct (IH (i + 1) ltac:(lia)) as [[Hr Hz]|(j & Hj & Hr & Ht & Hz)].
  - left. split; [done|]. intros j Hj. destruct (decide (j = i)) as [->|]; [done|].
    apply Hz. lia.
  - right. exists j. repeat split; try lia; [done|]. intros k Hk.
    destruct (decide (k = i)) as [->|]; [done|]. apply Hz. lia.
Qed.

(** ** The stateful functions, against the interface *)

Lemma shr64_Some z k : 0 <= k < 64 -> shr64 z k = Some (Z.shiftr z k).
Proof. intros. unfold shr64. by destruct (Z.leb_spec 0 k), (Z.ltb_spec k 64); try lia. Qed.

Lemma shl64_Some z k : 0 <= k < 64 -> shl64 z k = Some (wrap64 (Z.shiftl z k)).
Proof. intros. unfold shl64. by destruct (Z.leb_spec 0 k), (Z.ltb_spec k 64); try lia. Qed.

Lemma shr64_None z k : 64 <= k -> shr64 z k = None.
Proof. intros. unfold shr64. by destruct (Z.leb_spec 0 k), (Z.ltb_spec k 64); try lia. Qed.

(** The value of slot [mt] of a register, and the register with it replaced. *)
Definition slot_of (a : arch) (mts mt : Z) : Z := Z.land (Z.shiftr mts (mt * 8)) (slot_mask a).
Definition with_slot (a : arch) (mts mt value : Z) : Z :=
  Z.lor (Z.land mts (Z.lnot (Z.shiftl (slot_mask a) (mt * 8)))) (Z.shiftl value (mt * 8)).

(** The slots [ptedit_set_mt] can address: the mask must fit an [int]. *)
Definition last_slot (a : arch) : Z := match a with X86_64 => 3 | AARCH64 => 2 end.

Lemma shl_int_slot a mt : 0 <= mt <= 7 ->
  shl_int (slot_mask a) (mt * 8) =
    if mt <=? last_slot a then Some (Z.shiftl (slot_mask a) (mt * 8)) else None.
Proof.
  intros Hmt.
  assert (mt = 0 \/ mt = 1 \/ mt = 2 \/ mt = 3 \/ mt = 4 \/ mt = 5 \/ mt = 6 \/ mt = 7)
    as H by lia.
  destruct H as [->|[->|[->|[->|[->|[->|[->| ->]]]]]]]; by destruct a.
Qed.

Lemma slot_of_with_slot a mts mt j value :
  0 <= mt <= 7 -> 0 <= j <= 7 -> 0 <= value <= slot_mask a ->
  slot_of a (with_slot a mts mt value) j = if j =? mt then value else slot_of a mts j.
Proof.
  intros Hmt Hj Hv. unfold slot_of, with_slot.
  assert (exists w, slot_mask a = Z.ones w /\ 3 <= w <= 8) as (w & Hw & ?).
  { destruct a; [exists 3|exists 8]; done. }
  assert (0 <= value < 2 ^ w) as Hb. { rewrite Hw, Z.ones_equiv in Hv. lia. }
  rewrite Hw. destruct (Z.eqb_spec j mt) as [->|Hne]; bits.
Qed.

Section laws.
Context {S : Type} `{MtsLaws S} (a : arch).

Lemma ptedit_get_mt_run s mt : mts_ready s -> 0 <= mt <= 7 ->
  ptedit_get_mt a mt s = Ret (slot_of a (mts_reg s) mt) s.
Proof.
  intros Hs Hmt. unfold ptedit_get_mt. rewrite (bind_Ret _ _ _ _ _ (get_mts_reg s Hs)).
  by rewrite shr64_Some by lia.
Qed.

(** [ptedit_find_mt] returns the set of the slots of the register that
    hold the given type, as a bit mask of one byte, and
    [ptedit_find_first_mt] the smallest such slot, or -1 exactly when there
    is none; on x86 a slot of the mask is one [ptedit_get_mt] reports the type
    for.  Neither changes the state. *)
Theorem ptedit_find_mt_spec s type : mts_ready s -> u8 type ->
  exists found r,
    ptedit_find_mt a type s = Ret found s /\ u8 found /\
    ptedit_find_first_mt a type s = Ret r s /\
    (forall i, 0 <= i < 8 ->
       Z.testbit found i = slot_matches a (mts_reg s) type i /\
       (ptedit_get_mt a i s = Ret type s -> Z.testbit found i = true) /\
       (a = X86_64 -> Z.testbit found i = true -> ptedit_get_mt a i s = Ret type s)) /\
    ((r = -1 /\ found = 0) \/
     (0 <= r < 8 /\ Z.testbit found r = true /\
      forall k, 0 <= k < r -> Z.testbit found k = false)).
Proof.
  intros Hs Ht. set (found := find_mt_in a (mts_reg s) type).
  assert (ptedit_find_mt a type s = Ret found s) as Hf.
  { unfold ptedit_find_mt. by rewrite (bind_Ret _ _ _ _ _ (get_mts_reg s Hs)). }
  assert (forall i, Z.testbit found i = true -> 0 <= i < 8) as Hrange.
  { intros i. subst found. rewrite find_mt_in_testbit.
    destruct (Z.leb_spec 0 i), (Z.ltb_spec i 8); simpl; intros; done || lia. }
  assert (0 <= found) as Hpos.
  { destruct (Z.ltb_spec found 0) as [Hneg|]; [|done]. exfalso.
    destruct (Hrange (Z.max 8 (1 + Z.log2 (Z.pred (- found))))); [|lia].
    apply Z.bits_above_log2_neg; [done|lia]. }
  exists found, (builtin_ffs found - 1). split; [done|]. split; [|split; [|split]].
  - split; [done|]. apply bound_of_testbit; [done..|]. intros i Hi.
    destruct (Z.testbit found i) eqn:E; [|done]. apply Hrange in E. lia.
  - unfold ptedit_find_first_mt. by rewrite (bind_Ret _ _ _ _ _ Hf).
  - intros i Hi. rewrite ptedit_get_mt_run by (done || lia).
    assert (Z.testbit found i = slot_matches a (mts_reg s) type i) as ->.
    { subst found. rewrite find_mt_in_testbit.
      by destruct (Z.leb_spec 0 i), (Z.ltb_spec i 8); try lia. }
    split; [done|]. rewrite slot_matches_spec. unfold slot_of.
    destruct a; simpl; split; intros; simplify_eq; auto; congruence.
  - destruct (ffs_from_spec 32 0 found ltac:(done)) as [[Hr Hz]|(j & Hj & Hr & Htrue & Hz)];
      unfold builtin_ffs; rewrite Hr.
    + left. split; [done|]. apply Z.bits_inj'. intros i Hi. rewrite Z.bits_0.
      destruct (Z.testbit found i) eqn:E; [|done]. rewrite <- E. apply Hz.
      apply Hrange in E. lia.
    + right. replace (j + 1 - 1) with j by lia. eauto.
Qed.

(** C11: [ptedit_set_mt] programs one slot: for the slots whose mask fits an
    [int] (0 to 3 on x86, 0 to 2 on AArch64) and a value of the slot's width,
    the slot then reads as the value and every other slot as before.  For the
    remaining slots, up to the documented 7, the mask is an [int] shifted out
    of the range of [int]: the behaviour of the call is undefined. *)
Theorem ptedit_set_mt_spec s mt value :
  mts_ready s -> 0 <= mt <= 7 -> 0 <= value <= slot_mask a ->
  mts_ok (with_slot a (mts_reg s) mt value) ->
  if mt <=? last_slot a then
    exists s', ptedit_set_mt a mt value s = Ret tt s' /\ mts_ready s' /\
      ptedit_get_mt a mt s' = Ret value s' /\
      forall j old, 0 <= j <= 7 -> j <> mt ->
        ptedit_get_mt a j s = Ret old s -> ptedit_get_mt a j s' = Ret old s'
  else ptedit_set_mt a mt value s = Undef.
Proof.
  intros Hs Hmt Hv Hok. pose proof (mts_reg_u64 s Hs) as Hu.
  assert (0 <= last_slot a <= 3) by (by destruct a).
  assert (slot_mask a <= 255) by (by destruct a).
  unfold ptedit_set_mt at 1 2. rewrite (bind_Ret _ _ _ _ _ (get_mts_reg s Hs)).
  rewrite shl_int_slot by lia. destruct (Z.leb_spec mt (last_slot a)); [|done].
  destruct (set_mts_reg s _ Hs Hok) as (s' & Hset & Hreg & Hs').
  exists s'. split; [|split; [done|split]].
  - simpl. rewrite bind_ret_l, shl64_Some by lia. simpl. rewrite bind_ret_l, <- Hset. f_equal.
    assert (0 <= value < 2 ^ 8) by lia. unfold with_slot. bits.
  - rewrite ptedit_get_mt_run, Hreg, slot_of_with_slot, Z.eqb_refl by (done || lia). done.
  - intros j old Hj Hne. rewrite !ptedit_get_mt_run by done. intros [= <-].
    rewrite Hreg, slot_of_with_slot by lia. by destruct (Z.eqb_spec j mt).
Qed.
End laws.

(** The register alone is an implementation of the interface. *)
Module Register.
#[local] Instance ops : MtsOps Z := {
  ptedit_get_mts := gets (fun r => r);
  ptedit_set_mts v := modify (fun _ => wrap64 v) }.

#[local, refine] Instance laws : MtsLaws Z := {
  mts_reg r := r;
  mts_ready := u64;
  mts_ok := u64;
  mts_reg_u64 r H := H;
  get_mts_reg := _;
  set_mts_reg := _ }.
Proof.
  - done.
  - intros s v Hs Hv. exists v. unfold ptedit_set_mts; simpl. unfold modify.
    by rewrite wrap64_id.
Defined.

(** The value Linux programs: WB, WC, UC-, UC, WB, WP, UC-, WT. *)
Definition linux_pat : Z := 0x0407050600070106.

Lemma linux_pat_ready : mts_ready linux_pat.
Proof. change (u64 linux_pat). done. Defined.

Lemma ptedit_find_mt_spec_witness :
  u64 linux_pat /\ ptedit_find_first_mt X86_64 0 linux_pat = Ret 3 linux_pat.
Proof.
  split; [done|].
  destruct (ptedit_find_mt_spec X86_64 linux_pat 0 linux_pat_ready ltac:(done))
    as (found & r & _ & _ & Hr & _).
  rewrite Hr. vm_compute in Hr. injection Hr as <-. reflexivity.
Defined.

Lemma ptedit_set_mt_spec_witness :
  (exists s', ptedit_set_mt X86_64 1 4 linux_pat = Ret tt s' /\
     ptedit_get_mt X86_64 1 s' = Ret 4 s') /\
  ptedit_set_mt X86_64 4 6 linux_pat = Undef.
Proof.
  assert (mts_ok (with_slot X86_64 (mts_reg linux_pat) 1 4)) as Hok1.
  { change (u64 0x0407050600070406). done. }
  assert (mts_ok (with_slot X86_64 (mts_reg linux_pat) 4 6)) as Hok2.
  { change (u64 0x0407050600070106). done. }
  split.
  - destruct (ptedit_set_mt_spec X86_64 linux_pat 1 4 linux_pat_ready ltac:(done)
      ltac:(done) Hok1) as (s' & H1 & _ & H2 & _).
    exists s'. split; [exact H1|exact H2].
  - exact (ptedit_set_mt_spec X86_64 linux_pat 4 6 linux_pat_ready ltac:(done) ltac:(done) Hok2).
Defined.
End Register.

(** ** Names *)

(** The name of a MAIR value: the cacheability once when inner (low nibble)
    and outer (high nibble) agree, else both, marked I and O. *)
Definition mair_name (mt : Z) : string :=
  let lo := Z.land mt 0xf in
  let hi := Z.land (Z.shiftr mt 4) 0xf in
  (if (lo =? hi)%Z then nibble_name lo
   else "I" ++ nibble_name lo ++ "O" ++ nibble_name hi)%string.

Definition mt_name (a : arch) (mt : Z) : option string :=
  match a with
  | X86_64 => if mt <=? 7 then mts_x86 !! Z.to_nat mt else None
  | AARCH64 => Some (mair_name mt)
  end.

Definition all_bytes : list Z := map Z.of_nat (seq 0 256).

Lemma all_bytes_complete z : u8 z -> z ∈ all_bytes.
Proof.
  intros Hz. apply list_elem_of_In, in_map_iff. exists (Z.to_nat z).
  split; [unfold u8 in Hz; lia|]. apply in_seq. unfold u8 in Hz. lia.
Qed.

Definition name_ok (a : arch) (mt : Z) : bool :=
  match ptedit_mt_to_string (S := unit) a mt tt with
  | Ret o tt =>
      bool_decide (o = mt_name a mt) &&
      match o with
      | Some n => (0 <? String.length n)%nat && (String.length n <? 16)%nat
      | None => bool_decide (a = X86_64) && (7 <? mt)
      end
  | _ => false
  end.

Lemma constants_named a : Forall (fun '(v, n) => u8 v /\ mt_name a v = Some n) (PTEDIT_MT a).
Proof. destruct a; repeat constructor; done. Qed.

Lemma all_names_ok a : forallb (name_ok a) all_bytes = true.
Proof. destruct a; vm_compute; reflexivity. Qed.

(** [ptedit_mt_to_string] is defined on every byte and never overruns its
    16-byte buffer: on x86 it names the values 0 to 7 and returns null above,
    on AArch64 it names every value, with one cacheability when inner and
    outer are the same and both, marked, otherwise; and a constant
    [PTEDIT_MT_*] gets its own name. *)
Theorem ptedit_mt_to_string_spec a mt : u8 mt ->
  exists o, ptedit_mt_to_string (S := unit) a mt tt = Ret o tt /\ o = mt_name a mt /\
    (forall n, o = Some n -> (0 < String.length n < 16)%nat) /\
    (o = None <-> a = X86_64 /\ 7 < mt) /\
    (forall n, (mt, n) ∈ PTEDIT_MT a -> o = Some n).
Proof.
  intros Hmt. pose proof (constants_named a) as Hc. rewrite Forall_forall in Hc. pose proof (all_names_ok a) as H. rewrite forallb_forall in H.
  specialize (H mt (proj1 (list_elem_of_In _ _) (all_bytes_complete mt Hmt))).
  unfold name_ok in H. destruct (ptedit_mt_to_string a mt tt) as [o []| |]; [|done..].
  exists o. split; [done|]. apply andb_true_iff in H as [Ho%bool_decide_eq_true Hn].
  split; [done|]. apply and_assoc.
  split; [|intros n Hin; rewrite Ho; by destruct (Hc _ Hin)].
  destruct o as [n|].
  - apply andb_true_iff in Hn as [H1%Nat.ltb_lt H2%Nat.ltb_lt].
    split; [intros n' [= <-]; lia|]. split; [done|]. intros [-> Hgt].
    unfold mt_name in Ho. by destruct (Z.leb_spec mt 7); [lia|].
  - apply andb_true_iff in Hn as [H1%bool_decide_eq_true H2%Z.ltb_lt]. done.
Qed.

Lemma ptedit_mt_to_string_spec_witness :
  u8 0x44 /\ exists o, ptedit_mt_to_string (S := unit) AARCH64 0x44 tt = Ret o tt /\
    o = mt_name AARCH64 0x44 /\ mt_name AARCH64 0x44 = Some "UC"%string.
Proof.
  split; [done|].
  destruct (ptedit_mt_to_string_spec AARCH64 0x44 ltac:(done)) as (o & H1 & H2 & _).
  exists o. split; [exact H1|]. split; [exact H2|reflexivity].
Defined.
