(* ===== verification/PhysMem.v ===== *)
(** * Physical memory

    What the program reads and writes page tables through: [/proc/umem], the
    kernel's direct mapping and the mapping of physical memory into the
    process all reach the same physical memory.  The memory itself is not code
    of the repository, so it is an interface: reading and writing a range of
    bytes, either of which the system may refuse, with the laws of a memory.
    [ram] is a memory that implements it. *)

From stdpp Require Import base numbers list gmap.
From S2P Require Import Prelude.
Local Open Scope Z_scope.

(** [pm_read p a n] are the bytes a read of [n] bytes at [a] returns (fewer
    than [n] on a short read), [None] when it fails. *)
Class PhysMem (P : Type) := {
  pm_read : P -> Z -> nat -> option (list Z);
  pm_write : P -> Z -> list Z -> option P }.

Definition disjoint_ranges (a : Z) (n : nat) (a' : Z) (n' : nat) : Prop :=
  a + Z.of_nat n <= a' \/ a' + Z.of_nat n' <= a.

Class PhysMemLaws (P : Type) `{PhysMem P} := {
  pm_read_ok p a n bs : pm_read p a n = Some bs ->
    Forall byte_ok bs /\ (length bs <= n)%nat;
  pm_read_written p a bs p' : Forall byte_ok bs -> pm_write p a bs = Some p' ->
    pm_read p' a (length bs) = Some bs;
  pm_read_elsewhere p a bs p' a' n : pm_write p a bs = Some p' ->
    disjoint_ranges a (length bs) a' n -> pm_read p' a' n = pm_read p a' n;
  (** the bytes of a part of a range that is read in full *)
  pm_read_part p a n bs i k : pm_read p a n = Some bs -> length bs = n -> (i + k <= n)%nat ->
    pm_read p (a + Z.of_nat i) k = Some (take k (drop i bs));
  (** whether a range can be written depends on the range alone *)
  pm_writable p a bs p' a' bs' bs'' : pm_write p a bs = Some p' ->
    length bs' = length bs'' ->
    is_Some (pm_write p' a' bs') <-> is_Some (pm_write p a' bs'') }.

Section words.
Context {P : Type} `{PhysMem P}.

(** A [size_t] in memory. *)
Definition load64 (p : P) (a : Z) : option Z := word_of <$> pm_read p a 8.
Definition store64 (p : P) (a v : Z) : option P := pm_write p a (bytes_of 8 v).

(** Two memories no read can tell apart. *)
#[export] Instance phys_equiv : Equiv P := fun p q =>
  forall a n, pm_read p a n = pm_read q a n.

#[export] Instance phys_equivalence : Equivalence (≡@{P}).
Proof.
  split.
  - intros p a n. done.
  - intros p q Hpq a n. by rewrite (Hpq a n).
  - intros p q r Hpq Hqr a n. by rewrite (Hpq a n).
Qed.

#[export] Instance load64_proper : Proper ((≡) ==> (=) ==> (=)) load64.
Proof. intros p q Hpq a ? <-. unfold load64. by rewrite (Hpq a 8%nat). Qed.
End words.

(** ** RAM: the bytes from 0 to a size *)

Record ram := mk_ram { ram_size : Z; ram_bytes : gmap Z Z }.

Definition ram_ok (r : ram) (a : Z) (n : nat) : bool :=
  (0 <=? a) && (a + Z.of_nat n <=? ram_size r).

Definition read_bytes (m : gmap Z Z) (a : Z) (n : nat) : list Z :=
  map (fun k => Z.land (default 0 (m !! (a + Z.of_nat k))) (Z.ones 8)) (seq 0 n).

Fixpoint write_bytes (m : gmap Z Z) (a : Z) (bs : list Z) : gmap Z Z :=
  match bs with
  | [] => m
  | b :: bs => <[a := b]> (write_bytes m (a + 1) bs)
  end.

#[export] Instance ram_ops : PhysMem ram := {
  pm_read r a n := if ram_ok r a n then Some (read_bytes (ram_bytes r) a n) else None;
  pm_write r a bs :=
    if ram_ok r a (length bs)
    then Some (mk_ram (ram_size r) (write_bytes (ram_bytes r) a bs)) else None }.

(** * Theorems *)

Lemma lookup_write_bytes m a bs i :
  write_bytes m a bs !! i =
    if (a <=? i) && (i <? a + Z.of_nat (length bs)) then bs !! Z.to_nat (i - a) else m !! i.
Proof.
  revert a. induction bs as [|b bs IH]; intros a; cbn [write_bytes length].
  { destruct (Z.leb_spec a i), (Z.ltb_spec i (a + Z.of_nat 0)); simpl; try done; lia. }
  destruct (decide (a = i)) as [<-|Hne].
  - rewrite lookup_insert_eq, Z.sub_diag, Z.leb_refl.
    destruct (Z.ltb_spec a (a + Z.of_nat (S (length bs)))); [done|lia].
  - rewrite lookup_insert_ne, IH by done.
    destruct (Z.leb_spec a i), (Z.leb_spec (a + 1) i); try lia; simpl; [|done].
    replace (a + 1 + Z.of_nat (length bs)) with (a + Z.of_nat (S (length bs))) by lia.
    destruct (_ <? _); [|done].
    replace (Z.to_nat (i - a)) with (S (Z.to_nat (i - (a + 1)))) by lia. done.
Qed.

Lemma byte_ok_id b : byte_ok b -> Z.land b (Z.ones 8) = b.
Proof. intros Hb. unfold byte_ok in Hb. bits. Qed.

Lemma read_bytes_written m a bs :
  Forall byte_ok bs -> read_bytes (write_bytes m a bs) a (length bs) = bs.
Proof.
  intros Hbs. apply list_eq. intros k. unfold read_bytes.
  rewrite list_lookup_fmap. destruct (decide (k < length bs)%nat) as [Hk|Hk].
  - rewrite lookup_seq_lt by done. simpl. rewrite lookup_write_bytes.
    destruct (Z.leb_spec a (a + Z.of_nat k)); [|lia].
    destruct (Z.ltb_spec (a + Z.of_nat k) (a + Z.of_nat (length bs))); [|lia]. simpl.
    replace (Z.to_nat (a + Z.of_nat k - a)) with k by lia.
    destruct (bs !! k) as [b|] eqn:E; simpl.
    + f_equal. apply byte_ok_id. by eapply Forall_lookup_1.
    + apply lookup_ge_None in E. lia.
  - rewrite lookup_seq_ge by lia. simpl. symmetry. apply lookup_ge_None. lia.
Qed.

Lemma read_bytes_elsewhere m a bs a' n :
  disjoint_ranges a (length bs) a' n ->
  read_bytes (write_bytes m a bs) a' n = read_bytes m a' n.
Proof.
  intros Hd. unfold read_bytes. apply map_ext_in. intros k Hk%in_seq.
  rewrite lookup_write_bytes. unfold disjoint_ranges in Hd.
  by destruct (Z.leb_spec a (a' + Z.of_nat k)),
    (Z.ltb_spec (a' + Z.of_nat k) (a + Z.of_nat (length bs))); simpl; try lia.
Qed.

Lemma read_bytes_part m a n i k : (i + k <= n)%nat ->
  read_bytes m (a + Z.of_nat i) k = take k (drop i (read_bytes m a n)).
Proof.
  intros Hk. unfold read_bytes. rewrite <- fmap_drop, <- fmap_take, drop_seq, take_seq.
  replace (k `min` (n - i))%nat with k by lia. rewrite Nat.add_0_l.
  apply list_eq. intros j. rewrite !list_lookup_fmap.
  destruct (decide (j < k)%nat).
  - rewrite !lookup_seq_lt by done. simpl. by replace (a + Z.of_nat i + Z.of_nat j)
      with (a + Z.of_nat (i + j)) by lia.
  - by rewrite !lookup_seq_ge by lia.
Qed.

#[export, refine] Instance ram_laws : PhysMemLaws ram := {
  pm_read_ok := _; pm_read_written := _; pm_read_elsewhere := _; pm_read_part := _;
  pm_writable := _ }.
Proof.
  - intros p a n bs. simpl. destruct (ram_ok p a n); [|done]. intros [= <-]. split.
    + apply Forall_forall. intros b Hb. apply list_elem_of_In, in_map_iff in Hb as (k & <- & _).
      apply byte_ok_land.
    + unfold read_bytes. by rewrite length_map, length_seq.
  - intros p a bs p' Hbs. simpl. destruct (ram_ok p a (length bs)) eqn:E; [|done].
    intros [= <-]. unfold ram_ok in *. simpl. rewrite E. f_equal. by apply read_bytes_written.
  - intros p a bs p' a' n. simpl. destruct (ram_ok p a (length bs)); [|done].
    intros [= <-] Hd. unfold ram_ok. simpl. destruct (_ && _); [|done].
    f_equal. by apply read_bytes_elsewhere.
  - intros p a n bs i k. simpl. destruct (ram_ok p a n) eqn:E; [|done]. intros [= <-] _ Hk.
    unfold ram_ok in *. apply andb_true_iff in E as [Ha%Z.leb_le Hb%Z.leb_le].
    destruct (Z.leb_spec 0 (a + Z.of_nat i)), (Z.leb_spec (a + Z.of_nat i + Z.of_nat k) (ram_size p));
      try lia. simpl. f_equal. by apply read_bytes_part.
  - intros p a bs p' a' bs' bs''. simpl. destruct (ram_ok p a (length bs)); [|done].
    intros [= <-] Hl. unfold ram_ok. simpl. rewrite Hl.
    destruct (_ && _); split; intros Hs; [by eexists|by eexists|by destruct Hs|by destruct Hs].
Qed.

Lemma ram_writable r a bs : ram_ok r a (length bs) = true -> is_Some (pm_write r a bs).
Proof. intros E. simpl. rewrite E. by eexists. Qed.

Section laws.
Context {P : Type} `{PhysMemLaws P}.

Lemma load64_u64 p a v : load64 p a = Some v -> u64 v.
Proof.
  unfold load64. destruct (pm_read p a 8) as [bs|] eqn:E; [|done]. intros [= <-].
  apply pm_read_ok in E as [??]. by apply word_of_u64.
Qed.

Lemma load64_store64 p a v p' : u64 v -> store64 p a v = Some p' -> load64 p' a = Some v.
Proof.
  intros Hv Hs. unfold load64. rewrite <- (length_bytes_of 8 v).
  rewrite (pm_read_written _ _ _ _ (bytes_of_ok 8 v) Hs). simpl. f_equal.
  by apply (word_of_bytes_of_u64 v).
Qed.

Lemma load64_store64_ne p a v p' b :
  store64 p a v = Some p' -> disjoint_ranges a 8 b 8 -> load64 p' b = load64 p b.
Proof.
  intros Hs Hd. unfold load64. f_equal. eapply pm_read_elsewhere; [exact Hs|].
  by rewrite length_bytes_of.
Qed.

Lemma store64_writable p a v p' b w w' :
  store64 p a v = Some p' -> is_Some (store64 p' b w) <-> is_Some (store64 p b w').
Proof. intros Hs. eapply pm_writable; [exact Hs|]. by rewrite !length_bytes_of. Qed.

Lemma store64_any p a v w : is_Some (store64 p a v) -> is_Some (store64 p a w).
Proof.
  intros [m Hm]. pose proof (store64_writable p a v m a w w Hm) as H1.
  pose proof (store64_writable p a v m a w v Hm) as H2. apply H1, H2. by eexists.
Qed.
End laws.
