(* ===== verification/Linux.v ===== *)
(** * What the kernel module uses of Linux

    The kernel code the module calls is not part of the repository: it is the
    interfaces of this file.  Each class lists the functions the module calls,
    the classes named [...Laws] their documented behaviour, and the instances
    at the end are concrete implementations of the laws. *)

From stdpp Require Import base numbers list gmap.
From S2P Require Import Prelude Entry PhysMem.
Local Open Scope Z_scope.

(** ** Reader-writer semaphores ([mmap_sem], [mmap_lock])

    [None] is a caller that sleeps. *)
Class RwSem (L : Type) := {
  down_read : L -> option L;
  up_read : L -> L;
  down_write : L -> option L;
  up_write : L -> L }.

Class RwSemLaws (L : Type) `{RwSem L} := {
  up_down_read l l' : down_read l = Some l' -> up_read l' = l;
  up_down_write l l' : down_write l = Some l' -> up_write l' = l;
  (** a writer excludes readers and other writers, itself included *)
  writer_excludes l l' : down_write l = Some l' -> down_read l' = None /\ down_write l' = None }.

(** ** Page tables *)

(** The kernel's page-table macros, on the values of entries and on kernel
    pointers to them.  [p4d_offset], [pud_offset], [pmd_offset] and
    [pte_offset_map] receive the pointer to the upper entry together with the
    value it points to, which the module has loaded before it calls them. *)
Class LinuxPT (P : Type) := {
  virt_to_phys : Z -> Z;
  phys_to_virt : Z -> Z;
  pgd_offset : Z -> Z -> Z;
  p4d_offset : Z -> Z -> Z -> Z;
  pud_offset : Z -> Z -> Z -> Z;
  pmd_offset : Z -> Z -> Z -> Z;
  pte_offset_map : Z -> Z -> Z -> option Z;
  pgd_none : Z -> bool;
  pgd_bad : Z -> bool;
  p4d_none : Z -> bool;
  p4d_bad : Z -> bool;
  pud_none : Z -> bool;
  pmd_none : Z -> bool;
  (** [pud_large] and [pmd_large] of x86 *)
  x86_pud_large : Z -> bool;
  x86_pmd_large : Z -> bool;
  (** [set_pgd], [set_p4d], [set_pud], [set_pmd] and [set_pte] *)
  set_pxd : level -> P -> Z -> Z -> option P;
  (** [find_vma(mm, addr)]: the start of the first area that ends above [addr] *)
  find_vma : P -> Z -> Z -> option Z }.

(** The documented behaviour on x86-64 with four levels, 4 KB pages and no
    page-table isolation: the direct mapping is a translation; the p4d level is
    folded into the pgd, so the pgd tests are constant and [p4d_offset] is the
    identity; each other offset function indexes, with nine bits of the
    address, the table whose frame is in bits 12 to 51 of the upper entry; an
    entry is none when no bit but accessed and dirty is set; a table entry with
    no other flags than present, writable, user, accessed and dirty is not bad;
    an entry maps a large page when its bit 7 is set; and a setter stores the
    entry. *)
Definition x86_frame (e : Z) : Z := Z.land e (Z.shiftl (Z.ones 40) 12).
Definition x86_index (shift addr : Z) : Z := Z.land (Z.shiftr addr shift) (Z.ones 9).
Definition x86_none (e : Z) : bool := Z.land e (not64 (Z.lor (bit 5) (bit 6))) =? 0.
Definition x86_good_table (e : Z) : bool :=
  Z.land e (not64 (Z.lor (Z.ones 3) (Z.lor (Z.lor (bit 5) (bit 6)) (Z.shiftl (Z.ones 40) 12)))) =? 0.

Class LinuxX86 (P : Type) `{PhysMem P} `{LinuxPT P} := {
  virt_of_phys p : virt_to_phys (phys_to_virt p) = p;
  phys_to_virt_add p k : phys_to_virt (p + k) = phys_to_virt p + k;
  pgd_offset_x86 pgd addr : pgd_offset pgd addr = pgd + 8 * x86_index 39 addr;
  p4d_offset_x86 p v addr : p4d_offset p v addr = p;
  pud_offset_x86 p v addr :
    pud_offset p v addr = phys_to_virt (x86_frame v) + 8 * x86_index 30 addr;
  pmd_offset_x86 p v addr : Z.testbit v 7 = false ->
    pmd_offset p v addr = phys_to_virt (x86_frame v) + 8 * x86_index 21 addr;
  pte_offset_x86 p v addr : Z.testbit v 7 = false ->
    pte_offset_map p v addr = Some (phys_to_virt (x86_frame v) + 8 * x86_index 12 addr);
  pgd_none_x86 v : pgd_none v = false;
  pgd_bad_x86 v : pgd_bad v = false;
  p4d_none_x86 v : p4d_none v = x86_none v;
  p4d_bad_x86 v : x86_good_table v = true -> p4d_bad v = false;
  pud_none_x86 v : pud_none v = x86_none v;
  pmd_none_x86 v : pmd_none v = x86_none v;
  pud_large_x86 v : x86_pud_large v = Z.testbit v 7 && Z.testbit v 0;
  pmd_large_x86 v : x86_pmd_large v = Z.testbit v 7;
  set_pxd_x86 l p a v : set_pxd l p a v = store64 p (virt_to_phys a) v }.

(** ** The TLB

    [tlb_cached t cpu mm pcid addr]: [cpu] may translate the page of [addr] in
    the address space [mm] with an entry it cached under the tag [pcid].
    [tlb_global t cpu addr]: it may translate it with a global entry, which it
    made from a page-table entry with the global bit set and which it uses in
    every address space and under every tag. *)
Class TlbOps (T : Type) := {
  tlb_cached : T -> Z -> Z -> Z -> Z -> bool;
  tlb_global : T -> Z -> Z -> bool;
  (** [flush_tlb_mm_range(mm, start, end, stride_shift, freed_tables)], called
      on the CPU of the first argument, which runs in the address space of the
      second *)
  flush_tlb_mm_range : Z -> option Z -> Z -> Z -> Z -> Z -> bool -> T -> T;
  (** [invpcid_flush_one(pcid, addr)] on a CPU: INVPCID of type 0 *)
  invpcid_flush_one : Z -> Z -> Z -> T -> T;
  (** a write of CR4 on a CPU, with the old and the new value *)
  write_cr4 : Z -> Z -> Z -> T -> T;
  (** the [tlbi vmalle1is] of AArch64 *)
  tlbi_vmalle1is : T -> T;
  (** [flush_tlb_page(vma, addr)], of the address space of the vma *)
  flush_tlb_page : Z -> Z -> T -> T }.

(** Every translation of the first TLB is one of the second. *)
Definition tlb_le {T} `{TlbOps T} (t' t : T) : Prop :=
  (forall cpu mm pcid addr, tlb_cached t' cpu mm pcid addr = true -> tlb_cached t cpu mm pcid addr = true) /\
  (forall cpu addr, tlb_global t' cpu addr = true -> tlb_global t cpu addr = true).

#[export] Instance tlb_le_preorder {T} `{TlbOps T} : PreOrder (tlb_le (T := T)).
Proof. split; [by split|]. intros t1 t2 t3 [] []. split; auto. Qed.

(** The manuals and the kernel say of every operation what it drops at least;
    it may drop more. *)
Class TlbLaws (T : Type) `{TlbOps T} := {
  (** x86 has twelve-bit tags *)
  tlb_pcid_range t cpu mm pcid addr :
    tlb_cached t cpu mm pcid addr = true -> 0 <= pcid < 4096;
  (** translations are cached by page *)
  tlb_page t cpu mm pcid addr addr' : Z.shiftr addr 12 = Z.shiftr addr' 12 ->
    tlb_cached t cpu mm pcid addr = tlb_cached t cpu mm pcid addr';
  tlb_global_page t cpu addr addr' : Z.shiftr addr 12 = Z.shiftr addr' 12 ->
    tlb_global t cpu addr = tlb_global t cpu addr';
  (** no operation adds a translation *)
  mm_range_le t c o mm lo hi sh fr : tlb_le (flush_tlb_mm_range c o mm lo hi sh fr t) t;
  invpcid_le t cpu pcid addr : tlb_le (invpcid_flush_one cpu pcid addr t) t;
  cr4_le t cpu old new : tlb_le (write_cr4 cpu old new t) t;
  flush_page_le t mm addr : tlb_le (flush_tlb_page mm addr t) t;
  (** a flush of a range drops, for its address space, the translations of the
      page it starts in *)
  cached_own_range t c o mm lo hi sh fr cpu pcid addr :
    lo < hi -> Z.shiftr addr 12 = Z.shiftr lo 12 ->
    tlb_cached (flush_tlb_mm_range c o mm lo hi sh fr t) cpu mm pcid addr = false;
  (** for a page at most it is done with INVLPG on a CPU that runs in the
      address space, which drops global entries too *)
  global_own_range t c mm lo hi sh fr addr :
    lo < hi <= lo + 4096 -> Z.shiftr addr 12 = Z.shiftr lo 12 ->
    tlb_global (flush_tlb_mm_range c (Some mm) mm lo hi sh fr t) c addr = false;
  (** INVPCID of type 0 drops the translations of a page under a tag, except
      global ones *)
  cached_own_invpcid t cpu mm pcid addr addr' : Z.shiftr addr' 12 = Z.shiftr addr 12 ->
    tlb_cached (invpcid_flush_one cpu pcid addr t) cpu mm pcid addr' = false;
  (** a write that changes CR4.PGE (bit 7) empties the TLB of the CPU *)
  cached_own_cr4 t cpu old new mm pcid addr : Z.testbit old 7 <> Z.testbit new 7 ->
    tlb_cached (write_cr4 cpu old new t) cpu mm pcid addr = false;
  global_own_cr4 t cpu old new addr : Z.testbit old 7 <> Z.testbit new 7 ->
    tlb_global (write_cr4 cpu old new t) cpu addr = false;
  cached_after_vmalle1 t cpu mm pcid addr :
    tlb_cached (tlbi_vmalle1is t) cpu mm pcid addr = false;
  global_after_vmalle1 t cpu addr : tlb_global (tlbi_vmalle1is t) cpu addr = false;
  cached_own_page t mm addr cpu pcid addr' : Z.shiftr addr' 12 = Z.shiftr addr 12 ->
    tlb_cached (flush_tlb_page mm addr t) cpu mm pcid addr' = false }.

Lemma tlb_le_cached {T} `{TlbOps T} (t' t : T) cpu mm pcid addr :
  tlb_le t' t -> tlb_cached t cpu mm pcid addr = false -> tlb_cached t' cpu mm pcid addr = false.
Proof. intros [Hle _] Ht. apply not_true_iff_false. intros E%Hle. congruence. Qed.

Lemma tlb_le_global {T} `{TlbOps T} (t' t : T) cpu addr :
  tlb_le t' t -> tlb_global t cpu addr = false -> tlb_global t' cpu addr = false.
Proof. intros [_ Hle] Ht. apply not_true_iff_false. intros E%Hle. congruence. Qed.

(** * Implementations *)

(** A counting semaphore. *)
Record rwsem := mk_rwsem { readers : nat; writer : bool }.

#[export] Instance rwsem_ops : RwSem rwsem := {
  down_read l := if writer l then None else Some (mk_rwsem (S (readers l)) false);
  up_read l := mk_rwsem (pred (readers l)) (writer l);
  down_write l := if writer l || negb (Nat.eqb (readers l) 0)
                  then None else Some (mk_rwsem 0 true);
  up_write l := mk_rwsem (readers l) false }.

#[export, refine] Instance rwsem_laws : RwSemLaws rwsem := {
  up_down_read := _; up_down_write := _; writer_excludes := _ }.
Proof.
  - intros [r w] l'; simpl. destruct w; [done|]. by intros [= <-].
  - intros [r w] l'; simpl. destruct w, (Nat.eqb_spec r 0); simpl; try done.
    intros [= <-]. by subst.
  - intros [r w] l'; simpl. destruct w, (Nat.eqb r 0); simpl; try done. by intros [= <-].
Qed.

(** A semaphore behaves as the number of its readers and whether it has a
    writer: a reader waits for the writer, a writer for everybody. *)
Class RwCount (L : Type) `{RwSem L} := {
  sem_count : L -> rwsem;
  count_down_read l : sem_count <$> down_read l = down_read (sem_count l);
  count_up_read l : sem_count (up_read l) = up_read (sem_count l);
  count_down_write l : sem_count <$> down_write l = down_write (sem_count l);
  count_up_write l : sem_count (up_write l) = up_write (sem_count l) }.

#[export, refine] Instance rwsem_count : RwCount rwsem := { sem_count l := l }.
Proof.
  all: intros l; try done.
  - by destruct (down_read l).
  - by destruct (down_write l).
Defined.

(** Four-level x86-64 on any memory. *)
Definition PAGE_OFFSET : Z := 0xffff888000000000.

Section x86.
Context {P : Type} `{PhysMem P}.

Definition x86_entry_at (v shift addr : Z) : Z :=
  x86_frame v + PAGE_OFFSET + 8 * x86_index shift addr.

#[export] Instance linux_x86_ops : LinuxPT P := {
  virt_to_phys v := v - PAGE_OFFSET;
  phys_to_virt p := p + PAGE_OFFSET;
  pgd_offset pgd addr := pgd + 8 * x86_index 39 addr;
  p4d_offset p v addr := p;
  pud_offset p v addr := x86_entry_at v 30 addr;
  pmd_offset p v addr := x86_entry_at v 21 addr;
  pte_offset_map p v addr := Some (x86_entry_at v 12 addr);
  pgd_none v := false;
  pgd_bad v := false;
  p4d_none := x86_none;
  p4d_bad v := negb (x86_good_table v);
  pud_none := x86_none;
  pmd_none := x86_none;
  x86_pud_large v := Z.testbit v 7 && Z.testbit v 0;
  x86_pmd_large v := Z.testbit v 7;
  set_pxd l p a v := store64 p (a - PAGE_OFFSET) v;
  find_vma p mm addr := Some 0 }.

#[export, refine] Instance linux_x86_laws : LinuxX86 P := {
  virt_of_phys := _ }.
Proof.
  all: intros; simpl; try done; try lia.
  by apply negb_false_iff.
Qed.
End x86.

(** A TLB as the list of its entries; for a global one the address space and
    the tag are those it was made in. *)
Record tlb_entry := mk_tlb { te_cpu : Z; te_mm : Z; te_pcid : Z; te_page : Z; te_global : bool }.

Definition te_hits (cpu mm pcid addr : Z) (e : tlb_entry) : bool :=
  negb (te_global e) && (te_cpu e =? cpu) && (te_mm e =? mm) && (te_pcid e =? pcid) &&
  (te_page e =? Z.shiftr addr 12) && (0 <=? pcid) && (pcid <? 4096).
Definition te_hits_global (cpu addr : Z) (e : tlb_entry) : bool :=
  te_global e && (te_cpu e =? cpu) && (te_page e =? Z.shiftr addr 12).

Definition keep (f : tlb_entry -> bool) (t : list tlb_entry) : list tlb_entry :=
  List.filter (fun e => negb (f e)) t.

(** A flush of a range reaches a global entry on the CPU that executes it. *)
Definition te_in_range (c : Z) (o : option Z) (mm lo hi : Z) (e : tlb_entry) : bool :=
  (if te_global e then (te_cpu e =? c) && bool_decide (o = Some mm) else te_mm e =? mm) &&
  (Z.shiftr lo 12 <=? te_page e) && (te_page e <=? Z.shiftr (hi - 1) 12).

Lemma start_in_range lo hi : lo < hi ->
  (Z.shiftr lo 12 <=? Z.shiftr lo 12) && (Z.shiftr lo 12 <=? Z.shiftr (hi - 1) 12) = true.
Proof.
  intros Hlo. rewrite !Z.shiftr_div_pow2 by done. rewrite Z.leb_refl. apply Z.leb_le, Z.div_le_mono; lia.
Qed.

#[export] Instance tlb_ops : TlbOps (list tlb_entry) := {
  tlb_cached t cpu mm pcid addr := existsb (te_hits cpu mm pcid addr) t;
  tlb_global t cpu addr := existsb (te_hits_global cpu addr) t;
  flush_tlb_mm_range c o mm lo hi sh fr := keep (te_in_range c o mm lo hi);
  invpcid_flush_one cpu pcid addr :=
    keep (fun e => negb (te_global e) && (te_cpu e =? cpu) && (te_pcid e =? pcid) &&
                   (te_page e =? Z.shiftr addr 12));
  write_cr4 cpu old new :=
    keep (fun e => (te_cpu e =? cpu) && xorb (Z.testbit old 7) (Z.testbit new 7));
  tlbi_vmalle1is := keep (fun _ => true);
  flush_tlb_page mm addr :=
    keep (fun e => (te_global e || (te_mm e =? mm)) && (te_page e =? Z.shiftr addr 12)) }.

Lemma existsb_keep (f g : tlb_entry -> bool) (b : bool) t :
  (forall e, f e = true -> g e = b) ->
  existsb f (keep g t) = existsb f t && negb b.
Proof.
  intros H. induction t as [|e t IH]; [done|]. unfold keep in *. simpl.
  destruct (f e) eqn:E; simpl.
  - rewrite (H e E). destruct b; simpl; [by rewrite IH, andb_false_r|by rewrite E].
  - destruct (g e); simpl; [done|]. by rewrite E.
Qed.

Lemma existsb_keep_le (f g : tlb_entry -> bool) t : existsb f (keep g t) = true -> existsb f t = true.
Proof.
  rewrite !existsb_exists. intros (e & [He _]%filter_In & Hf). by exists e.
Qed.

Lemma te_hits_fields cpu mm pcid addr e : te_hits cpu mm pcid addr e = true ->
  te_global e = false /\ te_cpu e = cpu /\ te_mm e = mm /\ te_pcid e = pcid /\
  te_page e = Z.shiftr addr 12 /\ 0 <= pcid < 4096.
Proof.
  unfold te_hits. rewrite !andb_true_iff, !Z.eqb_eq, Z.leb_le, Z.ltb_lt, negb_true_iff. tauto.
Qed.

Lemma te_hits_global_fields cpu addr e : te_hits_global cpu addr e = true ->
  te_global e = true /\ te_cpu e = cpu /\ te_page e = Z.shiftr addr 12.
Proof. unfold te_hits_global. rewrite !andb_true_iff, !Z.eqb_eq. tauto. Qed.

Lemma keep_le (f : tlb_entry -> bool) t : tlb_le (keep f t) t.
Proof. split; intros *; apply existsb_keep_le. Qed.

(** Dropping all entries that match leaves none of them. *)
Lemma existsb_dropped (f g : tlb_entry -> bool) t :
  (forall e, f e = true -> g e = true) -> existsb f (keep g t) = false.
Proof. intros Hfg. by rewrite (existsb_keep f g true t Hfg), andb_false_r. Qed.

#[export, refine] Instance tlb_laws : TlbLaws (list tlb_entry) := {
  mm_range_le t c o mm lo hi sh fr := keep_le _ t;
  invpcid_le t cpu pcid addr := keep_le _ t;
  cr4_le t cpu old new := keep_le _ t;
  flush_page_le t mm addr := keep_le _ t }.
Proof.
  - intros t cpu mm pcid addr [e [_ He]]%existsb_exists. apply te_hits_fields in He. tauto.
  - intros t cpu mm pcid addr addr' Ha. simpl. unfold te_hits. by rewrite Ha.
  - intros t cpu addr addr' Ha. simpl. unfold te_hits_global. by rewrite Ha.
  - intros t c o mm lo hi sh fr cpu pcid addr Hlo Ha. apply existsb_dropped.
    intros e (Hg & _ & Hm & _ & Hp & _)%te_hits_fields. unfold te_in_range.
    by rewrite Hg, Hm, Hp, Z.eqb_refl, Ha, <- andb_assoc, start_in_range.
  - intros t c mm lo hi sh fr addr [Hlo _] Ha. apply existsb_dropped.
    intros e (Hg & Hc & Hp)%te_hits_global_fields. unfold te_in_range.
    by rewrite Hg, Hc, Hp, Z.eqb_refl, bool_decide_true, Ha, <- andb_assoc, start_in_range.
  - intros t cpu mm pcid addr addr' Ha. apply existsb_dropped.
    intros e (Hg & Hc & _ & Hp & Hpage & _)%te_hits_fields.
    by rewrite Hg, Hc, Hp, Hpage, Ha, !Z.eqb_refl.
  - intros t cpu old new mm pcid addr Hpge. apply existsb_dropped.
    intros e (_ & Hc & _)%te_hits_fields. rewrite Hc, Z.eqb_refl. by destruct (Z.testbit old 7), (Z.testbit new 7).
  - intros t cpu old new addr Hpge. apply existsb_dropped.
    intros e (_ & Hc & _)%te_hits_global_fields. rewrite Hc, Z.eqb_refl. by destruct (Z.testbit old 7), (Z.testbit new 7).
  - intros t cpu mm pcid addr. by apply existsb_dropped.
  - intros t cpu addr. by apply existsb_dropped.
  - intros t mm addr cpu pcid addr' Ha. apply existsb_dropped.
    intros e (_ & _ & Hm & _ & Hpage & _)%te_hits_fields.
    by rewrite Hm, Hpage, Ha, !Z.eqb_refl, orb_true_r.
Qed.
