(* ===== verification/Kernel.v ===== *)
(** * The kernel module

    [module/pteditor.c]: the device's open and release, the resolver and the
    updater of page-table entries, TLB invalidation, and the ioctl handler,
    over one state with the module's globals and the parts of Linux they work
    on. *)

From stdpp Require Import base numbers list gmap.
From S2P Require Import Prelude Entry PhysMem Linux.
Local Open Scope Z_scope.

(** ** State *)

(** The build and the machine: the architecture, whether the kernel is 4.11 or
    newer (the p4d level exists), whether the CPU has single-address INVPCID,
    and the online CPUs. *)
Record kconfig := mk_kconfig {
  kc_arch : arch;
  kc_v4_11 : bool;
  kc_invpcid_single : bool;
  kc_cpus : list Z }.

Record mm_struct (L : Type) := mk_mm { mm_pgd : Z; mmap_sem : L }.
Arguments mk_mm {L} mm_pgd mmap_sem.
Arguments mm_pgd {L} m.
Arguments mmap_sem {L} m.

(** Address spaces are shared between tasks, so a task names its own by an
    identifier; [None] is the null pointer. *)
Record task_struct := mk_task { task_mm : option Z; task_active_mm : option Z }.

(** The function the pointer [invalidate_tlb] holds. *)
Inductive tlb_method := invalidate_tlb_kernel_fn | invalidate_tlb_custom_fn.

Record kernel (P L T : Type) := mk_kernel {
  (** Linux and the machine *)
  k_mem : P;
  k_tlb : T;
  k_current : task_struct;
  k_current_pid : Z;
  k_vpids : gmap Z (option task_struct);
  k_mms : gmap Z (mm_struct L);
  k_cpu : Z;
  k_cr4 : gmap Z Z;
  k_mts : gmap Z Z;
  k_ttbr0 : Z;
  (** the globals of the module *)
  device_busy : bool;
  mm_is_locked : bool;
  invalidate_tlb : tlb_method;
  real_page_size : Z;
  real_page_shift : Z }.
Arguments k_mem {P L T} k.
Arguments k_tlb {P L T} k.
Arguments k_current {P L T} k.
Arguments k_current_pid {P L T} k.
Arguments k_vpids {P L T} k.
Arguments k_mms {P L T} k.
Arguments k_cpu {P L T} k.
Arguments k_cr4 {P L T} k.
Arguments k_mts {P L T} k.
Arguments k_ttbr0 {P L T} k.
Arguments device_busy {P L T} k.
Arguments mm_is_locked {P L T} k.
Arguments invalidate_tlb {P L T} k.
Arguments real_page_size {P L T} k.
Arguments real_page_shift {P L T} k.
Arguments mk_kernel {P L T}.

Section setters.
Context {P L T : Type}.
Implicit Types k : kernel P L T.

Definition with_mem v k : kernel P L T := mk_kernel v (k_tlb k) (k_current k) (k_current_pid k)
  (k_vpids k) (k_mms k) (k_cpu k) (k_cr4 k) (k_mts k) (k_ttbr0 k)
  (device_busy k) (mm_is_locked k) (invalidate_tlb k) (real_page_size k) (real_page_shift k).
Definition with_tlb v k : kernel P L T := mk_kernel (k_mem k) v (k_current k) (k_current_pid k)
  (k_vpids k) (k_mms k) (k_cpu k) (k_cr4 k) (k_mts k) (k_ttbr0 k)
  (device_busy k) (mm_is_locked k) (invalidate_tlb k) (real_page_size k) (real_page_shift k).
Definition with_mms v k : kernel P L T := mk_kernel (k_mem k) (k_tlb k) (k_current k) (k_current_pid k)
  (k_vpids k) v (k_cpu k) (k_cr4 k) (k_mts k) (k_ttbr0 k)
  (device_busy k) (mm_is_locked k) (invalidate_tlb k) (real_page_size k) (real_page_shift k).
Definition with_cr4 v k : kernel P L T := mk_kernel (k_mem k) (k_tlb k) (k_current k) (k_current_pid k)
  (k_vpids k) (k_mms k) (k_cpu k) v (k_mts k) (k_ttbr0 k)
  (device_busy k) (mm_is_locked k) (invalidate_tlb k) (real_page_size k) (real_page_shift k).
Definition with_mts v k : kernel P L T := mk_kernel (k_mem k) (k_tlb k) (k_current k) (k_current_pid k)
  (k_vpids k) (k_mms k) (k_cpu k) (k_cr4 k) v (k_ttbr0 k)
  (device_busy k) (mm_is_locked k) (invalidate_tlb k) (real_page_size k) (real_page_shift k).
Definition with_busy v k : kernel P L T := mk_kernel (k_mem k) (k_tlb k) (k_current k) (k_current_pid k)
  (k_vpids k) (k_mms k) (k_cpu k) (k_cr4 k) (k_mts k) (k_ttbr0 k)
  v (mm_is_locked k) (invalidate_tlb k) (real_page_size k) (real_page_shift k).
Definition with_locked v k : kernel P L T := mk_kernel (k_mem k) (k_tlb k) (k_current k) (k_current_pid k)
  (k_vpids k) (k_mms k) (k_cpu k) (k_cr4 k) (k_mts k) (k_ttbr0 k)
  (device_busy k) v (invalidate_tlb k) (real_page_size k) (real_page_shift k).
Definition with_method v k : kernel P L T := mk_kernel (k_mem k) (k_tlb k) (k_current k) (k_current_pid k)
  (k_vpids k) (k_mms k) (k_cpu k) (k_cr4 k) (k_mts k) (k_ttbr0 k)
  (device_busy k) (mm_is_locked k) v (real_page_size k) (real_page_shift k).
Definition with_page_size v w k : kernel P L T := mk_kernel (k_mem k) (k_tlb k) (k_current k)
  (k_current_pid k) (k_vpids k) (k_mms k) (k_cpu k) (k_cr4 k) (k_mts k)
  (k_ttbr0 k) (device_busy k) (mm_is_locked k) (invalidate_tlb k) v w.
End setters.

(** The structures of the ioctls ([module/pteditor.h]); the buffer is the
    memory the pointer of the structure points to, and [vaddr] and [size],
    which no code reads, are left out. *)
Record ptedit_page_t := mk_page { pg_pfn : Z; pg_buffer : list Z }.
Record ptedit_paging_t := mk_paging { pp_pid : Z; pp_root : Z }.

(** [vm_t]: pointers to the entries, [None] for the null pointer. *)
Record vm_t := mk_vm {
  vm_pid : Z;
  vm_pgd : option Z;
  vm_p4d : option Z;
  vm_pud : option Z;
  vm_pmd : option Z;
  vm_pte : option Z;
  vm_valid : Z }.

Definition vm_reset (e : vm_t) : vm_t := mk_vm (vm_pid e) None None None None None 0.
Definition vm_set_pgd (p : Z) (e : vm_t) : vm_t :=
  mk_vm (vm_pid e) (Some p) (vm_p4d e) (vm_pud e) (vm_pmd e) (vm_pte e)
    (Z.lor (vm_valid e) PTEDIT_VALID_MASK_PGD).
Definition vm_set_p4d (p : Z) (e : vm_t) : vm_t :=
  mk_vm (vm_pid e) (vm_pgd e) (Some p) (vm_pud e) (vm_pmd e) (vm_pte e)
    (Z.lor (vm_valid e) PTEDIT_VALID_MASK_P4D).
Definition vm_set_pud (p : Z) (e : vm_t) : vm_t :=
  mk_vm (vm_pid e) (vm_pgd e) (vm_p4d e) (Some p) (vm_pmd e) (vm_pte e)
    (Z.lor (vm_valid e) PTEDIT_VALID_MASK_PUD).
Definition vm_set_pmd (p : Z) (e : vm_t) : vm_t :=
  mk_vm (vm_pid e) (vm_pgd e) (vm_p4d e) (vm_pud e) (Some p) (vm_pte e)
    (Z.lor (vm_valid e) PTEDIT_VALID_MASK_PMD).
Definition vm_set_pte (p : Z) (e : vm_t) : vm_t :=
  mk_vm (vm_pid e) (vm_pgd e) (vm_p4d e) (vm_pud e) (vm_pmd e) (Some p)
    (Z.lor (vm_valid e) PTEDIT_VALID_MASK_PTE).

(** ** Operations *)

Definition EBUSY : Z := 16.
Definition X86_CR4_PGE : Z := bit 7.
Definition PTEDITOR_TLB_INVALIDATION_KERNEL : Z := 0.
Definition PTEDITOR_TLB_INVALIDATION_CUSTOM : Z := 1.

Section operations.
Context {P L T : Type} `{PhysMem P} `{RwSem L} `{LinuxPT P} `{TlbOps T}.
Variable cfg : kconfig.

Definition device_open : M (kernel P L T) Z :=
  let* busy := gets device_busy in
  if busy then ret (- EBUSY)
  else modify (with_busy true) ;;; ret 0.

Definition device_release : M (kernel P L T) Z :=
  modify (with_busy false) ;;; ret 0.

(** [find_vpid] takes an [int]. *)
Definition find_task (pid : Z) : M (kernel P L T) (option task_struct) :=
  if pid =? 0 then
    let* current := gets k_current in ret (Some current)
  else
    let* vpids := gets k_vpids in
    match vpids !! to_int pid with
    | None => ret None
    | Some task => ret task
    end.

Definition get_mm (pid : Z) : M (kernel P L T) (option Z) :=
  let* task := find_task pid in
  match task with
  | None => ret None
  | Some task =>
      match task_mm task with
      | Some mm => ret (Some mm)
      | None => ret (task_active_mm task)
      end
  end.

(** *** TLB invalidation *)

Fixpoint invpcid_loop (n : nat) (cpu pcid addr : Z) (t : T) : T :=
  match n with
  | O => t
  | S n => invpcid_loop n cpu (pcid + 1) addr (invpcid_flush_one cpu pcid addr t)
  end.

Definition native_write_cr4 (cpu v : Z) : M (kernel P L T) unit :=
  let* cr4 := gets k_cr4 in
  let* t := gets k_tlb in
  modify (with_tlb (write_cr4 cpu (default 0 (cr4 !! cpu)) v t)) ;;;
  modify (with_cr4 (<[cpu := v]> cr4)).

(** [_invalidate_tlb], which runs on the CPU it is given. *)
Definition invalidate_tlb_on (addr cpu : Z) : M (kernel P L T) unit :=
  match kc_arch cfg with
  | X86_64 =>
      if kc_invpcid_single cfg then
        let* t := gets k_tlb in
        modify (with_tlb (invpcid_loop (Z.to_nat 4096) cpu 0 addr t))
      else
        let* cr4s := gets k_cr4 in
        let cr4 := default 0 (cr4s !! cpu) in
        native_write_cr4 cpu (Z.land cr4 (not64 X86_CR4_PGE)) ;;;
        native_write_cr4 cpu cr4
  | AARCH64 =>
      let* t := gets k_tlb in
      modify (with_tlb (tlbi_vmalle1is t))
  end.

Fixpoint on_each_cpu (f : Z -> M (kernel P L T) unit) (cpus : list Z) : M (kernel P L T) unit :=
  match cpus with
  | [] => ret tt
  | cpu :: cpus => f cpu ;;; on_each_cpu f cpus
  end.

Definition invalidate_tlb_custom (addr : Z) : M (kernel P L T) unit :=
  on_each_cpu (invalidate_tlb_on addr) (kc_cpus cfg).

(** [_flush_tlb_page_smp] *)
Definition flush_tlb_page_smp (mm addr cpu : Z) : M (kernel P L T) unit :=
  let* t := gets k_tlb in
  modify (with_tlb (flush_tlb_page mm addr t)).

(** [flush_tlb_mm_range] knows the CPU it is called on and the address space
    that runs there, which is the current task's. *)
Definition invalidate_tlb_kernel (addr : Z) : M (kernel P L T) unit :=
  match kc_arch cfg with
  | X86_64 =>
      let* pid := gets k_current_pid in
      let* mm := get_mm pid in
      let* mm := defined mm in
      let* size := gets real_page_size in
      let* shift := gets real_page_shift in
      let* cpu := gets k_cpu in
      let* running := get_mm 0 in
      let* t := gets k_tlb in
      modify (with_tlb (flush_tlb_mm_range cpu running mm addr (wrap64 (addr + size)) shift false t))
  | AARCH64 =>
      let* current := gets k_current in
      let* mm := defined (task_mm current) in
      let* p := gets k_mem in
      match find_vma p mm addr with
      | None => ret tt
      | Some vm_start =>
          if addr <? vm_start then ret tt
          else on_each_cpu (flush_tlb_page_smp mm addr) (kc_cpus cfg)
      end
  end.

(** [invalidate_tlb(addr)], the call through the function pointer. *)
Definition call_invalidate_tlb (addr : Z) : M (kernel P L T) unit :=
  let* method := gets invalidate_tlb in
  match method with
  | invalidate_tlb_kernel_fn => invalidate_tlb_kernel addr
  | invalidate_tlb_custom_fn => invalidate_tlb_custom addr
  end.

(** *** The locks of an address space *)

Definition lock_mm (f : L -> option L) (id : Z) : M (kernel P L T) unit :=
  let* mms := gets k_mms in
  let* mm := defined (mms !! id) in
  match f (mmap_sem mm) with
  | None => sleep
  | Some l => modify (with_mms (<[id := mk_mm (mm_pgd mm) l]> mms))
  end.

(** [mmap_read_lock] or, before 5.8, [down_read(&mm->mmap_sem)]; and so on. *)
Definition mmap_read_lock : Z -> M (kernel P L T) unit := lock_mm down_read.
Definition mmap_read_unlock : Z -> M (kernel P L T) unit := lock_mm (fun l => Some (up_read l)).
Definition mmap_write_lock : Z -> M (kernel P L T) unit := lock_mm down_write.
Definition mmap_write_unlock : Z -> M (kernel P L T) unit := lock_mm (fun l => Some (up_write l)).

(** *** Resolving *)

(** [*p] of a kernel pointer to an entry. *)
Definition kload (p : Z) : M (kernel P L T) Z :=
  let* m := gets k_mem in
  defined (load64 m (virt_to_phys p)).

(** On AArch64 the module defines the two tests itself; in the configuration
    that compiles they are constant. *)
Definition pud_large (v : Z) : bool :=
  match kc_arch cfg with X86_64 => x86_pud_large v | AARCH64 => false end.
Definition pmd_large (v : Z) : bool :=
  match kc_arch cfg with X86_64 => x86_pmd_large v | AARCH64 => false end.

(** The part of [resolve_vm] from the pud, whose pointer is [pudp], to the
    end; the result is the return value and the entry. *)
Definition resolve_from_pud (addr pudp : Z) (e : vm_t) : M (kernel P L T) (Z * vm_t) :=
  let* pudv := kload pudp in
  if pud_none pudv then ret (1, e)
  else
    let e := vm_set_pud pudp e in
    let pmdp := pmd_offset pudp pudv addr in
    let* pmdv := kload pmdp in
    if pmd_none pmdv || pud_large pudv then ret (1, e)
    else
      let e := vm_set_pmd pmdp e in
      match pte_offset_map pmdp pmdv addr with
      | None => ret (1, e)
      | Some ptep =>
          if pmd_large pmdv then ret (1, e)
          else ret (0, vm_set_pte ptep e)
      end.

(** The part of [resolve_vm] between taking and releasing the lock. *)
Definition resolve_levels (mm addr : Z) (e : vm_t) : M (kernel P L T) (Z * vm_t) :=
  let* mms := gets k_mms in
  let* mm := defined (mms !! mm) in
  let pgdp := pgd_offset (mm_pgd mm) addr in
  let* pgdv := kload pgdp in
  if pgd_none pgdv || pgd_bad pgdv then ret (1, e)
  else
    let e := vm_set_pgd pgdp e in
    if kc_v4_11 cfg then
      let p4dp := p4d_offset pgdp pgdv addr in
      let* p4dv := kload p4dp in
      if p4d_none p4dv || p4d_bad p4dv then ret (1, e)
      else
        let e := vm_set_p4d p4dp e in
        resolve_from_pud addr (pud_offset p4dp p4dv addr) e
    else resolve_from_pud addr (pud_offset pgdp pgdv addr) e.

(** [entry] is the address of a variable of the caller, never null. *)
Definition resolve_vm (addr : Z) (entry : vm_t) (lock : bool) : M (kernel P L T) (Z * vm_t) :=
  let entry := vm_reset entry in
  let* mm := get_mm (vm_pid entry) in
  match mm with
  | None => ret (1, entry)
  | Some mm =>
      when lock (mmap_read_lock mm) ;;;
      let* r := resolve_levels mm addr entry in
      when lock (mmap_read_unlock mm) ;;;
      ret r
  end.

(** *** Updating *)

(** [set_p?d(ptr, native_make_p?d(v))] *)
Definition store_entry (l : level) (ptr : option Z) (v : Z) : M (kernel P L T) unit :=
  let* p := defined ptr in
  let* m := gets k_mem in
  let* m := defined (set_pxd l m p v) in
  modify (with_mem m).

(** [(old->valid & mask) && (new->valid & mask)], and the store it guards. *)
Definition update_level (l : level) (mask : Z) (old : vm_t) (ptr : option Z)
    (new : ptedit_entry_t) (v : Z) : M (kernel P L T) unit :=
  when (has (vm_valid old) mask && has (valid new) mask) (store_entry l ptr v).

Definition update_levels (old : vm_t) (new : ptedit_entry_t) : M (kernel P L T) unit :=
  update_level PGD PTEDIT_VALID_MASK_PGD old (vm_pgd old) new (pgd new) ;;;
  when (kc_v4_11 cfg)
    (update_level P4D PTEDIT_VALID_MASK_P4D old (vm_p4d old) new (p4d new)) ;;;
  update_level PUD PTEDIT_VALID_MASK_PUD old (vm_pud old) new (pud new) ;;;
  update_level PMD PTEDIT_VALID_MASK_PMD old (vm_pmd old) new (pmd new) ;;;
  update_level PTE PTEDIT_VALID_MASK_PTE old (vm_pte old) new (pte new).

Definition update_vm (new_entry : ptedit_entry_t) (lock : bool) : M (kernel P L T) Z :=
  let addr := vaddr new_entry in
  let* mm := get_mm (pid new_entry) in
  match mm with
  | None => ret 1
  | Some mm =>
      when lock (mmap_write_lock mm) ;;;
      let* r := resolve_vm addr (mk_vm (pid new_entry) None None None None None 0) false in
      update_levels (snd r) new_entry ;;;
      call_invalidate_tlb addr ;;;
      when lock (mmap_write_unlock mm) ;;;
      ret 0
  end.

(** [if(vm->pgd) user->pgd = *vm->pgd;] for each level. *)
Definition copy_level (ptr : option Z) (set : Z -> ptedit_entry_t -> ptedit_entry_t)
    (user : ptedit_entry_t) : M (kernel P L T) ptedit_entry_t :=
  match ptr with
  | None => ret user
  | Some p => let* v := kload p in ret (set v user)
  end.

Definition vm_to_user (user : ptedit_entry_t) (vm : vm_t) : M (kernel P L T) ptedit_entry_t :=
  let* user := (if kc_v4_11 cfg then copy_level (vm_p4d vm) set_p4d user else ret user) in
  let* user := copy_level (vm_pgd vm) set_pgd user in
  let* user := copy_level (vm_pmd vm) set_pmd user in
  let* user := copy_level (vm_pud vm) set_pud user in
  let* user := copy_level (vm_pte vm) set_pte user in
  ret (set_valid (vm_valid vm) user).

(** *** Memory types *)

(** [_set_pat]: two [int] halves on x86, put together again by [wrmsr], which
    faults unless the value is one of the PAT. *)
Definition set_pat_on (pat cpu : Z) : M (kernel P L T) unit :=
  let* mts := gets k_mts in
  match kc_arch cfg with
  | X86_64 =>
      let low := to_int (Z.land pat 0xffffffff) in
      let high := to_int (Z.land (Z.shiftr pat 32) 0xffffffff) in
      let msr := Z.lor (low mod 2 ^ 32) (Z.shiftl (high mod 2 ^ 32) 32) in
      if pat_ok msr then modify (with_mts (<[cpu := msr]> mts)) else undef
  | AARCH64 => modify (with_mts (<[cpu := pat]> mts))
  end.

Definition set_pat (pat : Z) : M (kernel P L T) unit :=
  on_each_cpu (set_pat_on pat) (kc_cpus cfg).

(** The [rdmsr] branch reads two [int]s; the [|] converts [low] to [size_t],
    which extends its sign. *)
Definition read_mts : M (kernel P L T) Z :=
  let* mts := gets k_mts in
  let* cpu := gets k_cpu in
  let msr := default 0 (mts !! cpu) in
  match kc_arch cfg with
  | X86_64 =>
      let low := to_int (msr mod 2 ^ 32) in
      let high := to_int (Z.shiftr msr 32 mod 2 ^ 32) in
      ret (Z.lor (wrap64 low) (wrap64 (Z.shiftl (wrap64 high) 32)))
  | AARCH64 => ret msr
  end.

(** *** The ioctl handler *)

(** The pointer is written with the value it points to: the handler copies
    the structure in and, for some commands, out again.  [UValue] is an
    argument that is a number. *)
Inductive ioctl_cmd :=
| VM_RESOLVE | VM_UPDATE | VM_LOCK | VM_UNLOCK | READ_PAGE | WRITE_PAGE | GET_ROOT | SET_ROOT
| GET_PAGESIZE | INVALIDATE_TLB | GET_PAT | SET_PAT | SWITCH_TLB_INVALIDATION | OTHER_CMD.

#[export] Instance ioctl_cmd_eq_dec : EqDecision ioctl_cmd.
Proof. solve_decision. Defined.

Inductive ioctl_arg :=
| UValue (v : Z)
| UEntry (e : ptedit_entry_t)
| UPage (p : ptedit_page_t)
| UPaging (p : ptedit_paging_t)
| USize (v : Z).

Definition active_mm : M (kernel P L T) Z :=
  let* current := gets k_current in defined (task_active_mm current).

Definition ioctl_resolve (vm_user : ptedit_entry_t) : M (kernel P L T) (Z * ioctl_arg) :=
  let* locked := gets mm_is_locked in
  let* r := resolve_vm (vaddr vm_user) (mk_vm (pid vm_user) None None None None None 0)
              (negb locked) in
  let* user := vm_to_user vm_user (snd r) in
  ret (0, UEntry user).

Definition ioctl_lock (arg : ioctl_arg) : M (kernel P L T) (Z * ioctl_arg) :=
  let* mm := active_mm in
  let* locked := gets mm_is_locked in
  if locked then ret (-1, arg)
  else
    mmap_write_lock mm ;;;
    mmap_read_lock mm ;;;
    modify (with_locked true) ;;;
    ret (0, arg).

Definition ioctl_unlock (arg : ioctl_arg) : M (kernel P L T) (Z * ioctl_arg) :=
  let* mm := active_mm in
  let* locked := gets mm_is_locked in
  if negb locked then ret (-1, arg)
  else
    mmap_write_unlock mm ;;;
    mmap_read_unlock mm ;;;
    modify (with_locked false) ;;;
    ret (0, arg).

(** A copy to or from a buffer shorter than a page leaves the buffer. *)
Definition ioctl_read_page (page : ptedit_page_t) : M (kernel P L T) (Z * ioctl_arg) :=
  let* size := gets real_page_size in
  let* m := gets k_mem in
  let n := Z.to_nat size in
  let src := virt_to_phys (phys_to_virt (wrap64 (pg_pfn page * size))) in
  let* bs := defined (pm_read m src n) in
  if (length (pg_buffer page) <? n)%nat then undef
  else ret (0, UPage (mk_page (pg_pfn page) (bs ++ drop (length bs) (pg_buffer page)))).

Definition ioctl_write_page (page : ptedit_page_t) : M (kernel P L T) (Z * ioctl_arg) :=
  let* size := gets real_page_size in
  let* m := gets k_mem in
  let n := Z.to_nat size in
  let dst := virt_to_phys (phys_to_virt (wrap64 (pg_pfn page * size))) in
  if (length (pg_buffer page) <? n)%nat then undef
  else
    let* m := defined (pm_write m dst (take n (pg_buffer page))) in
    modify (with_mem m) ;;;
    ret (0, UPage page).

Definition ioctl_get_root (paging : ptedit_paging_t) : M (kernel P L T) (Z * ioctl_arg) :=
  let* mm := get_mm (pp_pid paging) in
  let* mms := gets k_mms in
  let from_ttbr0 := (* the current process, whatever the pid *)
    let* ttbr0 := gets k_ttbr0 in
    ret (0, UPaging (mk_paging (pp_pid paging) (Z.land ttbr0 (not64 1)))) in
  let from_mm (mm : Z) :=
    let* locked := gets mm_is_locked in
    when (negb locked) (mmap_read_lock mm) ;;;
    let* mms := gets k_mms in
    let* m := defined (mms !! mm) in
    let root := virt_to_phys (mm_pgd m) in
    when (negb locked) (mmap_read_unlock mm) ;;;
    ret (0, UPaging (mk_paging (pp_pid paging) root)) in
  match mm with
  | None =>
      match kc_arch cfg with
      | AARCH64 => from_ttbr0
      | X86_64 => ret (1, UPaging paging)
      end
  | Some mm =>
      let* m := defined (mms !! mm) in
      match kc_arch cfg with
      | AARCH64 => if mm_pgd m =? 0 then from_ttbr0 else from_mm mm
      | X86_64 => from_mm mm
      end
  end.

Definition ioctl_set_root (paging : ptedit_paging_t) : M (kernel P L T) (Z * ioctl_arg) :=
  let* mm := get_mm (pp_pid paging) in
  match mm with
  | None => ret (1, UPaging paging)
  | Some mm =>
      let* locked := gets mm_is_locked in
      when (negb locked) (mmap_write_lock mm) ;;;
      let* mms := gets k_mms in
      let* m := defined (mms !! mm) in
      modify (with_mms (<[mm := mk_mm (phys_to_virt (pp_root paging)) (mmap_sem m)]> mms)) ;;;
      when (negb locked) (mmap_write_unlock mm) ;;;
      ret (0, UPaging paging)
  end.

Definition ioctl_switch_tlb (v : Z) : M (kernel P L T) (Z * ioctl_arg) :=
  if negb (to_int v =? PTEDITOR_TLB_INVALIDATION_KERNEL) &&
     negb (to_int v =? PTEDITOR_TLB_INVALIDATION_CUSTOM)
  then ret (-1, UValue v)
  else
    modify (with_method (if to_int v =? PTEDITOR_TLB_INVALIDATION_KERNEL
                         then invalidate_tlb_kernel_fn else invalidate_tlb_custom_fn)) ;;;
    ret (0, UValue v).

Definition device_ioctl (cmd : ioctl_cmd) (arg : ioctl_arg) : M (kernel P L T) (Z * ioctl_arg) :=
  match cmd, arg with
  | VM_RESOLVE, UEntry e => ioctl_resolve e
  | VM_UPDATE, UEntry e =>
      let* locked := gets mm_is_locked in
      let* r := update_vm e (negb locked) in
      ret (0, UEntry e)
  | VM_LOCK, _ => ioctl_lock arg
  | VM_UNLOCK, _ => ioctl_unlock arg
  | READ_PAGE, UPage p => ioctl_read_page p
  | WRITE_PAGE, UPage p => ioctl_write_page p
  | GET_ROOT, UPaging p => ioctl_get_root p
  | SET_ROOT, UPaging p => ioctl_set_root p
  | GET_PAGESIZE, _ => let* size := gets real_page_size in ret (size, arg)
  | INVALIDATE_TLB, UValue v => call_invalidate_tlb v ;;; ret (0, arg)
  | GET_PAT, USize v => let* v := read_mts in ret (0, USize v)
  | SET_PAT, UValue v => set_pat v ;;; ret (0, arg)
  | SWITCH_TLB_INVALIDATION, UValue v => ioctl_switch_tlb v
  | OTHER_CMD, _ => ret (-1, arg)
  (* a pointer to something else than the structure the command reads *)
  | _, _ => undef
  end.
End operations.
