(* ===== verification/Machine.v ===== *)
(** * A concrete machine

    A small x86-64 machine, on which the witnesses of the theorems about the
    kernel module and the library evaluate: RAM with the page tables of one process, two CPUs, a
    TLB with two entries and two address spaces. *)

From stdpp Require Import base numbers list gmap.
From S2P Require Import Prelude Entry PhysMem Linux Kernel.
Local Open Scope Z_scope.

(** A kernel with the p4d level on a processor with INVPCID. *)
Definition x86_cfg : kconfig := mk_kconfig X86_64 true true [0; 1].

Definition put_words (ws : list (Z * Z)) (r : ram) : ram :=
  foldl (fun r aw => default r (store64 r (fst aw) (snd aw))) r ws.

(** The tables of memory_4k of [Walk]: one page at 0x40201000, in frame 5. *)
Definition machine_ram : ram :=
  put_words [(0x1000, 0x2067); (0x2008, 0x3067); (0x3008, 0x4067); (0x4008, 0x5067)]
    (mk_ram 0x8000 ∅).

Definition task1 : task_struct := mk_task (Some 1) (Some 1).
Definition task2 : task_struct := mk_task (Some 2) (Some 2).
Definition unlocked : rwsem := mk_rwsem 0 false.

Definition machine : kernel ram rwsem (list tlb_entry) := {|
  k_mem := machine_ram;
  k_tlb := [mk_tlb 0 1 7 0x40201 false; mk_tlb 1 2 8 0x40201 false; mk_tlb 1 1 7 0x40200 true];
  k_current := task1;
  k_current_pid := 42;
  k_vpids := {[ 42 := Some task1; 43 := Some task2 ]};
  k_mms := {[ 1 := mk_mm (PAGE_OFFSET + 0x1000) unlocked;
              2 := mk_mm (PAGE_OFFSET + 0x1000) unlocked ]};
  k_cpu := 0;
  k_cr4 := {[ 0 := 0x80; 1 := 0x80 ]};
  k_mts := {[ 0 := 0x0407050600070106; 1 := 0x0407050600070106 ]};
  k_ttbr0 := 0;
  device_busy := false;
  mm_is_locked := false;
  invalidate_tlb := invalidate_tlb_kernel_fn;
  real_page_size := 4096;
  real_page_shift := 12 |}.
