(* ===== verification/KernelProps.v ===== *)
(** * The kernel module: theorems

    The resolver (its result is well formed, its locks are balanced), the
    device's exclusivity, the lock commands, paging roots, memory types,
    physical pages and TLB invalidation. *)

From stdpp Require Import base tactics numbers list gmap.
From S2P Require Import Prelude Entry PhysMem Linux Kernel Machine.
Local Open Scope Z_scope.

Section kernel_props.
Context {P L T : Type} `{PhysMemLaws P} `{RwSemLaws L} `{LinuxPT P} `{TlbLaws T}.
Variable cfg : kconfig.
Implicit Types s : kernel P L T.

(** ** Reading *)

(** The address space a pid names. *)
Definition task_of (s : kernel P L T) (pid : Z) : option task_struct :=
  if pid =? 0 then Some (k_current s) else mjoin (k_vpids s !! to_int pid).
Definition mm_of (s : kernel P L T) (pid : Z) : option Z :=
  task ← task_of s pid;
  match task_mm task with Some mm => Some mm | None => task_active_mm task end.

Lemma get_mm_run pid s : get_mm pid s = Ret (mm_of s pid) s.
Proof.
  unfold get_mm, find_task, mm_of, task_of, bind, gets, ret.
  destruct (pid =? 0); simpl; [by destruct (task_mm (k_current s))|].
  destruct (k_vpids s !! to_int pid) as [[task|]|]; simpl; [|done..].
  by destruct (task_mm task).
Qed.

Lemma reader_kload p : reader (kload p : M (kernel P L T) Z).
Proof. unfold kload. auto with reader. Qed.
Hint Resolve reader_kload : reader.

Lemma reader_resolve_from_pud addr pudp e :
  reader (resolve_from_pud cfg addr pudp e : M (kernel P L T) _).
Proof. unfold resolve_from_pud. auto 20 with reader. Qed.
Hint Resolve reader_resolve_from_pud : reader.

Lemma reader_resolve_levels mm addr e :
  reader (resolve_levels cfg mm addr e : M (kernel P L T) _).
Proof. unfold resolve_levels. cbv zeta. auto 20 with reader. Qed.
Hint Resolve reader_resolve_levels : reader.

(** ** Well-formed results of the resolver *)

Definition vm_ptr (l : level) (e : vm_t) : option Z :=
  match l with
  | PGD => vm_pgd e | P4D => vm_p4d e | PUD => vm_pud e | PMD => vm_pmd e | PTE => vm_pte e
  end.

(** The mask says which pointers are not null. *)
Definition vm_wf (e : vm_t) : Prop :=
  0 <= vm_valid e < 2 ^ 5 /\
  forall l, has (vm_valid e) (level_mask l) = bool_decide (is_Some (vm_ptr l e)).

Definition upper (l : level) : option level :=
  match l with
  | PGD => None
  | P4D => Some PGD
  | PUD => Some (if kc_v4_11 cfg then P4D else PGD)
  | PMD => Some PUD
  | PTE => Some PMD
  end.

(** A level is resolved only below a resolved level. *)
Definition vm_closed (e : vm_t) : Prop :=
  forall l u, upper l = Some u -> is_Some (vm_ptr l e) -> is_Some (vm_ptr u e).

Definition resolved_ok (pid : Z) (r : Z * vm_t) : Prop :=
  vm_pid (snd r) = pid /\ vm_wf (snd r) /\ vm_closed (snd r) /\
  (fst r = 0 \/ fst r = 1) /\ (fst r = 0 <-> is_Some (vm_pte (snd r))).

Ltac solve_resolved Hc :=
  unfold resolved_ok, vm_wf, vm_closed, upper; rewrite Hc; simpl;
  (split; [done|]; split; [split; [vm_compute; intuition congruence|by intros []]|]; split;
   [by intros [] ? [= <-] [? ?]; simpl in *; eauto|];
   split; [auto|split; [done|by intros [? ?]]]).

Lemma resolved_ok_none pid : resolved_ok pid (1, mk_vm pid None None None None None 0).
Proof. destruct (kc_v4_11 cfg) eqn:Hc; solve_resolved Hc. Qed.

Lemma post_kload p s (Q : Z -> kernel P L T -> Prop) :
  (forall v, load64 (k_mem s) (virt_to_phys p) = Some v -> Q v s) -> post (kload p) s Q.
Proof. intros HQ. unfold kload. post_steps. by apply HQ. Qed.

Ltac kernel_step := first [apply post_kload; intros ? ? | post_step].
Ltac kernel_steps := repeat (kernel_step; cbv beta).

Lemma post_resolve_levels mm addr pid s :
  post (resolve_levels cfg mm addr (mk_vm pid None None None None None 0)) s
    (fun r s' => s' = s /\ resolved_ok pid r).
Proof.
  unfold resolve_levels, resolve_from_pud. cbv zeta.
  destruct (kc_v4_11 cfg) eqn:Hc; kernel_steps; (split; [done|]); solve_resolved Hc.
Qed.

(** ** Locks *)

Lemma with_mms_id s : with_mms (k_mms s) s = s.
Proof. by destruct s. Qed.

Lemma with_mms_twice m m' s : with_mms m (with_mms m' s) = with_mms m s.
Proof. done. Qed.

Lemma lock_mm_run f id mm s : k_mms s !! id = Some mm ->
  lock_mm f id s =
    match f (mmap_sem mm) with
    | Some l => Ret tt (with_mms (<[id := mk_mm (mm_pgd mm) l]> (k_mms s)) s)
    | None => Sleep s
    end.
Proof.
  intros Hmm. unfold lock_mm, bind, gets, defined. rewrite Hmm. simpl.
  by destruct (f (mmap_sem mm)).
Qed.

Lemma lock_mm_undef f id s : k_mms s !! id = None -> lock_mm f id s = Undef.
Proof. intros Hmm. unfold lock_mm, bind, gets, defined. by rewrite Hmm. Qed.

(** Taking a lock and releasing it leaves the state alone. *)
Lemma unlock_lock id mm l (release : L -> L) s :
  k_mms s !! id = Some mm -> release l = mmap_sem mm ->
  lock_mm (fun l => Some (release l)) id (with_mms (<[id := mk_mm (mm_pgd mm) l]> (k_mms s)) s) =
    Ret tt s.
Proof.
  intros Hmm Hl. erewrite lock_mm_run by apply lookup_insert_eq. simpl.
  rewrite Hl, insert_insert_eq, with_mms_twice.
  replace (mk_mm (mm_pgd mm) (mmap_sem mm)) with mm by (by destruct mm).
  by rewrite insert_id, with_mms_id.
Qed.

(** A reader between taking a lock for reading and releasing it. *)
Lemma locked_reader {A} id (m : M (kernel P L T) A) s :
  reader m ->
  match (let* _ := mmap_read_lock id in let* r := m in
         mmap_read_unlock id ;;; ret r) s with
  | Ret r s' => s' = s /\ exists s1, m s1 = Ret r s1
  | Sleep s' => s' = s /\ exists mm, k_mms s !! id = Some mm /\ down_read (mmap_sem mm) = None
  | Undef => True
  end.
Proof.
  intros Hm. unfold mmap_read_lock. destruct (k_mms s !! id) as [mm|] eqn:Hmm.
  2: { unfold bind at 1. by rewrite lock_mm_undef. }
  unfold bind at 1. erewrite lock_mm_run by done.
  destruct (down_read (mmap_sem mm)) as [l|] eqn:Hl; [|by eauto].
  set (s1 := with_mms _ s). specialize (Hm s1) as Hr.
  unfold bind at 1. destruct (m s1) as [r s'| |] eqn:Hrun; [subst s'|done|done].
  unfold bind, mmap_read_unlock. subst s1.
  erewrite unlock_lock by (done || by apply up_down_read). split; [done|].
  eauto.
Qed.

Lemma resolve_vm_reads addr entry (lock : bool) s :
  match resolve_vm cfg addr entry lock s with
  | Ret r s' => s' = s /\ resolved_ok (vm_pid entry) r
  | Sleep s' => s' = s /\ lock = true /\ exists id mm,
      mm_of s (vm_pid entry) = Some id /\ k_mms s !! id = Some mm /\
      down_read (mmap_sem mm) = None
  | Undef => True
  end.
Proof.
  unfold resolve_vm. unfold bind at 1. rewrite get_mm_run. simpl.
  destruct (mm_of s (vm_pid entry)) as [id|] eqn:Hid.
  2: { split; [done|]. apply resolved_ok_none. }
  unfold vm_reset in *. destruct lock; cbn [when].
  - pose proof (locked_reader id (resolve_levels cfg id addr _) s
      (reader_resolve_levels id addr (mk_vm (vm_pid entry) None None None None None 0))) as Hl.
    destruct (bind (mmap_read_lock id) _ s) as [r s'|s'|];
      [|destruct Hl as (-> & mm & ? & ?); by eauto 10|done].
    destruct Hl as [-> [s1 Hs1]]. split; [done|].
    pose proof (post_resolve_levels id addr (vm_pid entry) s1) as Hp.
    unfold post in Hp. rewrite Hs1 in Hp. apply Hp.
  - pose proof (post_resolve_levels id addr (vm_pid entry) s) as Hp.
    pose proof (reader_resolve_levels id addr (mk_vm (vm_pid entry) None None None None None 0) s).
    unfold bind, ret, post in *.
    by destruct (resolve_levels _ _ _ _ s).
Qed.

(** C13: [resolve_vm] returns with the state it found, locks included, and its
    result is well formed: a level's validity bit is set exactly when its
    pointer is not null, a level is resolved only below a resolved one, and
    the return value is 0 exactly when the PTE is resolved; it sleeps only on the lock of the
    address space, when it is to take it and a writer holds it. *)
Theorem resolve_vm_ok addr entry (lock : bool) s :
  match resolve_vm cfg addr entry lock s with
  | Ret r s' => s' = s /\ resolved_ok (vm_pid entry) r
  | Sleep s' => s' = s /\ lock = true /\ exists id mm,
      mm_of s (vm_pid entry) = Some id /\ k_mms s !! id = Some mm /\
      down_read (mmap_sem mm) = None
  | Undef => True
  end.
Proof. apply resolve_vm_reads. Qed.

(** ** The lock command *)

Lemma vm_lock_sleeps arg s id mm :
  mm_is_locked s = false -> task_active_mm (k_current s) = Some id ->
  k_mms s !! id = Some mm ->
  exists s', device_ioctl cfg VM_LOCK arg s = Sleep s' /\
    match down_write (mmap_sem mm) with
    | None => s' = s
    | Some _ => exists mm', k_mms s' !! id = Some mm' /\
        down_read (mmap_sem mm') = None /\ down_write (mmap_sem mm') = None
    end.
Proof.
  intros Hlocked Hid Hmm. unfold device_ioctl, ioctl_lock, active_mm, mmap_write_lock, mmap_read_lock.
  assert (Hact : (let* current := gets k_current in defined (task_active_mm current)) s = Ret id s)
    by (unfold bind, gets; by rewrite Hid).
  rewrite (bind_Ret _ _ _ _ _ Hact), bind_gets, Hlocked.
  unfold bind. erewrite lock_mm_run by done.
  destruct (down_write (mmap_sem mm)) as [l|] eqn:Hl; [|by eauto].
  erewrite lock_mm_run by apply lookup_insert_eq. simpl.
  destruct (writer_excludes _ _ Hl) as [Hr Hw]. rewrite Hr.
  eexists. split; [done|]. exists (mk_mm (mm_pgd mm) l). simpl. by rewrite lookup_insert_eq.
Qed.

(** C27: the lock command takes the lock of the address space for writing and
    then for reading, so its caller never returns: it sleeps, and unless
    somebody else held the lock already it sleeps on the lock it holds itself, after which nobody
    can take that lock any more; only a caller that finds the module locked returns. *)
Theorem vm_lock_self_deadlock arg s id mm :
  mm_is_locked s = false -> task_active_mm (k_current s) = Some id ->
  k_mms s !! id = Some mm ->
  exists s', device_ioctl cfg VM_LOCK arg s = Sleep s' /\
    match down_write (mmap_sem mm) with
    | None => s' = s
    | Some _ => exists mm', k_mms s' !! id = Some mm' /\
        down_read (mmap_sem mm') = None /\ down_write (mmap_sem mm') = None
    end.
Proof. apply vm_lock_sleeps. Qed.

Lemma vm_lock_never_returns arg s r s' :
  mm_is_locked s = false -> device_ioctl cfg VM_LOCK arg s <> Ret r s'.
Proof.
  intros Hlocked Hret. cbn [device_ioctl] in Hret. destruct (task_active_mm (k_current s)) as [id|] eqn:Hid.
  2: { by unfold ioctl_lock, active_mm, bind, gets in Hret; rewrite Hid in Hret. }
  destruct (k_mms s !! id) as [mm|] eqn:Hmm.
  - destruct (vm_lock_sleeps arg s id mm) as (s1 & Hs1 & _); [done..|].
    cbn [device_ioctl] in Hs1. by rewrite Hret in Hs1.
  - unfold ioctl_lock, active_mm, bind, gets in Hret. rewrite Hid in Hret. simpl in Hret.
    rewrite Hlocked in Hret. unfold mmap_write_lock in Hret. by rewrite lock_mm_undef in Hret.
Qed.

(** ** What the commands leave alone *)

(** The globals of the module that serialise access to it. *)
Definition keeps s s' : Prop :=
  device_busy s' = device_busy s /\ mm_is_locked s' = mm_is_locked s.
Definition keeping {A} (m : M (kernel P L T) A) : Prop :=
  forall s, post m s (fun _ s' => keeps s s').

Lemma keeping_reader {A} (m : M (kernel P L T) A) : reader m -> keeping m.
Proof. intros Hm s. apply post_reader; done. Qed.

Lemma keeping_bind {A B} (m : M (kernel P L T) A) (k : A -> M (kernel P L T) B) :
  keeping m -> (forall a, keeping (k a)) -> keeping (bind m k).
Proof.
  intros Hm Hk s. apply post_bind. eapply post_mono; [apply Hm|].
  intros a s' [H1' H2']. eapply post_mono; [apply Hk|]. intros b s'' [H1'' H2''].
  split; congruence.
Qed.

Lemma keeping_modify f : (forall s, keeps s (f s)) -> keeping (modify f).
Proof. intros Hf s. apply Hf. Qed.

Lemma keeping_sleep {A} : keeping (sleep : M (kernel P L T) A).
Proof. done. Qed.

Create HintDb keeping discriminated.
Hint Resolve keeping_sleep : keeping.
Hint Extern 1 (keeping (ret _)) => apply keeping_reader, reader_ret : keeping.
Hint Extern 1 (keeping (gets _)) => apply keeping_reader, reader_gets : keeping.
Hint Extern 1 (keeping undef) => apply keeping_reader, reader_undef : keeping.
Hint Extern 1 (keeping (defined _)) => apply keeping_reader, reader_defined : keeping.
Hint Extern 1 (keeping (kload _)) => apply keeping_reader, reader_kload : keeping.
Hint Extern 1 (keeping (modify _)) => apply keeping_modify; done : keeping.
Hint Extern 1 (keeping (when _ _)) => unfold when : keeping.
Hint Extern 4 (keeping (bind _ _)) => apply keeping_bind; [|intros ?] : keeping.
Hint Extern 5 (keeping (match ?x with _ => _ end)) => destruct x : keeping.

Lemma keeping_get_mm pid : keeping (get_mm pid : M (kernel P L T) _).
Proof. intros s. unfold post. by rewrite get_mm_run. Qed.

Lemma keeping_lock_mm f id : keeping (lock_mm f id : M (kernel P L T) _).
Proof. unfold lock_mm. auto 20 with keeping. Qed.

Lemma keeping_resolve_vm addr e lock : keeping (resolve_vm cfg addr e lock : M (kernel P L T) _).
Proof.
  intros s. pose proof (resolve_vm_reads addr e lock s) as Hr. unfold post.
  destruct (resolve_vm cfg addr e lock s); [|done..]. by destruct Hr as [-> _].
Qed.

Lemma keeping_on_each_cpu f cpus :
  (forall cpu, keeping (f cpu)) -> keeping (on_each_cpu f cpus : M (kernel P L T) _).
Proof. intros Hf. induction cpus as [|cpu cpus IH]; simpl; auto 20 with keeping. Qed.
Hint Resolve keeping_get_mm keeping_lock_mm keeping_resolve_vm keeping_on_each_cpu : keeping.
Hint Extern 1 (keeping (mmap_read_lock _)) => apply keeping_lock_mm : keeping.
Hint Extern 1 (keeping (mmap_read_unlock _)) => apply keeping_lock_mm : keeping.
Hint Extern 1 (keeping (mmap_write_lock _)) => apply keeping_lock_mm : keeping.
Hint Extern 1 (keeping (mmap_write_unlock _)) => apply keeping_lock_mm : keeping.

Lemma keeping_call_invalidate_tlb addr :
  keeping (call_invalidate_tlb cfg addr : M (kernel P L T) _).
Proof.
  unfold call_invalidate_tlb, invalidate_tlb_kernel, invalidate_tlb_custom, invalidate_tlb_on,
    native_write_cr4, flush_tlb_page_smp.
  auto 30 with keeping.
Qed.
Hint Resolve keeping_call_invalidate_tlb : keeping.

Lemma keeping_update_vm e lock : keeping (update_vm cfg e lock : M (kernel P L T) _).
Proof. unfold update_vm, update_levels, update_level, store_entry. auto 40 with keeping. Qed.

Lemma keeping_set_pat pat : keeping (set_pat cfg pat : M (kernel P L T) _).
Proof. unfold set_pat, set_pat_on. auto 20 with keeping. Qed.
Hint Resolve keeping_update_vm keeping_set_pat : keeping.

Lemma keeping_ioctl cmd arg : cmd <> VM_LOCK -> cmd <> VM_UNLOCK ->
  keeping (device_ioctl cfg cmd arg : M (kernel P L T) _).
Proof.
  intros Hl Hu.
  destruct cmd; try done; destruct arg; cbn [device_ioctl];
    unfold ioctl_resolve, vm_to_user, copy_level, ioctl_read_page, ioctl_write_page,
      ioctl_get_root, ioctl_set_root, ioctl_switch_tlb, read_mts; cbv zeta;
    auto 60 with keeping.
Qed.

(** ** Executions of the device *)

(** Its clients: processes open the device, and the ones that hold it open
    call it and close it; [n] counts the open files.  The rest of the kernel
    may change anything but the module's own globals in between. *)
Inductive dev_step : kernel P L T * nat -> kernel P L T * nat -> Prop :=
| dev_open s s' n : device_open s = Ret 0 s' -> dev_step (s, n) (s', S n)
| dev_open_fails r s s' n : device_open s = Ret r s' -> r <> 0 -> dev_step (s, n) (s', n)
| dev_ioctl cmd arg r s s' n :
    device_ioctl cfg cmd arg s = Ret r s' -> dev_step (s, S n) (s', S n)
| dev_release r s s' n : device_release s = Ret r s' -> dev_step (s, S n) (s', n)
| dev_other s s' n : keeps s s' -> dev_step (s, n) (s', n).

Definition dev_initial (sn : kernel P L T * nat) : Prop :=
  device_busy (fst sn) = false /\ mm_is_locked (fst sn) = false /\ snd sn = O.

Inductive dev_reachable : kernel P L T * nat -> Prop :=
| dev_init sn : dev_initial sn -> dev_reachable sn
| dev_next sn sn' : dev_reachable sn -> dev_step sn sn' -> dev_reachable sn'.

Lemma ioctl_keeps cmd arg r s s' :
  mm_is_locked s = false -> device_ioctl cfg cmd arg s = Ret r s' -> keeps s s'.
Proof.
  intros Hlocked Hrun. destruct (decide (cmd = VM_LOCK)) as [->|Hl].
  { by destruct (vm_lock_never_returns arg s r s'). }
  destruct (decide (cmd = VM_UNLOCK)) as [->|Hu].
  - cbn [device_ioctl] in Hrun. unfold ioctl_unlock in Hrun.
    apply bind_Ret_inv in Hrun as (id & s1 & Hact & Hrun).
    assert (s1 = s) as ->.
    { unfold active_mm, bind, gets, defined, ret in Hact.
      by destruct (task_active_mm _); simplify_eq. }
    rewrite bind_gets, Hlocked in Hrun. by injection Hrun as <- <-.
  - pose proof (keeping_ioctl cmd arg Hl Hu s) as Hk. unfold post in Hk. by rewrite Hrun in Hk.
Qed.

(** C20: in every execution of the device's clients at most one of them holds
    it open, and the flag that refuses another one says whether one does; and because the
    lock command never returns, the module is never in the locked state. *)
Theorem device_exclusive sn : dev_reachable sn ->
  (snd sn <= 1)%nat /\ device_busy (fst sn) = bool_decide (snd sn = 1%nat) /\
  mm_is_locked (fst sn) = false.
Proof.
  induction 1 as [[s n] (Hb & Hl & Hn)|sn sn' _ (Hle & Hb & Hl) Hstep]; simpl in *.
  { subst n. by repeat split; [lia|..]. }
  destruct Hstep as [s s' n Hrun|r s s' n Hrun Hr|cmd arg r s s' n Hrun|r s s' n Hrun|s s' n Hk];
    simpl in *.
  - unfold device_open, bind, gets, modify, ret in Hrun.
    destruct (device_busy s) eqn:E; [done|]. injection Hrun as <-.
    destruct n as [|[|]]; try lia; [|done]. repeat split; simpl; [lia|done].
  - unfold device_open, bind, gets, modify, ret in Hrun.
    destruct (device_busy s) eqn:E; [|by injection Hrun as <- <-].
    injection Hrun as <- <-. repeat split; [lia|congruence|done].
  - destruct (ioctl_keeps _ _ _ _ _ Hl Hrun) as [H1' H2'].
    rewrite H1', H2'. repeat split; [lia|done..].
  - unfold device_release, bind, modify, ret in Hrun. injection Hrun as _ <-. simpl.
    destruct n as [|]; [|lia]. repeat split; [lia|done].
  - destruct Hk as [H1' H2']. rewrite H1', H2'. repeat split; [lia|done..].
Qed.
End kernel_props.

Lemma vm_lock_self_deadlock_witness :
  mm_is_locked machine = false /\
  exists s', device_ioctl x86_cfg VM_LOCK (UValue 0) machine = Sleep s' /\
    match down_write (mmap_sem (mk_mm (PAGE_OFFSET + 0x1000) unlocked)) with
    | None => s' = machine
    | Some _ => exists mm', k_mms s' !! 1 = Some mm' /\
        down_read (mmap_sem mm') = None /\ down_write (mmap_sem mm') = None
    end.
Proof.
  split; [reflexivity|]. apply (vm_lock_self_deadlock x86_cfg (UValue 0) machine 1); reflexivity.
Defined.

Lemma device_exclusive_witness :
  dev_reachable x86_cfg (with_busy true machine, 1%nat) /\
  device_busy (with_busy true machine) = bool_decide (1%nat = 1%nat).
Proof.
  assert (Hr : dev_reachable x86_cfg (with_busy true machine, 1%nat)).
  { apply (dev_next _ (machine, O)); [by apply dev_init|]. by apply dev_open. }
  split; [exact Hr|]. apply (device_exclusive x86_cfg _ Hr).
Defined.

Lemma resolve_vm_ok_witness :
  exists r, resolve_vm x86_cfg 0x40201234 (mk_vm 0 None None None None None 0) true machine = Ret r machine /\
    resolved_ok x86_cfg 0 r.
Proof.
  pose proof (resolve_vm_ok x86_cfg 0x40201234 (mk_vm 0 None None None None None 0) true machine) as H.
  assert (Hr : exists r s', resolve_vm x86_cfg 0x40201234 (mk_vm 0 None None None None None 0) true machine
            = Ret r s') by (vm_compute; eauto).
  destruct Hr as (r & s' & Hr). rewrite Hr in H. destruct H as [-> H].
  exists r. split; [exact Hr|exact H].
Defined.
