(* ===== verification/KernelOps.v ===== *)
(** * The kernel module: commands on memory types, roots, pages and the TLB *)

From stdpp Require Import base tactics numbers list gmap.
From S2P Require Import Prelude Entry PhysMem Linux Kernel Machine KernelProps.
Local Open Scope Z_scope.

Section ops.
Context {P L T : Type} `{PhysMemLaws P} `{RwSemLaws L} `{LinuxPT P} `{TlbLaws T}.
Variable cfg : kconfig.
Implicit Types s : kernel P L T.

(** ** Memory types *)

Lemma to_int_mod z : to_int z mod 2 ^ 32 = z mod 2 ^ 32.
Proof. unfold to_int. rewrite Zminus_mod, Zmod_mod, <- Zminus_mod. f_equal. lia. Qed.

Lemma int_halves v : u64 v ->
  Z.lor (to_int (Z.land v 0xffffffff) mod 2 ^ 32)
        (Z.shiftl (to_int (Z.land (Z.shiftr v 32) 0xffffffff) mod 2 ^ 32) 32) = v.
Proof.
  intros Hv. rewrite !to_int_mod. change 0xffffffff with (Z.ones 32). bits.
Qed.

(** Sign extension of an [int] to a [size_t]. *)
Lemma wrap64_to_int z : wrap64 (to_int (z mod 2 ^ 32)) =
  if Z.testbit z 31 then Z.lor (z mod 2 ^ 32) (Z.shiftl (Z.ones 32) 32) else z mod 2 ^ 32.
Proof.
  assert (Hr : 0 <= z mod 2 ^ 32 < 2 ^ 32) by (apply Z.mod_pos_bound; lia).
  assert (Hb : Z.testbit z 31 = (2 ^ 31 <=? z mod 2 ^ 32)).
  { rewrite <- (Z.mod_pow2_bits_low z 32 31) by lia.
    destruct (Z.leb_spec (2 ^ 31) (z mod 2 ^ 32)).
    - apply Z.testbit_true; [lia|]. rewrite Z.mod_small; [|].
      all: Z.to_euclidean_division_equations; lia.
    - apply (testbit_bound 31); lia. }
  rewrite Hb. unfold to_int, wrap64. destruct (Z.leb_spec (2 ^ 31) (z mod 2 ^ 32)).
  - replace ((z mod 2 ^ 32 + 2 ^ 31) mod 2 ^ 32) with (z mod 2 ^ 32 - 2 ^ 31)
      by (apply (Z.mod_unique_pos _ _ 1); lia).
    replace ((z mod 2 ^ 32 - 2 ^ 31 - 2 ^ 31) mod 2 ^ 64) with (z mod 2 ^ 32 + (2 ^ 64 - 2 ^ 32))
      by (apply (Z.mod_unique_pos _ _ (-1)); lia).
    rewrite Z.add_nocarry_lxor; [|change (2 ^ 64 - 2 ^ 32) with (Z.shiftl (Z.ones 32) 32); bits].
    change (2 ^ 64 - 2 ^ 32) with (Z.shiftl (Z.ones 32) 32). bits.
  - replace ((z mod 2 ^ 32 + 2 ^ 31) mod 2 ^ 32) with (z mod 2 ^ 32 + 2 ^ 31)
      by (apply (Z.mod_unique_pos _ _ 0); lia).
    rewrite Z.mod_small; lia.
Qed.

(** What the register takes: on x86-64 the values of the PAT. *)
Definition accepted (v : Z) : bool := match kc_arch cfg with X86_64 => pat_ok v | AARCH64 => true end.

Lemma set_pat_on_run v cpu s : u64 v ->
  set_pat_on cfg v cpu s =
    if accepted v then Ret tt (with_mts (<[cpu := v]> (k_mts s)) s) else Undef.
Proof.
  intros Hv. unfold set_pat_on, accepted. rewrite bind_gets. destruct (kc_arch cfg); [|done].
  rewrite int_halves by done. by destruct (pat_ok v).
Qed.

Lemma set_pat_cpus v cpus s : u64 v -> accepted v = true -> exists m,
  on_each_cpu (set_pat_on cfg v) cpus s = Ret tt (with_mts m s) /\
  forall cpu, m !! cpu = if bool_decide (cpu ∈ cpus) then Some v else k_mts s !! cpu.
Proof.
  intros Hv Ha. revert s. induction cpus as [|c cpus IH]; intros s; simpl.
  { exists (k_mts s). split; [by destruct s|done]. }
  assert (set_pat_on cfg v c s = Ret tt (with_mts (<[c := v]> (k_mts s)) s)) as Hc
    by by rewrite set_pat_on_run, Ha.
  rewrite (bind_Ret _ _ _ _ _ Hc).
  destruct (IH (with_mts (<[c:=v]> (k_mts s)) s)) as (m & Hm & Hl).
  exists m. split; [done|]. intros cpu. rewrite Hl. simpl.
  destruct (decide (cpu = c)) as [->|Hne].
  - rewrite lookup_insert_eq. repeat case_bool_decide; set_solver.
  - rewrite lookup_insert_ne by done. repeat case_bool_decide; set_solver.
Qed.

(** Reading the register on x86-64 extends the sign of its low half; bit 31 of
    the PAT is reserved, so that this changes no value the register can have. *)
Definition read_back (v : Z) : Z :=
  match kc_arch cfg with
  | X86_64 => if Z.testbit v 31 then Z.lor v (Z.shiftl (Z.ones 32) 32) else v
  | AARCH64 => v
  end.

Lemma read_mts_run x s : u64 (default 0 (k_mts s !! k_cpu s)) ->
  device_ioctl cfg GET_PAT (USize x) s =
    Ret (0, USize (read_back (default 0 (k_mts s !! k_cpu s)))) s.
Proof.
  set (v := default 0 (k_mts s !! k_cpu s)). intros Hv.
  cbn [device_ioctl]. unfold read_mts, read_back. unfold bind, gets, ret. simpl. fold v.
  destruct (kc_arch cfg); [|done]. f_equal. f_equal. f_equal. rewrite wrap64_to_int.
  replace (wrap64 (Z.shiftl (wrap64 (to_int (Z.shiftr v 32 mod 2 ^ 32))) 32))
    with (Z.shiftl (Z.shiftr v 32) 32).
  - destruct (Z.testbit v 31); bits.
  - rewrite wrap64_to_int. destruct (Z.testbit (Z.shiftr v 32) 31); bits.
Qed.

Lemma read_back_accepted v : accepted v = true -> read_back v = v.
Proof.
  unfold accepted, read_back. destruct (kc_arch cfg); [|done]. intros Hv. by rewrite pat_ok_bit31.
Qed.

Lemma set_pat_run v s : u64 v -> accepted v = true -> exists m,
  device_ioctl cfg SET_PAT (UValue v) s = Ret (0, UValue v) (with_mts m s) /\
  forall cpu, m !! cpu = if bool_decide (cpu ∈ kc_cpus cfg) then Some v else k_mts s !! cpu.
Proof.
  intros Hv Ha. destruct (set_pat_cpus v (kc_cpus cfg) s Hv Ha) as (m & Hm & Hl).
  exists m. split; [|done]. cbn [device_ioctl]. unfold set_pat. by rewrite (bind_Ret _ _ _ _ _ Hm).
Qed.

(** C30: the command that programs the memory types gives the register of
    every CPU the value, if the register takes it, and nothing else changes;
    reading it back gives the value.  On AArch64 the register takes every value,
    on x86-64 those of which each byte is a memory type; with another one the
    module, which does not look at the value, makes the processor fault. *)
Theorem pat_roundtrip v x s : u64 v -> k_cpu s ∈ kc_cpus cfg ->
  if accepted v then
    exists m s', device_ioctl cfg SET_PAT (UValue v) s = Ret (0, UValue v) s' /\
      s' = with_mts m s /\
      (forall cpu, m !! cpu = if bool_decide (cpu ∈ kc_cpus cfg) then Some v else k_mts s !! cpu) /\
      device_ioctl cfg GET_PAT (USize x) s' = Ret (0, USize v) s'
  else device_ioctl cfg SET_PAT (UValue v) s = Undef.
Proof.
  intros Hv Hcpu. destruct (accepted v) eqn:Ha.
  - destruct (set_pat_run v s Hv Ha) as (m & Hm & Hl).
    exists m, (with_mts m s). split; [done|]. split; [done|]. split; [done|].
    assert (Hreg : default 0 (m !! k_cpu s) = v) by by rewrite Hl, bool_decide_true.
    rewrite read_mts_run; simpl; rewrite Hreg; [by rewrite read_back_accepted|done].
  - cbn [device_ioctl]. unfold set_pat. destruct (kc_cpus cfg) as [|c cpus]; [by apply elem_of_nil in Hcpu|].
    cbn [on_each_cpu]. assert (set_pat_on cfg v c s = Undef) as Hc by by rewrite set_pat_on_run, Ha.
    rewrite bind_assoc. by rewrite (bind_Undef _ _ _ Hc).
Qed.

(** ** TLB invalidation *)

Lemma invpcid_loop_le n cpu p addr (t : T) : tlb_le (invpcid_loop n cpu p addr t) t.
Proof.
  revert p t. induction n as [|n IH]; intros p t; cbn [invpcid_loop]; [done|].
  etrans; [apply IH|apply invpcid_le].
Qed.

Lemma invpcid_loop_own n cpu p addr (t : T) mm pcid : p <= pcid < p + Z.of_nat n ->
  tlb_cached (invpcid_loop n cpu p addr t) cpu mm pcid addr = false.
Proof.
  revert p t. induction n as [|n IH]; intros p t Hp; cbn [invpcid_loop]; [lia|].
  destruct (decide (pcid = p)) as [->|]; [|apply IH; lia].
  eapply tlb_le_cached; [apply invpcid_loop_le|by apply cached_own_invpcid].
Qed.

(** A processor whose INVPCID of type 0 leaves every global translation: it
    may drop some, but is not required to drop any. *)
Definition invpcid_exact : Prop := forall (t : T) cpu pcid addr cpu' addr',
  tlb_global (invpcid_flush_one cpu pcid addr t) cpu' addr' = tlb_global t cpu' addr'.

Lemma invpcid_loop_global n cpu p addr (t : T) cpu' addr' : invpcid_exact ->
  tlb_global (invpcid_loop n cpu p addr t) cpu' addr' = tlb_global t cpu' addr'.
Proof.
  intros He. revert p t. induction n as [|n IH]; intros p t; cbn [invpcid_loop]; [done|].
  by rewrite IH, He.
Qed.

Definition cr4_of s (cpu : Z) : Z := default 0 (k_cr4 s !! cpu).

Lemma native_write_cr4_run cpu v s :
  native_write_cr4 cpu v s =
    Ret tt (with_cr4 (<[cpu := v]> (k_cr4 s))
              (with_tlb (write_cr4 cpu (cr4_of s cpu) v (k_tlb s)) s)).
Proof. done. Qed.

(** The custom invalidation works: the processor has INVPCID, or all of its
    CPUs have global pages enabled, so that clearing the bit flushes. *)
Definition flushable s : Prop :=
  match kc_arch cfg with
  | X86_64 => kc_invpcid_single cfg = true \/
              forall cpu, cpu ∈ kc_cpus cfg -> Z.testbit (cr4_of s cpu) 7 = true
  | AARCH64 => True
  end.

(** What an invalidation changes: it drops translations, and restores CR4. *)
Definition flushed s s' : Prop :=
  tlb_le (k_tlb s') (k_tlb s) /\ (forall cpu, cr4_of s' cpu = cr4_of s cpu) /\
  exists t c, s' = with_cr4 c (with_tlb t s).

Lemma flushed_trans s1 s2 s3 : flushed s1 s2 -> flushed s2 s3 -> flushed s1 s3.
Proof.
  intros (Ht & Hc & t & c & ->) (Ht' & Hc' & t' & c' & ->).
  split; [by etrans|]. split; [|by exists t', c']. intros cpu. by rewrite Hc', Hc.
Qed.

(** Single-address INVPCID is the way that excepts global translations. *)
Definition uses_invpcid : bool :=
  match kc_arch cfg with X86_64 => kc_invpcid_single cfg | AARCH64 => false end.

(** The global translations after an invalidation of [addr] on [cpus]. *)
Definition global_flushed (cpus : list Z) (addr : Z) s s' : Prop :=
  if uses_invpcid then
    invpcid_exact -> forall cpu a, tlb_global (k_tlb s') cpu a = tlb_global (k_tlb s) cpu a
  else forall cpu, cpu ∈ cpus -> tlb_global (k_tlb s') cpu addr = false.

Definition page_flushed (cpus : list Z) (addr : Z) s s' : Prop :=
  flushed s s' /\
  (forall cpu mm pcid, cpu ∈ cpus -> tlb_cached (k_tlb s') cpu mm pcid addr = false) /\
  global_flushed cpus addr s s'.

Lemma invpcid_run addr cpu s : kc_arch cfg = X86_64 -> kc_invpcid_single cfg = true ->
  exists s', invalidate_tlb_on cfg addr cpu s = Ret tt s' /\ page_flushed [cpu] addr s s'.
Proof.
  intros Ha Hi. unfold invalidate_tlb_on. rewrite Ha, Hi, bind_gets.
  remember (Z.to_nat 4096) as n eqn:Hn. eexists. split; [reflexivity|].
  split; [split; [|split; [done|]]|split].
  - apply invpcid_loop_le.
  - exists (invpcid_loop n cpu 0 addr (k_tlb s)), (k_cr4 s). by destruct s.
  - intros ? mm pcid ->%list_elem_of_singleton. simpl.
    destruct (tlb_cached (k_tlb s) cpu mm pcid addr) eqn:Hc.
    + apply tlb_pcid_range in Hc. apply invpcid_loop_own. lia.
    + by eapply tlb_le_cached; [apply invpcid_loop_le|].
  - unfold global_flushed, uses_invpcid. rewrite Ha, Hi. intros He cpu' a. by apply invpcid_loop_global.
Qed.

Lemma cr4_run addr cpu s : kc_arch cfg = X86_64 -> kc_invpcid_single cfg = false ->
  Z.testbit (cr4_of s cpu) 7 = true ->
  exists s', invalidate_tlb_on cfg addr cpu s = Ret tt s' /\ page_flushed [cpu] addr s s'.
Proof.
  intros Ha Hi Hpge. unfold invalidate_tlb_on. rewrite Ha, Hi.
  rewrite bind_gets, (bind_Ret _ _ _ _ _ (native_write_cr4_run _ _ _)), native_write_cr4_run.
  fold (cr4_of s cpu). eexists. split; [reflexivity|].
  assert (Z.testbit (cr4_of s cpu) 7 <> Z.testbit (Z.land (cr4_of s cpu) (not64 X86_CR4_PGE)) 7) as Hoff.
  { assert (Z.testbit (Z.land (cr4_of s cpu) (not64 X86_CR4_PGE)) 7 = false) as ->
      by (unfold X86_CR4_PGE; bits_at). by rewrite Hpge. }
  split; [split; [|split]|split].
  - simpl. etrans; apply cr4_le.
  - intros cpu'. unfold cr4_of. simpl. fold (cr4_of s cpu).
    destruct (decide (cpu' = cpu)) as [->|]; [by rewrite lookup_insert_eq|].
    by rewrite !lookup_insert_ne.
  - eexists _, _. done.
  - intros ? mm pcid ->%list_elem_of_singleton. simpl.
    eapply tlb_le_cached; [apply cr4_le|by apply cached_own_cr4].
  - unfold global_flushed, uses_invpcid. rewrite Ha, Hi. intros ? ->%list_elem_of_singleton. simpl.
    eapply tlb_le_global; [apply cr4_le|by apply global_own_cr4].
Qed.

Lemma vmalle1_run addr cpu s : kc_arch cfg = AARCH64 ->
  exists s', invalidate_tlb_on cfg addr cpu s = Ret tt s' /\ page_flushed [cpu] addr s s'.
Proof.
  intros Ha. unfold invalidate_tlb_on. rewrite Ha. eexists. split; [done|]. simpl.
  split; [split; [|split; [done|]]|split].
  - simpl. split; intros *; [by rewrite cached_after_vmalle1|by rewrite global_after_vmalle1].
  - exists (tlbi_vmalle1is (k_tlb s)), (k_cr4 s). by destruct s.
  - intros cpu' mm pcid _. apply cached_after_vmalle1.
  - unfold global_flushed, uses_invpcid. rewrite Ha. intros cpu' _. apply global_after_vmalle1.
Qed.

Lemma invalidate_tlb_on_run addr cpu s : flushable s -> cpu ∈ kc_cpus cfg ->
  exists s', invalidate_tlb_on cfg addr cpu s = Ret tt s' /\ page_flushed [cpu] addr s s'.
Proof.
  unfold flushable. intros Hf Hcpu. destruct (kc_arch cfg) eqn:Ha; [|by apply vmalle1_run].
  destruct (kc_invpcid_single cfg) eqn:Hi; [by apply invpcid_run|].
  destruct Hf as [|Hpge]; [done|]. apply cr4_run; auto.
Qed.

Lemma flushable_flushed s s' : flushed s s' -> flushable s -> flushable s'.
Proof.
  intros (_ & Hc & _). unfold flushable. destruct (kc_arch cfg); [|done].
  intros [?|Hp]; [by left|right]. intros cpu. rewrite Hc. apply Hp.
Qed.

(** Invalidating on one CPU and then on others. *)
Lemma page_flushed_cons c cpus addr s s1 s2 :
  page_flushed [c] addr s s1 -> page_flushed cpus addr s1 s2 -> page_flushed (c :: cpus) addr s s2.
Proof.
  intros (Hf1 & Hc1 & Hg1) (Hf2 & Hc2 & Hg2). pose proof (proj1 Hf2) as Hle.
  split; [by eapply flushed_trans|]. split.
  - intros cpu mm pcid [->|Hin]%elem_of_cons; [|by apply Hc2].
    eapply tlb_le_cached; [exact Hle|]. apply Hc1. by left.
  - unfold global_flushed in *. destruct uses_invpcid; [intros He ? ?; by rewrite Hg2, Hg1|].
    intros cpu [->|Hin]%elem_of_cons; [|by apply Hg2].
    eapply tlb_le_global; [exact Hle|]. apply Hg1. by left.
Qed.

Lemma page_flushed_nil addr s : page_flushed [] addr s s.
Proof.
  split; [|split].
  - split; [done|]. split; [done|]. exists (k_tlb s), (k_cr4 s). by destruct s.
  - intros cpu mm pcid []%elem_of_nil.
  - unfold global_flushed. destruct uses_invpcid; [done|]. intros cpu []%elem_of_nil.
Qed.

Lemma invalidate_cpus addr cpus s : flushable s -> cpus ⊆ kc_cpus cfg ->
  exists s', on_each_cpu (invalidate_tlb_on cfg addr) cpus s = Ret tt s' /\ page_flushed cpus addr s s'.
Proof.
  revert s. induction cpus as [|c cpus IH]; intros s Hf Hsub; cbn [on_each_cpu].
  { exists s. split; [done|]. apply page_flushed_nil. }
  destruct (invalidate_tlb_on_run addr c s) as (s1 & Hrun & Hs1); [done|set_solver|].
  destruct (IH s1) as (s2 & Hrun2 & Hs2); [eapply flushable_flushed; [apply Hs1|done]|set_solver|].
  exists s2. rewrite (bind_Ret _ _ _ _ _ Hrun). split; [done|]. by eapply page_flushed_cons.
Qed.

(** C29: with the custom method, the invalidation command leaves no
    translation of the page that belongs to an address space in the TLB of any
    CPU the kernel calls the method on, of any address space and under any tag;
    it adds none and restores every control register.  It also removes the global
    translations of the page, on AArch64 and on x86-64 where it toggles CR4.PGE;
    where it uses INVPCID, which excepts global translations, every one of
    them stays on a processor that drops no more than it has to. *)
Theorem custom_invalidation_flushes addr s :
  invalidate_tlb s = invalidate_tlb_custom_fn -> flushable s ->
  exists s', device_ioctl cfg INVALIDATE_TLB (UValue addr) s = Ret (0, UValue addr) s' /\
    flushed s s' /\
    (forall cpu mm pcid, cpu ∈ kc_cpus cfg -> tlb_cached (k_tlb s') cpu mm pcid addr = false) /\
    if uses_invpcid then
      invpcid_exact -> forall cpu a, tlb_global (k_tlb s') cpu a = tlb_global (k_tlb s) cpu a
    else forall cpu, cpu ∈ kc_cpus cfg -> tlb_global (k_tlb s') cpu addr = false.
Proof.
  intros Hm Hf. destruct (invalidate_cpus addr (kc_cpus cfg) s Hf) as (s' & Hrun & Hs');
    [set_solver|].
  exists s'. split; [|exact Hs']. cbn [device_ioctl]. unfold call_invalidate_tlb.
  rewrite bind_assoc, bind_gets, Hm. unfold invalidate_tlb_custom.
  by rewrite (bind_Ret _ _ _ _ _ Hrun).
Qed.

(** The method of the kernel, for the address space of the calling process. *)
Lemma invalidate_kernel_run addr s id :
  kc_arch cfg = X86_64 -> invalidate_tlb s = invalidate_tlb_kernel_fn ->
  mm_of s (k_current_pid s) = Some id -> addr + real_page_size s < 2 ^ 64 ->
  0 <= addr -> 0 < real_page_size s ->
  call_invalidate_tlb cfg addr s =
    Ret tt (with_tlb (flush_tlb_mm_range (k_cpu s) (mm_of s 0) id addr (addr + real_page_size s)
                        (real_page_shift s) false (k_tlb s)) s).
Proof.
  intros Ha Hm Hid Hwrap Ha0 Hsize. unfold call_invalidate_tlb, invalidate_tlb_kernel.
  rewrite bind_gets, Hm, Ha, bind_gets. rewrite (bind_Ret _ _ _ _ _ (get_mm_run _ _)), Hid.
  cbn [defined]. rewrite bind_ret_l, !bind_gets, (bind_Ret _ _ _ _ _ (get_mm_run _ _)), bind_gets.
  unfold modify. by rewrite wrap64_id by (unfold u64; lia).
Qed.

(** With the method of the kernel on x86-64, the invalidation command
    removes the page from the TLBs for the address space of the calling process only:
    translations of every other address space stay, if the kernel's flush keeps
    to its address space, whichever process the page-table entries were changed
    for. *)
Theorem kernel_invalidation_is_own addr s id :
  kc_arch cfg = X86_64 -> invalidate_tlb s = invalidate_tlb_kernel_fn ->
  mm_of s (k_current_pid s) = Some id -> 0 <= addr -> 0 < real_page_size s ->
  addr + real_page_size s < 2 ^ 64 ->
  (forall c o lo hi sh fr (t : T) cpu mm pcid a, mm <> id ->
     tlb_cached (flush_tlb_mm_range c o id lo hi sh fr t) cpu mm pcid a = tlb_cached t cpu mm pcid a) ->
  exists s', device_ioctl cfg INVALIDATE_TLB (UValue addr) s = Ret (0, UValue addr) s' /\
    (forall cpu pcid, tlb_cached (k_tlb s') cpu id pcid addr = false) /\
    (forall cpu mm pcid a, mm <> id ->
       tlb_cached (k_tlb s') cpu mm pcid a = tlb_cached (k_tlb s) cpu mm pcid a).
Proof.
  intros Ha Hm Hid Ha0 Hsize Hwrap Hkeep. eexists. split; [|split].
  - cbn [device_ioctl].
    by rewrite (bind_Ret _ _ _ _ _ (invalidate_kernel_run addr s id Ha Hm Hid Hwrap Ha0 Hsize)).
  - intros cpu pcid. apply cached_own_range; [lia|done].
  - intros cpu mm pcid a Hne. by apply Hkeep.
Qed.

(** The command that switches the invalidation method accepts the two
    methods of the header and installs the one it is given; every other number is
    refused with -1 and changes nothing. *)
Lemma switch_tlb_invalidation v s :
  device_ioctl cfg SWITCH_TLB_INVALIDATION (UValue v) s =
    if to_int v =? 0 then Ret (0, UValue v) (with_method invalidate_tlb_kernel_fn s)
    else if to_int v =? 1 then Ret (0, UValue v) (with_method invalidate_tlb_custom_fn s)
    else Ret (-1, UValue v) s.
Proof.
  cbn [device_ioctl]. unfold ioctl_switch_tlb, PTEDITOR_TLB_INVALIDATION_KERNEL,
    PTEDITOR_TLB_INVALIDATION_CUSTOM.
  destruct (Z.eqb_spec (to_int v) 0) as [->|]; [done|].
  destruct (Z.eqb_spec (to_int v) 1) as [E|]; [|done]. simpl. done.
Qed.
End ops.

Lemma pat_roundtrip_witness :
  (exists m s', device_ioctl x86_cfg SET_PAT (UValue 0x0407050600070406) machine =
      Ret (0, UValue 0x0407050600070406) s' /\ s' = with_mts m machine /\
    device_ioctl x86_cfg GET_PAT (USize 0) s' = Ret (0, USize 0x0407050600070406) s') /\
  device_ioctl x86_cfg SET_PAT (UValue 0x80000000) machine = Undef.
Proof.
  assert (k_cpu machine ∈ kc_cpus x86_cfg) as Hcpu by (repeat constructor). split.
  - destruct (pat_roundtrip x86_cfg 0x0407050600070406 0 machine) as (m & s' & Hs & Hm & _ & Hg);
      [done|exact Hcpu|].
    exists m, s'. split; [exact Hs|]. split; [exact Hm|exact Hg].
  - exact (pat_roundtrip x86_cfg 0x80000000 0 machine ltac:(done) Hcpu).
Defined.

Lemma list_invpcid_exact : invpcid_exact (T := list tlb_entry).
Proof.
  intros t cpu pcid addr cpu' addr'. simpl. rewrite (existsb_keep _ _ false), andb_true_r; [done|].
  intros e (Hg & _)%te_hits_global_fields. by rewrite Hg.
Qed.

Lemma list_flush_keeps c o id lo hi sh fr (t : list tlb_entry) cpu mm pcid a : mm <> id ->
  tlb_cached (flush_tlb_mm_range c o id lo hi sh fr t) cpu mm pcid a = tlb_cached t cpu mm pcid a.
Proof.
  intros Hne. simpl. rewrite (existsb_keep _ _ false), andb_true_r; [done|].
  intros e (Hg & _ & <- & _)%te_hits_fields. unfold te_in_range. rewrite Hg.
  by destruct (Z.eqb_spec (te_mm e) id).
Qed.

(** The translation of process 43 is gone; a global one on the same CPU is
    still there after its page was invalidated. *)
Lemma custom_invalidation_flushes_witness :
  let s := with_method invalidate_tlb_custom_fn machine in
  (exists s', device_ioctl x86_cfg INVALIDATE_TLB (UValue 0x40201234) s = Ret (0, UValue 0x40201234) s' /\
     tlb_cached (k_tlb s) 1 2 8 0x40201234 = true /\ tlb_cached (k_tlb s') 1 2 8 0x40201234 = false) /\
  (exists s', device_ioctl x86_cfg INVALIDATE_TLB (UValue 0x40200000) s = Ret (0, UValue 0x40200000) s' /\
     tlb_global (k_tlb s') 1 0x40200000 = true).
Proof.
  intros s. split.
  - destruct (custom_invalidation_flushes x86_cfg 0x40201234 s) as (s' & Hs & _ & Hc & _); [done|by left|].
    exists s'. split; [exact Hs|]. split; [reflexivity|]. apply Hc. repeat constructor.
  - destruct (custom_invalidation_flushes x86_cfg 0x40200000 s) as (s' & Hs & _ & _ & Hg); [done|by left|].
    exists s'. split; [exact Hs|]. exact (eq_trans (Hg list_invpcid_exact 1 0x40200000) eq_refl).
Defined.

(** A translation of process 43 survives an invalidation by process 42. *)
Lemma kernel_invalidation_is_own_witness :
  exists s', device_ioctl x86_cfg INVALIDATE_TLB (UValue 0x40201234) machine =
      Ret (0, UValue 0x40201234) s' /\
    tlb_cached (k_tlb s') 0 1 7 0x40201234 = false /\
    tlb_cached (k_tlb s') 1 2 8 0x40201234 = true.
Proof.
  destruct (kernel_invalidation_is_own x86_cfg 0x40201234 machine 1)
    as (s' & Hs & Hown & Hother); try done; [intros *; apply list_flush_keeps|].
  exists s'. split; [exact Hs|]. split; [apply Hown|]. by rewrite Hother.
Defined.

Section roots_and_pages.
Context {P L T : Type} `{PhysMemLaws P} `{RwSemLaws L} `{!LinuxPT P} `{!LinuxX86 P} `{TlbOps T}.
Variable cfg : kconfig.
Implicit Types s : kernel P L T.

(** ** Paging roots *)

Lemma set_root_run pid root id mm l s :
  mm_is_locked s = false -> mm_of s pid = Some id -> k_mms s !! id = Some mm ->
  down_write (mmap_sem mm) = Some l ->
  device_ioctl cfg SET_ROOT (UPaging (mk_paging pid root)) s =
    Ret (0, UPaging (mk_paging pid root))
      (with_mms (<[id := mk_mm (phys_to_virt root) (mmap_sem mm)]> (k_mms s)) s).
Proof.
  intros Hlocked Hid Hmm Hw. cbn [device_ioctl].
  unfold ioctl_set_root. rewrite (bind_Ret _ _ _ _ _ (get_mm_run _ _)). cbn [pp_pid pp_root].
  rewrite Hid, bind_gets, Hlocked. cbn [negb when]. unfold mmap_write_lock, mmap_write_unlock.
  erewrite bind_Ret by (erewrite lock_mm_run by done; by rewrite Hw).
  unfold bind, gets, defined, ret, modify. simpl. rewrite lookup_insert_eq. simpl.
  erewrite lock_mm_run by apply lookup_insert_eq. simpl.
  rewrite (up_down_write _ _ Hw), !insert_insert_eq. done.
Qed.

Lemma get_root_run pid x id mm l s :
  kc_arch cfg = X86_64 -> mm_is_locked s = false -> mm_of s pid = Some id ->
  k_mms s !! id = Some mm -> down_read (mmap_sem mm) = Some l ->
  device_ioctl cfg GET_ROOT (UPaging (mk_paging pid x)) s =
    Ret (0, UPaging (mk_paging pid (virt_to_phys (mm_pgd mm)))) s.
Proof.
  intros Ha Hlocked Hid Hmm Hr. cbn [device_ioctl].
  unfold ioctl_get_root. rewrite (bind_Ret _ _ _ _ _ (get_mm_run _ _)). cbn [pp_pid].
  rewrite Hid, bind_gets, Hmm, Ha. cbn [defined]. rewrite bind_ret_l, bind_gets, Hlocked.
  cbn [negb when]. unfold mmap_read_lock, mmap_read_unlock.
  erewrite bind_Ret by (erewrite lock_mm_run by done; by rewrite Hr).
  rewrite bind_gets. cbn [k_mms with_mms]. rewrite lookup_insert_eq. cbn [defined mm_pgd].
  rewrite bind_ret_l. cbn [mm_pgd].
  by rewrite (bind_Ret _ _ _ _ _ (unlock_lock id mm l up_read s Hmm (up_down_read _ _ Hr))).
Qed.

(** On x86-64, when the lock of the address space is free, the command that
    sets the root of paging of a process gives its address space the page
    directory at that physical address, changes no other address space and
    releases the lock; the command that reads it then returns the root. *)
Theorem root_roundtrip pid root x id mm l l' s :
  kc_arch cfg = X86_64 -> mm_is_locked s = false ->
  mm_of s pid = Some id -> k_mms s !! id = Some mm ->
  down_write (mmap_sem mm) = Some l -> down_read (mmap_sem mm) = Some l' ->
  let s' := with_mms (<[id := mk_mm (phys_to_virt root) (mmap_sem mm)]> (k_mms s)) s in
  device_ioctl cfg SET_ROOT (UPaging (mk_paging pid root)) s =
    Ret (0, UPaging (mk_paging pid root)) s' /\
  device_ioctl cfg GET_ROOT (UPaging (mk_paging pid x)) s' =
    Ret (0, UPaging (mk_paging pid root)) s'.
Proof.
  intros Ha Hlocked Hid Hmm Hw Hr s'. split; [by eapply set_root_run|].
  rewrite (get_root_run pid x id (mk_mm (phys_to_virt root) (mmap_sem mm)) l' s' Ha Hlocked Hid
    (lookup_insert_eq _ _ _) Hr). cbn [mm_pgd]. by rewrite virt_of_phys.
Qed.

(** ** Physical pages *)

Lemma write_page_ioctl pfn buf m s :
  let n := Z.to_nat (real_page_size s) in
  let a := virt_to_phys (phys_to_virt (wrap64 (pfn * real_page_size s))) in
  (n <= length buf)%nat -> pm_write (k_mem s) a (take n buf) = Some m ->
  device_ioctl cfg WRITE_PAGE (UPage (mk_page pfn buf)) s =
    Ret (0, UPage (mk_page pfn buf)) (with_mem m s).
Proof.
  intros n a Hn Hw. cbn [device_ioctl]. unfold ioctl_write_page. rewrite !bind_gets.
  cbn [pg_buffer pg_pfn]. fold n a. destruct (Nat.ltb_spec (length buf) n); [lia|]. by rewrite Hw.
Qed.

Lemma read_page_ioctl pfn buf bs s :
  let n := Z.to_nat (real_page_size s) in
  let a := virt_to_phys (phys_to_virt (wrap64 (pfn * real_page_size s))) in
  (n <= length buf)%nat -> pm_read (k_mem s) a n = Some bs -> length bs = n ->
  device_ioctl cfg READ_PAGE (UPage (mk_page pfn buf)) s =
    Ret (0, UPage (mk_page pfn (bs ++ drop n buf))) s.
Proof.
  intros n a Hn Hrd Hl. cbn [device_ioctl]. unfold ioctl_read_page. rewrite !bind_gets.
  cbn [pg_buffer pg_pfn]. fold n a. rewrite Hrd. cbn [defined]. rewrite bind_ret_l.
  destruct (Nat.ltb_spec (length buf) n); [lia|]. by rewrite Hl.
Qed.
End roots_and_pages.

Lemma root_roundtrip_witness :
  device_ioctl x86_cfg GET_ROOT (UPaging (mk_paging 43 0))
    (with_mms (<[2 := mk_mm (phys_to_virt 0x7000) unlocked]> (k_mms machine)) machine) =
  Ret (0, UPaging (mk_paging 43 0x7000))
    (with_mms (<[2 := mk_mm (phys_to_virt 0x7000) unlocked]> (k_mms machine)) machine).
Proof.
  by apply (root_roundtrip x86_cfg 43 0x7000 0 2 (mk_mm (PAGE_OFFSET + 0x1000) unlocked)
    (mk_rwsem 0 true) (mk_rwsem 1 false) machine).
Defined.

(** The machine with pages of 16 bytes. *)
Definition small_pages : kernel ram rwsem (list tlb_entry) := with_page_size 16 4 machine.
Definition page_of (b : Z) : list Z := replicate 16 b.

Lemma switch_tlb_invalidation_witness :
  device_ioctl x86_cfg SWITCH_TLB_INVALIDATION (UValue 2) machine = Ret (-1, UValue 2) machine.
Proof. exact (switch_tlb_invalidation x86_cfg 2 machine). Defined.
