(* ===== verification/Loader.v ===== *)
(** * Loading and unloading the kernel module

    [pteditor_init], [pteditor_exit] and [devmem_bypass] of
    [module/pteditor.c]: what they register with the kernel, the symbols they
    look up, and how they set the globals the other functions of the module
    use. *)

From stdpp Require Import base tactics numbers list gmap strings.
From S2P Require Import Prelude Entry PhysMem Linux Kernel Machine.
Local Open Scope Z_scope.

Definition ENXIO : Z := 6.

(** ** The kernel the module is loaded into

    The answers of the kernel functions [pteditor_init] calls: the address a
    probe on [kallsyms_lookup_name] finds (0 when it cannot be registered; the
    build uses a probe from 5.7 on), the results of [misc_register] and
    [register_kretprobe], whether [proc_create] succeeds, the address of a
    symbol (0 when there is none), and the register [tcr_el1]. *)
Record boot := mk_boot {
  KPROBE_KALLSYMS_LOOKUP : bool;
  b_kprobe_addr : Z;
  b_misc_register : Z;
  b_kretprobe : Z;
  b_proc_create : bool;
  b_symbol : string -> Z;
  b_tcr_el1 : Z }.

(** [umem_ops]; the null pointer is 0, and [open] is [open_umem] or null. *)
Record umem_ops_t := mk_umem_ops {
  op_lseek : Z; op_read : Z; op_write : Z; op_mmap : Z; op_open : bool }.

(** What is registered, and the globals of the module [kernel] does not have. *)
Record modstate (P L T : Type) := mk_modstate {
  ms_kernel : kernel P L T;
  ms_kprobe : bool;
  ms_device : bool;
  ms_kretprobe : bool;
  ms_proc : option umem_ops_t;
  kallsyms_lookup_name_func : Z;
  flush_tlb_mm_range_func : Z;
  native_write_cr4_func : Z;
  umem_ops : umem_ops_t;
  has_umem : bool }.
Arguments mk_modstate {P L T}.
Arguments ms_kernel {P L T} m.
Arguments ms_kprobe {P L T} m.
Arguments ms_device {P L T} m.
Arguments ms_kretprobe {P L T} m.
Arguments ms_proc {P L T} m.
Arguments kallsyms_lookup_name_func {P L T} m.
Arguments flush_tlb_mm_range_func {P L T} m.
Arguments native_write_cr4_func {P L T} m.
Arguments umem_ops {P L T} m.
Arguments has_umem {P L T} m.

Section setters.
Context {P L T : Type}.
Implicit Types m : modstate P L T.

Definition on_kernel (f : kernel P L T -> kernel P L T) m : modstate P L T :=
  mk_modstate (f (ms_kernel m)) (ms_kprobe m) (ms_device m) (ms_kretprobe m) (ms_proc m)
    (kallsyms_lookup_name_func m) (flush_tlb_mm_range_func m) (native_write_cr4_func m)
    (umem_ops m) (has_umem m).
Definition with_kprobe v m : modstate P L T :=
  mk_modstate (ms_kernel m) v (ms_device m) (ms_kretprobe m) (ms_proc m)
    (kallsyms_lookup_name_func m) (flush_tlb_mm_range_func m) (native_write_cr4_func m)
    (umem_ops m) (has_umem m).
Definition with_device v m : modstate P L T :=
  mk_modstate (ms_kernel m) (ms_kprobe m) v (ms_kretprobe m) (ms_proc m)
    (kallsyms_lookup_name_func m) (flush_tlb_mm_range_func m) (native_write_cr4_func m)
    (umem_ops m) (has_umem m).
Definition with_kretprobe v m : modstate P L T :=
  mk_modstate (ms_kernel m) (ms_kprobe m) (ms_device m) v (ms_proc m)
    (kallsyms_lookup_name_func m) (flush_tlb_mm_range_func m) (native_write_cr4_func m)
    (umem_ops m) (has_umem m).
Definition with_proc v m : modstate P L T :=
  mk_modstate (ms_kernel m) (ms_kprobe m) (ms_device m) (ms_kretprobe m) v
    (kallsyms_lookup_name_func m) (flush_tlb_mm_range_func m) (native_write_cr4_func m)
    (umem_ops m) (has_umem m).
Definition with_lookup v m : modstate P L T :=
  mk_modstate (ms_kernel m) (ms_kprobe m) (ms_device m) (ms_kretprobe m) (ms_proc m)
    v (flush_tlb_mm_range_func m) (native_write_cr4_func m) (umem_ops m) (has_umem m).
Definition with_flush_func v m : modstate P L T :=
  mk_modstate (ms_kernel m) (ms_kprobe m) (ms_device m) (ms_kretprobe m) (ms_proc m)
    (kallsyms_lookup_name_func m) v (native_write_cr4_func m) (umem_ops m) (has_umem m).
Definition with_cr4_func v m : modstate P L T :=
  mk_modstate (ms_kernel m) (ms_kprobe m) (ms_device m) (ms_kretprobe m) (ms_proc m)
    (kallsyms_lookup_name_func m) (flush_tlb_mm_range_func m) v (umem_ops m) (has_umem m).
Definition with_umem_ops v m : modstate P L T :=
  mk_modstate (ms_kernel m) (ms_kprobe m) (ms_device m) (ms_kretprobe m) (ms_proc m)
    (kallsyms_lookup_name_func m) (flush_tlb_mm_range_func m) (native_write_cr4_func m)
    v (has_umem m).
Definition with_has_umem v m : modstate P L T :=
  mk_modstate (ms_kernel m) (ms_kprobe m) (ms_device m) (ms_kretprobe m) (ms_proc m)
    (kallsyms_lookup_name_func m) (flush_tlb_mm_range_func m) (native_write_cr4_func m)
    (umem_ops m) v.
End setters.

(** ** The probe on [devmem_is_allowed]

    The handler gets the registers when the function returns, with its result
    in the return register, and may change it. *)
Definition devmem_bypass (return_register : Z) : Z :=
  if return_register =? 0 then 1 else return_register.

Section operations.
Context {P L T : Type}.
Variable cfg : kconfig.
Variable env : boot.
Abbreviation MM := (M (modstate P L T)).

(** *** Calls of the kernel *)

Definition misc_register : MM Z :=
  when (b_misc_register env =? 0) (modify (with_device true)) ;;; ret (b_misc_register env).
Definition misc_deregister : MM unit := modify (with_device false).

Definition register_kretprobe : MM Z :=
  when (0 <=? b_kretprobe env) (modify (with_kretprobe true)) ;;; ret (b_kretprobe env).
Definition unregister_kretprobe : MM unit := modify (with_kretprobe false).

(** [proc_create("umem", 0666, NULL, &umem_ops)], whose result is not used,
    and [remove_proc_entry("umem", NULL)] *)
Definition proc_create (ops : umem_ops_t) : MM unit :=
  when (b_proc_create env) (modify (with_proc (Some ops))).
Definition remove_proc_entry : MM unit := modify (with_proc None).

(** *** [pteditor_init] *)

(** Lines 681 to 690: the result is whether to go on. *)
Definition init_kallsyms : MM bool :=
  if KPROBE_KALLSYMS_LOOKUP env then
    modify (with_kprobe (negb (b_kprobe_addr env =? 0))) ;;;
    modify (with_lookup (b_kprobe_addr env)) ;;;
    modify (with_kprobe false) ;;;
    let* f := gets kallsyms_lookup_name_func in
    ret (negb (f =? 0))
  else ret true.

(** Lines 699 to 705 and 708 to 716. *)
Definition init_flush_tlb : MM bool :=
  match kc_arch cfg with
  | X86_64 =>
      modify (with_flush_func (b_symbol env "flush_tlb_mm_range")) ;;;
      let* f := gets flush_tlb_mm_range_func in
      ret (negb (f =? 0))
  | AARCH64 => ret true
  end.

Definition init_cr4 : MM bool :=
  match kc_arch cfg with
  | X86_64 =>
      if kc_invpcid_single cfg then ret true
      else
        modify (with_cr4_func (b_symbol env "native_write_cr4")) ;;;
        let* f := gets native_write_cr4_func in
        ret (negb (f =? 0))
  | AARCH64 => ret true
  end.

(** Lines 718 to 734. *)
Definition init_page_size : MM unit :=
  match kc_arch cfg with
  | X86_64 => ret tt
  | AARCH64 =>
      let granule := Z.land (Z.shiftr (b_tcr_el1 env) 14) 3 in
      if granule =? 1 then modify (on_kernel (with_page_size (64 * 1024) 16))
      else if granule =? 2 then modify (on_kernel (with_page_size (16 * 1024) 14))
      else ret tt
  end.

Definition OPS_set (o : umem_ops_t) : bool :=
  negb (op_lseek o =? 0) && negb (op_read o =? 0) && negb (op_write o =? 0) &&
  negb (op_mmap o =? 0) && op_open o.

(** Lines 744 to 757. *)
Definition init_umem : MM unit :=
  modify (with_umem_ops (mk_umem_ops (b_symbol env "memory_lseek") (b_symbol env "read_mem")
    (b_symbol env "write_mem") (b_symbol env "mmap_mem") true)) ;;;
  let* ops := gets umem_ops in
  if negb (OPS_set ops) then ret tt
  else
    proc_create ops ;;;
    modify (with_has_umem true).

Definition pteditor_init : MM Z :=
  let* ok := init_kallsyms in
  if negb ok then ret (- ENXIO)
  else
    let* r := misc_register in
    if negb (r =? 0) then ret (- ENXIO)
    else
      let* ok := init_flush_tlb in
      if negb ok then ret (- ENXIO)
      else
        modify (on_kernel (with_method invalidate_tlb_kernel_fn)) ;;;
        let* ok := init_cr4 in
        if negb ok then ret (- ENXIO)
        else
          init_page_size ;;;
          let* _ := register_kretprobe in
          init_umem ;;;
          ret 0.

Definition pteditor_exit : MM unit :=
  misc_deregister ;;;
  unregister_kretprobe ;;;
  let* has := gets has_umem in
  when has remove_proc_entry.

(** * Theorems *)

(** Nothing is registered, and the globals are as the module image has them. *)
Definition nothing_registered (m : modstate P L T) : Prop :=
  ms_kprobe m = false /\ ms_device m = false /\ ms_kretprobe m = false /\ ms_proc m = None.

Definition fresh (m : modstate P L T) : Prop :=
  nothing_registered m /\ has_umem m = false /\
  real_page_size (ms_kernel m) = 4096 /\ real_page_shift (ms_kernel m) = 12.

(** What has to succeed for the device to be registered, and after that for
    the module to load. *)
Definition can_register : bool :=
  (negb (KPROBE_KALLSYMS_LOOKUP env) || negb (b_kprobe_addr env =? 0)) &&
  (b_misc_register env =? 0).

Definition has_symbols : bool :=
  match kc_arch cfg with
  | X86_64 =>
      negb (b_symbol env "flush_tlb_mm_range" =? 0) &&
      (kc_invpcid_single cfg || negb (b_symbol env "native_write_cr4" =? 0))
  | AARCH64 => true
  end.

Definition has_memory_symbols : bool :=
  forallb (fun s => negb (b_symbol env s =? 0))
    ["memory_lseek"; "read_mem"; "write_mem"; "mmap_mem"]%string.

(** A loaded module: the device is there, TLB invalidation is the kernel's
    and the page size is the one the processor uses. *)
Definition page_shift : Z :=
  match kc_arch cfg with
  | X86_64 => 12
  | AARCH64 => let granule := Z.land (Z.shiftr (b_tcr_el1 env) 14) 3 in
               if granule =? 1 then 16 else if granule =? 2 then 14 else 12
  end.

Definition loaded (m : modstate P L T) : Prop :=
  ms_kprobe m = false /\ ms_device m = true /\
  invalidate_tlb (ms_kernel m) = invalidate_tlb_kernel_fn /\
  real_page_shift (ms_kernel m) = page_shift /\
  real_page_size (ms_kernel m) = 2 ^ page_shift /\
  (kc_arch cfg = X86_64 -> flush_tlb_mm_range_func m <> 0 /\
     (kc_invpcid_single cfg = false -> native_write_cr4_func m <> 0)) /\
  has_umem m = has_memory_symbols /\
  (forall ops, ms_proc m = Some ops -> has_umem m = true /\ OPS_set ops = true).

(** Each step, as a function of the environment. *)
Lemma init_kallsyms_run m : exists m', init_kallsyms m =
    Ret (negb (KPROBE_KALLSYMS_LOOKUP env) || negb (b_kprobe_addr env =? 0)) m' /\
  (fresh m -> fresh m').
Proof.
  unfold init_kallsyms. destruct (KPROBE_KALLSYMS_LOOKUP env); [|by eexists].
  eexists. split; [reflexivity|]. unfold fresh, nothing_registered. simpl. tauto.
Qed.

Lemma init_page_size_run m : real_page_size (ms_kernel m) = 4096 ->
  real_page_shift (ms_kernel m) = 12 -> exists f, init_page_size m = Ret tt (on_kernel f m) /\
    real_page_shift (f (ms_kernel m)) = page_shift /\
    real_page_size (f (ms_kernel m)) = 2 ^ page_shift /\
    invalidate_tlb (f (ms_kernel m)) = invalidate_tlb (ms_kernel m).
Proof.
  intros Hs Hsh. unfold init_page_size, page_shift.
  assert (m = on_kernel id m) as Hid by by destruct m.
  destruct (kc_arch cfg); [exists id; rewrite <- Hid; auto|].
  destruct (_ =? 1); [by eexists|]. destruct (_ =? 2); [by eexists|].
  exists id. rewrite <- Hid. auto.
Qed.

Lemma init_umem_run m : exists m', init_umem m = Ret tt m' /\
  ms_kernel m' = ms_kernel m /\ ms_kprobe m' = ms_kprobe m /\ ms_device m' = ms_device m /\
  flush_tlb_mm_range_func m' = flush_tlb_mm_range_func m /\
  native_write_cr4_func m' = native_write_cr4_func m /\
  has_umem m' = has_memory_symbols || has_umem m /\
  (ms_proc m = None -> forall ops, ms_proc m' = Some ops ->
     has_umem m' = true /\ OPS_set ops = true).
Proof.
  unfold init_umem, has_memory_symbols, OPS_set, forallb, proc_create.
  rewrite bind_modify, bind_gets. simpl. rewrite !andb_true_r, !andb_assoc.
  destruct (_ && _) eqn:E; simpl.
  - destruct (b_proc_create env); simpl; eexists; (split; [reflexivity|]); simpl;
      repeat split; try congruence; simplify_eq/=; by rewrite ?andb_true_r, ?andb_assoc.
  - eexists; (split; [reflexivity|]). simpl. repeat split; congruence.
Qed.

(** The part of [pteditor_init] after the symbols it needs. *)
Definition init_rest : MM Z :=
  init_page_size ;;;
  let* _ := register_kretprobe in
  init_umem ;;;
  ret 0.

Lemma init_rest_run m : ms_kprobe m = false -> ms_device m = true -> ms_proc m = None ->
  has_umem m = false -> real_page_size (ms_kernel m) = 4096 ->
  real_page_shift (ms_kernel m) = 12 ->
  invalidate_tlb (ms_kernel m) = invalidate_tlb_kernel_fn ->
  (kc_arch cfg = X86_64 -> flush_tlb_mm_range_func m <> 0 /\
     (kc_invpcid_single cfg = false -> native_write_cr4_func m <> 0)) ->
  exists m', init_rest m = Ret 0 m' /\ loaded m'.
Proof.
  intros Hk Hd Hp Hu Hs Hsh Ht Hf.
  destruct (init_page_size_run m Hs Hsh) as (f & Hrun & Hfsh & Hfs & Hft).
  unfold init_rest. rewrite (bind_Ret _ _ _ _ _ Hrun). clear Hrun.
  set (m1 := (if 0 <=? b_kretprobe env then with_kretprobe true else id) (on_kernel f m)).
  assert (register_kretprobe (on_kernel f m) = Ret (b_kretprobe env) m1) as Hrun.
  { unfold register_kretprobe, m1. by destruct (0 <=? b_kretprobe env). }
  rewrite (bind_Ret _ _ _ _ _ Hrun). clear Hrun.
  assert (ms_kernel m1 = f (ms_kernel m) /\ ms_kprobe m1 = ms_kprobe m /\
    ms_device m1 = ms_device m /\ ms_proc m1 = ms_proc m /\ has_umem m1 = has_umem m /\
    flush_tlb_mm_range_func m1 = flush_tlb_mm_range_func m /\
    native_write_cr4_func m1 = native_write_cr4_func m) as (E1 & E2 & E3 & E4 & E5 & E6 & E7).
  { unfold m1. by destruct (0 <=? b_kretprobe env). }
  destruct (init_umem_run m1) as (m2 & Hrun & F1 & F2 & F3 & F4 & F5 & F6 & F7).
  rewrite (bind_Ret _ _ _ _ _ Hrun). exists m2. split; [done|].
  rewrite Hp in E4. specialize (F7 E4). rewrite F6, E5, Hu, orb_false_r in F7.
  unfold loaded. rewrite F1, F2, F3, F4, F5, F6, E1, E2, E3, E5, E6, E7, Hu, orb_false_r, Hft.
  repeat split; try done; try (by apply Hf).
  all: by eapply F7.
Qed.

(** What a load from the state of the module image does. *)
Definition load_result (m : modstate P L T) (r : Z) (m' : modstate P L T) : Prop :=
  if can_register && has_symbols then r = 0 /\ loaded m' else
    r = - ENXIO /\ ms_kprobe m' = false /\ ms_kretprobe m' = false /\ ms_proc m' = None /\
    ms_device m' = can_register.

Ltac finish_load :=
  fold init_rest; rewrite ?bind_modify; autorewrite with monad; simpl;
  match goal with
  | |- exists r m', init_rest ?m = _ /\ _ =>
      let Hr := fresh in let Hl := fresh in let m' := fresh "m" in
      destruct (init_rest_run m) as (m' & Hr & Hl); simpl;
        [first [done | congruence | by intros; split; [|congruence]]..|by exists 0, m']
  end.

Lemma load_run m : fresh m -> exists r m', pteditor_init m = Ret r m' /\ load_result m r m'.
Proof.
  intros Hm. destruct (init_kallsyms_run m) as (m1 & Hrun & H1). specialize (H1 Hm). clear Hm.
  unfold pteditor_init. rewrite (bind_Ret _ _ _ _ _ Hrun). clear Hrun.
  destruct H1 as ((H1 & H2 & H3 & H4) & H5 & H6 & H7).
  unfold load_result, can_register. destruct (_ || _); simpl; [|by eauto 10].
  unfold misc_register. rewrite bind_assoc.
  destruct (Z.eqb_spec (b_misc_register env) 0) as [E|E]; simpl; autorewrite with monad.
  2: { destruct (Z.eqb_spec (b_misc_register env) 0); [done|]. simpl. by eauto 10. }
  destruct (Z.eqb_spec (b_misc_register env) 0); [|done]. simpl.
  unfold has_symbols, init_flush_tlb, init_cr4. destruct (kc_arch cfg) eqn:Ea.
  - autorewrite with monad. simpl.
    destruct (Z.eqb_spec (b_symbol env "flush_tlb_mm_range") 0); simpl; [by eauto 10|].
    destruct (kc_invpcid_single cfg) eqn:Ei; simpl.
    + autorewrite with monad. simpl. finish_load.
    + autorewrite with monad. simpl.
      destruct (Z.eqb_spec (b_symbol env "native_write_cr4") 0); simpl; [by eauto 10|].
      finish_load.
  - autorewrite with monad. simpl. finish_load.
Qed.

(** C33: loading the module, from the state of its image, either succeeds or
    fails with [-ENXIO], and which of them depends on whether the device can be
    registered and the symbols it needs are there.  A loaded module has its
    device, invalidates the TLB with the kernel's function, has the page size
    the processor is set to, and offers unprivileged access to memory only
    through operations that are all there; unloading it leaves nothing
    registered.  When a symbol is missing, though, the load fails after the
    device has been registered and leaves it registered. *)
Theorem load_unload m : fresh m -> exists r m', pteditor_init m = Ret r m' /\
  (can_register && has_symbols = true ->
     r = 0 /\ loaded m' /\
     exists m'', pteditor_exit m' = Ret tt m'' /\ nothing_registered m'') /\
  (can_register && has_symbols = false ->
     r = - ENXIO /\ ms_device m' = can_register /\ ms_kretprobe m' = false /\ ms_proc m' = None).
Proof.
  intros Hm. destruct (load_run m Hm) as (r & m' & Hrun & H). exists r, m'. split; [done|].
  unfold load_result in H. split; intros Hc; rewrite Hc in H; [|tauto].
  destruct H as [-> H]. split; [done|]. split; [done|].
  destruct H as (H1 & _ & _ & _ & _ & _ & _ & H2).
  unfold pteditor_exit, misc_deregister, unregister_kretprobe. autorewrite with monad.
  unfold when. destruct (has_umem m') eqn:E; simpl; rewrite E; eexists; (split; [reflexivity|]);
    unfold nothing_registered; simpl; repeat split; try done.
  destruct (ms_proc m') as [ops|]; [|done]. destruct (H2 ops eq_refl). congruence.
Qed.

(** The probe makes the kernel allow every access to memory it would refuse,
    and changes no other answer. *)
Lemma devmem_bypass_allows r : devmem_bypass r <> 0 /\ (r <> 0 -> devmem_bypass r = r).
Proof. unfold devmem_bypass. by destruct (Z.eqb_spec r 0). Qed.
End operations.

(** A kernel from 5.7 on with all symbols; and one without [flush_tlb_mm_range]. *)
Definition good_boot : boot := mk_boot true 0xffffffff81000000 0 0 true (fun _ => 0xffffffff81001000) 0.
Definition no_flush_boot : boot := mk_boot true 0xffffffff81000000 0 0 true
  (fun s => if String.eqb s "flush_tlb_mm_range" then 0 else 0xffffffff81001000) 0.

Definition module_image : modstate ram rwsem (list tlb_entry) :=
  mk_modstate machine false false false None 0 0 0 (mk_umem_ops 0 0 0 0 false) false.

Lemma load_unload_witness : fresh module_image /\
  (exists m', pteditor_init x86_cfg good_boot module_image = Ret 0 m' /\
     loaded x86_cfg good_boot m') /\
  exists m', pteditor_init x86_cfg no_flush_boot module_image = Ret (- ENXIO) m' /\
    ms_device m' = true.
Proof.
  assert (fresh module_image) as Hf by (repeat split).
  split; [exact Hf|]. split.
  - destruct (load_unload x86_cfg good_boot module_image Hf) as (r & m' & Hrun & H & _).
    destruct (H eq_refl) as (-> & Hl & _). exists m'. split; [exact Hrun|exact Hl].
  - destruct (load_unload x86_cfg no_flush_boot module_image Hf) as (r & m' & Hrun & _ & H).
    destruct (H eq_refl) as (-> & Hd & _). exists m'. split; [exact Hrun|exact Hd].
Defined.
