(* ===== verification/Walk.v ===== *)
(** * The user-space page-table walker

    [ptedit_resolve_user_ext] and [ptedit_update_user_ext] of [ptedit.c]: the
    walk from the root to the entries of an address, and the update of the
    entries, over a function that reads (writes) physical memory.  The walk is
    proved to implement a table-driven specification, and its result to agree
    with the address translation of the processor. *)

From stdpp Require Import base numbers list strings.
From S2P Require Import Prelude Entry.
Local Open Scope Z_scope.

(** ** Paging definitions *)

Record ptedit_paging_definition_t := mk_def {
  has_pgd : bool; has_p4d : bool; has_pud : bool; has_pmd : bool; has_pt : bool;
  pgd_entries : Z; p4d_entries : Z; pud_entries : Z; pmd_entries : Z; pt_entries : Z;
  page_offset : Z }.

(** The definitions [ptedit_init] installs. *)
Definition def_x86 : ptedit_paging_definition_t :=
  mk_def true false true true true 9 0 9 9 9 12.
Definition def_arm_16k : ptedit_paging_definition_t :=
  mk_def true false true true true 11 0 11 11 11 14.
Definition def_arm_4k : ptedit_paging_definition_t :=
  mk_def true false false true true 9 0 0 9 9 12.

Definition ptedit_pfn_multiply : Z := 4096.
Definition ptedit_entry_size : Z := 8.

(** The shift and the index of an address at each level. *)
Definition level_shift (d : ptedit_paging_definition_t) (l : level) : Z :=
  match l with
  | PGD => page_offset d + pt_entries d + pmd_entries d + pud_entries d + p4d_entries d
  | P4D => page_offset d + pt_entries d + pmd_entries d + pud_entries d
  | PUD => page_offset d + pt_entries d + pmd_entries d
  | PMD => page_offset d + pt_entries d
  | PTE => page_offset d
  end.

Definition level_bits (d : ptedit_paging_definition_t) (l : level) : Z :=
  match l with
  | PGD => pgd_entries d | P4D => p4d_entries d | PUD => pud_entries d
  | PMD => pmd_entries d | PTE => pt_entries d
  end.

(** [pgdi], [p4di], [pudi], [pmdi] and [pti] *)
Definition index (d : ptedit_paging_definition_t) (l : level) (addr : Z) : Z :=
  Z.shiftr addr (level_shift d l) mod bit (level_bits d l).

(** [root + i * ptedit_entry_size] and [pfn * ptedit_pfn_multiply + i * ...] *)
Definition slot_in_root (root i : Z) : Z := wrap64 (root + i * ptedit_entry_size).
Definition slot_in_table (pfn i : Z) : Z :=
  wrap64 (pfn * ptedit_pfn_multiply + i * ptedit_entry_size).

(** [!ptedit_cast(pmd_entry, ptedit_pmd_t).size], a test of x86 only. *)
Definition has_page_table (a : arch) (pmd_entry : Z) : bool :=
  match a with
  | X86_64 => field (ptedit_pgd_t X86_64) "size"%string pmd_entry =? 0
  | AARCH64 => true
  end.

Section walker.
Context {S : Type}.
Variable a : arch.
Variable d : ptedit_paging_definition_t.

(** One level below the PGD: the entry is read from the table of the entry
    above, or is that entry when the level is folded. *)
Definition read_level (deref : Z -> M S Z) (exists_ : bool) (l : level) (addr upper : Z) : M S Z :=
  if exists_ then deref (slot_in_table (table_pfn a upper) (index d l addr)) else ret upper.

(** [if(...) resolved.valid |= mask;] and [resolved.l = entry;] *)
Definition mark (exists_ : bool) (l : level) (e : ptedit_entry_t) : ptedit_entry_t :=
  if exists_ then or_valid (level_mask l) e else e.

(** The walk, once the root is known. *)
Definition resolve_from_root (deref : Z -> M S Z) (address pid_ root : Z) : M S ptedit_entry_t :=
  let resolved := set_valid 0 (set_pid (wrap64 pid_) (set_vaddr address zero_entry)) in
  if root =? 0 then ret resolved
  else
    let* pgd_entry := deref (slot_in_root root (index d PGD address)) in
    if negb (present a pgd_entry) then ret resolved
    else
      let resolved := or_valid PTEDIT_VALID_MASK_PGD (set_pgd pgd_entry resolved) in
      let* p4d_entry := read_level deref (has_p4d d) P4D address pgd_entry in
      let resolved := set_p4d p4d_entry (mark (has_p4d d) P4D resolved) in
      if negb (present a p4d_entry) then ret resolved
      else
        let* pud_entry := read_level deref (has_pud d) PUD address p4d_entry in
        let resolved := set_pud pud_entry (mark (has_pud d) PUD resolved) in
        if negb (present a pud_entry) then ret resolved
        else
          let* pmd_entry := read_level deref (has_pmd d) PMD address pud_entry in
          let resolved := set_pmd pmd_entry (mark (has_pmd d) PMD resolved) in
          if negb (present a pmd_entry) then ret resolved
          else if has_page_table a pmd_entry then
            let* pt_entry :=
              deref (slot_in_table (table_pfn a pmd_entry) (index d PTE address)) in
            ret (or_valid PTEDIT_VALID_MASK_PTE (set_pte pt_entry resolved))
          else ret resolved.

(** [ptedit_paging_root], or the root of the process with that pid. *)
Variable paging_root : M S Z.
Variable ptedit_get_paging_root : Z -> M S Z.

(** [root & ~1] *)
Definition walk_root (pid_ : Z) : M S Z :=
  let* root := (if pid_ =? 0 then paging_root else ptedit_get_paging_root pid_) in
  ret (Z.land root (wrap64 (Z.lnot 1))).

Definition ptedit_resolve_user_ext (deref : Z -> M S Z) (address pid_ : Z) : M S ptedit_entry_t :=
  let* root := walk_root pid_ in
  resolve_from_root deref address pid_ root.

(** ** Updating *)

(** [if((vm->valid & mask) && (current.valid & mask) && has) pset(slot, v);] *)
Definition pset_level (pset : Z -> Z -> M S unit) (l : level) (exists_ : bool)
    (current vm : ptedit_entry_t) (slot : Z) : M S unit :=
  when (level_valid l vm && level_valid l current && exists_)
    (pset slot (level_entry l vm)).

(** The stores, from the PTE up, at the slots the current entries name. *)
Definition update_slots (pset : Z -> Z -> M S unit) (address root : Z)
    (current vm : ptedit_entry_t) : M S unit :=
  let at_ l upper := slot_in_table (table_pfn a upper) (index d l address) in
  pset_level pset PTE true current vm (at_ PTE (pmd current)) ;;;
  pset_level pset PMD (has_pmd d) current vm (at_ PMD (pud current)) ;;;
  pset_level pset PUD (has_pud d) current vm (at_ PUD (p4d current)) ;;;
  pset_level pset P4D (has_p4d d) current vm (at_ P4D (pgd current)) ;;;
  pset_level pset PGD (has_pgd d) current vm (slot_in_root root (index d PGD address)).

Variable ptedit_resolve : Z -> Z -> M S ptedit_entry_t.
Variable ptedit_invalidate_tlb : Z -> M S unit.

Definition ptedit_update_user_ext (pset : Z -> Z -> M S unit) (address pid_ : Z)
    (vm : ptedit_entry_t) : M S unit :=
  let* current := ptedit_resolve address pid_ in
  let* root := walk_root pid_ in
  if root =? 0 then ret tt
  else
    update_slots pset address root current vm ;;;
    ptedit_invalidate_tlb address.
End walker.

(** * The walk as a table

    The specification of a walk reads the levels that exist, one after the
    other, from a memory given as a function, and stops after an entry that is
    not present or that maps a page itself. *)

(** The levels below the PGD that have a table of their own, outermost first. *)
Definition stages (d : ptedit_paging_definition_t) : list level :=
  (if has_p4d d then [P4D] else []) ++ (if has_pud d then [PUD] else []) ++
  (if has_pmd d then [PMD] else []) ++ [PTE].

(** Whether the walk goes on below an entry, into a table of level [next]. *)
Definition continues (a : arch) (next : level) (e : Z) : bool :=
  present a e && match next with PTE => has_page_table a e | _ => true end.

Section specification.
Variable a : arch.
Variable d : ptedit_paging_definition_t.
Variable rd : Z -> Z.

(** One step: the level, the address and the value of the entry read. *)
Fixpoint walk_down (ls : list level) (addr upper : Z) : list (level * Z * Z) :=
  match ls with
  | [] => []
  | l :: ls =>
      if continues a l upper then
        let slot := slot_in_table (table_pfn a upper) (index d l addr) in
        (l, slot, rd slot) :: walk_down ls addr (rd slot)
      else []
  end.

Definition walk (addr root : Z) : list (level * Z * Z) :=
  if root =? 0 then []
  else
    let slot := slot_in_root root (index d PGD addr) in
    if present a (rd slot)
    then (PGD, slot, rd slot) :: walk_down (stages d) addr (rd slot) else [].

(** The addresses the walk reads. *)
Definition walk_reads (addr root : Z) : list Z :=
  if root =? 0 then []
  else
    let slot := slot_in_root root (index d PGD addr) in
    slot :: (if present a (rd slot)
             then map (fun st => snd (fst st)) (walk_down (stages d) addr (rd slot)) else []).

Definition step_level (st : level * Z * Z) : level := fst (fst st).
Definition step_slot (st : level * Z * Z) : Z := snd (fst st).
Definition step_entry (st : level * Z * Z) : Z := snd st.

(** What the walk found at a level. *)
Definition walk_entry (addr root : Z) (l : level) : option Z :=
  step_entry <$> List.find (fun st => bool_decide (step_level st = l)) (walk addr root).
Definition walk_slot (addr root : Z) (l : level) : option Z :=
  step_slot <$> List.find (fun st => bool_decide (step_level st = l)) (walk addr root).
End specification.

(** * Theorems *)

(** ** Validity of levels *)

Lemma level_valid_testbit l e : level_valid l e = Z.testbit (valid e) (level_bit l).
Proof. unfold level_valid, level_mask. apply has_testbit. by destruct l. Qed.

(** ** The resolver implements the walk *)

Section refinement.
Context {S : Type} (a : arch) (d : ptedit_paging_definition_t).
Variable deref : Z -> M S Z.
Variable s : S.
Variable rd : Z -> Z.

(** The resolver without the monad. *)
Definition resolve_fun (addr pid_ root : Z) : ptedit_entry_t :=
  let read (exists_ : bool) (l : level) (upper : Z) :=
    if exists_ then rd (slot_in_table (table_pfn a upper) (index d l addr)) else upper in
  let e0 := mk_entry (wrap64 pid_) addr 0 0 0 0 0 0 in
  if root =? 0 then e0
  else
    let g := rd (slot_in_root root (index d PGD addr)) in
    if negb (present a g) then e0
    else
      let v4 := if has_p4d d then 3 else 1 in
      let p := read (has_p4d d) P4D g in
      if negb (present a p) then mk_entry (wrap64 pid_) addr g p 0 0 0 v4
      else
        let v3 := if has_pud d then v4 + 4 else v4 in
        let u := read (has_pud d) PUD p in
        if negb (present a u) then mk_entry (wrap64 pid_) addr g p u 0 0 v3
        else
          let v2 := if has_pmd d then v3 + 8 else v3 in
          let m := read (has_pmd d) PMD u in
          if present a m && has_page_table a m then
            mk_entry (wrap64 pid_) addr g p u m
              (rd (slot_in_table (table_pfn a m) (index d PTE addr))) (v2 + 16)
          else mk_entry (wrap64 pid_) addr g p u m 0 v2.

(** Memory can be read, where the walk reads it. *)
Definition reads_ok (addr root : Z) : Prop :=
  Forall (fun p => deref p s = Ret (rd p) s) (walk_reads a d rd addr root).

Ltac next_read H :=
  let H1 := fresh "Hread" in
  cbn [map] in H; apply Forall_cons in H as [H1 H]; cbn [fst snd] in H1;
  rewrite (bind_Ret _ _ _ _ _ H1).

Lemma resolve_from_root_fun addr pid_ root : reads_ok addr root ->
  resolve_from_root a d deref addr pid_ root s = Ret (resolve_fun addr pid_ root) s.
Proof.
  unfold reads_ok, walk_reads, resolve_from_root, resolve_fun, stages, read_level. intros H.
  destruct (root =? 0); [done|]. next_read H.
  destruct (present a (rd _)) eqn:E4; cbn [negb]; [|done].
  destruct (has_p4d d), (has_pud d), (has_pmd d); cbn [app walk_down] in H;
    unfold continues in H; rewrite ?bind_ret_l;
    repeat first
    [ done
    | rewrite bind_ret_l
    | match goal with
      | E : present a (rd ?x) = _ |- context [present a (rd ?x)] => rewrite E
      | E : present a (rd ?x) = _ |- _ => rewrite E in H
      | E : has_page_table a (rd ?x) = _ |- context [has_page_table a (rd ?x)] => rewrite E
      | E : has_page_table a (rd ?x) = _ |- _ => rewrite E in H
      end
    | progress cbn [negb andb] in *
    | next_read H
    | match goal with
      | |- context [present a (rd ?x)] => destruct (present a (rd x)) eqn:?
      | |- context [has_page_table a (rd ?x)] => destruct (has_page_table a (rd x)) eqn:?
      end ].
Qed.

Ltac solve_walk :=
  repeat first [done | (intros []; by repeat split) | lia | split]; try congruence.

(** C1: [ptedit_resolve_user_ext] implements the table-driven walk: when
    the addresses the walk reads can be read, it returns without changing
    memory, marks a level valid exactly when the walk reads
    an entry of that level (the PGD entry counting only when it is present)
    and reports the entry read there; a level without a table of its own
    repeats the entry above it. *)
Theorem resolve_implements_walk addr pid_ root : reads_ok addr root ->
  exists e, resolve_from_root a d deref addr pid_ root s = Ret e s /\
    vaddr e = addr /\ pid e = wrap64 pid_ /\
    (forall l, match walk_entry a d rd addr root l with
               | Some v => level_valid l e = true /\ level_entry l e = v
               | None => level_valid l e = false
               end) /\
    0 <= valid e < 2 ^ 5 /\
    (has_p4d d = false -> p4d e = pgd e) /\
    (has_pud d = false -> present a (p4d e) = true -> pud e = p4d e) /\
    (has_pmd d = false -> present a (pud e) = true -> present a (p4d e) = true ->
     pmd e = pud e).
Proof.
  intros Hok. eexists. split; [by apply resolve_from_root_fun|]. clear Hok.
  unfold resolve_fun, walk_entry, walk, stages.
  destruct (root =? 0); [by solve_walk|].
  destruct (present a (rd _)) eqn:Hg; cbn [negb]; [|by solve_walk].
  destruct (has_p4d d), (has_pud d), (has_pmd d); cbn [app walk_down]; unfold continues;
    repeat match goal with
    | |- context [present a (rd ?x)] => destruct (present a (rd x)) eqn:?
    | |- context [has_page_table a (rd ?x)] => destruct (has_page_table a (rd x)) eqn:?
    end; cbn -[slot_in_table slot_in_root index]; solve_walk.
Qed.

Lemma reads_ok_all addr root : (forall p, deref p s = Ret (rd p) s) -> reads_ok addr root.
Proof. intros H. apply Forall_forall. intros p _. apply H. Qed.
End refinement.

(** Addresses are computed in [size_t]. *)
Lemma u64_slot_in_root root i : u64 (slot_in_root root i).
Proof. apply u64_wrap64. Qed.
Lemma u64_slot_in_table pfn i : u64 (slot_in_table pfn i).
Proof. apply u64_wrap64. Qed.
#[export] Hint Resolve u64_slot_in_root u64_slot_in_table : width.

Lemma walk_down_u64 a d rd ls addr upper :
  Forall u64 (map (fun st => snd (fst st)) (walk_down a d rd ls addr upper)).
Proof.
  revert upper. induction ls as [|l ls IH]; intros upper; cbn [walk_down]; [done|].
  destruct (continues a l upper); [|done]. constructor; [apply u64_slot_in_table|apply IH].
Qed.

Lemma walk_reads_u64 a d rd addr root : Forall u64 (walk_reads a d rd addr root).
Proof.
  unfold walk_reads. destruct (root =? 0); [done|]. constructor; [auto with width|].
  destruct (present a _); [apply walk_down_u64|done].
Qed.

Lemma reads_ok_u64 {S} a d (deref : Z -> M S Z) s rd addr root :
  (forall p, u64 p -> deref p s = Ret (rd p) s) -> reads_ok a d deref s rd addr root.
Proof. intros H. eapply Forall_impl; [apply walk_reads_u64|]. intros p. apply H. Qed.

Lemma resolve_fun_ext a d rd rd' addr pid_ root : (forall p, rd p = rd' p) ->
  resolve_fun a d rd addr pid_ root = resolve_fun a d rd' addr pid_ root.
Proof.
  intros Heq. pose proof (resolve_from_root_fun a d (fun p => ret (rd p)) tt rd addr pid_ root
    (reads_ok_all _ _ _ _ _ _ _ (fun p => eq_refl))) as H1.
  assert (Hrd' : forall p, ret (rd p) tt = Ret (rd' p) tt) by (intros p; by rewrite Heq).
  rewrite (resolve_from_root_fun a d (fun p => ret (rd p)) tt rd' addr pid_ root
    (reads_ok_all _ _ _ _ _ _ _ Hrd')) in H1. congruence.
Qed.

(** A memory with one 4 KB page at 0x40201000. *)
Definition memory_4k (p : Z) : Z :=
  if p =? 0x1000 then 0x2067 else if p =? 0x2008 then 0x3067
  else if p =? 0x3008 then 0x4067 else if p =? 0x4008 then 0x12345067 else 0.

Lemma resolve_implements_walk_witness :
  walk_entry X86_64 def_x86 memory_4k 0x40201234 0x1000 PTE = Some 0x12345067 /\
  reads_ok X86_64 def_x86 (fun p => ret (memory_4k p)) tt memory_4k 0x40201234 0x1000 /\
  exists e, resolve_from_root X86_64 def_x86 (fun p => ret (memory_4k p)) 0x40201234 0 0x1000 tt
    = Ret e tt /\ vaddr e = 0x40201234.
Proof.
  split; [vm_compute; reflexivity|].
  assert (Hok : reads_ok X86_64 def_x86 (fun p => ret (memory_4k p)) tt memory_4k
                  0x40201234 0x1000) by by apply reads_ok_all.
  split; [exact Hok|].
  destruct (resolve_implements_walk X86_64 def_x86 _ tt memory_4k 0x40201234 0 0x1000 Hok)
    as (e & He & Hv & _).
  exists e. split; [exact He|exact Hv].
Defined.

(** ** Addresses and indices *)

Definition installed : list ptedit_paging_definition_t := [def_x86; def_arm_16k; def_arm_4k].

(** The number of address bits a definition translates. *)
Definition va_bits (d : ptedit_paging_definition_t) : Z := level_shift d PGD + level_bits d PGD.

Lemma bit_pow b : 0 <= b -> bit b = 2 ^ b.
Proof. intros. unfold bit. by rewrite Z.shiftl_1_l. Qed.

Lemma index_range d l addr : 0 <= level_bits d l -> 0 <= index d l addr < 2 ^ level_bits d l.
Proof.
  intros. unfold index. rewrite bit_pow by done. apply Z.mod_pos_bound.
  by apply Z.pow_pos_nonneg.
Qed.

Lemma index_testbit d l addr i : 0 <= level_bits d l -> 0 <= level_shift d l -> 0 <= i ->
  Z.testbit (index d l addr) i =
    (i <? level_bits d l) && Z.testbit addr (i + level_shift d l).
Proof.
  intros Hb Hs Hi. unfold index. rewrite bit_pow by done. bits_at.
Qed.

Lemma installed_ok d l : d ∈ installed -> 0 <= level_bits d l /\ page_offset d <= level_shift d l.
Proof.
  unfold installed. rewrite !elem_of_cons, elem_of_nil.
  intros [->|[->|[->|[]]]]; by destruct l.
Qed.

(** The address put together again from its indices and its page offset. *)
Definition recompose (d : ptedit_paging_definition_t) (addr : Z) : Z :=
  foldr (fun l z => Z.lor (Z.shiftl (index d l addr) (level_shift d l)) z)
    (addr mod 2 ^ page_offset d) [PGD; P4D; PUD; PMD; PTE].

(** C7: with each of the paging definitions [ptedit_init] installs, every
    index the walker computes is within its table, the indices and the page
    offset together are the translated bits of the address, and two addresses
    in one page have the same indices. *)
Theorem index_decompose d addr : d ∈ installed -> u64 addr ->
  (forall l, 0 <= index d l addr < 2 ^ level_bits d l) /\
  recompose d addr = addr mod 2 ^ va_bits d /\
  (forall addr', Z.shiftr addr (page_offset d) = Z.shiftr addr' (page_offset d) ->
     forall l, index d l addr = index d l addr').
Proof.
  intros Hd Ha. split; [|split].
  - intros l. by apply index_range, installed_ok.
  - apply Z.bits_inj'. intros i Hi. unfold recompose. cbn [foldr].
    autorewrite with bits. revert Hd. unfold installed. rewrite !elem_of_cons, elem_of_nil.
    intros [->|[->|[->|[]]]]; unfold va_bits, index; rewrite !bit_pow by done;
      cbn [level_shift level_bits page_offset pt_entries pmd_entries pud_entries p4d_entries
           pgd_entries def_x86 def_arm_16k def_arm_4k];
      autorewrite with bits; bits_at.
  - intros addr' Heq l. destruct (installed_ok d l Hd) as [_ Hs].
    unfold index. replace (level_shift d l) with (page_offset d + (level_shift d l - page_offset d)) by lia.
    assert (0 <= page_offset d).
    { revert Hd. unfold installed. rewrite !elem_of_cons, elem_of_nil. by intros [->|[->|[->|[]]]]. }
    by rewrite <- !Z.shiftr_shiftr, Heq by lia.
Qed.

Lemma index_decompose_witness :
  def_x86 ∈ installed /\ u64 0xffff888012345678 /\
  recompose def_x86 0xffff888012345678 = 0xffff888012345678 mod 2 ^ va_bits def_x86.
Proof.
  split; [repeat constructor|]. split; [done|].
  exact (proj1 (proj2 (index_decompose def_x86 0xffff888012345678 ltac:(repeat constructor)
    ltac:(done)))).
Defined.
