(* ===== verification/Mmu.v ===== *)
(** * The walker and the processor

    On x86-64 the entries [ptedit_resolve_user_ext] reports are compared with
    the address translation of the processor, which reads the same tables. *)

From stdpp Require Import base numbers list strings.
From S2P Require Import Prelude Entry Walk.
Local Open Scope Z_scope.

(** ** The translation

    Four-level paging as the processor's manual defines it: each level reads
    the eight-byte entry that nine bits of the address select in the table
    whose frame (bits 12 to 51) the upper entry holds; an entry with bit 0
    clear ends the translation; an entry with bit 7 set maps a page of 1 GB (third level)
    or 2 MB (second level). *)
Definition mmu_frame (e : Z) : Z := Z.land e (Z.shiftl (Z.ones 40) 12).
Definition mmu_read (rd : Z -> Z) (table shift addr : Z) : Z :=
  rd (table + 8 * Z.land (Z.shiftr addr shift) (Z.ones 9)).
(** The page of [n] address bits that an entry maps, at the offset of [addr]. *)
Definition mmu_page (e n addr : Z) : Z :=
  Z.lor (Z.land e (Z.shiftl (Z.ones (52 - n)) n)) (addr mod 2 ^ n).

Definition x86_mmu (rd : Z -> Z) (cr3 addr : Z) : option Z :=
  let pml4e := mmu_read rd cr3 39 addr in
  if negb (Z.testbit pml4e 0) then None
  else
    let pdpte := mmu_read rd (mmu_frame pml4e) 30 addr in
    if negb (Z.testbit pdpte 0) then None
    else if Z.testbit pdpte 7 then Some (mmu_page pdpte 30 addr)
    else
      let pde := mmu_read rd (mmu_frame pdpte) 21 addr in
      if negb (Z.testbit pde 0) then None
      else if Z.testbit pde 7 then Some (mmu_page pde 21 addr)
      else
        let pte := mmu_read rd (mmu_frame pde) 12 addr in
        if negb (Z.testbit pte 0) then None else Some (mmu_page pte 12 addr).

(** The physical address a resolved entry describes: the frame of the PTE, or
    of the PMD entry of a 2 MB page, which its entry gives in units of 4 KB. *)
Definition entry_physical (e : ptedit_entry_t) : option Z :=
  if level_valid PTE e then
    if present X86_64 (pte e)
    then Some (Z.shiftl (ptedit_get_pfn X86_64 (pte e)) 12 + vaddr e mod 2 ^ 12) else None
  else if level_valid PMD e && present X86_64 (pmd e)
  then Some (Z.shiftl (Z.shiftr (ptedit_get_pfn X86_64 (pmd e)) 9) 21 + vaddr e mod 2 ^ 21)
  else None.

(** No entry has bits at or above 40 in its frame: the machine has at most
    2^40 bytes of physical memory. *)
Definition small_frame (e : Z) : Prop := u64 e /\ field ptedit_pgd_t_x86 "reserved_1" e = 0.

Lemma small_frame_testbit e i : small_frame e -> 40 <= i < 52 -> Z.testbit e i = false.
Proof.
  intros [He H] Hi. simpl in H. rewrite !Z.shiftr_shiftr in H by lia. simpl in H.
  apply (f_equal (fun z => Z.testbit z (i - 40))) in H. revert H. bits_at.
  rewrite andb_true_r. congruence.
Qed.

Lemma has_page_table_x86 e : has_page_table X86_64 e = negb (Z.testbit e 7).
Proof.
  unfold has_page_table. simpl. rewrite !Z.shiftr_shiftr by lia.
  change (Z.ones 1) with (bit 0). rewrite <- (negb_involutive (_ =? 0)).
  change (negb (Z.land ?x ?m =? 0)) with (has x m). rewrite has_testbit by done.
  by rewrite testbit_shiftr.
Qed.

Lemma index_x86 l addr : l <> P4D ->
  index def_x86 l addr = Z.land (Z.shiftr addr (level_shift def_x86 l)) (Z.ones 9).
Proof.
  intros Hl. unfold index. rewrite Z.land_ones by lia.
  destruct l; try done; simpl; rewrite bit_pow; done.
Qed.

Lemma index_x86_range l addr : 0 <= index def_x86 l addr < 512.
Proof.
  destruct (index_range def_x86 l addr) as [H1 H2]; [by destruct l|].
  split; [done|]. eapply Z.lt_le_trans; [exact H2|]. by destruct l.
Qed.

(** The table of an entry, whose frame number the walker reads through the
    structure. *)
Lemma mmu_frame_table_pfn e : small_frame e -> mmu_frame e = table_pfn X86_64 e * 4096.
Proof.
  intros He. change 4096 with (2 ^ 12). rewrite <- Z.shiftl_mul_pow2 by lia.
  unfold mmu_frame. rewrite table_pfn_x86. pose proof (small_frame_testbit e) as Hb.
  apply Z.bits_inj'. intros i Hi. bits_at. rewrite Hb by (done || lia). done.
Qed.

Lemma slot_x86 e l addr : small_frame e -> l <> P4D ->
  slot_in_table (table_pfn X86_64 e) (index def_x86 l addr) =
    mmu_frame e + 8 * Z.land (Z.shiftr addr (level_shift def_x86 l)) (Z.ones 9).
Proof.
  intros He Hl. rewrite <- index_x86 by done.
  pose proof (index_x86_range l addr). pose proof (table_pfn_range X86_64 e).
  unfold slot_in_table, ptedit_pfn_multiply, ptedit_entry_size.
  rewrite mmu_frame_table_pfn, wrap64_id by (done || unfold u64; lia). lia.
Qed.

Lemma slot_root_x86 root addr : 0 <= root < 2 ^ 52 ->
  slot_in_root root (index def_x86 PGD addr) =
    root + 8 * Z.land (Z.shiftr addr 39) (Z.ones 9).
Proof.
  intros Hr. rewrite index_x86 by done. change (level_shift def_x86 PGD) with 39.
  pose proof (index_x86_range PGD addr) as Hi. rewrite index_x86 in Hi by done.
  change (level_shift def_x86 PGD) with 39 in Hi.
  unfold slot_in_root, ptedit_entry_size. rewrite wrap64_id; [lia|]. unfold u64. lia.
Qed.

Lemma mmu_page_pfn e n addr : small_frame e -> 12 <= n <= 30 ->
  mmu_page e n addr =
    Z.shiftl (Z.shiftr (ptedit_get_pfn X86_64 e) (n - 12)) n + addr mod 2 ^ n.
Proof.
  intros [He _] Hn. rewrite Z.add_nocarry_lxor by bits. unfold mmu_page.
  apply Z.bits_inj'. intros i Hi. autorewrite with bits. rewrite get_pfn_testbit.
  change (pfn_bits X86_64) with 40. bits_at.
Qed.

(** ** Agreement *)

Section agreement.
Variable rd : Z -> Z.
Variable root addr pid_ : Z.
Hypothesis root_ok : 0 < root < 2 ^ 52.

(** The steps of the walk are the reads of the processor. *)
Definition mmu_entry (l : level) : Z :=
  let e4 := mmu_read rd root 39 addr in
  let e3 := mmu_read rd (mmu_frame e4) 30 addr in
  let e2 := mmu_read rd (mmu_frame e3) 21 addr in
  match l with
  | PGD | P4D => e4
  | PUD => e3
  | PMD => e2
  | PTE => mmu_read rd (mmu_frame e2) 12 addr
  end.

(** The entries a translation gets to, unless a 1 GB page ends it earlier. *)
Definition reached (l : level) : bool :=
  match l with
  | PGD | P4D => true
  | PUD => Z.testbit (mmu_entry PGD) 0
  | PMD => Z.testbit (mmu_entry PGD) 0 && Z.testbit (mmu_entry PUD) 0
  | PTE => Z.testbit (mmu_entry PGD) 0 && Z.testbit (mmu_entry PUD) 0 &&
           Z.testbit (mmu_entry PMD) 0 && negb (Z.testbit (mmu_entry PMD) 7)
  end.

Definition result : ptedit_entry_t := resolve_fun X86_64 def_x86 rd addr pid_ root.

Lemma result_x86 :
  (forall l, reached l = true -> small_frame (mmu_entry l)) ->
  result =
    let mk := mk_entry (wrap64 pid_) addr in
    if negb (Z.testbit (mmu_entry PGD) 0) then mk 0 0 0 0 0 0
    else if negb (Z.testbit (mmu_entry PUD) 0)
    then mk (mmu_entry PGD) (mmu_entry PGD) (mmu_entry PUD) 0 0 5
    else if Z.testbit (mmu_entry PMD) 0 && negb (Z.testbit (mmu_entry PMD) 7)
    then mk (mmu_entry PGD) (mmu_entry PGD) (mmu_entry PUD) (mmu_entry PMD) (mmu_entry PTE) 29
    else mk (mmu_entry PGD) (mmu_entry PGD) (mmu_entry PUD) (mmu_entry PMD) 0 13.
Proof.
  intros Hs. unfold result, resolve_fun.
  destruct (Z.eqb_spec root 0) as [|_]; [lia|].
  rewrite slot_root_x86 by lia. cbn [has_p4d has_pud has_pmd def_x86].
  change (rd (root + _)) with (mmu_entry PGD). rewrite !present_x86.
  pose proof (Hs PGD eq_refl) as HsG. pose proof (Hs PUD) as HsU. pose proof (Hs PMD) as HsM.
  unfold reached in HsU, HsM.
  destruct (Z.testbit (mmu_entry PGD) 0); cbn [negb andb] in *; [|done].
  rewrite (slot_x86 (mmu_entry PGD) PUD addr) by done.
  change (rd (mmu_frame (mmu_entry PGD) + _)) with (mmu_entry PUD).
  destruct (Z.testbit (mmu_entry PUD) 0); cbn [negb andb] in *; [|done].
  rewrite (slot_x86 (mmu_entry PUD) PMD addr) by (done || by apply HsU).
  change (rd (mmu_frame (mmu_entry PUD) + _)) with (mmu_entry PMD).
  rewrite has_page_table_x86.
  rewrite (slot_x86 (mmu_entry PMD) PTE addr) by (done || by apply HsM).
  by change (rd (mmu_frame (mmu_entry PMD) + _)) with (mmu_entry PTE).
Qed.

(** The physical address of the entries is the translation. *)
Lemma result_physical :
  (forall l, reached l = true -> small_frame (mmu_entry l)) ->
  reached PMD && Z.testbit (mmu_entry PUD) 7 = false ->
  entry_physical result = x86_mmu rd root addr.
Proof.
  intros Hs Hpse. rewrite result_x86 by done.
  unfold x86_mmu.
  change (mmu_read rd root 39 addr) with (mmu_entry PGD).
  change (mmu_read rd (mmu_frame (mmu_entry PGD)) 30 addr) with (mmu_entry PUD).
  change (mmu_read rd (mmu_frame (mmu_entry PUD)) 21 addr) with (mmu_entry PMD).
  change (mmu_read rd (mmu_frame (mmu_entry PMD)) 12 addr) with (mmu_entry PTE).
  pose proof (Hs PMD) as HsM. pose proof (Hs PTE) as HsT. unfold reached in *.
  destruct (Z.testbit (mmu_entry PGD) 0); cbn [negb andb] in *; [|done].
  destruct (Z.testbit (mmu_entry PUD) 0); cbn [negb andb] in *; [|done].
  rewrite Hpse. unfold entry_physical.
  destruct (Z.testbit (mmu_entry PMD) 0) eqn:Hp; cbn [negb andb] in *.
  - destruct (Z.testbit (mmu_entry PMD) 7); cbn [negb] in *.
    + change (level_valid PTE _) with false. change (level_valid PMD _) with true.
      cbn [andb pmd vaddr]. rewrite present_x86, Hp.
      by rewrite (mmu_page_pfn _ 21) by (lia || by apply HsM).
    + change (level_valid PTE _) with true. cbn [pte vaddr]. rewrite present_x86.
      destruct (Z.testbit (mmu_entry PTE) 0); [|done]. cbn [negb].
      by rewrite (mmu_page_pfn _ 12) by (lia || by apply HsT).
  - change (level_valid PTE _) with false. change (level_valid PMD _) with true.
    cbn [andb pmd]. by rewrite present_x86, Hp.
Qed.

(** C2: on x86-64 the entry [ptedit_resolve_user_ext] reports for an address
    describes the physical address the processor translates it to, with 4 KB
    and 2 MB pages and unmapped addresses, provided that no 1 GB page
    maps the address and that physical memory is at most 2^40 bytes. *)
Theorem resolve_agrees_with_mmu {S} (deref : Z -> M S Z) (s : S) :
  reads_ok X86_64 def_x86 deref s rd addr root ->
  (forall l, reached l = true -> small_frame (mmu_entry l)) ->
  reached PMD && Z.testbit (mmu_entry PUD) 7 = false ->
  exists e, resolve_from_root X86_64 def_x86 deref addr pid_ root s = Ret e s /\
    entry_physical e = x86_mmu rd root addr.
Proof.
  intros Hrd Hs Hpse. exists result.
  split; [by apply resolve_from_root_fun|by apply result_physical].
Qed.

(** C6: the walker does not test the size bit of the third level: for an
    address in a 1 GB page it reads a word of the page's own contents as if
    the page were a page directory, and reports it as a valid PMD entry, while the
    processor translates the address. *)
Theorem resolve_1g_page {S} (deref : Z -> M S Z) (s : S) :
  reads_ok X86_64 def_x86 deref s rd addr root ->
  small_frame (mmu_entry PGD) -> small_frame (mmu_entry PUD) ->
  Z.testbit (mmu_entry PGD) 0 = true -> Z.testbit (mmu_entry PUD) 0 = true ->
  Z.testbit (mmu_entry PUD) 7 = true ->
  exists e, resolve_from_root X86_64 def_x86 deref addr pid_ root s = Ret e s /\
    level_valid PMD e = true /\
    pmd e = rd (mmu_frame (mmu_entry PUD) + 8 * Z.land (Z.shiftr addr 21) (Z.ones 9)) /\
    x86_mmu rd root addr = Some (mmu_page (mmu_entry PUD) 30 addr).
Proof.
  intros Hrd HsG HsU Hg Hu Hpse. exists result. split; [by apply resolve_from_root_fun|].
  split; [|split].
  3: { unfold x86_mmu. change (mmu_read rd root 39 addr) with (mmu_entry PGD).
       change (mmu_read rd (mmu_frame (mmu_entry PGD)) 30 addr) with (mmu_entry PUD).
       by rewrite Hg, Hu, Hpse. }
  all: unfold result, resolve_fun; destruct (Z.eqb_spec root 0) as [|_]; [lia|];
    rewrite slot_root_x86 by lia; cbn [has_p4d has_pud has_pmd def_x86];
    change (rd (root + _)) with (mmu_entry PGD);
    rewrite !present_x86, Hg; cbn [negb];
    rewrite (slot_x86 (mmu_entry PGD) PUD addr) by done;
    change (rd (mmu_frame (mmu_entry PGD) + _)) with (mmu_entry PUD);
    rewrite Hu; cbn [negb];
    rewrite (slot_x86 (mmu_entry PUD) PMD addr) by done; by case_match.
Qed.
End agreement.

(** A memory with a 1 GB page. *)
Definition memory_1g (p : Z) : Z :=
  if p =? 0x1000 then 0x2067 else if p =? 0x2008 then 0x400000e7
  else if p =? 0x40000008 then 0x5067 else if p =? 0x5008 then 0x6067 else 0.

Lemma resolve_agrees_with_mmu_witness :
  exists e, resolve_from_root X86_64 def_x86 (fun p => ret (memory_4k p)) 0x40201234 0 0x1000 tt
              = Ret e tt /\
    entry_physical e = Some 0x12345234.
Proof.
  apply (resolve_agrees_with_mmu memory_4k 0x1000 0x40201234 0 ltac:(done)).
  - by apply reads_ok_all.
  - intros l _. destruct l; split; vm_compute; done.
  - vm_compute. done.
Defined.

(** The walker even makes up a physical address: it reports the page frame
    number of data read from the page. *)
Lemma resolve_1g_page_witness :
  (exists e, resolve_from_root X86_64 def_x86 (fun p => ret (memory_1g p)) 0x40201234 0 0x1000 tt
               = Ret e tt /\
     level_valid PMD e = true /\ pmd e = memory_1g 0x40000008 /\
     x86_mmu memory_1g 0x1000 0x40201234 = Some 0x40201234) /\
  exists e, resolve_from_root X86_64 def_x86 (fun p => ret (memory_1g p)) 0x40201234 0 0x1000 tt
               = Ret e tt /\ entry_physical e = Some 0x6234.
Proof.
  split.
  - apply (resolve_1g_page memory_1g 0x1000 0x40201234 0 ltac:(done)); try done;
      [by apply reads_ok_all|split; vm_compute; done..].
  - eexists. split; [vm_compute; reflexivity|]. vm_compute. done.
Defined.
