(* ===== verification/MmuArm.v ===== *)
(** * The walker and the processor, on AArch64

    The entries [ptedit_resolve_user_ext] reports are compared with the
    translation of AArch64, with pages of 4 KB and 39-bit addresses and with
    pages of 16 KB and 48-bit addresses: the two configurations that
    [ptedit_init] knows. *)

From stdpp Require Import base tactics numbers list strings.
From S2P Require Import Prelude Entry Walk.
Local Open Scope Z_scope.

(** ** The translation

    As the manual of the architecture defines it: each level of the walk reads
    the eight-byte descriptor that some bits of the address select in a
    table; the two lowest bits say what it is.  3 is the next table, or at
    the last level a page; 1 is a block at the levels that have blocks; all
    else ends the translation.  A table, page or block is at the bits below 48 from
    its size on. *)
Inductive granule := G4K | G16K.

Definition granule_bits (g : granule) : Z := match g with G4K => 12 | G16K => 14 end.

Record arm_level := mk_level { lv_shift : Z; lv_bits : Z; lv_block : bool }.

Definition arm_levels (g : granule) : list arm_level :=
  match g with
  | G4K => [mk_level 30 9 true; mk_level 21 9 true; mk_level 12 9 false]
  | G16K => [mk_level 47 1 false; mk_level 36 11 false; mk_level 25 11 true; mk_level 14 11 false]
  end.

Definition desc (e : Z) : Z := Z.land e 3.
Definition arm_base (n e : Z) : Z := Z.land e (Z.shiftl (Z.ones (48 - n)) n).
Definition arm_output (n e addr : Z) : Z := Z.lor (arm_base n e) (addr mod 2 ^ n).
Definition arm_read (rd : Z -> Z) (table n w addr : Z) : Z :=
  rd (table + 8 * (Z.shiftr addr n mod 2 ^ w)).

Fixpoint arm_lookup (rd : Z -> Z) (g : granule) (levels : list arm_level) (table addr : Z) : option Z :=
  match levels with
  | [] => None
  | l :: levels =>
      let e := arm_read rd table (lv_shift l) (lv_bits l) addr in
      if desc e =? 3 then
        match levels with
        | [] => Some (arm_output (lv_shift l) e addr)
        | _ => arm_lookup rd g levels (arm_base (granule_bits g) e) addr
        end
      else if (desc e =? 1) && lv_block l then Some (arm_output (lv_shift l) e addr) else None
  end.

Definition arm_mmu (g : granule) (rd : Z -> Z) (ttbr addr : Z) : option Z :=
  arm_lookup rd g (arm_levels g) ttbr addr.

(** The paging definition [ptedit_init] installs. *)
Definition def_arm (g : granule) : ptedit_paging_definition_t :=
  match g with G4K => def_arm_4k | G16K => def_arm_16k end.

(** The physical address a resolved entry describes: a page, or a block that
    the PMD entry maps. *)
Definition entry_physical_arm (g : granule) (e : ptedit_entry_t) : option Z :=
  let n := match g with G4K => 21 | G16K => 25 end in
  if level_valid PTE e then
    if present AARCH64 (pte e)
    then Some (Z.shiftl (ptedit_get_pfn AARCH64 (pte e)) 12 + vaddr e mod 2 ^ granule_bits g) else None
  else if level_valid PMD e && (desc (pmd e) =? 1)
  then Some (Z.shiftl (Z.shiftr (ptedit_get_pfn AARCH64 (pmd e)) (n - 12)) n + vaddr e mod 2 ^ n)
  else None.

(** ** Addresses of tables and pages *)

Lemma present_arm e : present AARCH64 e = (desc e =? 3).
Proof. reflexivity. Qed.

(** The bits of an entry below the size of a table are zero. *)
Definition aligned (g : granule) (e : Z) : Prop :=
  forall i, 12 <= i < granule_bits g -> Z.testbit e i = false.

Lemma arm_base_range n e : 0 <= n <= 48 -> 0 <= arm_base n e < 2 ^ 48.
Proof.
  intros Hn. assert (0 <= arm_base n e).
  { unfold arm_base. apply Z.land_nonneg. right. apply Z.shiftl_nonneg.
    rewrite Z.ones_equiv. pose proof (Z.pow_pos_nonneg 2 (48 - n)). lia. }
  split; [done|]. apply bound_of_testbit; [lia|done|]. intros i Hi. unfold arm_base. bits_at.
Qed.

Lemma arm_base_pfn g e : aligned g e -> arm_base (granule_bits g) e = table_pfn AARCH64 e * 4096.
Proof.
  intros Ha. change 4096 with (2 ^ 12). rewrite <- Z.shiftl_mul_pow2 by done.
  unfold arm_base. apply Z.bits_inj'. intros i Hi. rewrite testbit_shiftl, table_pfn_testbit by done.
  pose proof (Ha i) as Hz. destruct g; cbn [granule_bits] in *; bits_at; rewrite ?Hz by lia; done.
Qed.

Lemma arm_output_pfn n e addr : 12 <= n <= 48 ->
  arm_output n e addr = Z.shiftl (Z.shiftr (ptedit_get_pfn AARCH64 e) (n - 12)) n + addr mod 2 ^ n.
Proof.
  intros Hn. rewrite Z.add_nocarry_lxor by bits. unfold arm_output, arm_base.
  apply Z.bits_inj'. intros i Hi. autorewrite with bits. rewrite get_pfn_testbit.
  change (pfn_bits AARCH64) with 36. bits_at.
Qed.

Lemma arm_page_pfn g e addr : aligned g e ->
  arm_output (granule_bits g) e addr =
    Z.shiftl (ptedit_get_pfn AARCH64 e) 12 + addr mod 2 ^ granule_bits g.
Proof.
  intros Ha. rewrite arm_output_pfn by (destruct g; simpl; lia). f_equal.
  destruct g; cbn [granule_bits]; [by rewrite Z.shiftr_0_r|].
  apply Z.bits_inj'. intros i Hi. cbn [granule_bits]. autorewrite with bits. rewrite !get_pfn_testbit.
  change (pfn_bits AARCH64) with 36. pose proof (Ha i) as Hz. cbn [granule_bits] in Hz.
  bits_at. replace (i - 14 + (14 - 12) + 12) with i by lia. by rewrite Hz by lia.
Qed.

(** The slots of the walker are where the processor reads. *)
Lemma index_arm g l addr : index (def_arm g) l addr =
  Z.shiftr addr (level_shift (def_arm g) l) mod 2 ^ level_bits (def_arm g) l.
Proof. unfold index. rewrite bit_pow; [done|]. by destruct g, l. Qed.

Lemma index_arm_range g l addr : 0 <= index (def_arm g) l addr < 2 ^ 11.
Proof.
  destruct (index_range (def_arm g) l addr) as [H1 H2]; [by destruct g, l|].
  split; [done|]. eapply Z.lt_le_trans; [exact H2|]. by destruct g, l.
Qed.

Lemma slot_arm g e l addr : aligned g e ->
  slot_in_table (table_pfn AARCH64 e) (index (def_arm g) l addr) =
    arm_base (granule_bits g) e + 8 * index (def_arm g) l addr.
Proof.
  intros Ha. pose proof (index_arm_range g l addr). pose proof (table_pfn_range AARCH64 e).
  unfold slot_in_table, ptedit_pfn_multiply, ptedit_entry_size.
  rewrite arm_base_pfn, wrap64_id by (done || unfold u64; lia). lia.
Qed.

Lemma slot_root_arm g root addr : 0 <= root < 2 ^ 48 ->
  slot_in_root root (index (def_arm g) PGD addr) = root + 8 * index (def_arm g) PGD addr.
Proof.
  intros Hr. pose proof (index_arm_range g PGD addr).
  unfold slot_in_root, ptedit_entry_size. rewrite wrap64_id; [lia|]. unfold u64. lia.
Qed.

(** A block at the first level, which pages of 4 KB have. *)
Definition block_1g (g : granule) (e : Z) : bool :=
  match g with G4K => desc e =? 1 | G16K => false end.

(** ** Agreement *)

Section agreement.
Variable g : granule.
Variable rd : Z -> Z.
Variable root addr pid_ : Z.
Hypothesis root_ok : 0 < root < 2 ^ 48.
Hypothesis addr_ok : g = G16K -> 0 <= addr < 2 ^ 48.

(** The descriptors the processor reads, and which of them it gets to. *)
Definition arm_entry (l : level) : Z :=
  let next l e := arm_read rd (arm_base (granule_bits g) e)
                    (level_shift (def_arm g) l) (level_bits (def_arm g) l) addr in
  let e1 := arm_read rd root (level_shift (def_arm g) PGD)
              (match g with G4K => 9 | G16K => 1 end) addr in
  let e2 := match g with G4K => e1 | G16K => next PUD e1 end in
  match l with
  | PGD | P4D => e1
  | PUD => e2
  | PMD => next PMD e2
  | PTE => next PTE (next PMD e2)
  end.

Definition arm_reached (l : level) : bool :=
  match l with
  | PGD | P4D => true
  | PUD => desc (arm_entry PGD) =? 3
  | PMD => (desc (arm_entry PGD) =? 3) && (desc (arm_entry PUD) =? 3)
  | PTE => (desc (arm_entry PGD) =? 3) && (desc (arm_entry PUD) =? 3) &&
           (desc (arm_entry PMD) =? 3)
  end.

Lemma arm_entry_root : rd (slot_in_root root (index (def_arm g) PGD addr)) = arm_entry PGD.
Proof.
  rewrite slot_root_arm by lia. rewrite index_arm. unfold arm_entry, arm_read.
  destruct g; [done|]. do 3 f_equal. cbn [def_arm].
  change (level_shift def_arm_16k PGD) with 47. change (level_bits def_arm_16k PGD) with 11.
  specialize (addr_ok eq_refl). rewrite Z.shiftr_div_pow2 by done.
  assert (addr / 2 ^ 47 < 2) by (apply Z.div_lt_upper_bound; lia).
  pose proof (Z.div_pos addr (2 ^ 47)). rewrite !Z.mod_small; lia.
Qed.

Lemma arm_entry_table e l : aligned g e ->
  rd (slot_in_table (table_pfn AARCH64 e) (index (def_arm g) l addr)) =
    arm_read rd (arm_base (granule_bits g) e)
      (level_shift (def_arm g) l) (level_bits (def_arm g) l) addr.
Proof. intros. by rewrite slot_arm, index_arm. Qed.

Lemma arm_entry_pud : aligned g (arm_entry PGD) ->
  (if has_pud (def_arm g)
   then rd (slot_in_table (table_pfn AARCH64 (arm_entry PGD)) (index (def_arm g) PUD addr))
   else arm_entry PGD) = arm_entry PUD.
Proof. intros Ha. rewrite arm_entry_table by done. unfold arm_entry. by destruct g. Qed.

Definition arm_result : ptedit_entry_t := resolve_fun AARCH64 (def_arm g) rd addr pid_ root.
Hypothesis entries_aligned : forall l, arm_reached l = true -> aligned g (arm_entry l).

(** What the walker finds, by the first descriptor that is no table. *)
Lemma arm_result_entries :
  let v3 := if has_pud (def_arm g) then 5 else 1 in
  arm_result =
    let mk := mk_entry (wrap64 pid_) addr in
    if negb (desc (arm_entry PGD) =? 3) then mk 0 0 0 0 0 0
    else if negb (desc (arm_entry PUD) =? 3)
    then mk (arm_entry PGD) (arm_entry PGD) (arm_entry PUD) 0 0 v3
    else if desc (arm_entry PMD) =? 3
    then mk (arm_entry PGD) (arm_entry PGD) (arm_entry PUD) (arm_entry PMD) (arm_entry PTE) (v3 + 8 + 16)
    else mk (arm_entry PGD) (arm_entry PGD) (arm_entry PUD) (arm_entry PMD) 0 (v3 + 8).
Proof.
  pose proof (entries_aligned PGD eq_refl) as HG. pose proof (entries_aligned PUD) as HU.
  pose proof (entries_aligned PMD) as HM. unfold arm_reached in HU, HM.
  unfold arm_result, resolve_fun. destruct (Z.eqb_spec root 0) as [|_]; [lia|].
  rewrite arm_entry_root, !present_arm. unfold has_page_table.
  replace (has_p4d (def_arm g)) with false by by destruct g.
  replace (has_pmd (def_arm g)) with true by by destruct g.
  rewrite !arm_entry_pud by done.
  destruct (desc (arm_entry PGD) =? 3) eqn:EG; cbn [negb andb] in *; [|done].
  destruct (desc (arm_entry PUD) =? 3) eqn:EU; cbn [negb andb] in *; [|by destruct (has_pud _)].
  rewrite (arm_entry_table (arm_entry PUD)) by auto.
  change (arm_read rd _ _ (level_bits _ PMD) addr) with (arm_entry PMD).
  destruct (desc (arm_entry PMD) =? 3); cbn [negb andb] in *; [|by destruct (has_pud _)].
  rewrite (arm_entry_table (arm_entry PMD)) by auto.
  change (arm_read rd _ _ (level_bits _ PTE) addr) with (arm_entry PTE).
  by destruct (has_pud _).
Qed.

(** The translation in terms of the same descriptors. *)
Lemma arm_mmu_entries :
  arm_mmu g rd root addr =
    if negb (desc (arm_entry PGD) =? 3) then
      match g with
      | G4K => if desc (arm_entry PGD) =? 1 then Some (arm_output 30 (arm_entry PGD) addr) else None
      | G16K => None
      end
    else if negb (desc (arm_entry PUD) =? 3) then None
    else if desc (arm_entry PMD) =? 3 then
      if desc (arm_entry PTE) =? 3
      then Some (arm_output (granule_bits g) (arm_entry PTE) addr) else None
    else if desc (arm_entry PMD) =? 1
    then Some (arm_output (match g with G4K => 21 | G16K => 25 end) (arm_entry PMD) addr)
    else None.
Proof.
  unfold arm_mmu, arm_entry.
  destruct g; cbn; rewrite ?andb_true_r, ?andb_false_r;
    change (12 + 9 + 9 + 0 + 0) with 30; change (12 + 9) with 21;
    change (14 + 11 + 11 + 11 + 0) with 47; change (14 + 11 + 11) with 36;
    change (14 + 11) with 25;
    repeat (case_match; cbn; try congruence); done.
Qed.

(** C3: on AArch64 the entry [ptedit_resolve_user_ext] reports for an address
    describes the physical address the processor translates it to, with pages of
    4 KB (39-bit addresses) and of 16 KB (48-bit addresses), blocks that an
    entry of the second-last level maps included.  A 1 GB block of the first level, with
    pages of 4 KB, the walker takes for an unmapped address. *)
Theorem resolve_agrees_with_arm_mmu {S} (deref : Z -> M S Z) (s : S) :
  reads_ok AARCH64 (def_arm g) deref s rd addr root ->
  exists e, resolve_from_root AARCH64 (def_arm g) deref addr pid_ root s = Ret e s /\
    if block_1g g (arm_entry PGD)
    then valid e = 0 /\ arm_mmu g rd root addr = Some (arm_output 30 (arm_entry PGD) addr)
    else entry_physical_arm g e = arm_mmu g rd root addr.
Proof.
  intros Hrd. exists arm_result. split; [by apply resolve_from_root_fun|].
  rewrite arm_result_entries, arm_mmu_entries. pose proof (entries_aligned PTE) as HT.
  unfold arm_reached in HT.
  destruct (desc (arm_entry PGD) =? 3) eqn:EG; cbn [negb andb] in *.
  2: { destruct g; cbn [block_1g]; destruct (desc (arm_entry PGD) =? 1); done. }
  replace (block_1g g _) with false by (destruct g; cbn [block_1g]; lia).
  destruct (desc (arm_entry PUD) =? 3) eqn:EU; cbn [negb andb] in *; [|by destruct g].
  unfold entry_physical_arm.
  destruct (desc (arm_entry PMD) =? 3) eqn:EM; cbn [negb andb] in *.
  - replace (level_valid PTE _) with true by by destruct g. cbn [pte vaddr].
    rewrite present_arm. destruct (desc (arm_entry PTE) =? 3); [|done].
    by rewrite arm_page_pfn by auto.
  - replace (level_valid PTE _) with false by by destruct g.
    replace (level_valid PMD _) with true by by destruct g. cbn [pmd vaddr andb].
    destruct (desc (arm_entry PMD) =? 1); [|done]. by rewrite arm_output_pfn by by destruct g.
Qed.
End agreement.

(** A memory with tables of 16 KB pages: a page at 0x1004000 in frame
    0x40000, and a block of 32 MB at 0x2000000. *)
Definition memory_arm (p : Z) : Z :=
  if p =? 0x10000 then 0x14003 else if p =? 0x14000 then 0x18003
  else if p =? 0x18000 then 0x1c003 else if p =? 0x18008 then 0x80000701
  else if p =? 0x1e008 then 0x40000703 else 0.

(** A first table of 4 KB pages with a block of 1 GB. *)
Definition memory_arm_1g (p : Z) : Z := if p =? 0x1000 then 0x40000701 else 0.

Lemma resolve_agrees_with_arm_mmu_witness :
  (exists e, resolve_from_root AARCH64 def_arm_16k (fun p => ret (memory_arm p)) 0x1004123 0 0x10000 tt
               = Ret e tt /\ entry_physical_arm G16K e = Some 0x40000123) /\
  (exists e, resolve_from_root AARCH64 def_arm_16k (fun p => ret (memory_arm p)) 0x2345678 0 0x10000 tt
               = Ret e tt /\ entry_physical_arm G16K e = Some 0x80345678) /\
  exists e, resolve_from_root AARCH64 def_arm_4k (fun p => ret (memory_arm_1g p)) 0x1234 0 0x1000 tt
               = Ret e tt /\ valid e = 0 /\ arm_mmu G4K memory_arm_1g 0x1000 0x1234 = Some 0x40001234.
Proof.
  split; [|split].
  - apply (resolve_agrees_with_arm_mmu G16K memory_arm 0x10000 0x1004123 0);
      [lia|lia| |by apply reads_ok_all].
    intros [] _ i Hi; cbn [granule_bits] in Hi; vm_compute (arm_entry _ _ _ _ _);
      assert (i = 12 \/ i = 13) as [-> | ->] by lia; done.
  - apply (resolve_agrees_with_arm_mmu G16K memory_arm 0x10000 0x2345678 0);
      [lia|lia| |by apply reads_ok_all].
    intros [] _ i Hi; cbn [granule_bits] in Hi; vm_compute (arm_entry _ _ _ _ _);
      assert (i = 12 \/ i = 13) as [-> | ->] by lia; done.
  - apply (resolve_agrees_with_arm_mmu G4K memory_arm_1g 0x1000 0x1234 0);
      [lia|lia| |by apply reads_ok_all].
    intros [] _ i Hi; cbn [granule_bits] in Hi; lia.
Defined.
