(* ===== verification/Update.v ===== *)
(** * Updating entries from user space

    [ptedit_update_user_ext] against the walk: which words of physical memory
    it stores to, what it leaves alone, and what resolving the address again
    gives. *)

From stdpp Require Import base numbers list strings.
From S2P Require Import Prelude Entry PhysMem Walk.
Local Open Scope Z_scope.

(** Memory as the user-space walker uses it: a word can be read anywhere (an
    address that cannot be read gives some value), and a store takes effect
    where memory can be written. *)
Class WalkMem (S : Type) := {
  wm_get : S -> Z -> Z;
  wm_put : Z -> Z -> S -> S;
  wm_writable : S -> Z -> Prop }.

Class WalkMemLaws (S : Type) `{WalkMem S} := {
  wm_get_put p v s : u64 v -> wm_writable s p -> wm_get (wm_put p v s) p = v;
  wm_get_put_ne p v s q : disjoint_ranges p 8 q 8 -> wm_get (wm_put p v s) q = wm_get s q;
  wm_put_writable p v s q : wm_writable (wm_put p v s) q <-> wm_writable s q }.

Definition run_stores {S} `{WalkMem S} (l : list (Z * Z)) (s : S) : S :=
  foldl (fun s pv => wm_put (fst pv) (snd pv) s) s l.

(** The stores of an update as the walk gives them: the levels from the PTE
    up that the new entries mark valid and that the walk read, each at the address it
    was read from. *)
Definition update_order : list level := [PTE; PMD; PUD; P4D; PGD].

Definition spec_stores (a : arch) (d : ptedit_paging_definition_t) (rd : Z -> Z)
    (addr root : Z) (vm : ptedit_entry_t) : list (Z * Z) :=
  omap (fun l => if level_valid l vm
                 then (fun slot => (slot, level_entry l vm)) <$> walk_slot a d rd addr root l
                 else None) update_order.

Section update.
Context {S : Type} `{WalkMemLaws S} (a : arch) (d : ptedit_paging_definition_t).
Variable deref : Z -> M S Z.
Variable pset : Z -> Z -> M S unit.
Variable paging_root : M S Z.
Variable get_paging_root : Z -> M S Z.
Variable invalidate : Z -> M S unit.
Variable pid_ root : Z.
(** The states in which the functions above work. *)
Variable ready : S -> Prop.
Hypothesis has_pgd_d : has_pgd d = true.
Hypothesis deref_get : forall s p, ready s -> u64 p -> deref p s = Ret (wm_get s p) s.
Hypothesis pset_put : forall s p v, ready s -> u64 p -> pset p v s = Ret tt (wm_put p v s).
Hypothesis ready_put : forall s p v, ready s -> ready (wm_put p v s).
Hypothesis ready_root : forall s, ready s ->
  walk_root paging_root get_paging_root pid_ s = Ret root s.
Hypothesis invalidate_get : forall s addr, ready s ->
  exists s', invalidate addr s = Ret tt s' /\ ready s' /\ forall p, wm_get s' p = wm_get s p.

Definition resolve (addr p : Z) : M S ptedit_entry_t :=
  ptedit_resolve_user_ext a d paging_root get_paging_root deref addr p.

Definition update (addr p : Z) (vm : ptedit_entry_t) : M S unit :=
  ptedit_update_user_ext a d paging_root get_paging_root resolve invalidate pset addr p vm.

Lemma resolve_ready s addr : ready s ->
  resolve addr pid_ s = Ret (resolve_fun a d (wm_get s) addr pid_ root) s.
Proof.
  intros Hs. unfold resolve, ptedit_resolve_user_ext.
  rewrite (bind_Ret _ _ _ _ _ (ready_root s Hs)).
  apply resolve_from_root_fun, reads_ok_u64. intros p Hp. by apply deref_get.
Qed.

Lemma run_stores_ready l s : ready s -> ready (run_stores l s).
Proof. revert s. induction l as [|[p v] l IH]; intros s Hs; simpl; auto. Qed.

(** A guarded store, as a list of stores. *)
Definition guarded (c : bool) (p v : Z) : list (Z * Z) := if c then [(p, v)] else [].

Lemma run_pset_level l e current vm slot s : ready s -> u64 slot ->
  pset_level pset l e current vm slot s =
    Ret tt (run_stores (guarded (level_valid l vm && level_valid l current && e) slot
                          (level_entry l vm)) s).
Proof. intros Hs Hslot. unfold pset_level, when, guarded. case_match; [by apply pset_put|done]. Qed.

Definition code_stores (addr : Z) (current vm : ptedit_entry_t) : list (Z * Z) :=
  let at_ l upper := slot_in_table (table_pfn a upper) (index d l addr) in
  let g l e slot := guarded (level_valid l vm && level_valid l current && e) slot
                      (level_entry l vm) in
  g PTE true (at_ PTE (pmd current)) ++ g PMD (has_pmd d) (at_ PMD (pud current)) ++
  g PUD (has_pud d) (at_ PUD (p4d current)) ++ g P4D (has_p4d d) (at_ P4D (pgd current)) ++
  g PGD (has_pgd d) (slot_in_root root (index d PGD addr)).

Lemma run_stores_app l l' s : run_stores (l ++ l') s = run_stores l' (run_stores l s).
Proof. apply foldl_app. Qed.

Lemma update_slots_stores addr current vm s : ready s ->
  update_slots a d pset addr root current vm s =
    Ret tt (run_stores (code_stores addr current vm) s).
Proof.
  intros Hs. unfold update_slots, code_stores. rewrite !run_stores_app.
  repeat (erewrite bind_Ret; [|apply run_pset_level; auto using run_stores_ready with width]).
  apply run_pset_level; auto using run_stores_ready with width.
Qed.

Definition option_list {A} (o : option A) : list A :=
  match o with Some x => [x] | None => [] end.

Lemma omap_cons_guard {A B} (f : A -> option B) (x : A) (l : list A) :
  omap f (x :: l) = option_list (f x) ++ omap f l.
Proof. simpl. by destruct (f x). Qed.

Lemma app_congr {A} (l l' k k' : list A) : l = l' -> k = k' -> l ++ k = l' ++ k'.
Proof. by intros -> ->. Qed.

Lemma guarded_option c p v (o : option (Z * Z)) : (if c : bool then Some (p, v) else None) = o ->
  guarded c p v = option_list o.
Proof. intros <-. by destruct c. Qed.

Ltac walk_cases rd :=
  repeat match goal with
  | |- context [present a (rd ?x)] => destruct (present a (rd x)) eqn:?
  | |- context [has_page_table a (rd ?x)] => destruct (has_page_table a (rd x)) eqn:?
  end.

(** The addresses the update computes are the ones the walk read from. *)
Lemma code_stores_spec rd addr vm : root <> 0 ->
  code_stores addr (resolve_fun a d rd addr pid_ root) vm = spec_stores a d rd addr root vm.
Proof.
  intros Hr. unfold code_stores, spec_stores, update_order, walk_slot, walk, resolve_fun, stages.
  apply Z.eqb_neq in Hr. rewrite Hr, has_pgd_d.
  rewrite !omap_cons_guard. cbn [omap list_omap]. rewrite app_nil_r.
  destruct (present a (rd _)) eqn:Hg; cbn [negb].
  2: { repeat apply app_congr; apply guarded_option; by destruct (level_valid _ vm). }
  destruct (has_p4d d), (has_pud d), (has_pmd d); cbn [app walk_down]; unfold continues;
    walk_cases rd; repeat apply app_congr; apply guarded_option;
    cbn -[slot_in_table slot_in_root index level_valid level_entry];
    by destruct (level_valid _ vm).
Qed.

Lemma update_walk addr vm s : ready s ->
  let stored := run_stores (spec_stores a d (wm_get s) addr root vm) s in
  exists s', update addr pid_ vm s = Ret tt s' /\ ready s' /\
    (root = 0 -> s' = s) /\ (root <> 0 -> invalidate addr stored = Ret tt s') /\
    forall p, wm_get s' p = wm_get stored p.
Proof.
  intros Hs stored. subst stored. unfold update, ptedit_update_user_ext.
  rewrite (bind_Ret _ _ _ _ _ (resolve_ready s addr Hs)).
  rewrite (bind_Ret _ _ _ _ _ (ready_root s Hs)).
  destruct (Z.eqb_spec root 0) as [Hr|Hr].
  - exists s. do 3 (split; [done|]). split; [done|]. unfold spec_stores, walk_slot, walk. rewrite Hr. simpl.
    intros p. by destruct (level_valid PTE vm), (level_valid PMD vm), (level_valid PUD vm),
      (level_valid P4D vm), (level_valid PGD vm).
  - rewrite (bind_Ret _ _ _ _ _ (update_slots_stores addr _ vm s Hs)), code_stores_spec by done.
    destruct (invalidate_get (run_stores (spec_stores a d (wm_get s) addr root vm) s) addr)
      as (s' & Hinv & Hs' & Hget); [by apply run_stores_ready|].
    exists s'. do 3 (split; [done|]). by split.
Qed.

(** C4: [ptedit_update_user_ext] stores the new entries of exactly the
    levels that are marked valid and that the walk of the address reads, each
    at the address it was read from, the PTE first and the PGD last, and then
    invalidates the TLB: the state it returns is the one the invalidation of
    the address leaves when it runs on memory with all these stores made, and
    the words of memory are the stored ones. Without a root it does nothing at
    all. *)
Theorem update_implements_walk addr vm s : ready s ->
  let stored := run_stores (spec_stores a d (wm_get s) addr root vm) s in
  exists s', update addr pid_ vm s = Ret tt s' /\ ready s' /\
    (root = 0 -> s' = s) /\ (root <> 0 -> invalidate addr stored = Ret tt s') /\
    forall p, wm_get s' p = wm_get stored p.
Proof. apply update_walk. Qed.

(** ** Reading back an update *)

Lemma run_stores_elsewhere l s q : Forall (fun pv => disjoint_ranges (fst pv) 8 q 8) l ->
  wm_get (run_stores l s) q = wm_get s q.
Proof.
  intros Hl. revert s. induction Hl as [|[p v] l Hp _ IH]; intros s; [done|].
  simpl. rewrite IH. by apply wm_get_put_ne.
Qed.

(** Changing the word the walk reads last changes the PTE of the result only. *)
Lemma resolve_fun_pte rd rd' addr slot :
  walk_slot a d rd addr root PTE = Some slot ->
  (forall l p, walk_slot a d rd addr root l = Some p -> l <> PTE -> rd' p = rd p) ->
  resolve_fun a d rd' addr pid_ root = set_pte (rd' slot) (resolve_fun a d rd addr pid_ root).
Proof.
  unfold walk_slot, walk, resolve_fun, stages. destruct (root =? 0); [done|].
  intros Hslot Hsame. revert Hslot.
  destruct (present a (rd _)) eqn:Hg; [|done]. cbn [negb].
  rewrite (Hsame PGD (slot_in_root root (index d PGD addr)) eq_refl), Hg by done. cbn [negb].
  pose proof (Hsame P4D) as H4. pose proof (Hsame PUD) as H3. pose proof (Hsame PMD) as H2.
  clear Hsame. revert H4 H3 H2.
  destruct (has_p4d d), (has_pud d), (has_pmd d); cbn [app walk_down]; unfold continues;
    rewrite ?Hg; walk_cases rd; cbn -[slot_in_table slot_in_root index]; intros H4 H3 H2 [= <-];
    repeat match goal with
    | E : present a (rd ?x) = _ |- context [present a (rd ?x)] => rewrite E; cbn [negb andb]
    | E : has_page_table a (rd ?x) = _ |- context [has_page_table a (rd ?x)] =>
        rewrite E; cbn [negb andb]
    | |- context [rd' ?p] => rewrite (H4 p) by done
    | |- context [rd' ?p] => rewrite (H3 p) by done
    | |- context [rd' ?p] => rewrite (H2 p) by done
    end; try done.
Qed.

(** Where the entries of a resolved address are. *)
Definition slot_of (l : level) (addr : Z) (e : ptedit_entry_t) : Z :=
  match l with
  | PGD => slot_in_root root (index d PGD addr)
  | P4D => slot_in_table (table_pfn a (pgd e)) (index d P4D addr)
  | PUD => slot_in_table (table_pfn a (p4d e)) (index d PUD addr)
  | PMD => slot_in_table (table_pfn a (pud e)) (index d PMD addr)
  | PTE => slot_in_table (table_pfn a (pmd e)) (index d PTE addr)
  end.

Lemma walk_slot_entry rd addr l : let e := resolve_fun a d rd addr pid_ root in
  walk_slot a d rd addr root l = if level_valid l e then Some (slot_of l addr e) else None.
Proof.
  unfold walk_slot, walk, resolve_fun, stages. destruct (root =? 0); [by destruct l|].
  destruct (present a (rd _)) eqn:Hg; cbn [negb]; [|by destruct l].
  destruct (has_p4d d), (has_pud d), (has_pmd d); cbn [app walk_down]; unfold continues;
    rewrite ?Hg; walk_cases rd; by destruct l.
Qed.

Lemma update_resolve addr vm s slot : ready s -> u64 (pte vm) ->
  valid vm = PTEDIT_VALID_MASK_PTE ->
  walk_slot a d (wm_get s) addr root PTE = Some slot -> wm_writable s slot ->
  (forall l p, walk_slot a d (wm_get s) addr root l = Some p -> l <> PTE ->
     disjoint_ranges slot 8 p 8) ->
  exists e s', resolve addr pid_ s = Ret e s /\
    update addr pid_ vm s = Ret tt s' /\
    resolve addr pid_ s' = Ret (set_pte (pte vm) e) s' /\
    forall q, disjoint_ranges slot 8 q 8 -> wm_get s' q = wm_get s q.
Proof.
  intros Hs Hv Hvalid Hslot Hw Hd.
  destruct (update_walk addr vm s Hs) as (s' & Hu & Hs' & _ & _ & Hget).
  assert (spec_stores a d (wm_get s) addr root vm = [(slot, pte vm)]) as Hstores.
  { unfold spec_stores, level_valid. rewrite Hvalid. simpl. by rewrite Hslot. }
  rewrite Hstores in Hget. simpl in Hget.
  eexists _, s'. split; [by apply resolve_ready|]. split; [done|]. split.
  - rewrite resolve_ready by done. f_equal.
    rewrite (resolve_fun_pte (wm_get s) (wm_get s') addr slot) by
      (done || (intros l p Hp Hl; rewrite Hget; apply wm_get_put_ne; eauto)).
    by rewrite Hget, wm_get_put.
  - intros q Hq. rewrite Hget. by apply wm_get_put_ne.
Qed.

(** Both user-space updaters invalidate the TLB once more. *)
Lemma update_twice_run addr vm s : ready s -> u64 (pte vm) -> valid vm = PTEDIT_VALID_MASK_PTE ->
  let entry s := resolve_fun a d (wm_get s) addr pid_ root in
  level_valid PTE (entry s) = true -> wm_writable s (slot_of PTE addr (entry s)) ->
  (forall l, level_valid l (entry s) = true -> l <> PTE ->
     disjoint_ranges (slot_of PTE addr (entry s)) 8 (slot_of l addr (entry s)) 8) ->
  exists s', (update addr pid_ vm ;;; invalidate addr ;;; ret vm) s = Ret vm s' /\ ready s' /\
    entry s' = set_pte (pte vm) (entry s) /\
    forall q, disjoint_ranges (slot_of PTE addr (entry s)) 8 q 8 -> wm_get s' q = wm_get s q.
Proof.
  intros Hs Hpte Hv entry Hval Hw Hd.
  assert (Hslot : walk_slot a d (wm_get s) addr root PTE = Some (slot_of PTE addr (entry s))).
  { rewrite walk_slot_entry. fold (entry s). by rewrite Hval. }
  destruct (update_resolve addr vm s (slot_of PTE addr (entry s)))
    as (e & s1 & He & Hupd & Hres & Hsame); try done.
  { intros l p Hp Hl. rewrite walk_slot_entry in Hp. fold (entry s) in Hp.
    destruct (level_valid l _) eqn:E; [|done]. injection Hp as <-. by apply Hd. }
  destruct (update_walk addr vm s Hs) as (s1' & Hupd' & Hs1 & _).
  rewrite Hupd in Hupd'. injection Hupd' as <-.
  destruct (invalidate_get s1 addr Hs1) as (s2 & Hinv & Hs2 & Hget). exists s2.
  split; [|split; [done|split]].
  - rewrite (bind_Ret _ _ _ _ _ Hupd). by rewrite (bind_Ret _ _ _ _ _ Hinv).
  - rewrite resolve_ready in He, Hres by done. injection He as <-. injection Hres as Hres.
    unfold entry. by rewrite (resolve_fun_ext _ _ _ _ _ _ _ Hget).
  - intros q Hq. rewrite Hget. by apply Hsame.
Qed.

(** C5: updating the PTE of a mapped page and resolving its address again
    gives the entries of before with the new PTE in place of the old one, and
    nothing else in memory changes, provided that the PTE can be written and
    does not overlap another entry the walk reads. *)
Theorem update_then_resolve addr vm s slot : ready s -> u64 (pte vm) ->
  valid vm = PTEDIT_VALID_MASK_PTE ->
  walk_slot a d (wm_get s) addr root PTE = Some slot -> wm_writable s slot ->
  (forall l p, walk_slot a d (wm_get s) addr root l = Some p -> l <> PTE ->
     disjoint_ranges slot 8 p 8) ->
  exists e s', resolve addr pid_ s = Ret e s /\
    update addr pid_ vm s = Ret tt s' /\
    resolve addr pid_ s' = Ret (set_pte (pte vm) e) s' /\
    forall q, disjoint_ranges slot 8 q 8 -> wm_get s' q = wm_get s q.
Proof. apply update_resolve. Qed.
End update.

(** ** An instance: memory as a function from addresses to words *)

#[export] Instance function_mem : WalkMem (Z -> Z) := {
  wm_get m p := m p;
  wm_put p v m := fun q => if q =? p then v else m q;
  wm_writable m p := True }.

#[export, refine] Instance function_mem_laws : WalkMemLaws (Z -> Z) := { wm_get_put := _ }.
Proof.
  - intros p v m _ _. simpl. by rewrite Z.eqb_refl.
  - intros p v m q Hd. simpl. unfold disjoint_ranges in Hd.
    destruct (Z.eqb_spec q p); [lia|done].
  - done.
Qed.

Definition fm_deref (p : Z) : M (Z -> Z) Z := gets (fun m => m p).
Definition fm_pset (p v : Z) : M (Z -> Z) unit := modify (wm_put p v).
Definition fm_root : M (Z -> Z) Z := ret 0x1000.
Definition new_pte : ptedit_entry_t := mk_entry 0 0 0 0 0 0 0x54321067 PTEDIT_VALID_MASK_PTE.

(** Memory together with a log of the invalidations: each address, with the
    word the PTE's slot held when the address was invalidated. *)
Definition logged : Type := (Z -> Z) * list (Z * Z).

#[export] Instance logged_mem : WalkMem logged := {
  wm_get s := wm_get s.1;
  wm_put p v s := (wm_put p v s.1, s.2);
  wm_writable s := wm_writable s.1 }.

#[export, refine] Instance logged_mem_laws : WalkMemLaws logged := { wm_get_put := _ }.
Proof.
  - intros p v s. apply (wm_get_put p v s.1).
  - intros p v s. apply (wm_get_put_ne p v s.1).
  - done.
Qed.

Definition lg_deref (p : Z) : M logged Z := gets (fun s => s.1 p).
Definition lg_pset (p v : Z) : M logged unit := modify (wm_put p v).
Definition lg_root : M logged Z := ret 0x1000.
Definition lg_invalidate (addr : Z) : M logged unit :=
  modify (fun s => (s.1, s.2 ++ [(addr, s.1 0x4008)])).

Lemma update_implements_walk_witness :
  exists s', update X86_64 def_x86 lg_deref lg_pset lg_root (fun _ => lg_root) lg_invalidate
    0x40201234 0 new_pte (memory_4k, []) = Ret tt s' /\ s'.1 0x4008 = 0x54321067 /\
    s'.2 = [(0x40201234, 0x54321067)].
Proof.
  destruct (update_implements_walk X86_64 def_x86 lg_deref lg_pset lg_root (fun _ => lg_root)
    lg_invalidate 0 0x1000 (fun _ => True)) with (addr := 0x40201234) (vm := new_pte)
    (s := (memory_4k, [] : list (Z * Z))) as (s' & Hu & _ & _ & Hinv & Hget);
    try done; [by eexists|].
  exists s'. split; [exact Hu|]. split; [exact (Hget 0x4008)|].
  specialize (Hinv ltac:(done)). injection Hinv as <-. reflexivity.
Defined.

Lemma update_then_resolve_witness :
  exists e s',
    resolve X86_64 def_x86 fm_deref fm_root (fun _ => fm_root) 0x40201234 0 memory_4k = Ret e memory_4k /\
    update X86_64 def_x86 fm_deref fm_pset fm_root (fun _ => fm_root) (fun _ => ret tt)
      0x40201234 0 new_pte memory_4k = Ret tt s' /\
    resolve X86_64 def_x86 fm_deref fm_root (fun _ => fm_root) 0x40201234 0 s' =
      Ret (set_pte 0x54321067 e) s'.
Proof.
  destruct (update_then_resolve X86_64 def_x86 fm_deref fm_pset fm_root (fun _ => fm_root)
    (fun _ => ret tt) 0 0x1000 (fun _ => True)) with (addr := 0x40201234) (vm := new_pte)
    (s := memory_4k) (slot := 0x4008) as (e & s' & He & Hu & Hr & _); try done.
  - by eauto.
  - intros l p Hp Hl. unfold disjoint_ranges.
    destruct l; vm_compute in Hp; try done; injection Hp as <-; simpl; lia.
  - exists e, s'. split; [exact He|]. split; [exact Hu|exact Hr].
Defined.
