(* ===== verification/Pte.v ===== *)
(** * Reading and changing page-table entries

    The functions of [ptedit.c] that change the bits and the frame number of
    the entries of an address: [ptedit_pte_set_bit], [ptedit_pte_clear_bit],
    [ptedit_pte_get_bit], [ptedit_set_bit], [ptedit_clear_bit],
    [ptedit_pte_get_pfn] and [ptedit_pte_set_pfn].  They call whatever
    implementation of [ptedit_resolve] and [ptedit_update] is installed, so they are
    written and proved against the interface [PteAccess]. *)

From stdpp Require Import base tactics numbers list.
From S2P Require Import Prelude Entry Walk.
Local Open Scope Z_scope.

(** The two function pointers.  [ptedit_update] receives a pointer to the
    entries and may write through it; it returns what the caller sees then. *)
Class PteAccess (S : Type) := {
  ptedit_resolve : Z -> Z -> M S ptedit_entry_t;
  ptedit_update : Z -> Z -> ptedit_entry_t -> M S ptedit_entry_t }.

(** What they promise about an address they can handle: resolving it finds a
    PTE and changes nothing, and after an update of the PTE alone, resolving finds the
    new PTE and the old upper entries. *)
Class PteLaws (S : Type) `{PteAccess S} := {
  pte_ready : S -> Z -> Z -> Prop;
  pte_entry : S -> Z -> Z -> ptedit_entry_t;
  (** the PTEs the address can have without losing its mapping *)
  pte_ok : Z -> Prop;
  resolve_entry s addr pid : pte_ready s addr pid ->
    ptedit_resolve addr pid s = Ret (pte_entry s addr pid) s;
  entry_valid s addr pid : pte_ready s addr pid ->
    level_valid PTE (pte_entry s addr pid) = true /\ u64 (pte (pte_entry s addr pid));
  update_entry s addr pid vm : pte_ready s addr pid ->
    valid vm = PTEDIT_VALID_MASK_PTE -> u64 (pte vm) -> pte_ok (pte vm) ->
    vaddr vm = addr -> Entry.pid vm = Entry.pid (pte_entry s addr pid) ->
    exists vm' s', ptedit_update addr pid vm s = Ret vm' s' /\
      pte_ready s' addr pid /\
      pte_entry s' addr pid = set_pte (pte vm) (pte_entry s addr pid);
  entry_vaddr s addr pid : pte_ready s addr pid -> vaddr (pte_entry s addr pid) = addr }.

Section functions.
Context {S : Type} `{PteAccess S} (a : arch) (paging_definition : M S ptedit_paging_definition_t).

(** [1ull << bit] *)
Definition bitmask (b : Z) : M S Z := defined (shl64 1 b).

Definition ptedit_pte_set_bit (address pid_ b : Z) : M S unit :=
  let* vm := ptedit_resolve address pid_ in
  if negb (level_valid PTE vm) then ret tt
  else
    let* m := bitmask b in
    let vm := set_valid PTEDIT_VALID_MASK_PTE (set_pte (Z.lor (pte vm) m) vm) in
    ptedit_update address pid_ vm ;;; ret tt.

Definition ptedit_pte_clear_bit (address pid_ b : Z) : M S unit :=
  let* vm := ptedit_resolve address pid_ in
  if negb (level_valid PTE vm) then ret tt
  else
    let* m := bitmask b in
    let vm := set_valid PTEDIT_VALID_MASK_PTE (set_pte (Z.land (pte vm) (not64 m)) vm) in
    ptedit_update address pid_ vm ;;; ret tt.

Definition set_entry (l : level) : Z -> ptedit_entry_t -> ptedit_entry_t :=
  match l with
  | PGD => set_pgd | P4D => set_p4d | PUD => set_pud | PMD => set_pmd | PTE => set_pte
  end.

(** [if((vm.valid & mask) && (levels & mask) && has) { change; vm.valid |= mask; }] *)
Definition affect (f : Z -> Z) (levels : Z) (l : level) (exists_ : bool) (vm : ptedit_entry_t)
    : ptedit_entry_t :=
  if level_valid l vm && has levels (level_mask l) && exists_
  then or_valid (level_mask l) (set_entry l (f (level_entry l vm)) vm) else vm.

(** The five tests of [ptedit_set_bit] and [ptedit_clear_bit], in their order. *)
Definition affect_levels (d : ptedit_paging_definition_t) (f : Z -> Z) (levels : Z)
    (vm : ptedit_entry_t) : ptedit_entry_t :=
  let vm := affect f levels PTE true vm in
  let vm := affect f levels PMD (has_pmd d) vm in
  let vm := affect f levels PUD (has_pud d) vm in
  let vm := affect f levels P4D (has_p4d d) vm in
  affect f levels PGD (has_pgd d) vm.

Definition ptedit_set_bit (address pid_ b paging_affected_levels : Z) : M S unit :=
  let* vm := ptedit_resolve address pid_ in
  let* m := bitmask b in
  let* d := paging_definition in
  let vm := affect_levels d (fun e => Z.lor e m) paging_affected_levels vm in
  ptedit_update address pid_ vm ;;; ret tt.

Definition ptedit_clear_bit (address pid_ b paging_affected_levels : Z) : M S unit :=
  let* vm := ptedit_resolve address pid_ in
  let* m := bitmask b in
  let* d := paging_definition in
  let vm := affect_levels d (fun e => Z.land e (not64 m)) paging_affected_levels vm in
  ptedit_update address pid_ vm ;;; ret tt.

Definition ptedit_pte_get_bit (address pid_ b : Z) : M S Z :=
  let* vm := ptedit_resolve address pid_ in
  let* m := bitmask b in
  ret (nz (Z.land (pte vm) m)).

Definition ptedit_pte_get_pfn (address pid_ : Z) : M S Z :=
  let* vm := ptedit_resolve address pid_ in
  if negb (level_valid PTE vm) then ret 0 else ret (ptedit_get_pfn a (pte vm)).

Definition ptedit_pte_set_pfn (address pid_ pfn : Z) : M S unit :=
  let* vm := ptedit_resolve address pid_ in
  if negb (level_valid PTE vm) then ret tt
  else
    let vm := set_valid PTEDIT_VALID_MASK_PTE (set_pte (ptedit_set_pfn a (pte vm) pfn) vm) in
    ptedit_update address pid_ vm ;;; ret tt.
End functions.

(** * Theorems *)

Section theorems.
Context {S : Type} `{PteLaws S} (a : arch).
Implicit Types s : S.

(** Bit [i] of the PTE of an address. *)
Definition pte_bit s (addr pid i : Z) : bool := Z.testbit (pte (pte_entry s addr pid)) i.

Lemma bitmask_run b s : 0 <= b < 64 -> bitmask b s = Ret (bit b) s.
Proof.
  intros Hb. unfold bitmask, shl64.
  destruct (Z.leb_spec 0 b), (Z.ltb_spec b 64); try lia. simpl.
  unfold ret. f_equal. apply wrap64_id. by apply u64_bit.
Qed.

(** All the functions that change a PTE do the same with the new value. *)
Lemma change_pte addr pid v s : pte_ready s addr pid -> u64 v -> pte_ok v ->
  exists s', (ptedit_update addr pid
                (set_valid PTEDIT_VALID_MASK_PTE (set_pte v (pte_entry s addr pid))) ;;; ret tt) s
             = Ret tt s' /\
    pte_ready s' addr pid /\ pte_entry s' addr pid = set_pte v (pte_entry s addr pid).
Proof.
  intros Hs Hv Hok.
  destruct (update_entry s addr pid (set_valid PTEDIT_VALID_MASK_PTE (set_pte v (pte_entry s addr pid))))
    as (vm' & s' & Hu & Hr & He); try done.
  { by apply entry_vaddr. }
  exists s'. split; [by rewrite (bind_Ret _ _ _ _ _ Hu)|]. by split.
Qed.

Lemma resolve_changed {A} addr pid (k : ptedit_entry_t -> M S A) s : pte_ready s addr pid ->
  (let* vm := ptedit_resolve addr pid in k vm) s = k (pte_entry s addr pid) s.
Proof. intros Hs. by rewrite (bind_Ret _ _ _ _ _ (resolve_entry s addr pid Hs)). Qed.

(** C16: setting (clearing) a bit of the PTE of a mapped address sets
    (clears) that bit and no other; reading a bit afterwards returns it. *)
Theorem pte_set_clear_get_bit (set : bool) addr pid b s : pte_ready s addr pid -> 0 <= b < 64 ->
  pte_ok (let e := pte (pte_entry s addr pid) in
          if set then Z.lor e (bit b) else Z.land e (not64 (bit b))) ->
  exists s',
    (if set then ptedit_pte_set_bit addr pid b else ptedit_pte_clear_bit addr pid b) s = Ret tt s' /\
    (forall i, 0 <= i < 64 ->
       ptedit_pte_get_bit addr pid i s' =
         Ret (Z.b2z (if decide (i = b) then set else pte_bit s addr pid i)) s') /\
    (forall l, l <> PTE ->
       level_entry l (pte_entry s' addr pid) = level_entry l (pte_entry s addr pid)).
Proof.
  intros Hs Hb Hok. destruct (entry_valid s addr pid Hs) as [Hvalid Hu].
  set (v := if set then Z.lor (pte (pte_entry s addr pid)) (bit b)
            else Z.land (pte (pte_entry s addr pid)) (not64 (bit b))) in *.
  assert (Hv : u64 v) by (pose proof (u64_bit b Hb); unfold v; destruct set; auto with width).
  destruct (change_pte addr pid v s Hs Hv Hok) as (s' & Hrun & Hs' & He).
  exists s'. split; [|split].
  - destruct set; unfold ptedit_pte_set_bit, ptedit_pte_clear_bit;
      rewrite resolve_changed, Hvalid by done; cbn [negb];
      by rewrite (bind_Ret _ _ _ _ _ (bitmask_run b s Hb)).
  - intros i Hi. unfold ptedit_pte_get_bit. rewrite resolve_changed by done.
    rewrite (bind_Ret _ _ _ _ _ (bitmask_run i s' Hi)), He. cbn [pte set_pte].
    unfold ret. f_equal. rewrite nz_bit by lia. f_equal. subst v. unfold pte_bit.
    destruct set, (decide (i = b)) as [->|]; bits_at.
  - intros l Hl. rewrite He. by destruct l.
Qed.

(** C17: setting the frame number of the PTE of a mapped address makes
    [ptedit_pte_get_pfn] return it, and keeps every other bit of the PTE. *)
Theorem pte_set_get_pfn addr pid pfn s : pte_ready s addr pid -> 0 <= pfn < 2 ^ pfn_bits a ->
  pte_ok (ptedit_set_pfn a (pte (pte_entry s addr pid)) pfn) ->
  exists s', ptedit_pte_set_pfn a addr pid pfn s = Ret tt s' /\
    ptedit_pte_get_pfn a addr pid s' = Ret pfn s' /\
    (forall i, 0 <= i -> ~ 12 <= i < 12 + pfn_bits a ->
       pte_bit s' addr pid i = pte_bit s addr pid i).
Proof.
  intros Hs Hpfn Hok. destruct (entry_valid s addr pid Hs) as [Hvalid Hu].
  destruct (set_get_pfn a (pte (pte_entry s addr pid)) pfn Hu Hpfn) as (Hget & Hother & _).
  destruct (change_pte addr pid _ s Hs (u64_set_pfn a _ pfn Hu) Hok) as (s' & Hrun & Hs' & He).
  exists s'. split; [|split].
  - unfold ptedit_pte_set_pfn. by rewrite resolve_changed, Hvalid by done.
  - unfold ptedit_pte_get_pfn. rewrite resolve_changed by done.
    destruct (entry_valid s' addr pid Hs') as [-> _]. cbn [negb]. rewrite He. cbn [pte set_pte].
    by rewrite Hget.
  - intros i Hi Hout. unfold pte_bit. rewrite He. by apply Hother.
Qed.

Lemma affect_spec f levels l e vm :
  valid (affect f levels l e vm) = valid vm /\ vaddr (affect f levels l e vm) = vaddr vm /\
  Entry.pid (affect f levels l e vm) = Entry.pid vm /\
  forall k, level_entry k (affect f levels l e vm) =
    if decide (k = l) then
      if level_valid l vm && has levels (level_mask l) && e then f (level_entry l vm)
      else level_entry l vm
    else level_entry k vm.
Proof.
  unfold affect. destruct (level_valid l vm && has levels (level_mask l) && e) eqn:E.
  - apply andb_true_iff in E as [[E _]%andb_true_iff _]. rewrite level_valid_testbit in E.
    split; [|split; [by destruct l|split; [by destruct l|]]].
    + unfold or_valid, set_valid, level_mask. cbn [valid].
      replace (valid (set_entry l (f (level_entry l vm)) vm)) with (valid vm) by by destruct l.
      apply Z.bits_inj'. intros i Hi. autorewrite with bits.
      destruct (Z.eqb_spec i (level_bit l)) as [->|]; [rewrite E|]; bits_at.
    + intros k. destruct l, k; done.
  - repeat split. intros k. by destruct (decide (k = l)) as [->|].
Qed.

Lemma affect_levels_spec d f levels vm : has_pgd d = true ->
  let vm' := affect_levels d f levels vm in
  valid vm' = valid vm /\ vaddr vm' = vaddr vm /\ Entry.pid vm' = Entry.pid vm /\
  forall l, level_entry l vm' =
    if level_valid l vm && has levels (level_mask l) &&
       match l with P4D => has_p4d d | PUD => has_pud d | PMD => has_pmd d | _ => true end
    then f (level_entry l vm) else level_entry l vm.
Proof.
  intros Hd. cbv zeta. unfold affect_levels.
  destruct (affect_spec f levels PTE true vm) as (V1 & A1 & P1 & E1).
  set (vm1 := affect f levels PTE true vm) in *.
  destruct (affect_spec f levels PMD (has_pmd d) vm1) as (V2 & A2 & P2 & E2).
  set (vm2 := affect f levels PMD (has_pmd d) vm1) in *.
  destruct (affect_spec f levels PUD (has_pud d) vm2) as (V3 & A3 & P3 & E3).
  set (vm3 := affect f levels PUD (has_pud d) vm2) in *.
  destruct (affect_spec f levels P4D (has_p4d d) vm3) as (V4 & A4 & P4 & E4).
  set (vm4 := affect f levels P4D (has_p4d d) vm3) in *.
  destruct (affect_spec f levels PGD (has_pgd d) vm4) as (V5 & A5 & P5 & E5).
  split; [congruence|]. split; [congruence|]. split; [congruence|].
  assert (Hlv : forall l v v', valid v = valid v' -> level_valid l v = level_valid l v')
    by (intros l v v' E; unfold level_valid; by rewrite E).
  rewrite (Hlv PGD vm4 vm) in E5 by congruence. rewrite (Hlv P4D vm3 vm) in E4 by congruence.
  rewrite (Hlv PUD vm2 vm) in E3 by congruence. rewrite (Hlv PMD vm1 vm) in E2 by congruence.
  rewrite Hd in E5 |- *. clearbody vm4 vm3 vm2 vm1. intros l.
  rewrite E5, !E4, !E3, !E2, !E1. by destruct l; cbn [level_entry]; repeat case_decide.
Qed.

(** C18: [ptedit_set_bit] ([ptedit_clear_bit]) sets (clears) the bit in the
    entries of exactly the selected levels that are resolved and have a table
    of their own, and asks for an update of all the resolved levels, changed
    or not. *)
Theorem set_clear_bit_spec (set : bool) paging_definition d addr pid b levels vm s :
  ptedit_resolve addr pid s = Ret vm s -> paging_definition s = Ret d s ->
  0 <= b < 64 -> has_pgd d = true ->
  exists vm',
    (if set then ptedit_set_bit paging_definition addr pid b levels
     else ptedit_clear_bit paging_definition addr pid b levels) s =
      (ptedit_update addr pid vm' ;;; ret tt) s /\
    valid vm' = valid vm /\ vaddr vm' = vaddr vm /\ Entry.pid vm' = Entry.pid vm /\
    forall l i, u64 (level_entry l vm) -> 0 <= i < 64 ->
      Z.testbit (level_entry l vm') i =
        if (i =? b) && level_valid l vm && has levels (level_mask l) &&
           match l with P4D => has_p4d d | PUD => has_pud d | PMD => has_pmd d | _ => true end
        then set else Z.testbit (level_entry l vm) i.
Proof.
  intros Hres Hdef Hb Hd.
  exists (affect_levels d (fun e => if set then Z.lor e (bit b) else Z.land e (not64 (bit b))) levels vm).
  destruct (affect_levels_spec d (fun e => if set then Z.lor e (bit b) else Z.land e (not64 (bit b)))
    levels vm Hd) as (Hv & Ha & Hp & He).
  split; [|split; [done|split; [done|split; [done|]]]].
  - destruct set; unfold ptedit_set_bit, ptedit_clear_bit;
      by rewrite (bind_Ret _ _ _ _ _ Hres), (bind_Ret _ _ _ _ _ (bitmask_run b s Hb)),
        (bind_Ret _ _ _ _ _ Hdef).
  - intros l i Hu Hi. rewrite He, <- !andb_assoc.
    destruct (level_valid l vm && (has levels (level_mask l) && _)).
    + destruct set; rewrite andb_true_r; bits_at.
    + by rewrite andb_false_r.
Qed.
End theorems.
