(* ===== verification/Agree.v ===== *)
(** * The kernel resolver and the user-space walker on x86-64

    Both implementations of [ptedit_resolve] over the same page tables: the
    entries the kernel module resolves with the kernel's page-table macros and
    the ones the library's own walker reads. *)

From stdpp Require Import base tactics numbers list gmap.
From S2P Require Import Prelude Entry PhysMem Linux Kernel Machine KernelProps Walk Mmu.
Local Open Scope Z_scope.

Section agree.
Context {P L T : Type} `{PhysMemLaws P} `{RwSemLaws L} `{!LinuxPT P} `{!LinuxX86 P} `{TlbOps T}.
Variable cfg : kconfig.
Hypothesis x86 : kc_arch cfg = X86_64.
Hypothesis v4_11 : kc_v4_11 cfg = true.

Variable s : kernel P L T.
Variable root addr : Z.
Hypothesis root_ok : 0 < root < 2 ^ 52.

(** Physical memory as a function, for the walker. *)
Definition memory (p : Z) : Z := default 0 (load64 (k_mem s) p).

#[local] Abbreviation entry := (mmu_entry memory root addr).
#[local] Abbreviation reached := (reached memory root addr).

(** Where the entry of a level is. *)
Definition mmu_slot (l : level) : Z :=
  match l with
  | PGD | P4D => root + 8 * x86_index 39 addr
  | PUD => x86_frame (entry PGD) + 8 * x86_index 30 addr
  | PMD => x86_frame (entry PUD) + 8 * x86_index 21 addr
  | PTE => x86_frame (entry PMD) + 8 * x86_index 12 addr
  end.

Lemma entry_slot l : entry l = memory (mmu_slot l).
Proof. by destruct l. Qed.

(** The tables of a process: every entry the walk gets to can be read, is
    present or empty (the kernel's "none"), and has its frame below 2^40;
    a PGD entry has the flags of a table, and there are no 1 GB pages. *)
Record tables_ok : Prop := {
  ok_readable l : reached l = true -> is_Some (load64 (k_mem s) (mmu_slot l));
  ok_present l : reached l = true -> l <> PTE -> x86_none (entry l) = negb (Z.testbit (entry l) 0);
  ok_frame l : reached l = true -> small_frame (entry l);
  ok_pgd : Z.testbit (entry PGD) 0 = true -> x86_good_table (entry PGD) = true;
  ok_pud : reached PMD && Z.testbit (entry PUD) 7 = false }.

Lemma kload_slot l : tables_ok -> reached l = true ->
  kload (phys_to_virt (mmu_slot l)) s = Ret (entry l) s.
Proof.
  intros Hok Hl. unfold kload. rewrite bind_gets, virt_of_phys, entry_slot. unfold memory.
  by destruct (ok_readable Hok l Hl) as [v ->].
Qed.

Definition ptr (l : level) : option Z := Some (phys_to_virt (mmu_slot l)).

(** What the kernel resolver returns. *)
Definition kernel_result (pid : Z) : Z * vm_t :=
  if negb (Z.testbit (entry PGD) 0) then (1, mk_vm pid (ptr PGD) None None None None 1)
  else if negb (Z.testbit (entry PUD) 0) then (1, mk_vm pid (ptr PGD) (ptr PGD) None None None 3)
  else if negb (Z.testbit (entry PMD) 0)
  then (1, mk_vm pid (ptr PGD) (ptr PGD) (ptr PUD) None None 7)
  else if Z.testbit (entry PMD) 7
  then (1, mk_vm pid (ptr PGD) (ptr PGD) (ptr PUD) (ptr PMD) None 15)
  else (0, mk_vm pid (ptr PGD) (ptr PGD) (ptr PUD) (ptr PMD) (ptr PTE) 31).

Lemma resolve_levels_x86 id mm pid : tables_ok ->
  k_mms s !! id = Some mm -> mm_pgd mm = phys_to_virt root ->
  resolve_levels cfg id addr (mk_vm pid None None None None None 0) s =
    Ret (kernel_result pid) s.
Proof.
  intros Hok Hmm Hpgd. unfold resolve_levels. rewrite bind_gets, Hmm. cbn [defined].
  rewrite bind_ret_l, Hpgd, pgd_offset_x86, <- phys_to_virt_add.
  change (root + 8 * x86_index 39 addr) with (mmu_slot PGD).
  rewrite (bind_Ret _ _ _ _ _ (kload_slot PGD Hok eq_refl)).
  rewrite pgd_none_x86, pgd_bad_x86, v4_11. cbn [orb].
  rewrite p4d_offset_x86, (bind_Ret _ _ _ _ _ (kload_slot PGD Hok eq_refl)), p4d_none_x86.
  rewrite (ok_present Hok PGD eq_refl) by done. unfold kernel_result.
  pose proof (kload_slot PUD Hok) as Hu. pose proof (kload_slot PMD Hok) as Hm.
  pose proof (ok_present Hok PUD) as Pu. pose proof (ok_present Hok PMD) as Pm.
  pose proof (ok_pud Hok) as H1g. pose proof (ok_pgd Hok) as Hg.
  unfold Mmu.reached in Hu, Hm, Pu, Pm, H1g.
  destruct (Z.testbit (entry PGD) 0); cbn [negb andb] in *; [|done].
  rewrite p4d_bad_x86 by auto. cbn [orb].
  rewrite pud_offset_x86, <- phys_to_virt_add. change (_ + 8 * x86_index 30 addr) with (mmu_slot PUD).
  unfold resolve_from_pud. rewrite (bind_Ret _ _ _ _ _ (Hu eq_refl)), pud_none_x86, Pu by done.
  destruct (Z.testbit (entry PUD) 0) eqn:Eu; cbn [negb andb] in *; [|done].
  rewrite pmd_offset_x86, <- phys_to_virt_add by done.
  change (_ + 8 * x86_index 21 addr) with (mmu_slot PMD).
  rewrite (bind_Ret _ _ _ _ _ (Hm eq_refl)), pmd_none_x86, Pm by done.
  unfold pud_large, pmd_large. rewrite x86, pud_large_x86, H1g, pmd_large_x86. cbn [andb].
  rewrite orb_false_r. destruct (Z.testbit (entry PMD) 0); cbn [negb]; [|done].
  destruct (Z.testbit (entry PMD) 7) eqn:E7.
  - by destruct (pte_offset_map _ _ _).
  - rewrite pte_offset_x86 by done. by rewrite <- phys_to_virt_add.
Qed.

Lemma copy_level_slot l set e : tables_ok -> reached l = true ->
  copy_level (ptr l) set e s = Ret (set (entry l) e) s.
Proof.
  intros Hok Hl. unfold copy_level, ptr. by rewrite (bind_Ret _ _ _ _ _ (kload_slot l Hok Hl)).
Qed.

(** The entry the resolve command hands back to the library. *)
Definition kernel_entry (e : ptedit_entry_t) : ptedit_entry_t :=
  let mk := mk_entry (pid e) (vaddr e) (entry PGD) in
  if negb (Z.testbit (entry PGD) 0) then mk (p4d e) (pud e) (pmd e) (pte e) 1
  else if negb (Z.testbit (entry PUD) 0) then mk (entry PGD) (pud e) (pmd e) (pte e) 3
  else if negb (Z.testbit (entry PMD) 0) then mk (entry PGD) (entry PUD) (pmd e) (pte e) 7
  else if Z.testbit (entry PMD) 7 then mk (entry PGD) (entry PUD) (entry PMD) (pte e) 15
  else mk (entry PGD) (entry PUD) (entry PMD) (entry PTE) 31.

Lemma vm_to_user_x86 e pid_ : tables_ok ->
  vm_to_user cfg e (snd (kernel_result pid_)) s = Ret (kernel_entry e) s.
Proof.
  intros Hok. unfold vm_to_user. rewrite v4_11.
  pose proof (fun l set e => copy_level_slot l set e Hok) as Hc.
  unfold kernel_result, kernel_entry.
  pose proof (Hc PGD) as Hg. pose proof (Hc PUD) as Hu. pose proof (Hc PMD) as Hm.
  pose proof (Hc PTE) as Ht. clear Hc. unfold Mmu.reached in *.
  destruct (Z.testbit (entry PGD) 0), (Z.testbit (entry PUD) 0), (Z.testbit (entry PMD) 0),
    (Z.testbit (entry PMD) 7); cbn [negb andb snd vm_p4d vm_pgd vm_pud vm_pmd vm_pte vm_valid] in *;
    repeat first
    [ progress change (copy_level (P:=P) (L:=L) (T:=T) None ?f ?e) with (ret (S:=kernel P L T) e)
    | rewrite bind_ret_l
    | rewrite (bind_Ret _ _ _ _ _ (Hg _ _ eq_refl))
    | rewrite (bind_Ret _ _ _ _ _ (Hu _ _ eq_refl))
    | rewrite (bind_Ret _ _ _ _ _ (Hm _ _ eq_refl))
    | rewrite (bind_Ret _ _ _ _ _ (Ht _ _ eq_refl)) ]; done.
Qed.
End agree.

(** * The two resolvers *)

Section theorems.
Context {P L T : Type} `{PhysMemLaws P} `{RwSemLaws L} `{!LinuxPT P} `{!LinuxX86 P} `{TlbOps T}.
Variable cfg : kconfig.
Hypothesis x86 : kc_arch cfg = X86_64.
Hypothesis v4_11 : kc_v4_11 cfg = true.
Variable root addr : Z.
Hypothesis root_ok : 0 < root < 2 ^ 52.
Implicit Types s : kernel P L T.

Lemma tables_ok_mem s s' : k_mem s' = k_mem s -> tables_ok s root addr -> tables_ok s' root addr.
Proof.
  intros Hm [H1' H2' H3' H4' H5']. assert (Hmem : memory s' = memory s) by (unfold memory; by rewrite Hm).
  unfold mmu_slot in *. split; unfold mmu_slot; rewrite ?Hmem, ?Hm; done.
Qed.

Lemma ioctl_resolve_x86 e id mm l s : tables_ok s root addr ->
  vaddr e = addr -> mm_is_locked s = false -> mm_of s (pid e) = Some id ->
  k_mms s !! id = Some mm -> mm_pgd mm = phys_to_virt root ->
  down_read (mmap_sem mm) = Some l ->
  device_ioctl cfg VM_RESOLVE (UEntry e) s = Ret (0, UEntry (kernel_entry s root addr e)) s.
Proof.
  intros Hok Ha Hlocked Hid Hmm Hpgd Hr. cbn [device_ioctl]. unfold ioctl_resolve.
  rewrite bind_gets, Hlocked, Ha. cbn [negb].
  assert (Hres : resolve_vm cfg addr (mk_vm (pid e) None None None None None 0) true s =
            Ret (kernel_result s root addr (pid e)) s).
  { unfold resolve_vm. cbn [vm_reset vm_pid]. rewrite (bind_Ret _ _ _ _ _ (get_mm_run _ _)), Hid.
    cbn [when]. unfold mmap_read_lock.
    erewrite bind_Ret by (erewrite lock_mm_run by done; by rewrite Hr).
    set (s1 := with_mms _ s).
    rewrite (bind_Ret _ _ _ _ _ (resolve_levels_x86 cfg x86 v4_11 s1 root addr id
      (mk_mm (mm_pgd mm) l) (pid e) (tables_ok_mem s s1 eq_refl Hok) (lookup_insert_eq _ _ _) Hpgd)).
    unfold mmap_read_unlock.
    by rewrite (bind_Ret _ _ _ _ _ (unlock_lock id mm l up_read s Hmm (up_down_read _ _ Hr))). }
  rewrite (bind_Ret _ _ _ _ _ Hres).
  by rewrite (bind_Ret _ _ _ _ _ (vm_to_user_x86 cfg v4_11 s root addr e (pid e) Hok)).
Qed.

(** C12: on x86-64 the kernel implementation of [ptedit_resolve] and the
    user-space one are interchangeable for addresses outside 1 GB pages: the
    command succeeds and leaves the state alone; the two entries describe the
    same physical address; a level they both mark valid has the same value in both; they agree on whether
    the PTE is valid, and then they differ only in the validity bit of the
    P4D, a level the user-space walker treats as folded. *)
Theorem resolvers_agree {S} (deref : Z -> M S Z) (u : S) pid_ id mm l s :
  tables_ok s root addr -> mm_is_locked s = false ->
  mm_of s (wrap64 pid_) = Some id -> k_mms s !! id = Some mm ->
  mm_pgd mm = phys_to_virt root -> down_read (mmap_sem mm) = Some l ->
  reads_ok X86_64 def_x86 deref u (memory s) addr root ->
  exists ek eu,
    device_ioctl cfg VM_RESOLVE
      (UEntry (Entry.set_pid (wrap64 pid_) (set_vaddr addr zero_entry))) s = Ret (0, UEntry ek) s /\
    resolve_from_root X86_64 def_x86 deref addr pid_ root u = Ret eu u /\
    entry_physical ek = entry_physical eu /\
    (forall l, level_valid l ek = true -> level_valid l eu = true ->
       level_entry l ek = level_entry l eu) /\
    level_valid PTE ek = level_valid PTE eu /\
    (level_valid PTE eu = true -> ek = or_valid PTEDIT_VALID_MASK_P4D eu).
Proof.
  intros Hok Hlocked Hid Hmm Hpgd Hr Hreads. eexists _, _.
  split; [by eapply (ioctl_resolve_x86 _ id mm l)|].
  split; [by apply resolve_from_root_fun|].
  change (resolve_fun X86_64 def_x86 (memory s) addr pid_ root)
    with (result (memory s) root addr pid_).
  rewrite result_x86 by (done || apply Hok). unfold kernel_entry, entry_physical.
  destruct (Z.testbit (mmu_entry (memory s) root addr PGD) 0) eqn:Eg; cbn [negb andb].
  2: { split; [done|]. split; [by intros []|]. by split. }
  destruct (Z.testbit (mmu_entry (memory s) root addr PUD) 0) eqn:Eu; cbn [negb andb].
  2: { split; [done|]. split; [by intros []|]. by split. }
  destruct (Z.testbit (mmu_entry (memory s) root addr PMD) 0) eqn:Em; cbn [negb andb].
  2: { split.
       - change (level_valid PTE _) with false. change (level_valid PMD _) with false at 1.
         change (level_valid PMD _) with true. cbn [andb pmd]. by rewrite present_x86, Em.
       - split; [by intros []|]. by split. }
  destruct (Z.testbit (mmu_entry (memory s) root addr PMD) 7); cbn [negb];
    (split; [done|]; split; [by intros []|]; by split).
Qed.
End theorems.

Lemma machine_tables_ok : tables_ok machine 0x1000 0x40201234.
Proof.
  split.
  - intros l _. destruct l; vm_compute; eauto.
  - intros l _ Hl. destruct l; try done; vm_compute; done.
  - intros l _. destruct l; split; vm_compute; done.
  - intros _. vm_compute. done.
  - vm_compute. done.
Qed.

Lemma resolvers_agree_witness :
  exists ek eu,
    device_ioctl x86_cfg VM_RESOLVE
      (UEntry (Entry.set_pid (wrap64 0) (set_vaddr 0x40201234 zero_entry))) machine =
      Ret (0, UEntry ek) machine /\
    resolve_from_root X86_64 def_x86 (fun p => ret (memory machine p)) 0x40201234 0 0x1000 tt =
      Ret eu tt /\
    entry_physical ek = entry_physical eu /\ entry_physical eu = Some 0x5234.
Proof.
  destruct (resolvers_agree x86_cfg eq_refl eq_refl 0x1000 0x40201234 ltac:(done)
    (fun p => ret (memory machine p)) tt 0 1 (mk_mm (PAGE_OFFSET + 0x1000) unlocked)
    (mk_rwsem 1 false) machine machine_tables_ok) as (ek & eu & Hk & Hu & Hp & _).
  1-5: vm_compute; reflexivity.
  { apply reads_ok_all. intros p. reflexivity. }
  exists ek, eu. split; [exact Hk|]. split; [exact Hu|]. split; [exact Hp|].
  assert (eu = mk_entry 0 0x40201234 0x2067 0x2067 0x3067 0x4067 0x5067 29) as ->; [|done].
  vm_compute in Hu. by injection Hu as <-.
Defined.
