(* ===== verification/KernelUpdate.v ===== *)
(** * Updating entries through the kernel module, on x86-64 *)

From stdpp Require Import base tactics numbers list gmap.
From S2P Require Import Prelude Entry PhysMem Linux Kernel Machine KernelProps Walk Mmu Agree.
Local Open Scope Z_scope.

Section update.
Context {P L T : Type} `{PhysMemLaws P} `{RwSemLaws L} `{!LinuxPT P} `{!LinuxX86 P} `{TlbOps T}.
Variable cfg : kconfig.
Hypothesis x86 : kc_arch cfg = X86_64.
Hypothesis v4_11 : kc_v4_11 cfg = true.
Implicit Types s : kernel P L T.

(** ** Invalidation always returns *)

(** Some CPUs' TLBs and control registers. *)
Definition cpus_only s s' : Prop := exists t c, s' = with_cr4 c (with_tlb t s).

Lemma cpus_only_refl s : cpus_only s s.
Proof. exists (k_tlb s), (k_cr4 s). by destruct s. Qed.

Lemma cpus_only_trans s1 s2 s3 : cpus_only s1 s2 -> cpus_only s2 s3 -> cpus_only s1 s3.
Proof. intros (t & c & ->) (t' & c' & ->). by exists t', c'. Qed.

Lemma invalidate_on_returns addr cpu s : exists s',
  invalidate_tlb_on cfg addr cpu s = Ret tt s' /\ cpus_only s s'.
Proof.
  unfold invalidate_tlb_on. rewrite x86. destruct (kc_invpcid_single cfg).
  - rewrite bind_gets. generalize (Z.to_nat 4096). intros n.
    eexists. split; [reflexivity|].
    exists (invpcid_loop n cpu 0 addr (k_tlb s)), (k_cr4 s). by destruct s.
  - eexists. split; [reflexivity|]. by eexists _, _.
Qed.

Lemma on_each_cpu_returns f cpus s :
  (forall cpu s, exists s', f cpu s = Ret tt s' /\ cpus_only s s') ->
  exists s', on_each_cpu f cpus s = Ret tt s' /\ cpus_only s s'.
Proof.
  intros Hf. revert s. induction cpus as [|c cpus IH]; intros s; simpl.
  { exists s. split; [done|apply cpus_only_refl]. }
  destruct (Hf c s) as (s1 & Hs1 & Ho1). destruct (IH s1) as (s2 & Hs2 & Ho2).
  exists s2. rewrite (bind_Ret _ _ _ _ _ Hs1). split; [done|]. by eapply cpus_only_trans.
Qed.

(** The address space of the caller exists, or is not needed. *)
Definition can_invalidate s : Prop :=
  invalidate_tlb s = invalidate_tlb_custom_fn \/ is_Some (mm_of s (k_current_pid s)).

Lemma invalidate_returns addr s : can_invalidate s -> exists s',
  call_invalidate_tlb cfg addr s = Ret tt s' /\ cpus_only s s'.
Proof.
  intros Hc. unfold call_invalidate_tlb. rewrite bind_gets. destruct (invalidate_tlb s) eqn:Hm.
  - destruct Hc as [Hc|[id Hid]]; [by rewrite Hm in Hc|].
    unfold invalidate_tlb_kernel. rewrite x86, bind_gets.
    rewrite (bind_Ret _ _ _ _ _ (get_mm_run _ _)), Hid. cbn [defined].
    rewrite bind_ret_l, !bind_gets, (bind_Ret _ _ _ _ _ (get_mm_run _ _)), bind_gets.
    eexists. split; [reflexivity|]. eexists (flush_tlb_mm_range _ _ _ _ _ _ _ _), (k_cr4 s).
    by destruct s.
  - apply on_each_cpu_returns. intros. apply invalidate_on_returns.
Qed.

(** ** The stores *)

Fixpoint store_all (l : list (Z * Z)) (m : P) : option P :=
  match l with
  | [] => Some m
  | (p, v) :: l => m' ← store64 m p v; store_all l m'
  end.

Variable root addr : Z.

(** The kernel stores from the PGD down. *)
Definition kernel_order : list level := [PGD; P4D; PUD; PMD; PTE].
Definition kernel_stores s (new : ptedit_entry_t) : list (Z * Z) :=
  omap (fun l => if level_valid l new then Some (mmu_slot s root addr l, level_entry l new)
                 else None) kernel_order.

(** The walk gets to a PTE. *)
Definition mapped s : Prop := Mmu.reached (memory s) root addr PTE = true.

Lemma update_level_run (l : level) mask old slot new v s m :
  has (vm_valid old) mask = true ->
  store_all (if has (valid new) mask then [(slot, v)] else []) (k_mem s) = Some m ->
  update_level l mask old (Some (phys_to_virt slot)) new v s = Ret tt (with_mem m s).
Proof.
  intros Ho. unfold update_level, when. rewrite Ho. cbn [andb].
  destruct (has (valid new) mask); simpl.
  - unfold store_entry. cbn [defined]. rewrite bind_ret_l, bind_gets, set_pxd_x86, virt_of_phys.
    destruct (store64 (k_mem s) slot v) as [m'|]; [|done]. simpl. intros [= ->]. done.
  - intros [= <-]. by destruct s.
Qed.

Lemma store_all_app l l' m :
  store_all (l ++ l') m = m' ← store_all l m; store_all l' m'.
Proof.
  revert m. induction l as [|[p v] l IH]; intros m; simpl; [done|].
  destruct (store64 m p v); simpl; [apply IH|done].
Qed.

Lemma store_all_app_inv l l' m m' : store_all (l ++ l') m = Some m' ->
  exists m1, store_all l m = Some m1 /\ store_all l' m1 = Some m'.
Proof. rewrite store_all_app. apply bind_Some. Qed.

Definition full_vm s (pid_ : Z) : vm_t :=
  mk_vm pid_ (ptr s root addr PGD) (ptr s root addr PGD) (ptr s root addr PUD)
    (ptr s root addr PMD) (ptr s root addr PTE) 31.

Lemma kernel_stores_split s new :
  kernel_stores s new =
    (if level_valid PGD new then [(mmu_slot s root addr PGD, pgd new)] else []) ++
    (if level_valid P4D new then [(mmu_slot s root addr PGD, p4d new)] else []) ++
    (if level_valid PUD new then [(mmu_slot s root addr PUD, pud new)] else []) ++
    (if level_valid PMD new then [(mmu_slot s root addr PMD, pmd new)] else []) ++
    (if level_valid PTE new then [(mmu_slot s root addr PTE, pte new)] else []).
Proof.
  unfold kernel_stores, kernel_order. cbn [omap list_omap level_entry].
  by destruct (level_valid PGD new), (level_valid P4D new), (level_valid PUD new),
    (level_valid PMD new), (level_valid PTE new).
Qed.

(** The pointers in [full_vm] are those of a state [s0]; the stores happen in
    a state with other locks. *)
Lemma update_levels_run s0 s pid_ new m :
  store_all (kernel_stores s0 new) (k_mem s) = Some m ->
  update_levels cfg (full_vm s0 pid_) new s = Ret tt (with_mem m s).
Proof.
  rewrite kernel_stores_split. unfold update_levels. rewrite v4_11. cbn [when].
  cbn [full_vm vm_pgd vm_p4d vm_pud vm_pmd vm_pte].
  intros (m1 & H1' & (m2 & H2' & (m3 & H3' & (m4 & H4' & H5')%store_all_app_inv)%store_all_app_inv)%store_all_app_inv)%store_all_app_inv.
  rewrite (bind_Ret _ _ _ _ _ (update_level_run PGD PTEDIT_VALID_MASK_PGD (full_vm s0 pid_) _ new _ s m1 eq_refl H1')).
  rewrite (bind_Ret _ _ _ _ _ (update_level_run P4D PTEDIT_VALID_MASK_P4D (full_vm s0 pid_) _ new _ (with_mem m1 s) m2 eq_refl H2')).
  rewrite (bind_Ret _ _ _ _ _ (update_level_run PUD PTEDIT_VALID_MASK_PUD (full_vm s0 pid_) _ new _ (with_mem m2 s) m3 eq_refl H3')).
  rewrite (bind_Ret _ _ _ _ _ (update_level_run PMD PTEDIT_VALID_MASK_PMD (full_vm s0 pid_) _ new _ (with_mem m3 s) m4 eq_refl H4')).
  exact (update_level_run PTE PTEDIT_VALID_MASK_PTE (full_vm s0 pid_) _ new _ (with_mem m4 s) m eq_refl H5').
Qed.

Lemma mapped_result s pid_ : mapped s -> kernel_result s root addr pid_ = (0, full_vm s pid_).
Proof.
  unfold mapped, Mmu.reached, kernel_result. rewrite !andb_true_iff, negb_true_iff.
  by intros [[[-> ->] ->] ->].
Qed.

(** [t] is what an invalidation makes of the TLB in [s] while the lock of the
    address space is held and the memory is [m]. *)
Definition invalidates id mm m s t : Prop := exists c,
  let s' := with_mem m (with_mms (<[id := mm]> (k_mms s)) s) in
  call_invalidate_tlb cfg addr s' = Ret tt (with_cr4 c (with_tlb t s')).

Lemma update_vm_run id mm l new s m : tables_ok s root addr -> mapped s ->
  vaddr new = addr -> mm_of s (pid new) = Some id -> k_mms s !! id = Some mm ->
  mm_pgd mm = phys_to_virt root -> down_write (mmap_sem mm) = Some l ->
  can_invalidate s -> store_all (kernel_stores s new) (k_mem s) = Some m ->
  exists t c, update_vm cfg new true s = Ret 0 (with_cr4 c (with_tlb t (with_mem m s))) /\
    invalidates id (mk_mm (mm_pgd mm) l) m s t.
Proof.
  intros Hok Hmap Ha Hid Hmm Hpgd Hw Hinv Hst. unfold update_vm. rewrite Ha.
  rewrite (bind_Ret _ _ _ _ _ (get_mm_run _ _)), Hid. cbn [when].
  set (s1 := with_mms (<[id := mk_mm (mm_pgd mm) l]> (k_mms s)) s).
  assert (Hlock : mmap_write_lock id s = Ret tt s1)
    by (unfold mmap_write_lock; erewrite lock_mm_run by done; by rewrite Hw).
  rewrite (bind_Ret _ _ _ _ _ Hlock).
  assert (Hres : resolve_vm cfg addr (mk_vm (pid new) None None None None None 0) false s1 =
            Ret (0, full_vm s1 (pid new)) s1).
  { unfold resolve_vm. cbn [vm_reset vm_pid]. rewrite (bind_Ret _ _ _ _ _ (get_mm_run _ _)).
    change (mm_of s1 (pid new)) with (mm_of s (pid new)). rewrite Hid. cbn [when]. rewrite bind_ret_l.
    rewrite (bind_Ret _ _ _ _ _ (resolve_levels_x86 cfg x86 v4_11 s1 root addr id
      (mk_mm (mm_pgd mm) l) (pid new) (tables_ok_mem root addr s s1 eq_refl Hok)
      (lookup_insert_eq _ _ _) Hpgd)).
    rewrite bind_ret_l, mapped_result by exact Hmap. done. }
  rewrite (bind_Ret _ _ _ _ _ Hres). cbn [snd].
  rewrite (bind_Ret _ _ _ _ _ (update_levels_run s1 s1 (pid new) new m Hst)).
  destruct (invalidate_returns addr (with_mem m s1) Hinv) as (s2 & Hrun & t & c & ->).
  rewrite (bind_Ret _ _ _ _ _ Hrun).
  pose proof (unlock_lock id mm l up_write (with_cr4 c (with_tlb t (with_mem m s))) Hmm
    (up_down_write _ _ Hw)) as Hunlock.
  exists t, c. split; [|by exists c].
  unfold mmap_write_unlock. by rewrite (bind_Ret _ _ _ _ _ Hunlock).
Qed.

(** C14: updating the entries of a mapped page through the module stores the
    new entries of exactly the levels they mark valid, each where the
    processor reads it, from the PGD down; the command returns 0, having released the lock, and
    apart from memory only TLBs and control registers may differ. *)
Theorem update_vm_x86 id mm l new s m : tables_ok s root addr -> mapped s ->
  vaddr new = addr -> mm_is_locked s = false -> mm_of s (pid new) = Some id ->
  k_mms s !! id = Some mm -> mm_pgd mm = phys_to_virt root ->
  down_write (mmap_sem mm) = Some l -> can_invalidate s ->
  store_all (kernel_stores s new) (k_mem s) = Some m ->
  exists t c, device_ioctl cfg VM_UPDATE (UEntry new) s =
    Ret (0, UEntry new) (with_cr4 c (with_tlb t (with_mem m s))).
Proof.
  intros Hok Hmap Ha Hlocked Hid Hmm Hpgd Hw Hinv Hst.
  destruct (update_vm_run id mm l new s m) as (t & c & Hrun & _); [done..|].
  exists t, c. cbn [device_ioctl]. rewrite bind_gets, Hlocked.
  by rewrite (bind_Ret _ _ _ _ _ Hrun).
Qed.

Lemma store_all_elsewhere l m m' q : store_all l m = Some m' ->
  Forall (fun pv => disjoint_ranges (fst pv) 8 q 8) l -> load64 m' q = load64 m q.
Proof.
  intros Hst Hl. revert m Hst. induction Hl as [|[p v] l Hp _ IH]; intros m; simpl.
  - by intros [= ->].
  - destruct (store64 m p v) as [m1|] eqn:E; [|done]. simpl. intros Hst.
    rewrite (IH m1 Hst). by eapply load64_store64_ne.
Qed.

Lemma pgd_slot_after new s m : 
  level_valid P4D new = true -> u64 (p4d new) ->
  (forall l, level_valid l new = true -> l <> PGD -> l <> P4D ->
     disjoint_ranges (mmu_slot s root addr l) 8 (mmu_slot s root addr PGD) 8) ->
  store_all (kernel_stores s new) (k_mem s) = Some m ->
  load64 m (mmu_slot s root addr PGD) = Some (p4d new).
Proof.
  intros H4 Hu Hd Hst. rewrite kernel_stores_split in Hst.
  apply store_all_app_inv in Hst as (m1 & _ & Hst).
  apply store_all_app_inv in Hst as (m2 & H4' & Hst). rewrite H4 in H4'. simpl in H4'.
  destruct (store64 m1 _ (p4d new)) as [m3|] eqn:E; [|done]. injection H4' as ->.
  rewrite (store_all_elsewhere _ m2 m _ Hst); [by eapply load64_store64|].
  clear Hst. repeat apply Forall_app_2; case_match;
    first [apply Forall_nil_2 | apply Forall_cons_2; [cbn [fst]; by apply Hd|apply Forall_nil_2]].
Qed.

(** C28: on four-level x86-64 the P4D entry the kernel resolves is the PGD
    entry, and an update that marks both valid, as every entry of a mapped page resolved through
    the module does, stores the P4D after the PGD in the same place: a
    change to the PGD entry alone is lost, what remains is the value in
    the P4D field. *)
Theorem pgd_update_lost id mm l new s m : tables_ok s root addr -> mapped s ->
  vaddr new = addr -> mm_is_locked s = false -> mm_of s (pid new) = Some id ->
  k_mms s !! id = Some mm -> mm_pgd mm = phys_to_virt root ->
  down_write (mmap_sem mm) = Some l -> can_invalidate s ->
  store_all (kernel_stores s new) (k_mem s) = Some m ->
  level_valid PGD new = true -> level_valid P4D new = true -> u64 (p4d new) ->
  (forall l, level_valid l new = true -> l <> PGD -> l <> P4D ->
     disjoint_ranges (mmu_slot s root addr l) 8 (mmu_slot s root addr PGD) 8) ->
  exists s', device_ioctl cfg VM_UPDATE (UEntry new) s = Ret (0, UEntry new) s' /\
    load64 (k_mem s') (mmu_slot s root addr PGD) = Some (p4d new).
Proof.
  intros Hok Hmap Ha Hlocked Hid Hmm Hpgd Hw Hinv Hst _ H4 Hu Hd.
  destruct (update_vm_run id mm l new s m) as (t & c & Hrun & _); [done..|].
  eexists. split.
  - cbn [device_ioctl]. rewrite bind_gets, Hlocked. by rewrite (bind_Ret _ _ _ _ _ Hrun).
  - simpl. by eapply pgd_slot_after.
Qed.

(** Only the PTE of the walk changes. *)
Lemma pte_changed s s' v : tables_ok s root addr -> mapped s -> small_frame v ->
  load64 (k_mem s') (mmu_slot s root addr PTE) = Some v ->
  (forall q, disjoint_ranges (mmu_slot s root addr PTE) 8 q 8 ->
     load64 (k_mem s') q = load64 (k_mem s) q) ->
  (forall l, l <> PTE -> disjoint_ranges (mmu_slot s root addr PTE) 8 (mmu_slot s root addr l) 8) ->
  tables_ok s' root addr /\ mapped s' /\
  (forall l, mmu_slot s' root addr l = mmu_slot s root addr l) /\
  forall e, kernel_entry s' root addr e = Entry.set_pte v (kernel_entry s root addr e).
Proof.
  intros Hok Hmap Hv Hpte Helse Hd.
  assert (Hmem : forall l, l <> PTE -> memory s' (mmu_slot s root addr l) = memory s (mmu_slot s root addr l)).
  { intros l Hl. unfold memory. by rewrite Helse by auto. }
  assert (Eg : mmu_entry (memory s') root addr PGD = mmu_entry (memory s) root addr PGD)
    by apply (Hmem PGD ltac:(done)).
  assert (Eu : mmu_entry (memory s') root addr PUD = mmu_entry (memory s) root addr PUD).
  { pose proof (Hmem PUD ltac:(done)) as E. simpl in *. unfold x86_frame in E.
    unfold mmu_frame. by rewrite Eg. }
  assert (Em : mmu_entry (memory s') root addr PMD = mmu_entry (memory s) root addr PMD).
  { pose proof (Hmem PMD ltac:(done)) as E. simpl in *. unfold x86_frame in E.
    unfold mmu_frame in *. by rewrite Eu. }
  assert (Hslot : forall l, mmu_slot s' root addr l = mmu_slot s root addr l).
  { intros []; unfold mmu_slot; by rewrite ?Eg, ?Eu, ?Em. }
  assert (Et : mmu_entry (memory s') root addr PTE = v).
  { rewrite entry_slot, Hslot. unfold memory. by rewrite Hpte. }
  assert (E4 : mmu_entry (memory s') root addr P4D = mmu_entry (memory s) root addr P4D)
    by apply Eg.
  assert (Hr : forall l, Mmu.reached (memory s') root addr l = Mmu.reached (memory s) root addr l).
  { intros []; unfold Mmu.reached; by rewrite ?Eg, ?Eu, ?Em. }
  split; [|split; [by unfold mapped; rewrite Hr|split; [done|]]].
  - destruct Hok as [H1' H2' H3' H4' H5']. split.
    + intros l Hl. rewrite Hslot. destruct (decide (l = PTE)) as [->|Hne]; [by rewrite Hpte|].
      rewrite Helse by auto. apply H1'. by rewrite <- Hr.
    + intros l. rewrite Hr. intros Hl Hne. specialize (H2' l Hl Hne).
      destruct l; rewrite ?Eg, ?E4, ?Eu, ?Em; done.
    + intros l. rewrite Hr. intros Hl. specialize (H3' l Hl).
      destruct l; rewrite ?Eg, ?E4, ?Eu, ?Em, ?Et; done.
    + by rewrite Eg.
    + by rewrite Hr, Eu.
  - intros e. unfold kernel_entry. rewrite Eg, Eu, Em, Et.
    unfold mapped, Mmu.reached in Hmap. rewrite !andb_true_iff, negb_true_iff in Hmap.
    destruct Hmap as [[[-> ->] ->] ->]. done.
Qed.

Lemma update_pte_run id mm l new s m : tables_ok s root addr -> mapped s ->
  vaddr new = addr -> mm_is_locked s = false -> mm_of s (pid new) = Some id ->
  k_mms s !! id = Some mm -> mm_pgd mm = phys_to_virt root ->
  down_write (mmap_sem mm) = Some l -> can_invalidate s ->
  valid new = PTEDIT_VALID_MASK_PTE -> small_frame (pte new) ->
  store64 (k_mem s) (mmu_slot s root addr PTE) (pte new) = Some m ->
  (forall l, l <> PTE -> disjoint_ranges (mmu_slot s root addr PTE) 8 (mmu_slot s root addr l) 8) ->
  exists t c, let s' := with_cr4 c (with_tlb t (with_mem m s)) in
    device_ioctl cfg VM_UPDATE (UEntry new) s = Ret (0, UEntry new) s' /\
    invalidates id (mk_mm (mm_pgd mm) l) m s t /\
    tables_ok s' root addr /\ mapped s' /\
    (forall l, mmu_slot s' root addr l = mmu_slot s root addr l) /\
    forall e, kernel_entry s' root addr e = Entry.set_pte (pte new) (kernel_entry s root addr e).
Proof.
  intros Hok Hmap Ha Hlocked Hid Hmm Hpgd Hw Hinv Hv Hsmall Hst Hd.
  assert (Hstores : kernel_stores s new = [(mmu_slot s root addr PTE, pte new)]).
  { rewrite kernel_stores_split. unfold level_valid. by rewrite Hv. }
  destruct (update_vm_run id mm l new s m) as (t & c & Hrun & Ht); try done.
  { rewrite Hstores. simpl in *. by rewrite Hst. }
  exists t, c. intros s'. split; [|split; [done|]].
  - cbn [device_ioctl]. rewrite bind_gets, Hlocked. by rewrite (bind_Ret _ _ _ _ _ Hrun).
  - apply pte_changed; try done.
    + eapply load64_store64; [apply Hsmall|exact Hst].
    + intros q Hq. by eapply load64_store64_ne.
Qed.

(** C15: changing the PTE of a mapped page through the module and resolving
    the address through it again gives the entries of before with the new
    PTE; memory outside the PTE keeps its contents. *)
Theorem kernel_update_then_resolve id mm l l' new e s m : tables_ok s root addr -> mapped s ->
  vaddr new = addr -> vaddr e = addr -> mm_is_locked s = false ->
  mm_of s (pid new) = Some id -> mm_of s (pid e) = Some id ->
  k_mms s !! id = Some mm -> mm_pgd mm = phys_to_virt root ->
  down_write (mmap_sem mm) = Some l -> down_read (mmap_sem mm) = Some l' -> can_invalidate s ->
  valid new = PTEDIT_VALID_MASK_PTE -> small_frame (pte new) ->
  store64 (k_mem s) (mmu_slot s root addr PTE) (pte new) = Some m ->
  (forall l, l <> PTE -> disjoint_ranges (mmu_slot s root addr PTE) 8 (mmu_slot s root addr l) 8) ->
  exists s', device_ioctl cfg VM_UPDATE (UEntry new) s = Ret (0, UEntry new) s' /\
    device_ioctl cfg VM_RESOLVE (UEntry e) s' =
      Ret (0, UEntry (Entry.set_pte (pte new) (kernel_entry s root addr e))) s' /\
    device_ioctl cfg VM_RESOLVE (UEntry e) s = Ret (0, UEntry (kernel_entry s root addr e)) s /\
    forall q, disjoint_ranges (mmu_slot s root addr PTE) 8 q 8 ->
      load64 (k_mem s') q = load64 (k_mem s) q.
Proof.
  intros Hok Hmap Ha Hae Hlocked Hid Hide Hmm Hpgd Hw Hr Hinv Hv Hsmall Hst Hd.
  destruct (update_pte_run id mm l new s m) as (t & c & Hrun & _ & Hok' & _ & _ & Hk'); try done.
  eexists. split; [exact Hrun|]. split; [|split].
  - rewrite <- Hk'. by eapply (ioctl_resolve_x86 cfg x86 v4_11 root addr _ id mm l').
  - by eapply (ioctl_resolve_x86 cfg x86 v4_11 root addr _ id mm l').
  - intros q Hq. simpl. by eapply load64_store64_ne.
Qed.
End update.

(** ** On the machine *)

Definition new_entries : ptedit_entry_t := mk_entry 0 0x40201234 0x20a7 0x2067 0x3067 0x4067 0x5067 31.
Definition new_pte : ptedit_entry_t := mk_entry 0 0x40201234 0 0 0 0 0x6067 PTEDIT_VALID_MASK_PTE.

Definition after (l : list (Z * Z)) : ram := put_words l machine_ram.

Ltac solve_disjoint :=
  unfold disjoint_ranges; vm_compute; first [left; discriminate | right; discriminate].

Lemma update_vm_x86_witness :
  mapped 0x1000 0x40201234 machine /\
  exists t c, device_ioctl x86_cfg VM_UPDATE (UEntry new_pte) machine =
    Ret (0, UEntry new_pte) (with_cr4 c (with_tlb t (with_mem (after [(0x4008, 0x6067)]) machine))).
Proof.
  split; [vm_compute; reflexivity|].
  apply (update_vm_x86 x86_cfg eq_refl eq_refl 0x1000 0x40201234 1
    (mk_mm (PAGE_OFFSET + 0x1000) unlocked) (mk_rwsem 0 true)).
  1: apply machine_tables_ok.
  all: try (vm_compute; reflexivity).
  right. vm_compute. eauto.
Defined.

(** Setting bits of the PGD entry of a resolved page has no effect. *)
Lemma pgd_update_lost_witness :
  pgd new_entries = 0x20a7 /\
  exists s', device_ioctl x86_cfg VM_UPDATE (UEntry new_entries) machine = Ret (0, UEntry new_entries) s' /\
    load64 (k_mem s') 0x1000 = Some 0x2067.
Proof.
  split; [reflexivity|].
  apply (pgd_update_lost x86_cfg eq_refl eq_refl 0x1000 0x40201234 1
    (mk_mm (PAGE_OFFSET + 0x1000) unlocked) (mk_rwsem 0 true) new_entries machine
    (after [(0x1000, 0x20a7); (0x1000, 0x2067); (0x2008, 0x3067); (0x3008, 0x4067);
            (0x4008, 0x5067)])).
  1: apply machine_tables_ok.
  all: try (vm_compute; reflexivity).
  - right. vm_compute. eauto.
  - vm_compute. done.
  - intros l _ H1 H2. destruct l; try done; solve_disjoint.
Defined.

Lemma kernel_update_then_resolve_witness :
  exists s', device_ioctl x86_cfg VM_UPDATE (UEntry new_pte) machine = Ret (0, UEntry new_pte) s' /\
    device_ioctl x86_cfg VM_RESOLVE (UEntry (mk_entry 0 0x40201234 0 0 0 0 0 0)) s' =
      Ret (0, UEntry (mk_entry 0 0x40201234 0x2067 0x2067 0x3067 0x4067 0x6067 31)) s'.
Proof.
  destruct (kernel_update_then_resolve x86_cfg eq_refl eq_refl 0x1000 0x40201234 1
    (mk_mm (PAGE_OFFSET + 0x1000) unlocked) (mk_rwsem 0 true) (mk_rwsem 1 false) new_pte
    (mk_entry 0 0x40201234 0 0 0 0 0 0) machine (after [(0x4008, 0x6067)])) as (s' & Hu & Hr & _).
  1: apply machine_tables_ok.
  1-14: try (vm_compute; reflexivity).
  - right. vm_compute. eauto.
  - split; vm_compute; done.
  - intros l Hl. destruct l; try done; solve_disjoint.
  - exists s'. split; [exact Hu|]. rewrite Hr. vm_compute. reflexivity.
Defined.
