(* ===== verification/Requests.v ===== *)
(** * The requests as a whole

    What holds of every request to the device ([device_ioctl]): whatever it is
    and in whatever state of the kernel, it leaves the locks of the address
    spaces as it found them, and it sleeps only while one of them is held; on
    x86-64, when none is held and what the request names exists, every request
    but the lock command returns. *)

From stdpp Require Import base tactics numbers list gmap.
From S2P Require Import Prelude Entry PhysMem Linux Kernel Machine KernelProps KernelOps.
From S2P Require Import Mmu Agree KernelUpdate.
Local Open Scope Z_scope.

(** ** Locks *)

Section locks.
Context {P L T : Type} `{PhysMemLaws P} `{RwSemLaws L} `{LinuxPT P} `{TlbLaws T}.
Variable cfg : kconfig.
Implicit Types s : kernel P L T.

Definition locks s : gmap Z L := mmap_sem <$> k_mms s.

(** A lock that some caller would have to wait for. *)
Definition contended (ls : gmap Z L) : Prop :=
  exists id l, ls !! id = Some l /\ (down_read l = None \/ down_write l = None).

(** A computation that does not sleep and takes the locks from [ls] to [ls'];
    one that leaves them alone; and one that does but may sleep for one of
    [ls]. *)
Definition calm {A} (ls ls' : gmap Z L) (m : M (kernel P L T) A) : Prop :=
  forall s, locks s = ls ->
    match m s with Ret _ s' => locks s' = ls' | Sleep _ => False | Undef => True end.
Definition steady {A} (m : M (kernel P L T) A) : Prop := forall ls, calm ls ls m.
Definition balanced {A} (m : M (kernel P L T) A) : Prop :=
  forall s, match m s with
            | Ret _ s' => locks s' = locks s
            | Sleep _ => contended (locks s)
            | Undef => True
            end.

Lemma calm_bind {A B} ls ls1 ls2 (m : M (kernel P L T) A) (k : A -> M (kernel P L T) B) :
  calm ls ls1 m -> (forall a, calm ls1 ls2 (k a)) -> calm ls ls2 (bind m k).
Proof.
  intros Hm Hk s Hs. unfold bind. specialize (Hm s Hs). destruct (m s) as [a s'| |]; [|done..].
  by apply Hk.
Qed.

Lemma steady_bind {A B} (m : M (kernel P L T) A) (k : A -> M (kernel P L T) B) :
  steady m -> (forall a, steady (k a)) -> steady (bind m k).
Proof. intros Hm Hk ls. eapply calm_bind; [apply Hm|]. intros a. apply Hk. Qed.

Lemma steady_calm {A B} ls ls' (m : M (kernel P L T) A) (k : A -> M (kernel P L T) B) :
  steady m -> (forall a, calm ls ls' (k a)) -> calm ls ls' (bind m k).
Proof. intros Hm. apply calm_bind, Hm. Qed.

Lemma steady_reader {A} (m : M (kernel P L T) A) : reader m -> steady m.
Proof. intros Hm ls s Hs. specialize (Hm s). by destruct (m s) as [? ?|?|]; simplify_eq. Qed.

Lemma steady_modify f : (forall s, locks (f s) = locks s) -> steady (modify f).
Proof. intros Hf ls s <-. apply Hf. Qed.

Lemma balanced_steady {A} (m : M (kernel P L T) A) : steady m -> balanced m.
Proof. intros Hm s. specialize (Hm (locks s) s eq_refl). by destruct (m s). Qed.

Lemma balanced_bind {A B} (m : M (kernel P L T) A) (k : A -> M (kernel P L T) B) :
  balanced m -> (forall a, steady (k a)) -> balanced (bind m k).
Proof.
  intros Hm Hk s. unfold bind. specialize (Hm s). destruct (m s) as [a s'| |]; [|done..].
  specialize (Hk a _ s' Hm). by destruct (k a s').
Qed.

Lemma balanced_after {A B} (m : M (kernel P L T) A) (k : A -> M (kernel P L T) B) :
  reader m -> (forall a, balanced (k a)) -> balanced (bind m k).
Proof.
  intros Hm Hk s. unfold bind. specialize (Hm s). destruct (m s) as [a s'| |]; [subst s'; apply Hk|done..].
Qed.

(** Taking a lock; what follows releases it. *)
Lemma balanced_lock {A} (f : L -> option L) id (m : M (kernel P L T) A) :
  (forall l, f l = None -> down_read l = None \/ down_write l = None) ->
  (forall ls l l', ls !! id = Some l -> f l = Some l' -> calm (<[id := l']> ls) ls m) ->
  balanced (lock_mm f id ;;; m).
Proof.
  intros Hf Hm s. unfold bind. destruct (k_mms s !! id) as [mm|] eqn:Hmm; [|by rewrite lock_mm_undef].
  rewrite (lock_mm_run f id mm) by done.
  assert (locks s !! id = Some (mmap_sem mm)) as Hl by (unfold locks; by rewrite lookup_fmap, Hmm).
  destruct (f (mmap_sem mm)) as [l|] eqn:Hfl; [|exists id, (mmap_sem mm); auto].
  set (s1 := with_mms _ s).
  assert (locks s1 = <[id := l]> (locks s)) as Hs1
    by (unfold locks, s1; cbn [k_mms with_mms]; by rewrite fmap_insert).
  specialize (Hm _ _ _ Hl Hfl s1 Hs1). by destruct (m s1).
Qed.

Lemma calm_unlock {A} (g : L -> L) id ls l l' (m : M (kernel P L T) A) :
  ls !! id = Some l -> g l' = l -> calm ls ls m ->
  calm (<[id := l']> ls) ls (lock_mm (fun l => Some (g l)) id ;;; m).
Proof.
  intros Hl Hg Hm. eapply calm_bind; [|intros _; exact Hm]. intros s Hs.
  assert (locks s !! id = Some l') as E by by rewrite Hs, lookup_insert_eq.
  unfold locks in E. rewrite lookup_fmap in E. destruct (k_mms s !! id) as [mm|] eqn:Hmm; [|done].
  injection E as E. rewrite (lock_mm_run _ id mm) by done. rewrite E, Hg.
  unfold locks. cbn [k_mms with_mms]. rewrite fmap_insert. change (mmap_sem <$> k_mms s) with (locks s).
  rewrite Hs, insert_insert_eq. by apply insert_id.
Qed.

Create HintDb steady discriminated.
Hint Resolve steady_reader : steady.
Hint Extern 1 (steady (modify _)) => apply steady_modify; done : steady.
Hint Extern 1 (steady (when _ _)) => unfold when : steady.
Hint Extern 4 (steady (bind _ _)) => apply steady_bind; [|intros ?] : steady.
Hint Extern 5 (steady (match ?x with _ => _ end)) => destruct x : steady.
Hint Extern 1 (reader _) => solve [auto 20 with reader] : steady.
#[local] Hint Resolve reader_kload : reader.

Lemma steady_get_mm pid : steady (get_mm pid : M (kernel P L T) _).
Proof. apply steady_reader. intros s. by rewrite get_mm_run. Qed.

Lemma steady_on_each_cpu f cpus :
  (forall cpu, steady (f cpu)) -> steady (on_each_cpu f cpus : M (kernel P L T) _).
Proof. intros Hf. induction cpus as [|cpu cpus IH]; simpl; auto 20 with steady. Qed.
Hint Resolve steady_get_mm steady_on_each_cpu : steady.

Lemma steady_call_invalidate_tlb addr : steady (call_invalidate_tlb cfg addr : M (kernel P L T) _).
Proof.
  unfold call_invalidate_tlb, invalidate_tlb_kernel, invalidate_tlb_custom, invalidate_tlb_on,
    native_write_cr4, flush_tlb_page_smp.
  auto 30 with steady.
Qed.
Hint Resolve steady_call_invalidate_tlb : steady.

Lemma steady_resolve_vm addr e : steady (resolve_vm cfg addr e false : M (kernel P L T) _).
Proof.
  apply steady_reader. intros s. pose proof (resolve_vm_reads cfg addr e false s) as Hr.
  destruct (resolve_vm cfg addr e false s); [by destruct Hr|by destruct Hr as (_ & ? & _)|done].
Qed.

Lemma steady_update_levels old new : steady (update_levels cfg old new : M (kernel P L T) _).
Proof. unfold update_levels, update_level, store_entry. auto 40 with steady. Qed.
Hint Resolve steady_resolve_vm steady_update_levels : steady.

(** *** The requests that take a lock *)

Lemma balanced_resolve_vm addr e lock : balanced (resolve_vm cfg addr e lock : M (kernel P L T) _).
Proof.
  intros s. pose proof (resolve_vm_reads cfg addr e lock s) as Hr.
  destruct (resolve_vm cfg addr e lock s) as [r s'|s'|]; [by destruct Hr as [-> _]| |done].
  destruct Hr as (_ & _ & id & mm & _ & Hmm & Hd). exists id, (mmap_sem mm).
  unfold locks. rewrite lookup_fmap, Hmm. auto.
Qed.

Ltac calm_step :=
  lazymatch goal with
  | |- calm _ _ (bind (mmap_write_unlock _) _) => eapply calm_unlock; [done| |]
  | |- calm _ _ (bind (mmap_read_unlock _) _) => eapply calm_unlock; [done| |]
  | |- calm _ _ (bind _ _) => apply steady_calm; [|intros ?]
  end.

Lemma balanced_update_vm e lock : balanced (update_vm cfg e lock : M (kernel P L T) _).
Proof.
  unfold update_vm. apply balanced_after; [intros s; by rewrite get_mm_run|]. intros [id|].
  2: { apply balanced_steady. auto with steady. }
  destruct lock; cbn [when]; [|apply balanced_steady; auto 20 with steady].
  apply balanced_lock; [auto|]. intros ls l l' Hl Hw.
  repeat calm_step; [auto with steady..|by apply up_down_write|]. apply steady_reader. auto with reader.
Qed.

(** Writing the root of an address space leaves its lock. *)
Lemma calm_set_pgd {A} ls ls' id root (m : M (kernel P L T) A) : calm ls ls' m ->
  calm ls ls' (let* mms := gets k_mms in
    let* mm := defined (mms !! id) in
    modify (with_mms (<[id := mk_mm root (mmap_sem mm)]> mms)) ;;; m).
Proof.
  intros Hm s Hs. rewrite bind_gets. destruct (k_mms s !! id) as [mm|] eqn:Hmm; [|done].
  cbn [defined]. rewrite bind_ret_l, bind_modify. apply Hm. rewrite <- Hs. unfold locks.
  cbn [k_mms with_mms]. rewrite fmap_insert. cbn [mmap_sem]. apply insert_id.
  by rewrite lookup_fmap, Hmm.
Qed.

Lemma balanced_get_root p : balanced (ioctl_get_root cfg p : M (kernel P L T) _).
Proof.
  unfold ioctl_get_root. cbv zeta. apply balanced_after; [intros s; by rewrite get_mm_run|]. intros mm.
  apply balanced_after; [auto with reader|]. intros mms.
  destruct mm as [id|]; [|destruct (kc_arch cfg); apply balanced_steady; auto 20 with steady].
  apply balanced_after; [auto with reader|]. intros m.
  assert (balanced (let* locked := gets mm_is_locked in
    when (negb locked) (mmap_read_lock id) ;;;
    let* mms := gets k_mms in
    let* m := defined (mms !! id) in
    when (negb locked) (mmap_read_unlock id) ;;;
    ret (0, UPaging (mk_paging (pp_pid p) (virt_to_phys (mm_pgd m)))) : M (kernel P L T) (Z * ioctl_arg))).
  { apply balanced_after; [auto with reader|]. intros [|]; cbn [negb when].
    { apply balanced_steady. auto 20 with steady. }
    apply balanced_lock; [auto|]. intros ls l l' Hl Hr.
    repeat calm_step; [auto with steady..|by apply up_down_read|]. apply steady_reader. auto with reader. }
  destruct (kc_arch cfg); [done|]. destruct (mm_pgd m =? 0); [|done].
  apply balanced_steady. auto 20 with steady.
Qed.

Lemma balanced_set_root p : balanced (ioctl_set_root p : M (kernel P L T) _).
Proof.
  unfold ioctl_set_root. apply balanced_after; [intros s; by rewrite get_mm_run|].
  intros [id|]; [|apply balanced_steady; auto with steady].
  apply balanced_after; [auto with reader|]. intros [|]; cbn [negb when].
  - apply balanced_steady. intros ls. apply calm_set_pgd. apply steady_reader. auto with reader.
  - apply balanced_lock; [auto|]. intros ls l l' Hl Hw. apply calm_set_pgd.
    eapply calm_unlock; [done|by apply up_down_write|]. apply steady_reader. auto with reader.
Qed.

Lemma balanced_resolve e : balanced (ioctl_resolve cfg e : M (kernel P L T) _).
Proof.
  unfold ioctl_resolve. apply balanced_after; [auto with reader|]. intros locked.
  apply balanced_bind; [apply balanced_resolve_vm|]. intros r.
  unfold vm_to_user, copy_level. auto 30 with steady.
Qed.

Lemma steady_set_pat v : steady (set_pat cfg v : M (kernel P L T) _).
Proof. unfold set_pat, set_pat_on. auto 20 with steady. Qed.
Hint Resolve steady_set_pat : steady.

Lemma balanced_ioctl cmd arg : cmd <> VM_LOCK -> cmd <> VM_UNLOCK ->
  balanced (device_ioctl cfg cmd arg : M (kernel P L T) _).
Proof.
  intros Hl Hu.
  assert (forall e, balanced (let* locked := gets mm_is_locked in
    let* _ := update_vm cfg e (negb locked) in ret (0, UEntry e) : M (kernel P L T) (Z * ioctl_arg))).
  { intros e. apply balanced_after; [auto with reader|]. intros locked.
    apply balanced_bind; [apply balanced_update_vm|]. auto with steady. }
  destruct cmd; try done; destruct arg; cbn [device_ioctl];
    first [done|apply balanced_resolve|apply balanced_get_root|apply balanced_set_root|idtac];
    apply balanced_steady;
    unfold ioctl_read_page, ioctl_write_page, ioctl_switch_tlb, read_mts; cbv zeta; auto 30 with steady.
Qed.

Lemma ioctl_locks cmd arg s : mm_is_locked s = false ->
  match device_ioctl cfg cmd arg s with
  | Ret _ s' => locks s' = locks s
  | Sleep _ => contended (locks s) \/ cmd = VM_LOCK
  | Undef => True
  end.
Proof.
  intros Hlocked. destruct (decide (cmd = VM_LOCK)) as [->|Hl].
  { pose proof (vm_lock_never_returns cfg arg s) as Hn.
    destruct (device_ioctl cfg VM_LOCK arg s) as [r s'|s'|]; [by destruct (Hn r s' Hlocked)|auto|done]. }
  destruct (decide (cmd = VM_UNLOCK)) as [->|Hu].
  - cbn [device_ioctl]. unfold ioctl_unlock, active_mm, bind, gets, defined, ret.
    destruct (task_active_mm _); [|done]. by rewrite Hlocked.
  - pose proof (balanced_ioctl cmd arg Hl Hu s) as Hb. by destruct (device_ioctl cfg cmd arg s); auto.
Qed.
(** C22: every request to a module that is not in the locked state, on every
    architecture and kernel version, leaves the locks of all address spaces as
    it found them when it returns; it sleeps only for a lock that was held when it started,
    except the lock command, which also sleeps for the one it has taken itself. *)
Theorem requests_balanced cmd arg s : mm_is_locked s = false ->
  match device_ioctl cfg cmd arg s with
  | Ret _ s' => locks s' = locks s
  | Sleep _ => contended (locks s) \/ cmd = VM_LOCK
  | Undef => True
  end.
Proof. apply ioctl_locks. Qed.
End locks.

(** ** Termination *)

Section returns.
Context {P L T : Type} `{PhysMemLaws P} `{RwSemLaws L} `{!LinuxPT P} `{!LinuxX86 P} `{TlbLaws T}.
Variable cfg : kconfig.
Hypothesis x86 : kc_arch cfg = X86_64.
Hypothesis v4_11 : kc_v4_11 cfg = true.
Implicit Types s : kernel P L T.

Definition returns {A} (m : M (kernel P L T) A) s : Prop := exists a s', m s = Ret a s'.

Definition writable (m : P) (a : Z) : Prop := is_Some (store64 m a 0).

(** The tables that translate an address in the address space of a process:
    its entries can be read and written. *)
Definition walkable s (pid_ addr : Z) : Prop :=
  forall id mm, mm_of s pid_ = Some id -> k_mms s !! id = Some mm ->
    exists root, mm_pgd mm = phys_to_virt root /\ tables_ok s root addr /\
      forall l, Mmu.reached (memory s) root addr l = true -> writable (k_mem s) (mmu_slot s root addr l).

(** Nobody holds a lock, every process has an address space that exists, and
    the caller has one. *)
Record quiet s : Prop := {
  qt_locked : mm_is_locked s = false;
  qt_free id l : locks s !! id = Some l -> is_Some (down_read l) /\ is_Some (down_write l);
  qt_tasks pid_ id : mm_of s pid_ = Some id -> is_Some (k_mms s !! id);
  qt_current : can_invalidate s;
  qt_active : is_Some (task_active_mm (k_current s)) }.

(** What a request names exists: the tables of its address, the physical page,
    a buffer of the length of a page; and the memory types are ones the
    processor takes. *)
Definition request_ok s (cmd : ioctl_cmd) (arg : ioctl_arg) : Prop :=
  let n := Z.to_nat (real_page_size s) in
  let a p := virt_to_phys (phys_to_virt (wrap64 (pg_pfn p * real_page_size s))) in
  match cmd, arg with
  | VM_RESOLVE, UEntry e | VM_UPDATE, UEntry e => walkable s (pid e) (vaddr e)
  | READ_PAGE, UPage p => (n <= length (pg_buffer p))%nat /\ is_Some (pm_read (k_mem s) (a p) n)
  | WRITE_PAGE, UPage p => (n <= length (pg_buffer p))%nat /\
      is_Some (pm_write (k_mem s) (a p) (take n (pg_buffer p)))
  | GET_ROOT, UPaging _ | SET_ROOT, UPaging _ => True
  | SET_PAT, UValue v => u64 v /\ pat_ok v = true
  | INVALIDATE_TLB, UValue _ | SWITCH_TLB_INVALIDATION, UValue _ => True
  | GET_PAT, USize _ => True
  | VM_UNLOCK, _ | GET_PAGESIZE, _ | OTHER_CMD, _ => True
  | _, _ => False
  end.

Lemma free_lock s id mm : quiet s -> k_mms s !! id = Some mm ->
  is_Some (down_read (mmap_sem mm)) /\ is_Some (down_write (mmap_sem mm)).
Proof. intros Hq Hmm. apply (qt_free _ Hq id). unfold locks. by rewrite lookup_fmap, Hmm. Qed.

Lemma get_mm_exists s pid_ id : quiet s -> mm_of s pid_ = Some id -> exists mm, k_mms s !! id = Some mm.
Proof. intros Hq Hid. destruct (qt_tasks _ Hq _ _ Hid) as [mm Hmm]. by exists mm. Qed.

Lemma resolve_returns e s : quiet s -> walkable s (pid e) (vaddr e) ->
  returns (device_ioctl cfg VM_RESOLVE (UEntry e)) s.
Proof.
  intros Hq Hw. destruct (mm_of s (pid e)) as [id|] eqn:Hid.
  - destruct (get_mm_exists _ _ _ Hq Hid) as [mm Hmm]. destruct (Hw id mm Hid Hmm) as (root & Hpgd & Hok & _).
    destruct (free_lock _ _ _ Hq Hmm) as [[l Hl] _].
    pose proof (qt_locked _ Hq). do 2 eexists. by apply (ioctl_resolve_x86 cfg x86 v4_11 root (vaddr e) e id mm l).
  - cbn [device_ioctl]. unfold ioctl_resolve. do 2 eexists.
    rewrite bind_gets. unfold resolve_vm. rewrite bind_assoc, (bind_Ret _ _ _ _ _ (get_mm_run _ _)).
    cbn [vm_reset vm_pid]. rewrite Hid, bind_ret_l. unfold vm_to_user. by rewrite v4_11.
Qed.

(** *** The update *)

Definition writable_ptrs s (e : vm_t) : Prop :=
  forall l p, vm_ptr l e = Some p -> writable (k_mem s) (virt_to_phys p).

Lemma update_level_returns l old new v s : vm_wf old -> writable_ptrs s old ->
  exists m, update_level l (level_mask l) old (vm_ptr l old) new v s = Ret tt (with_mem m s) /\
    writable_ptrs (with_mem m s) old.
Proof.
  intros [_ Hwf] Hp. unfold update_level. rewrite (Hwf l).
  assert (with_mem (k_mem s) s = s) as Hid by by destruct s.
  destruct (bool_decide (is_Some (vm_ptr l old))) eqn:Hb; cbn [andb when];
    [|exists (k_mem s); by rewrite Hid].
  apply bool_decide_eq_true in Hb as [p Hptr]. rewrite Hptr.
  destruct (has (valid new) (level_mask l)); cbn [when]; [|exists (k_mem s); by rewrite Hid].
  destruct (store64_any _ _ 0 v (Hp l p Hptr)) as [m Hm]. exists m. split.
  - unfold store_entry. cbn [defined]. rewrite bind_ret_l, bind_gets, set_pxd_x86, Hm. done.
  - intros l' p' Hl'. cbn [k_mem with_mem]. apply (store64_writable _ _ _ _ _ 0 0 Hm). by apply (Hp l').
Qed.

Lemma update_levels_returns old new s : vm_wf old -> writable_ptrs s old ->
  exists m, update_levels cfg old new s = Ret tt (with_mem m s).
Proof.
  intros Hwf Hp. unfold update_levels. rewrite v4_11. cbn [when].
  destruct (update_level_returns PGD old new (pgd new) s Hwf Hp) as (m1 & H1' & Hp1).
  destruct (update_level_returns P4D old new (p4d new) _ Hwf Hp1) as (m2 & H2' & Hp2).
  destruct (update_level_returns PUD old new (pud new) _ Hwf Hp2) as (m3 & H3' & Hp3).
  destruct (update_level_returns PMD old new (pmd new) _ Hwf Hp3) as (m4 & H4' & Hp4).
  destruct (update_level_returns PTE old new (pte new) _ Hwf Hp4) as (m5 & H5' & _).
  exists m5. cbn [level_mask vm_ptr] in *.
  by rewrite (bind_Ret _ _ _ _ _ H1'), (bind_Ret _ _ _ _ _ H2'), (bind_Ret _ _ _ _ _ H3'),
    (bind_Ret _ _ _ _ _ H4').
Qed.
(** The pointers the resolver returns are slots it reached. *)
Lemma kernel_result_ptrs s root addr pid_ l p :
  vm_ptr l (snd (kernel_result s root addr pid_)) = Some p ->
  exists l', p = phys_to_virt (mmu_slot s root addr l') /\ Mmu.reached (memory s) root addr l' = true.
Proof.
  unfold kernel_result, Mmu.reached, ptr.
  destruct (Z.testbit (mmu_entry (memory s) root addr PGD) 0) eqn:Eg,
    (Z.testbit (mmu_entry (memory s) root addr PUD) 0) eqn:Eu,
    (Z.testbit (mmu_entry (memory s) root addr PMD) 0) eqn:Em,
    (Z.testbit (mmu_entry (memory s) root addr PMD) 7) eqn:El;
    destruct l; cbn [negb snd vm_ptr vm_pgd vm_p4d vm_pud vm_pmd vm_pte]; intros [= <-];
    first [by exists PGD|by exists PUD|by exists PMD|by exists PTE].
Qed.

Lemma update_vm_returns e s : quiet s -> walkable s (pid e) (vaddr e) ->
  returns (update_vm cfg e true) s.
Proof.
  intros Hq Hw. unfold returns, update_vm. rewrite (bind_Ret _ _ _ _ _ (get_mm_run _ _)).
  destruct (mm_of s (pid e)) as [id|] eqn:Hid; [|by do 2 eexists].
  destruct (get_mm_exists _ _ _ Hq Hid) as [mm Hmm]. destruct (Hw id mm Hid Hmm) as (root & Hpgd & Hok & Hwr).
  destruct (free_lock _ _ _ Hq Hmm) as [_ [l Hl]]. cbn [when]. unfold mmap_write_lock.
  erewrite bind_Ret by (erewrite lock_mm_run by done; by rewrite Hl).
  set (s1 := with_mms (<[id := mk_mm (mm_pgd mm) l]> (k_mms s)) s).
  set (r := kernel_result s1 root (vaddr e) (pid e)).
  assert (Hres : resolve_levels cfg id (vaddr e) (mk_vm (pid e) None None None None None 0) s1 = Ret r s1).
  { apply (resolve_levels_x86 cfg x86 v4_11 s1 root (vaddr e) id (mk_mm (mm_pgd mm) l));
      [by apply (tables_ok_mem root (vaddr e) s)|apply lookup_insert_eq|done]. }
  assert (Hvm : resolve_vm cfg (vaddr e) (mk_vm (pid e) None None None None None 0) false s1 = Ret r s1).
  { unfold resolve_vm. cbn [vm_reset vm_pid]. rewrite (bind_Ret _ _ _ _ _ (get_mm_run _ _)).
    change (mm_of s1 (pid e)) with (mm_of s (pid e)). rewrite Hid. cbn [when].
    rewrite bind_ret_l, (bind_Ret _ _ _ _ _ Hres). done. }
  rewrite (bind_Ret _ _ _ _ _ Hvm).
  destruct (update_levels_returns (snd r) e s1) as [m Hm].
  { pose proof (resolve_vm_reads cfg (vaddr e) (mk_vm (pid e) None None None None None 0) false s1) as Hr.
    rewrite Hvm in Hr. apply Hr. }
  { intros lv p Hp. destruct (kernel_result_ptrs _ _ _ _ _ _ Hp) as (lv' & -> & Hre).
    rewrite virt_of_phys. by apply (Hwr lv'). }
  rewrite (bind_Ret _ _ _ _ _ Hm).
  destruct (invalidate_returns cfg x86 (vaddr e) (with_mem m s1) (qt_current _ Hq)) as (s2 & Hs2 & t & c & ->).
  rewrite (bind_Ret _ _ _ _ _ Hs2). unfold mmap_write_unlock.
  erewrite bind_Ret by (by erewrite lock_mm_run by apply lookup_insert_eq).
  by do 2 eexists.
Qed.

Lemma get_root_returns p s : quiet s -> returns (device_ioctl cfg GET_ROOT (UPaging p)) s.
Proof.
  intros Hq. destruct p as [pid_ x]. destruct (mm_of s pid_) as [id|] eqn:Hid.
  - destruct (get_mm_exists _ _ _ Hq Hid) as [mm Hmm]. destruct (free_lock _ _ _ Hq Hmm) as [[l Hl] _].
    do 2 eexists. exact (get_root_run cfg pid_ x id mm l s x86 (qt_locked _ Hq) Hid Hmm Hl).
  - do 2 eexists. cbn [device_ioctl]. unfold ioctl_get_root.
    rewrite (bind_Ret _ _ _ _ _ (get_mm_run _ _)). cbn [pp_pid]. by rewrite Hid, bind_gets, x86.
Qed.

Lemma set_root_returns p s : quiet s -> returns (device_ioctl cfg SET_ROOT (UPaging p)) s.
Proof.
  intros Hq. destruct p as [pid_ x]. destruct (mm_of s pid_) as [id|] eqn:Hid.
  - destruct (get_mm_exists _ _ _ Hq Hid) as [mm Hmm]. destruct (free_lock _ _ _ Hq Hmm) as [_ [l Hl]].
    do 2 eexists. exact (set_root_run cfg pid_ x id mm l s (qt_locked _ Hq) Hid Hmm Hl).
  - do 2 eexists. cbn [device_ioctl]. unfold ioctl_set_root.
    rewrite (bind_Ret _ _ _ _ _ (get_mm_run _ _)). cbn [pp_pid]. by rewrite Hid.
Qed.

Lemma set_pat_returns v s : u64 v -> pat_ok v = true ->
  returns (device_ioctl cfg SET_PAT (UValue v)) s.
Proof.
  intros Hu Hv. assert (accepted cfg v = true) as Ha by (unfold accepted; by rewrite x86).
  destruct (set_pat_run cfg v s Hu Ha) as (m & Hm & _). by do 2 eexists.
Qed.

Lemma unlock_returns arg s : quiet s -> returns (device_ioctl cfg VM_UNLOCK arg) s.
Proof.
  intros Hq. destruct (qt_active _ Hq) as [id Hid]. do 2 eexists. cbn [device_ioctl].
  unfold ioctl_unlock, active_mm. rewrite bind_assoc, bind_gets, Hid. cbn [defined].
  by rewrite bind_ret_l, bind_gets, (qt_locked _ Hq).
Qed.

Lemma read_page_returns p s : request_ok s READ_PAGE (UPage p) ->
  returns (device_ioctl cfg READ_PAGE (UPage p)) s.
Proof.
  intros [Hl [bs Hbs]]. do 2 eexists. cbn [device_ioctl]. unfold ioctl_read_page.
  rewrite !bind_gets, Hbs. cbn [defined]. rewrite bind_ret_l.
  destruct (Nat.ltb_spec (length (pg_buffer p)) (Z.to_nat (real_page_size s))); [lia|done].
Qed.

Lemma write_page_returns p s : request_ok s WRITE_PAGE (UPage p) ->
  returns (device_ioctl cfg WRITE_PAGE (UPage p)) s.
Proof.
  intros [Hl [m Hm]]. do 2 eexists. cbn [device_ioctl]. unfold ioctl_write_page.
  rewrite !bind_gets, Hm.
  destruct (Nat.ltb_spec (length (pg_buffer p)) (Z.to_nat (real_page_size s))); [lia|done].
Qed.

Lemma update_returns e s : quiet s -> walkable s (pid e) (vaddr e) ->
  returns (device_ioctl cfg VM_UPDATE (UEntry e)) s.
Proof.
  intros Hq Hok. destruct (update_vm_returns e s Hq Hok) as (r & s' & Hrun). do 2 eexists.
  cbn [device_ioctl]. rewrite bind_gets, (qt_locked _ Hq). by rewrite (bind_Ret _ _ _ _ _ Hrun).
Qed.

Lemma invalidate_request_returns v s : quiet s -> returns (device_ioctl cfg INVALIDATE_TLB (UValue v)) s.
Proof.
  intros Hq. destruct (invalidate_returns cfg x86 v s (qt_current _ Hq)) as (s' & Hs' & _).
  do 2 eexists. cbn [device_ioctl]. by rewrite (bind_Ret _ _ _ _ _ Hs').
Qed.

Lemma get_pat_returns v s : returns (device_ioctl cfg GET_PAT (USize v)) s.
Proof. do 2 eexists. cbn [device_ioctl]. unfold read_mts. by rewrite x86. Qed.

Lemma switch_returns v s : returns (device_ioctl cfg SWITCH_TLB_INVALIDATION (UValue v)) s.
Proof. unfold returns. rewrite switch_tlb_invalidation. repeat case_match; by do 2 eexists. Qed.

Lemma request_returns cmd arg s : quiet s -> request_ok s cmd arg -> returns (device_ioctl cfg cmd arg) s.
Proof.
  intros Hq Hok. destruct cmd; try by apply unlock_returns.
  all: destruct arg; try (by destruct Hok); try (by do 2 eexists).
  - by apply resolve_returns.
  - by apply update_returns.
  - by apply read_page_returns.
  - by apply write_page_returns.
  - by apply get_root_returns.
  - by apply set_root_returns.
  - by apply invalidate_request_returns.
  - by apply get_pat_returns.
  - destruct Hok. by apply set_pat_returns.
  - by apply switch_returns.
Qed.

(** C21: on x86-64, when no lock of an address space is held and what the
    request names exists, every request to the device but the lock command
    returns, the one that programs the memory types for the values the
    processor takes; the locks of all address spaces are then as before, so that
    the next request can return as well. *)
Theorem requests_return cmd arg s : quiet s -> request_ok s cmd arg ->
  exists r s', device_ioctl cfg cmd arg s = Ret r s' /\ locks s' = locks s.
Proof.
  intros Hq Hok. destruct (request_returns cmd arg s Hq Hok) as (r & s' & Hrun).
  exists r, s'. split; [done|]. pose proof (ioctl_locks cfg cmd arg s (qt_locked _ Hq)) as Hl.
  by rewrite Hrun in Hl.
Qed.
End returns.

(** ** On the concrete machine *)

Lemma machine_quiet : quiet machine.
Proof.
  split.
  - reflexivity.
  - intros id l Hl. assert (l = unlocked) as ->; [|by split; eexists].
    unfold locks in Hl. rewrite lookup_fmap in Hl. apply fmap_Some in Hl as (mm & Hmm & ->).
    cbn [k_mms machine] in Hmm. apply lookup_insert_Some in Hmm as [[_ <-]|[_ Hmm]]; [done|].
    by apply lookup_singleton_Some in Hmm as [_ <-].
  - intros pid_ id Hid. assert (id = 1 \/ id = 2) as [-> | ->]; [|by eexists|by eexists].
    unfold mm_of, task_of in Hid. destruct (pid_ =? 0); [injection Hid as <-; auto|].
    cbn [k_vpids machine] in Hid. destruct (_ !! to_int pid_) as [o|] eqn:E; [|done].
    apply lookup_insert_Some in E as [[_ <-]|[_ E]]; [injection Hid as <-; auto|].
    apply lookup_singleton_Some in E as [_ <-]. injection Hid as <-. auto.
  - right. by eexists.
  - by eexists.
Qed.

Definition request : ptedit_entry_t := mk_entry 0 0x40201234 0 0 0 0 0x6067 16.

Lemma machine_request_ok : request_ok machine VM_UPDATE (UEntry request).
Proof.
  intros id mm [= <-] [= <-]. exists 0x1000. split; [done|]. split; [apply machine_tables_ok|].
  intros l _. apply ram_writable. destruct l; vm_compute; reflexivity.
Qed.

Lemma requests_balanced_witness :
  mm_is_locked machine = false /\
  match device_ioctl x86_cfg VM_UPDATE (UEntry request) machine with
  | Ret _ s' => locks s' = locks machine
  | Sleep _ => contended (locks machine) \/ VM_UPDATE = VM_LOCK
  | Undef => True
  end.
Proof. split; [reflexivity|]. by apply (requests_balanced x86_cfg). Defined.

Lemma requests_return_witness :
  exists r s', device_ioctl x86_cfg VM_UPDATE (UEntry request) machine = Ret r s' /\
    locks s' = locks machine.
Proof.
  apply (requests_return x86_cfg eq_refl eq_refl).
  - apply machine_quiet.
  - apply machine_request_ok.
Defined.
