(* ===== verification/Threads.v ===== *)
(** * Requests of several threads

    The process that has the device open may have several threads, and the
    descriptor may be shared with its children, so that the handler of the
    module runs several times at once.  This file has what that takes: a
    program as the tree of its actions, each of which happens at once; the
    threads that run programs on one kernel, which take turns between actions;
    and what holds of all programs that use the locks of the address spaces
    properly: they exclude each other, nobody waits for ever, and every
    execution ends. *)

From Stdlib Require Wellfounded.
From stdpp Require Import base tactics numbers list gmap relations.
From S2P Require Import Prelude Entry PhysMem Linux Kernel KernelProps Requests.
Local Open Scope Z_scope.

(** ** Programs *)

Section prog.
Context {P L T : Type}.

(** [Act m k] does [m], to which no other thread is a witness, and goes on with
    its result; [Acquire w mm k] and [Release w mm k] take and release the lock
    of [mm], for writing when [w] is true. *)
Inductive prog (A : Type) : Type :=
| Done (a : A)
| Act (X : Type) (m : M (kernel P L T) X) (k : X -> prog A)
| Acquire (w : bool) (mm : Z) (k : prog A)
| Release (w : bool) (mm : Z) (k : prog A).

End prog.
Arguments prog P L T A : clear implicits.
Arguments Done {P L T A} a.
Arguments Act {P L T A X} m k.
Arguments Acquire {P L T A} w mm k.
Arguments Release {P L T A} w mm k.

Section programs.
Context {P L T : Type} `{RwSem L}.
Implicit Types s : kernel P L T.

Fixpoint pbind {A B} (p : prog P L T A) (k : A -> prog P L T B) : prog P L T B :=
  match p with
  | Done a => k a
  | Act m f => Act m (fun x => pbind (f x) k)
  | Acquire w mm p => Acquire w mm (pbind p k)
  | Release w mm p => Release w mm (pbind p k)
  end.

Definition act {X} (m : M (kernel P L T) X) : prog P L T X := Act m Done.
Definition acquire (w : bool) (mm : Z) : prog P L T unit := Acquire w mm (Done tt).
Definition release (w : bool) (mm : Z) : prog P L T unit := Release w mm (Done tt).
Definition pwhen (c : bool) (p : prog P L T unit) : prog P L T unit := if c then p else Done tt.

Definition acquire_mm (w : bool) : Z -> M (kernel P L T) unit :=
  if w then mmap_write_lock else mmap_read_lock.
Definition release_mm (w : bool) : Z -> M (kernel P L T) unit :=
  if w then mmap_write_unlock else mmap_read_unlock.

(** A program that no other thread interrupts. *)
Fixpoint run {A} (p : prog P L T A) : M (kernel P L T) A :=
  match p with
  | Done a => ret a
  | Act m k => let* x := m in run (k x)
  | Acquire w mm k => acquire_mm w mm ;;; run k
  | Release w mm k => release_mm w mm ;;; run k
  end.
End programs.

Declare Scope prog_scope.
Notation "'let!' x := p 'in' k" := (pbind p (fun x => k))
  (at level 10, x binder, p at level 100, k at level 200) : prog_scope.
Notation "p ;>> k" := (pbind p (fun _ => k)) (at level 199, right associativity) : prog_scope.

(** *** The computation a program does when it is not interrupted *)

Section implements.
Context {P L T : Type} `{RwSem L}.
Implicit Types s : kernel P L T.

Definition implements {A} (p : prog P L T A) (m : M (kernel P L T) A) : Prop :=
  forall s, run p s = m s.

Lemma run_pbind {A B} (p : prog P L T A) (k : A -> prog P L T B) s :
  run (pbind p k) s = bind (run p) (fun a => run (k a)) s.
Proof.
  revert s. induction p as [a|X m f IH|w mm p IH|w mm p IH]; intros s; [done|..]; cbn [run pbind];
    rewrite bind_assoc; unfold bind at 1 2.
  - destruct (m s); [apply IH|done..].
  - destruct (acquire_mm w mm s); [apply IH|done..].
  - destruct (release_mm w mm s); [apply IH|done..].
Qed.

Lemma implements_done {A} (a : A) : implements (Done a) (ret a).
Proof. done. Qed.

Lemma implements_act {X} (m : M (kernel P L T) X) : implements (act m) m.
Proof. intros s. cbn. unfold bind, ret. by destruct (m s). Qed.

Lemma implements_acquire w mm : implements (acquire w mm) (acquire_mm w mm).
Proof. intros s. cbn. unfold bind, ret. by destruct (acquire_mm w mm s) as [[] ?|?|]. Qed.

Lemma implements_release w mm : implements (release w mm) (release_mm w mm).
Proof. intros s. cbn. unfold bind, ret. by destruct (release_mm w mm s) as [[] ?|?|]. Qed.

Lemma implements_bind {A B} (p : prog P L T A) (k : A -> prog P L T B) m n :
  implements p m -> (forall a, implements (k a) (n a)) -> implements (pbind p k) (bind m n).
Proof. intros Hp Hk s. rewrite run_pbind. unfold bind. rewrite Hp. destruct (m s); [apply Hk|done..]. Qed.

Lemma implements_when c (p : prog P L T unit) m : implements p m -> implements (pwhen c p) (when c m).
Proof. by destruct c. Qed.
End implements.

Create HintDb implements discriminated.
#[export] Hint Resolve implements_done implements_act implements_acquire implements_release
  implements_when : implements.
#[export] Hint Extern 4 (implements (pbind _ _) (bind _ _)) => apply implements_bind; [|intros ?] : implements.
#[export] Hint Extern 5 (implements (match ?x with _ => _ end) _) => destruct x : implements.

(** ** Threads *)

(** What the kernel knows of the thread that runs: [current], its pid and its
    processor. *)
Record context := mk_context { cx_task : task_struct; cx_pid : Z; cx_cpu : Z }.

(** A thread with the locks it holds and what is left of its program. *)
Record thread (P L T A : Type) := mk_thread {
  th_context : context;
  th_held : list (bool * Z);
  th_prog : prog P L T A }.
Arguments mk_thread {P L T A} th_context th_held th_prog.
Arguments th_context {P L T A} t.
Arguments th_held {P L T A} t.
Arguments th_prog {P L T A} t.

Record config (P L T A : Type) := mk_config {
  cf_threads : list (thread P L T A);
  cf_kernel : kernel P L T }.
Arguments mk_config {P L T A} cf_threads cf_kernel.
Arguments cf_threads {P L T A} c.
Arguments cf_kernel {P L T A} c.

Section threads.
Context {P L T : Type} `{RwSem L}.
Implicit Types s : kernel P L T.

Definition switch_to (c : context) s : kernel P L T :=
  mk_kernel (k_mem s) (k_tlb s) (cx_task c) (cx_pid c) (k_vpids s) (k_mms s) (cx_cpu c)
    (k_cr4 s) (k_mts s) (k_ttbr0 s) (device_busy s) (mm_is_locked s) (invalidate_tlb s)
    (real_page_size s) (real_page_shift s).

Fixpoint drop_lock (x : bool * Z) (held : list (bool * Z)) : list (bool * Z) :=
  match held with
  | [] => []
  | y :: held => if decide (x = y) then held else y :: drop_lock x held
  end.

(** The next action of a thread; [None] when its program has ended. *)
Definition next {A} (t : thread P L T A) : option (M (kernel P L T) (thread P L T A)) :=
  let go held p := mk_thread (th_context t) held p in
  match th_prog t with
  | Done _ => None
  | Act m k => Some (let* x := m in ret (go (th_held t) (k x)))
  | Acquire w mm k => Some (acquire_mm w mm ;;; ret (go ((w, mm) :: th_held t) k))
  | Release w mm k => Some (release_mm w mm ;;; ret (go (drop_lock (w, mm) (th_held t)) k))
  end.

(** The threads take turns: any one that can does its next action.  A thread
    that waits for a lock cannot. *)
Inductive cstep {A} : config P L T A -> config P L T A -> Prop :=
| cstep_thread i t m t' ts s s' :
    ts !! i = Some t -> next t = Some m -> m (switch_to (th_context t) s) = Ret t' s' ->
    cstep (mk_config ts s) (mk_config (<[i := t']> ts) s').

(** A thread's next action has no defined behaviour. *)
Definition faults {A} (c : config P L T A) : Prop :=
  exists i t m, cf_threads c !! i = Some t /\ next t = Some m /\
    m (switch_to (th_context t) (cf_kernel c)) = Undef.

Definition finished {A} (t : thread P L T A) : Prop := exists a, th_prog t = Done a.

(** The execution in which the threads take their turns in a given order. *)
Fixpoint play {A} (order : list nat) (c : config P L T A) : option (config P L T A) :=
  match order with
  | [] => Some c
  | i :: order =>
      t ← cf_threads c !! i;
      m ← next t;
      match m (switch_to (th_context t) (cf_kernel c)) with
      | Ret t' s' => play order (mk_config (<[i := t']> (cf_threads c)) s')
      | _ => None
      end
  end.

Lemma play_steps {A} order (c c' : config P L T A) : play order c = Some c' -> rtc cstep c c'.
Proof.
  revert c. induction order as [|i order IH]; intros [ts s] Hp; cbn [play] in Hp; [by simplify_eq|].
  cbn [cf_threads cf_kernel] in Hp. destruct (ts !! i) as [t|] eqn:Ht; [|done]. cbn [mbind option_bind] in Hp.
  destruct (next t) as [m|] eqn:Hn; [|done]. cbn [mbind option_bind] in Hp.
  destruct (m _) as [t' s'| |] eqn:Hm; [|done..]. eapply rtc_l; [by econstructor|]. by apply IH.
Qed.

Definition plays {A} (order : list nat) (c : config P L T A) : bool :=
  match play order c with Some _ => true | None => false end.

Lemma plays_Some {A} order (c : config P L T A) : plays order c = true -> exists c', play order c = Some c'.
Proof. unfold plays. destruct (play order c) as [c'|]; [by exists c'|done]. Qed.

(** What the threads return, when all have ended. *)
Definition outcome_of {A} (t : thread P L T A) : option A :=
  match th_prog t with Done a => Some a | _ => None end.
Definition outcomes {A} (c : config P L T A) : option (list A) := mapM outcome_of (cf_threads c).

Lemma outcomes_finished {A} (c : config P L T A) rs : outcomes c = Some rs ->
  Forall finished (cf_threads c) /\
  forall i t, cf_threads c !! i = Some t -> exists r, rs !! i = Some r /\ th_prog t = Done r.
Proof.
  intros Ho%mapM_Some. split.
  - induction Ho as [|t r ts rs Ht _ IH]; constructor; [|done].
    unfold outcome_of in Ht. destruct (th_prog t) as [a| | |] eqn:E; [by exists a|done..].
  - intros i t Ht. destruct (Forall2_lookup_l _ _ _ _ _ Ho Ht) as (r & Hr & Hp). exists r. split; [done|].
    unfold outcome_of in Hp. destruct (th_prog t); [by simplify_eq|done..].
Qed.

Definition plays_out {A} (order : list nat) (c : config P L T A) : bool :=
  match play order c ≫= outcomes with Some _ => true | None => false end.

Lemma plays_out_finished {A} order (c : config P L T A) : plays_out order c = true ->
  exists c', play order c = Some c' /\ Forall finished (cf_threads c').
Proof.
  unfold plays_out. destruct (play order c) as [c'|]; [|done]. cbn [mbind option_bind].
  destruct (outcomes c') as [rs|] eqn:Ho; [|done]. intros _. exists c'. split; [done|].
  by destruct (outcomes_finished _ _ Ho).
Qed.

Lemma play_outcomes {A} order (c : config P L T A) rs : (c' ← play order c; outcomes c') = Some rs ->
  exists c', rtc cstep c c' /\ outcomes c' = Some rs.
Proof.
  intros (c' & Hp & Ho)%bind_Some. exists c'. split; [by eapply play_steps|done].
Qed.

(** ** Every execution ends *)

(** One element of a list becomes smaller. *)
Definition one_smaller {X} (R : X -> X -> Prop) (l' l : list X) : Prop :=
  exists i x x', l !! i = Some x /\ R x' x /\ l' = <[i := x']> l.

Lemma one_smaller_wf {X} (R : X -> X -> Prop) l : Forall (Acc R) l -> Acc (one_smaller R) l.
Proof.
  intros Hl. induction Hl as [|x l Hx _ Hl]; [by constructor; intros ? (? & ? & ? & ? & _)|].
  revert l Hl. induction Hx as [x _ IHx]. intros l Hl. induction Hl as [l Hl IHl].
  constructor. intros l' ([|i] & y & y' & Hy & HR & ->); simplify_eq/=.
  - apply IHx; [done|]. by constructor.
  - apply IHl. by exists i, y, y'.
Qed.

(** What is left of a program after one action. *)
Definition rest {A} (q p : prog P L T A) : Prop :=
  match p with
  | Done _ => False
  | Act _ k => exists x, q = k x
  | Acquire _ _ k | Release _ _ k => q = k
  end.

Lemma rest_wf {A} (p : prog P L T A) : Acc rest p.
Proof.
  induction p as [a|X m k IH|w mm k IH|w mm k IH]; constructor; intros q Hq; cbn [rest] in Hq.
  - destruct Hq.
  - destruct Hq as [x ->]. apply IH.
  - rewrite Hq. exact IH.
  - rewrite Hq. exact IH.
Qed.

Definition thread_rest {A} (t' t : thread P L T A) : Prop := rest (th_prog t') (th_prog t).

Lemma next_rest {A} (t t' : thread P L T A) m s s' :
  next t = Some m -> m s = Ret t' s' -> thread_rest t' t.
Proof.
  destruct t as [c held p]. unfold next, thread_rest. cbn [th_prog th_held th_context].
  intros Hn Hm. destruct p as [a|X n k|w mm k|w mm k]; [done|..]; injection Hn as <-;
    apply bind_Ret_inv in Hm as (? & ? & _ & [= <- <-]); cbn; eauto.
Qed.

Lemma cstep_wf {A} (c : config P L T A) : Acc (flip cstep) c.
Proof.
  destruct c as [ts s]. assert (Acc (one_smaller thread_rest) ts) as Hts.
  { apply one_smaller_wf, Forall_true. intros t. apply (Wellfounded.Inverse_Image.Acc_inverse_image _ _ rest th_prog), rest_wf. }
  revert s. induction Hts as [ts _ IH]. intros s. constructor. intros c Hc. unfold flip in Hc.
  inversion Hc; simplify_eq. apply IH. eexists _, _, _. split_and!; [done| |done].
  by eapply next_rest.
Qed.
End threads.

(** ** Programs that use locks properly *)

Section discipline.
Context {P L T : Type} `{RwSem L}.
Implicit Types s : kernel P L T.

(** What an action on data leaves alone: the running thread, the processes,
    the lock commands' flag and the locks.  It does not wait. *)
Definition frame s : task_struct * Z * Z * gmap Z (option task_struct) * bool * gmap Z L :=
  (k_current s, k_current_pid s, k_cpu s, k_vpids s, mm_is_locked s, locks s).
Definition harmless {X} (m : M (kernel P L T) X) : Prop :=
  forall s, match m s with Ret _ s' => frame s' = frame s | Sleep _ => False | Undef => True end.

(** While the module is not in the locked state, a program takes one lock at a
    time, releases it, and holds none when it ends; [held] are the locks it
    holds now. *)
Fixpoint disciplined {A} (held : list (bool * Z)) (p : prog P L T A) : Prop :=
  match p with
  | Done _ => held = []
  | Act m k => harmless m /\
      forall s x s', mm_is_locked s = false -> m s = Ret x s' -> disciplined held (k x)
  | Acquire w mm k => held = [] /\ disciplined [(w, mm)] k
  | Release w mm k => held = [(w, mm)] /\ disciplined [] k
  end.

(** A part of a program that takes and releases no lock. *)
Fixpoint lockless {A} (p : prog P L T A) : Prop :=
  match p with
  | Done _ => True
  | Act m k => harmless m /\ forall x, lockless (k x)
  | Acquire _ _ _ | Release _ _ _ => False
  end.

Lemma harmless_reader {X} (m : M (kernel P L T) X) : reader m -> harmless m.
Proof. intros Hm s. specialize (Hm s). by destruct (m s) as [? ?|?|]; simplify_eq. Qed.

Lemma harmless_modify f : (forall s, frame (f s) = frame s) -> harmless (modify f).
Proof. intros Hf s. apply Hf. Qed.

Lemma harmless_bind {X Y} (m : M (kernel P L T) X) (k : X -> M (kernel P L T) Y) :
  harmless m -> (forall x, harmless (k x)) -> harmless (bind m k).
Proof.
  intros Hm Hk s. unfold bind. specialize (Hm s). destruct (m s) as [x s'| |]; [|done..].
  specialize (Hk x s'). destruct (k x s'); [congruence|done..].
Qed.

Lemma lockless_done {A} (a : A) : lockless (Done a : prog P L T A).
Proof. done. Qed.

Lemma lockless_act {X} (m : M (kernel P L T) X) : harmless m -> lockless (act m).
Proof. done. Qed.

Lemma lockless_when c (p : prog P L T unit) : lockless p -> lockless (pwhen c p).
Proof. by destruct c. Qed.

Lemma lockless_pbind {A B} (p : prog P L T A) (k : A -> prog P L T B) :
  lockless p -> (forall a, lockless (k a)) -> lockless (pbind p k).
Proof.
  intros Hp Hk. induction p as [a|X m f IH|w mm p _|w mm p _]; cbn in *;
    [apply Hk|destruct Hp; auto|done..].
Qed.

Lemma disciplined_pbind {A B} held (p : prog P L T A) (k : A -> prog P L T B) :
  lockless p -> (forall a, disciplined held (k a)) -> disciplined held (pbind p k).
Proof.
  intros Hp Hk. induction p as [a|X m f IH|w mm p _|w mm p _]; cbn in *;
    [apply Hk|destruct Hp; auto|done..].
Qed.

Lemma disciplined_lockless {A} (p : prog P L T A) : lockless p -> disciplined [] p.
Proof. induction p as [a|X m k IH|w mm p _|w mm p _]; cbn; [done|intros [? ?]; eauto|done..]. Qed.

Lemma disciplined_then {A B} held (p : prog P L T A) (k : A -> prog P L T B) :
  disciplined held p -> (forall a, disciplined [] (k a)) -> disciplined held (pbind p k).
Proof.
  intros Hp Hk. revert held Hp. induction p as [a|X m f IH|w mm p IH|w mm p IH]; intros held Hp; cbn in *.
  - subst. apply Hk.
  - destruct Hp; eauto.
  - destruct Hp; auto.
  - destruct Hp; auto.
Qed.

(** The flag of the lock commands reads as false. *)
Lemma disciplined_flag {A} held (k : bool -> prog P L T A) :
  disciplined held (k false) -> disciplined held (pbind (act (gets mm_is_locked)) k).
Proof.
  intros Hk. split; [by apply harmless_reader, reader_gets|]. intros s x s' Hs [= <- _]. by rewrite Hs.
Qed.

Lemma disciplined_section {A B} w mm (p : prog P L T A) (k : A -> prog P L T B) :
  lockless p -> (forall a, lockless (k a)) ->
  disciplined [] (pbind (acquire w mm) (fun _ => pbind p (fun a => pbind (release w mm) (fun _ => k a)))).
Proof.
  intros Hp Hk. split; [done|]. cbn [pbind]. apply disciplined_pbind; [done|]. intros a.
  split; [done|]. cbn [pbind].
  by apply disciplined_lockless.
Qed.
End discipline.
