(* ===== verification/Exclusion.v ===== *)
(** * Threads that use locks properly

    Of threads whose programs are [Threads.disciplined]: in every state they
    reach, each lock counts exactly the threads that hold it, a writer excludes
    everybody else, and some thread can go on until all have ended. *)

From stdpp Require Import base tactics numbers list gmap relations.
From S2P Require Import Prelude Entry PhysMem Linux Kernel KernelProps Requests Threads.
Local Open Scope nat_scope.

(** ** Counting *)

Section counting.
Context {X : Type} (f : X -> nat).

Fixpoint total (l : list X) : nat := match l with [] => 0 | x :: l => f x + total l end.

Lemma total_insert i x y l : l !! i = Some x -> total (<[i := y]> l) + f x = total l + f y.
Proof.
  revert i. induction l as [|z l IH]; intros [|i] Hi; simplify_eq/=; [lia|]. specialize (IH i Hi). lia.
Qed.

Lemma total_lookup i x l : l !! i = Some x -> f x <= total l.
Proof.
  revert i. induction l as [|z l IH]; intros [|i] Hi; simplify_eq/=; [lia|]. specialize (IH i Hi). lia.
Qed.

Lemma total_two i j x y l : i <> j -> l !! i = Some x -> l !! j = Some y -> f x + f y <= total l.
Proof.
  revert i j. induction l as [|z l IH]; intros [|i] [|j] Hne Hi Hj; simplify_eq/=; try done.
  - pose proof (total_lookup _ _ _ Hj). lia.
  - pose proof (total_lookup _ _ _ Hi). lia.
  - assert (i <> j) as Hij by congruence. specialize (IH i j Hij Hi Hj). lia.
Qed.

Lemma total_pos l : 0 < total l -> exists i x, l !! i = Some x /\ 0 < f x.
Proof.
  induction l as [|x l IH]; cbn [total]; intros Hl; [lia|]. destruct (decide (0 < f x)) as [Hx|Hx].
  - by exists 0, x.
  - destruct IH as (i & y & Hi & Hy); [lia|]. by exists (S i), y.
Qed.

Lemma total_0 l : (forall x, x ∈ l -> f x = 0) -> total l = 0.
Proof.
  induction l as [|x l IH]; intros Hl; [done|]. cbn [total].
  rewrite (Hl x), IH; [done| |by left]. intros y Hy. apply Hl. by right.
Qed.
End counting.

Lemma Forall_or {X} (R : Prop) (Q : X -> Prop) l :
  (forall x, x ∈ l -> R \/ Q x) -> R \/ Forall Q l.
Proof.
  induction l as [|x l IH]; intros Hl; [auto|]. destruct (Hl x) as [?|?]; [by left|by left|].
  destruct IH as [?|?]; [|by left|right; by constructor]. intros y Hy. apply Hl. by right.
Qed.

Lemma Forall_or_Exists {X} (Q R : X -> Prop) l :
  Forall (fun x => Q x \/ R x) l -> Forall Q l \/ Exists R l.
Proof. induction 1 as [|x l [?|?] _ [?|?]]; auto. Qed.

(** ** The invariant *)

Section exclusion.
Context {P L T : Type} `{RwCount L}.
Implicit Types s : kernel P L T.

Definition holds {A} (x : bool * Z) (t : thread P L T A) : nat :=
  if decide (x ∈ th_held t) then 1 else 0.
Definition holders {A} (x : bool * Z) (ts : list (thread P L T A)) : nat := total (holds x) ts.

(** Every lock counts the threads that hold it, and a writer is alone. *)
Definition lock_ok (r w : nat) (l : rwsem) : Prop :=
  l = mk_rwsem r (0 <? w)%nat /\ (w = 0 \/ w = 1 /\ r = 0).
Definition accounted {A} (c : config P L T A) : Prop :=
  forall mm, match locks (cf_kernel c) !! mm with
             | Some l => lock_ok (holders (false, mm) (cf_threads c)) (holders (true, mm) (cf_threads c))
                           (sem_count l)
             | None => holders (false, mm) (cf_threads c) = 0 /\ holders (true, mm) (cf_threads c) = 0
             end.

(** A thread holds one lock at most, and what is left of its program is
    disciplined. *)
Definition proper {A} (t : thread P L T A) : Prop :=
  length (th_held t) <= 1 /\ disciplined (th_held t) (th_prog t).

(** The module is not in the locked state, no lock is held, and every thread is
    at its start. *)
Definition starts {A} (c : config P L T A) : Prop :=
  mm_is_locked (cf_kernel c) = false /\
  Forall (fun t => th_held t = [] /\ disciplined [] (th_prog t)) (cf_threads c) /\
  forall mm l, locks (cf_kernel c) !! mm = Some l -> sem_count l = mk_rwsem 0 false.

Lemma holders_insert {A} x i (t t' : thread P L T A) ts : ts !! i = Some t ->
  holders x (<[i := t']> ts) + holds x t = holders x ts + holds x t'.
Proof. apply total_insert. Qed.

Lemma locks_switch c s : locks (switch_to c s) = locks s.
Proof. done. Qed.

Lemma frame_unlocked s s' : frame s = frame s' -> mm_is_locked s = mm_is_locked s'.
Proof. unfold frame. by intros [= _ _ _ _ -> _]. Qed.

Lemma frame_locks s s' : frame s = frame s' -> locks s = locks s'.
Proof. unfold frame. by intros [= _ _ _ _ _ ->]. Qed.

(** What taking and releasing a lock do to the locks. *)
Definition down (w : bool) : L -> option L := if w then down_write else down_read.
Definition up (w : bool) : L -> L := if w then up_write else up_read.

Lemma acquire_mm_lock w mm : acquire_mm w mm = (lock_mm (down w) mm : M (kernel P L T) unit).
Proof. by destruct w. Qed.

Lemma release_mm_lock w mm : release_mm w mm = (lock_mm (fun l => Some (up w l)) mm : M (kernel P L T) unit).
Proof. by destruct w. Qed.

Lemma lock_mm_Ret f id s x s' : lock_mm f id s = Ret x s' -> exists l l',
  locks s !! id = Some l /\ f l = Some l' /\ locks s' = <[id := l']> (locks s).
Proof.
  intros Hs. destruct (k_mms s !! id) as [mm|] eqn:Hmm; [|by rewrite lock_mm_undef in Hs].
  rewrite (lock_mm_run _ _ _ _ Hmm) in Hs. destruct (f (mmap_sem mm)) as [l|] eqn:Hf; [|done].
  injection Hs as _ <-. exists (mmap_sem mm), l. unfold locks. cbn [k_mms with_mms].
  by rewrite lookup_fmap, Hmm, fmap_insert.
Qed.

Lemma lock_mm_unlocked f id s x s' : lock_mm f id s = Ret x s' -> mm_is_locked s' = mm_is_locked s.
Proof.
  intros Hs. destruct (k_mms s !! id) as [mm|] eqn:Hmm; [|by rewrite lock_mm_undef in Hs].
  rewrite (lock_mm_run _ _ _ _ Hmm) in Hs. by destruct (f (mmap_sem mm)); simplify_eq.
Qed.

Lemma acquire_mm_unlocked w id s x s' : acquire_mm w id s = Ret x s' -> mm_is_locked s' = mm_is_locked s.
Proof. rewrite acquire_mm_lock. apply lock_mm_unlocked. Qed.

Lemma release_mm_unlocked w id s x s' : release_mm w id s = Ret x s' -> mm_is_locked s' = mm_is_locked s.
Proof. rewrite release_mm_lock. apply lock_mm_unlocked. Qed.

Lemma lock_mm_cases f id s : (exists x s', lock_mm f id s = Ret x s') \/ lock_mm f id s = Undef \/
  exists l, locks s !! id = Some l /\ f l = None.
Proof.
  destruct (k_mms s !! id) as [mm|] eqn:Hmm; [|rewrite lock_mm_undef by done; auto].
  rewrite (lock_mm_run _ _ _ _ Hmm). destruct (f (mmap_sem mm)) as [l|] eqn:Hf; [eauto|].
  right; right. exists (mmap_sem mm). unfold locks. by rewrite lookup_fmap, Hmm.
Qed.

Lemma lock_ok_down_read r w l l' : lock_ok r w l -> down_read l = Some l' -> lock_ok (S r) w l'.
Proof. intros [-> Hw]. cbn. destruct w; [|done]. intros [= <-]. split; auto. Qed.

Lemma lock_ok_down_write r w l l' : lock_ok r w l -> down_write l = Some l' -> lock_ok r (S w) l'.
Proof. intros [-> Hw]. cbn. destruct w; [|done]. destruct r; [|done]. intros [= <-]. split; auto. Qed.

Lemma lock_ok_up_read r w l : lock_ok (S r) w l -> lock_ok r w (up_read l).
Proof. intros [-> [-> |[_ ?]]]; [|done]. split; auto. Qed.

Lemma lock_ok_up_write r w l : lock_ok r (S w) l -> lock_ok r w (up_write l).
Proof. intros [-> [?|[[= ->] ->]]]; [done|]. split; auto. Qed.

(** One more thread holds the lock [(w, id)], or one fewer. *)
Definition plus_one (w : bool) (id : Z) (n n' : bool * Z -> nat) : Prop :=
  forall y, n' y = n y + if decide (y = (w, id)) then 1 else 0.

Lemma plus_one_same w id n n' : plus_one w id n n' ->
  n' (w, id) = S (n (w, id)) /\ n' (negb w, id) = n (negb w, id) /\
  forall b mm, mm <> id -> n' (b, mm) = n (b, mm).
Proof.
  intros Hn. rewrite !Hn. rewrite decide_True, decide_False by (try done; by destruct w).
  split_and!; [lia..|]. intros b mm Hmm. rewrite Hn, decide_False by congruence. lia.
Qed.

Lemma accounted_acquire {A} w id (ts ts' : list (thread P L T A)) s x s' :
  accounted (mk_config ts s) -> plus_one w id (fun y => holders y ts) (fun y => holders y ts') ->
  acquire_mm w id s = Ret x s' -> accounted (mk_config ts' s').
Proof.
  intros Hok Hn Hs mm. apply plus_one_same in Hn as (Hw & Hnw & Hne).
  specialize (Hok mm). cbn [cf_threads cf_kernel] in *.
  destruct w; apply lock_mm_Ret in Hs as (l & l' & Hl & Hf & ->); cbn [negb] in Hnw;
    (destruct (decide (mm = id)) as [->|Hmm];
     [rewrite lookup_insert_eq; rewrite Hl in Hok; rewrite Hw, Hnw
     |rewrite lookup_insert_ne by done; by rewrite !Hne by done]).
  - eapply lock_ok_down_write; [done|]. by rewrite <- count_down_write, Hf.
  - eapply lock_ok_down_read; [done|]. by rewrite <- count_down_read, Hf.
Qed.

Lemma accounted_release {A} w id (ts ts' : list (thread P L T A)) s x s' :
  accounted (mk_config ts s) -> plus_one w id (fun y => holders y ts') (fun y => holders y ts) ->
  release_mm w id s = Ret x s' -> accounted (mk_config ts' s').
Proof.
  intros Hok Hn Hs mm. apply plus_one_same in Hn as (Hw & Hnw & Hne).
  specialize (Hok mm). cbn [cf_threads cf_kernel] in *.
  destruct w; apply lock_mm_Ret in Hs as (l & l' & Hl & [= <-] & ->); cbn [negb] in Hnw;
    (destruct (decide (mm = id)) as [->|Hmm];
     [rewrite lookup_insert_eq; rewrite Hl, Hw, Hnw in Hok
     |rewrite lookup_insert_ne by done; by rewrite <- !Hne by done]).
  - rewrite count_up_write. by apply lock_ok_up_write.
  - rewrite count_up_read. by apply lock_ok_up_read.
Qed.

Lemma holds_none {A} x c (p : prog P L T A) : holds x (mk_thread c [] p) = 0.
Proof. done. Qed.

Lemma holds_one {A} x y c (p : prog P L T A) :
  holds x (mk_thread c [y] p) = if decide (x = y) then 1 else 0.
Proof.
  unfold holds. cbn [th_held]. destruct (decide (x ∈ [y])) as [Hx|Hx], (decide (x = y)) as [Hy|Hy]; try done.
  - by apply list_elem_of_singleton in Hx.
  - destruct Hx. subst. by left.
Qed.

Lemma drop_lock_one x : drop_lock x [x] = [].
Proof. cbn. by rewrite decide_True. Qed.

Definition invariant {A} (c : config P L T A) : Prop :=
  mm_is_locked (cf_kernel c) = false /\ Forall proper (cf_threads c) /\ accounted c.

Lemma invariant_step {A} (c c' : config P L T A) : invariant c -> cstep c c' -> invariant c'.
Proof.
  intros (Hu & Hp & Hok) Hc. destruct Hc as [i t m t' ts s s' Ht Hn Hm]. cbn [cf_threads cf_kernel] in *.
  assert (mm_is_locked s' = false /\ proper t' /\ accounted (mk_config (<[i := t']> ts) s'))
    as (? & Ht' & ?); [|split_and!; [done|by apply Forall_insert|done]].
  pose proof (proj1 (Forall_lookup _ _) Hp i t Ht) as [Hh Hd]. destruct t as [c held p].
  unfold next in Hn. cbn [th_held th_prog th_context] in *.
  destruct p as [a|X n k|w mm k|w mm k]; [done|..]; injection Hn as <-;
    apply bind_Ret_inv in Hm as (x & s1 & Hm & [= <- <-]); cbn [disciplined] in Hd.
  - destruct Hd as [Hn Hk]. specialize (Hn (switch_to c s)). rewrite Hm in Hn.
    split; [by rewrite (frame_unlocked _ _ Hn)|]. split; [split; [done|by eapply (Hk (switch_to c s))]|].
    apply frame_locks in Hn. rewrite locks_switch in Hn. intros mm. specialize (Hok mm).
    cbn [cf_threads cf_kernel] in *. rewrite Hn.
    assert (forall y, holders y (<[i := mk_thread c held (k x)]> ts) = holders y ts) as Hb
      by (intros y; pose proof (holders_insert y i _ (mk_thread c held (k x)) ts Ht); unfold holds in *;
          cbn [th_held] in *; lia).
    by rewrite !Hb.
  - destruct Hd as [-> Hk]. split; [by rewrite (acquire_mm_unlocked _ _ _ _ _ Hm)|].
    split; [by split; [cbn; lia|]|].
    eapply (accounted_acquire w mm ts _ (switch_to c s)); [exact Hok| |exact Hm].
    intros y. pose proof (holders_insert y i _ (mk_thread c [(w, mm)] k) ts Ht) as Hi.
    rewrite holds_none, holds_one in Hi. lia.
  - destruct Hd as [-> Hk]. rewrite drop_lock_one. split; [by rewrite (release_mm_unlocked _ _ _ _ _ Hm)|].
    split; [by split; [cbn; lia|]|].
    eapply (accounted_release w mm ts _ (switch_to c s)); [exact Hok| |exact Hm].
    intros y. pose proof (holders_insert y i _ (mk_thread c [] k) ts Ht) as Hi.
    rewrite holds_none, holds_one in Hi. lia.
Qed.

Lemma invariant_starts {A} (c : config P L T A) : starts c -> invariant c.
Proof.
  intros (Hu & Hts & Hl). split_and!; [done| |].
  - eapply Forall_impl; [exact Hts|]. intros t [Hh Hd]. unfold proper. rewrite Hh. split; [cbn; lia|done].
  - assert (forall y, holders y (cf_threads c) = 0) as Hy.
    { intros y. apply total_0. intros t Ht. unfold holds.
      apply (proj1 (Forall_forall _ _) Hts) in Ht as [-> _]. done. }
    intros mm. rewrite !Hy. destruct (locks (cf_kernel c) !! mm) as [l|] eqn:E; [|done].
    split; [by eapply Hl|auto].
Qed.

Lemma invariant_reached {A} (c c' : config P L T A) : starts c -> rtc cstep c c' -> invariant c'.
Proof. intros Hc Hr. apply invariant_starts in Hc. induction Hr; eauto using invariant_step. Qed.

(** ** Exclusion *)

Lemma holds_pos {A} x (t : thread P L T A) : x ∈ th_held t -> holds x t = 1.
Proof. intros Hx. unfold holds. by rewrite decide_True. Qed.

Lemma invariant_excludes {A} (c : config P L T A) i j ti tj mm w : invariant c -> i <> j ->
  cf_threads c !! i = Some ti -> cf_threads c !! j = Some tj ->
  (true, mm) ∈ th_held ti -> (w, mm) ∉ th_held tj.
Proof.
  intros (_ & _ & Hok) Hij Hi Hj Hwi Hwj. specialize (Hok mm).
  assert (holders (true, mm) (cf_threads c) <= 1 /\
          (0 < holders (true, mm) (cf_threads c) -> holders (false, mm) (cf_threads c) = 0)) as [Hle Hex].
  { destruct (locks _ !! mm) as [l|]; [destruct Hok as [_ Hok]|]; lia. }
  pose proof (total_lookup (holds (true, mm)) _ _ _ Hi) as Hti. rewrite (holds_pos _ _ Hwi) in Hti.
  destruct w.
  - pose proof (total_two (holds (true, mm)) _ _ _ _ _ Hij Hi Hj) as Ht.
    rewrite (holds_pos _ _ Hwi), (holds_pos _ _ Hwj) in Ht. unfold holders in *. lia.
  - pose proof (total_lookup (holds (false, mm)) _ _ _ Hj) as Ht. rewrite (holds_pos _ _ Hwj) in Ht.
    unfold holders in *. lia.
Qed.

(** ** Progress *)

(** The next action of a thread that holds a lock, or that is about to do
    something else than take one, does not wait. *)
Definition waits {A} (c : config P L T A) (t : thread P L T A) : Prop :=
  th_held t = [] /\ exists w mm l, locks (cf_kernel c) !! mm = Some l /\ down w l = None.

Lemma goes_on {A} (c : config P L T A) i t : cf_threads c !! i = Some t -> proper t ->
  finished t \/ (exists c', cstep c c') \/ faults c \/
  waits c t.
Proof.
  intros Ht Hd. destruct c as [ts s], t as [c held p]. cbn [cf_threads cf_kernel] in *.
  assert (forall m t', next (mk_thread c held p) = Some m -> m (switch_to c s) = t' ->
    match t' with Sleep _ => True | _ => (exists c', cstep (mk_config ts s) c') \/ faults (mk_config ts s) end)
    as Hgo.
  { intros m [t' s'| |] Hn Hm; [left; eexists; by econstructor|done|right; by exists i, (mk_thread c held p), m]. }
  destruct Hd as [_ Hd]. cbn [th_held th_prog] in Hd.
  destruct p as [a|X m k|w mm k|w mm k]; [left; by exists a|right..]; specialize (Hgo _ _ eq_refl eq_refl);
    cbn [th_held th_context] in Hgo; unfold bind in Hgo.
  - destruct Hd as [Hm _]. specialize (Hm (switch_to c s)).
    destruct (m (switch_to c s)); [destruct Hgo; auto|done|destruct Hgo; auto].
  - rewrite acquire_mm_lock in Hgo.
    destruct (lock_mm_cases (down w) mm (switch_to c s)) as [(x & s' & E)|[E|(l & Hl & E)]];
      [rewrite E in Hgo; destruct Hgo; auto..|].
    right; right. destruct Hd as [-> _]. split; [done|]. by exists w, mm, l.
  - rewrite release_mm_lock in Hgo.
    destruct (lock_mm_cases (fun l => Some (up w l)) mm (switch_to c s)) as [(x & s' & E)|[E|(l & Hl & E)]];
      [rewrite E in Hgo; destruct Hgo; auto..|done].
Qed.

Lemma blocked_held r w l b : lock_ok r w (sem_count l) -> down b l = None -> 0 < r \/ 0 < w.
Proof.
  intros [Hl _] Hb.
  assert ((if b then down_write (sem_count l) else down_read (sem_count l)) = None) as Hc
    by (destruct b; [rewrite <- count_down_write|rewrite <- count_down_read]; cbn [down] in Hb; by rewrite Hb).
  rewrite Hl in Hc. destruct w; [|lia]. destruct b; [|done]. destruct r; [done|lia].
Qed.

Lemma invariant_progress {A} (c : config P L T A) : invariant c ->
  Forall finished (cf_threads c) \/ (exists c', cstep c c') \/ faults c.
Proof.
  intros (_ & Hp & Hok).
  assert (((exists c', cstep c c') \/ faults c) \/
    Forall (fun t => finished t \/ waits c t) (cf_threads c)) as [?|Hall]; [|by auto|].
  { apply Forall_or. intros t [i Hi]%list_elem_of_lookup.
    destruct (goes_on c i t Hi) as [?|[?|[?|?]]]; auto. by eapply Forall_lookup in Hi. }
  destruct (Forall_or_Exists _ _ _ Hall) as [?|(t & Ht & _ & w & mm & l & Hl & Hw)%Exists_exists]; [auto|exfalso].
  specialize (Hok mm). rewrite Hl in Hok.
  assert (exists b, 0 < holders (b, mm) (cf_threads c)) as [b Hb]
    by (destruct (blocked_held _ _ _ _ Hok Hw); eauto).
  apply total_pos in Hb as (j & tj & Hj & Hh).
  assert (th_held tj = []) as Hn; [|unfold holds in Hh; rewrite decide_False in Hh; [lia|rewrite Hn; apply not_elem_of_nil]].
  eapply Forall_lookup in Hp as Hd; [|exact Hj]. eapply Forall_lookup in Hall as [[a Ha]|[? _]]; [|done|exact Hj].
  destruct Hd as [_ Hd]. by rewrite Ha in Hd.
Qed.

(** ** The end *)

(** When all threads have ended every lock is free. *)
Lemma invariant_finished {A} (c : config P L T A) : invariant c -> Forall finished (cf_threads c) ->
  forall mm l, locks (cf_kernel c) !! mm = Some l -> sem_count l = mk_rwsem 0 false.
Proof.
  intros (_ & Hp & Hok) Hf mm l Hl. specialize (Hok mm). rewrite Hl in Hok.
  assert (forall y, holders y (cf_threads c) = 0) as Hy; [|by rewrite !Hy in Hok; destruct Hok].
  intros y. apply total_0. intros t Ht. unfold holds. rewrite decide_False; [done|].
  eapply Forall_forall in Hp as [_ Hp]; [|exact Ht]. eapply Forall_forall in Hf as [a Ha]; [|exact Ht].
  rewrite Ha in Hp. rewrite Hp. apply not_elem_of_nil.
Qed.
End exclusion.
