(* ===== verification/Concurrent.v ===== *)
(** * The requests, action by action

    [device_ioctl] and what it calls as programs of [Threads]: one action for
    each access to memory or to a global, for each lock taken or released, and
    for each processor of a call on all of them.  A copy of a page, a flush of
    the TLB and the search for a process by its pid are one action.  Not
    interrupted, each program does what the definition of [Kernel] of the same
    name does; interrupted by other requests, it uses the locks properly. *)

From stdpp Require Import base tactics numbers list gmap relations.
From S2P Require Import Prelude Entry PhysMem Linux Kernel Machine KernelProps Requests Threads Exclusion.
Local Open Scope Z_scope.
Local Open Scope prog_scope.

Section programs.
Context {P L T : Type} `{PhysMem P} `{RwSem L} `{LinuxPT P} `{TlbOps T}.
Variable cfg : kconfig.

Definition mm_at (mm : Z) : M (kernel P L T) (mm_struct L) :=
  let* mms := gets k_mms in defined (mms !! mm).

(** The code reads an entry again at each place that mentions it. *)
Definition load_prog (p : Z) : prog P L T Z := act (kload p).

Definition resolve_from_pud_prog (addr pudp : Z) (e : vm_t) : prog P L T (Z * vm_t) :=
  let! pudv := load_prog pudp in
  if pud_none pudv then Done (1, e)
  else
    let e := vm_set_pud pudp e in
    let! pudv := load_prog pudp in
    let pmdp := pmd_offset pudp pudv addr in
    let! pmdv := load_prog pmdp in
    let! bad := (if pmd_none pmdv then Done true
                 else let! pudv := load_prog pudp in Done (pud_large cfg pudv)) in
    if bad then Done (1, e)
    else
      let e := vm_set_pmd pmdp e in
      let! pmdv := load_prog pmdp in
      match pte_offset_map pmdp pmdv addr with
      | None => Done (1, e)
      | Some ptep =>
          let! pmdv := load_prog pmdp in
          if pmd_large cfg pmdv then Done (1, e)
          else Done (0, vm_set_pte ptep e)
      end.

Definition resolve_levels_prog (mm addr : Z) (e : vm_t) : prog P L T (Z * vm_t) :=
  let! mm := act (mm_at mm) in
  let pgdp := pgd_offset (mm_pgd mm) addr in
  let! pgdv := load_prog pgdp in
  let! bad := (if pgd_none pgdv then Done true
               else let! pgdv := load_prog pgdp in Done (pgd_bad pgdv)) in
  if bad then Done (1, e)
  else
    let e := vm_set_pgd pgdp e in
    let! pgdv := load_prog pgdp in
    if kc_v4_11 cfg then
      let p4dp := p4d_offset pgdp pgdv addr in
      let! p4dv := load_prog p4dp in
      let! bad := (if p4d_none p4dv then Done true
                   else let! p4dv := load_prog p4dp in Done (p4d_bad p4dv)) in
      if bad then Done (1, e)
      else
        let e := vm_set_p4d p4dp e in
        let! p4dv := load_prog p4dp in
        resolve_from_pud_prog addr (pud_offset p4dp p4dv addr) e
    else resolve_from_pud_prog addr (pud_offset pgdp pgdv addr) e.

Definition resolve_vm_prog (addr : Z) (entry : vm_t) (lock : bool) : prog P L T (Z * vm_t) :=
  let entry := vm_reset entry in
  let! mm := act (get_mm (vm_pid entry)) in
  match mm with
  | None => Done (1, entry)
  | Some mm =>
      pwhen lock (acquire false mm) ;>>
      let! r := resolve_levels_prog mm addr entry in
      pwhen lock (release false mm) ;>>
      Done r
  end.

Definition update_level_prog (l : level) (mask : Z) (old : vm_t) (ptr : option Z)
    (new : ptedit_entry_t) (v : Z) : prog P L T unit :=
  pwhen (has (vm_valid old) mask && has (valid new) mask) (act (store_entry l ptr v)).

Definition update_levels_prog (old : vm_t) (new : ptedit_entry_t) : prog P L T unit :=
  update_level_prog PGD PTEDIT_VALID_MASK_PGD old (vm_pgd old) new (pgd new) ;>>
  pwhen (kc_v4_11 cfg)
    (update_level_prog P4D PTEDIT_VALID_MASK_P4D old (vm_p4d old) new (p4d new)) ;>>
  update_level_prog PUD PTEDIT_VALID_MASK_PUD old (vm_pud old) new (pud new) ;>>
  update_level_prog PMD PTEDIT_VALID_MASK_PMD old (vm_pmd old) new (pmd new) ;>>
  update_level_prog PTE PTEDIT_VALID_MASK_PTE old (vm_pte old) new (pte new).

Fixpoint on_each_cpu_prog (f : Z -> M (kernel P L T) unit) (cpus : list Z) : prog P L T unit :=
  match cpus with
  | [] => Done tt
  | cpu :: cpus => act (f cpu) ;>> on_each_cpu_prog f cpus
  end.

Definition call_invalidate_tlb_prog (addr : Z) : prog P L T unit :=
  let! method := act (gets invalidate_tlb) in
  match method with
  | invalidate_tlb_kernel_fn => act (invalidate_tlb_kernel cfg addr)
  | invalidate_tlb_custom_fn => on_each_cpu_prog (invalidate_tlb_on cfg addr) (kc_cpus cfg)
  end.

Definition update_vm_prog (new_entry : ptedit_entry_t) (lock : bool) : prog P L T Z :=
  let addr := vaddr new_entry in
  let! mm := act (get_mm (pid new_entry)) in
  match mm with
  | None => Done 1
  | Some mm =>
      pwhen lock (acquire true mm) ;>>
      let! r := resolve_vm_prog addr (mk_vm (pid new_entry) None None None None None 0) false in
      update_levels_prog (snd r) new_entry ;>>
      call_invalidate_tlb_prog addr ;>>
      pwhen lock (release true mm) ;>>
      Done 0
  end.

Definition copy_level_prog (ptr : option Z) (set : Z -> ptedit_entry_t -> ptedit_entry_t)
    (user : ptedit_entry_t) : prog P L T ptedit_entry_t :=
  match ptr with
  | None => Done user
  | Some p => let! v := load_prog p in Done (set v user)
  end.

Definition vm_to_user_prog (user : ptedit_entry_t) (vm : vm_t) : prog P L T ptedit_entry_t :=
  let! user := (if kc_v4_11 cfg then copy_level_prog (vm_p4d vm) set_p4d user else Done user) in
  let! user := copy_level_prog (vm_pgd vm) set_pgd user in
  let! user := copy_level_prog (vm_pmd vm) set_pmd user in
  let! user := copy_level_prog (vm_pud vm) set_pud user in
  let! user := copy_level_prog (vm_pte vm) set_pte user in
  Done (set_valid (vm_valid vm) user).

Definition ioctl_resolve_prog (vm_user : ptedit_entry_t) : prog P L T (Z * ioctl_arg) :=
  let! locked := act (gets mm_is_locked) in
  let! r := resolve_vm_prog (vaddr vm_user) (mk_vm (pid vm_user) None None None None None 0)
              (negb locked) in
  let! user := vm_to_user_prog vm_user (snd r) in
  Done (0, UEntry user).

Definition ioctl_update_prog (e : ptedit_entry_t) : prog P L T (Z * ioctl_arg) :=
  let! locked := act (gets mm_is_locked) in
  let! _ := update_vm_prog e (negb locked) in
  Done (0, UEntry e).

Definition ioctl_lock_prog (arg : ioctl_arg) : prog P L T (Z * ioctl_arg) :=
  let! mm := act active_mm in
  let! locked := act (gets mm_is_locked) in
  if locked then Done (-1, arg)
  else
    acquire true mm ;>>
    acquire false mm ;>>
    act (modify (with_locked true)) ;>>
    Done (0, arg).

Definition ioctl_unlock_prog (arg : ioctl_arg) : prog P L T (Z * ioctl_arg) :=
  let! mm := act active_mm in
  let! locked := act (gets mm_is_locked) in
  if negb locked then Done (-1, arg)
  else
    release true mm ;>>
    release false mm ;>>
    act (modify (with_locked false)) ;>>
    Done (0, arg).

Definition ioctl_get_root_prog (paging : ptedit_paging_t) : prog P L T (Z * ioctl_arg) :=
  let! mm := act (get_mm (pp_pid paging)) in
  let from_ttbr0 : prog P L T (Z * ioctl_arg) :=
    let! ttbr0 := act (gets k_ttbr0) in
    Done (0, UPaging (mk_paging (pp_pid paging) (Z.land ttbr0 (not64 1)))) in
  let from_mm (mm : Z) : prog P L T (Z * ioctl_arg) :=
    let! locked := act (gets mm_is_locked) in
    pwhen (negb locked) (acquire false mm) ;>>
    let! m := act (mm_at mm) in
    let! locked := act (gets mm_is_locked) in
    pwhen (negb locked) (release false mm) ;>>
    Done (0, UPaging (mk_paging (pp_pid paging) (virt_to_phys (mm_pgd m)))) in
  match mm with
  | None =>
      match kc_arch cfg with
      | AARCH64 => from_ttbr0
      | X86_64 => Done (1, UPaging paging)
      end
  | Some mm =>
      match kc_arch cfg with
      | AARCH64 => let! m := act (mm_at mm) in if mm_pgd m =? 0 then from_ttbr0 else from_mm mm
      | X86_64 => from_mm mm
      end
  end.

Definition ioctl_set_root_prog (paging : ptedit_paging_t) : prog P L T (Z * ioctl_arg) :=
  let! mm := act (get_mm (pp_pid paging)) in
  match mm with
  | None => Done (1, UPaging paging)
  | Some mm =>
      let! locked := act (gets mm_is_locked) in
      pwhen (negb locked) (acquire true mm) ;>>
      act (let* mms := gets k_mms in
           let* m := defined (mms !! mm) in
           modify (with_mms (<[mm := mk_mm (phys_to_virt (pp_root paging)) (mmap_sem m)]> mms))) ;>>
      let! locked := act (gets mm_is_locked) in
      pwhen (negb locked) (release true mm) ;>>
      Done (0, UPaging paging)
  end.

Definition device_ioctl_prog (cmd : ioctl_cmd) (arg : ioctl_arg) : prog P L T (Z * ioctl_arg) :=
  match cmd, arg with
  | VM_RESOLVE, UEntry e => ioctl_resolve_prog e
  | VM_UPDATE, UEntry e => ioctl_update_prog e
  | VM_LOCK, _ => ioctl_lock_prog arg
  | VM_UNLOCK, _ => ioctl_unlock_prog arg
  | READ_PAGE, UPage p => act (ioctl_read_page p)
  | WRITE_PAGE, UPage p => act (ioctl_write_page p)
  | GET_ROOT, UPaging p => ioctl_get_root_prog p
  | SET_ROOT, UPaging p => ioctl_set_root_prog p
  | GET_PAGESIZE, _ => let! size := act (gets real_page_size) in Done (size, arg)
  | INVALIDATE_TLB, UValue v => call_invalidate_tlb_prog v ;>> Done (0, arg)
  | GET_PAT, USize v => let! v := act (read_mts cfg) in Done (0, USize v)
  | SET_PAT, UValue v => on_each_cpu_prog (set_pat_on cfg v) (kc_cpus cfg) ;>> Done (0, arg)
  | SWITCH_TLB_INVALIDATION, UValue v => act (ioctl_switch_tlb v)
  | OTHER_CMD, _ => Done (-1, arg)
  | _, _ => act undef
  end.
End programs.

(** ** Not interrupted *)

Section uninterrupted.
Context {P L T : Type} `{PhysMem P} `{RwSem L} `{LinuxPT P} `{TlbOps T}.
Variable cfg : kconfig.
Implicit Types s : kernel P L T.

(** A load that is made again gives the same. *)
Lemma kload_cases p s : (exists v, kload p s = Ret v s) \/ kload p s = Undef.
Proof.
  unfold kload. rewrite bind_gets. destruct (load64 (k_mem s) (virt_to_phys p)) as [v|]; cbn; eauto.
Qed.

Ltac load_step :=
  cbn [run pbind load_prog act fst snd orb];
  match goal with
  | E : kload ?p ?s = Ret _ _ |- context [bind (kload ?p) ?k ?s] => rewrite (bind_Ret _ k _ _ _ E)
  | E : kload ?p ?s = Undef |- context [bind (kload ?p) ?k ?s] => rewrite (bind_Undef _ k _ E)
  | |- context [bind (kload ?p) _ ?s] => destruct (kload_cases p s) as [[? ?]|?]
  | |- context [if ?b then _ else _] => destruct b eqn:?
  | |- context [match ?x with Some _ => _ | None => _ end] => destruct x eqn:?
  end; simplify_eq/=.

Lemma resolve_from_pud_implements addr pudp e :
  implements (resolve_from_pud_prog cfg addr pudp e : prog P L T _) (resolve_from_pud cfg addr pudp e).
Proof.
  intros s. unfold resolve_from_pud_prog, resolve_from_pud, load_prog, act. by repeat load_step.
Qed.

Lemma resolve_levels_implements mm addr e :
  implements (resolve_levels_prog cfg mm addr e : prog P L T _) (resolve_levels cfg mm addr e).
Proof.
  intros s. unfold resolve_levels_prog, resolve_levels, load_prog, mm_at, act. cbn [run pbind].
  rewrite bind_assoc, !bind_gets. destruct (k_mms s !! mm) as [m|]; [|done]. cbn [defined].
  rewrite !bind_ret_l. by repeat first [apply resolve_from_pud_implements|load_step].
Qed.
Hint Resolve resolve_levels_implements : implements.

Lemma resolve_vm_implements addr e lock :
  implements (resolve_vm_prog cfg addr e lock : prog P L T _) (resolve_vm cfg addr e lock).
Proof. unfold resolve_vm_prog, resolve_vm. cbv zeta. auto 20 with implements. Qed.

Lemma update_levels_implements old new :
  implements (update_levels_prog cfg old new : prog P L T _) (update_levels cfg old new).
Proof. unfold update_levels_prog, update_levels, update_level_prog, update_level. auto 20 with implements. Qed.

Lemma on_each_cpu_implements f cpus :
  implements (on_each_cpu_prog f cpus : prog P L T _) (on_each_cpu f cpus).
Proof. induction cpus as [|cpu cpus IH]; cbn [on_each_cpu on_each_cpu_prog]; auto with implements. Qed.
Hint Resolve resolve_vm_implements update_levels_implements on_each_cpu_implements : implements.

Lemma call_invalidate_tlb_implements addr :
  implements (call_invalidate_tlb_prog cfg addr : prog P L T _) (call_invalidate_tlb cfg addr).
Proof. unfold call_invalidate_tlb_prog, call_invalidate_tlb. auto with implements. Qed.
Hint Resolve call_invalidate_tlb_implements : implements.

Lemma update_vm_implements e lock :
  implements (update_vm_prog cfg e lock : prog P L T _) (update_vm cfg e lock).
Proof. unfold update_vm_prog, update_vm. cbv zeta. auto 20 with implements. Qed.

Lemma copy_level_implements ptr set user :
  implements (copy_level_prog ptr set user : prog P L T _) (copy_level ptr set user).
Proof. unfold copy_level_prog, copy_level, load_prog. auto with implements. Qed.
Hint Resolve copy_level_implements : implements.

Lemma vm_to_user_implements user vm :
  implements (vm_to_user_prog cfg user vm : prog P L T _) (vm_to_user cfg user vm).
Proof. unfold vm_to_user_prog, vm_to_user. auto 40 with implements. Qed.
Hint Resolve update_vm_implements vm_to_user_implements : implements.

(** [GET_ROOT] and [SET_ROOT] read the module's flag before they take the lock
    and again before they release it; it is still the same. *)
Lemma bind_ext {A B} (m : M (kernel P L T) A) (k k' : A -> M (kernel P L T) B) s :
  (forall a s', m s = Ret a s' -> k a s' = k' a s') -> bind m k s = bind m k' s.
Proof. intros Hk. unfold bind. destruct (m s) as [a s'| |]; auto. Qed.

Lemma section_implements {A B} w id (m : M (kernel P L T) A) (k : A -> prog P L T B) n :
  (forall s x s', m s = Ret x s' -> mm_is_locked s' = mm_is_locked s) ->
  (forall x, implements (k x) (n x)) ->
  implements
    (let! locked := act (gets mm_is_locked) in
     pwhen (negb locked) (acquire w id) ;>>
     let! x := act m in
     let! locked := act (gets mm_is_locked) in
     pwhen (negb locked) (release w id) ;>>
     k x)
    (let* locked := gets mm_is_locked in
     when (negb locked) (acquire_mm w id) ;;;
     let* x := m in
     when (negb locked) (release_mm w id) ;;;
     n x).
Proof.
  intros Hm Hk s.
  assert (Hp : implements (let! locked := act (gets mm_is_locked) in
     pwhen (negb locked) (acquire w id) ;>>
     let! x := act m in
     let! locked := act (gets mm_is_locked) in
     pwhen (negb locked) (release w id) ;>>
     k x) (let* locked := gets mm_is_locked in
     when (negb locked) (acquire_mm w id) ;;;
     let* x := m in
     let* locked := gets mm_is_locked in
     when (negb locked) (release_mm w id) ;;;
     n x))
    by (repeat (apply implements_bind; [auto with implements|intros ?]); apply Hk).
  rewrite Hp, !bind_gets. apply bind_ext. intros ? s1 Hs1. apply bind_ext. intros x s2 Hs2.
  rewrite bind_gets, (Hm _ _ _ Hs2).
  assert (mm_is_locked s1 = mm_is_locked s) as ->; [|done].
  destruct (mm_is_locked s) eqn:Hb; cbn [negb when] in Hs1; [by injection Hs1 as _ <-|].
  rewrite <- Hb. by eapply acquire_mm_unlocked.
Qed.

Lemma mm_at_run id s : mm_at id s = match k_mms s !! id with Some mm => Ret mm s | None => Undef end.
Proof. unfold mm_at. rewrite bind_gets. by destruct (k_mms s !! id). Qed.

Lemma mm_at_unlocked id s mm s' : mm_at id s = Ret mm s' -> mm_is_locked s' = mm_is_locked s.
Proof. rewrite mm_at_run. by destruct (k_mms s !! id); intros [= _ <-]. Qed.

(** The part of the kernel's computation after the address space is found. *)
Lemma root_of_mm_run p id s :
  (let* locked := gets mm_is_locked in
   when (negb locked) (acquire_mm false id) ;;;
   let* m := mm_at id in
   when (negb locked) (release_mm false id) ;;;
   ret (0, UPaging (mk_paging (pp_pid p) (virt_to_phys (mm_pgd m))))) s =
  (let* locked := gets mm_is_locked in
   when (negb locked) (mmap_read_lock id) ;;;
   let* mms := gets k_mms in
   let* m := defined (mms !! id) in
   when (negb locked) (mmap_read_unlock id) ;;;
   ret (0, UPaging (mk_paging (pp_pid p) (virt_to_phys (mm_pgd m))))) s.
Proof. rewrite !bind_gets. apply bind_ext. intros _ s' _. unfold mm_at. by rewrite bind_assoc. Qed.

Lemma get_root_implements p :
  implements (ioctl_get_root_prog cfg p : prog P L T _) (ioctl_get_root cfg p).
Proof.
  unfold ioctl_get_root_prog, ioctl_get_root. cbv zeta. apply implements_bind; [apply implements_act|].
  intros mm s. rewrite bind_gets. destruct mm as [id|]; [|by destruct (kc_arch cfg)].
  pose proof (section_implements false id (mm_at id) _ _ (mm_at_unlocked id)
    (fun m => implements_done (0, UPaging (mk_paging (pp_pid p) (virt_to_phys (mm_pgd m))))) s) as Hs.
  cbv beta in Hs. rewrite root_of_mm_run in Hs.
  destruct (kc_arch cfg); [rewrite Hs|cbn [run pbind act]; unfold bind at 1; rewrite mm_at_run];
    (destruct (k_mms s !! id) as [mm|] eqn:Hmm; cbn [defined]; [rewrite bind_ret_l|]).
  - done.
  - rewrite bind_gets. destruct (mm_is_locked s); cbn [negb when].
    + by rewrite bind_ret_l, bind_gets, Hmm.
    + rewrite (bind_Undef (mmap_read_lock id)); [done|by apply lock_mm_undef].
  - destruct (mm_pgd mm =? 0); [done|exact Hs].
  - done.
Qed.

Lemma set_root_implements p :
  implements (ioctl_set_root_prog p : prog P L T _) (ioctl_set_root p).
Proof.
  unfold ioctl_set_root_prog, ioctl_set_root. apply implements_bind; [apply implements_act|].
  intros [id|]; [|apply implements_done]. intros s.
  erewrite (section_implements true id);
    [..|exact (fun _ => implements_done (0, UPaging p))].
  - rewrite !bind_gets. apply bind_ext. intros _ s' _. rewrite bind_assoc, !bind_gets.
    by destruct (k_mms s' !! id).
  - intros s1 x s2. rewrite bind_gets. destruct (k_mms s1 !! id); [by intros [= _ <-]|done].
Qed.
Hint Resolve get_root_implements set_root_implements : implements.

Lemma device_ioctl_implements cmd arg :
  implements (device_ioctl_prog cfg cmd arg : prog P L T _) (device_ioctl cfg cmd arg).
Proof.
  destruct cmd; try done; destruct arg; try done; cbn [device_ioctl device_ioctl_prog];
    unfold ioctl_resolve_prog, ioctl_resolve, ioctl_update_prog, ioctl_lock_prog, ioctl_lock,
      ioctl_unlock_prog, ioctl_unlock, set_pat; auto 20 with implements.
Qed.
End uninterrupted.

(** ** Interrupted *)

Create HintDb harmless discriminated.
Create HintDb lockless discriminated.

Section interrupted.
Context {P L T : Type} `{PhysMem P} `{RwSem L} `{LinuxPT P} `{TlbOps T}.
Variable cfg : kconfig.
Implicit Types s : kernel P L T.

Hint Resolve harmless_reader reader_kload : harmless.
Hint Extern 1 (harmless (modify _)) => apply harmless_modify; done : harmless.
Hint Extern 4 (harmless (bind _ _)) => apply harmless_bind; [|intros ?] : harmless.
Hint Extern 5 (harmless (match ?x with _ => _ end)) => destruct x : harmless.
Hint Extern 1 (reader _) => solve [auto 20 with reader] : harmless.

Lemma harmless_get_mm pid : harmless (get_mm pid : M (kernel P L T) _).
Proof. apply harmless_reader. intros s. by rewrite get_mm_run. Qed.

Lemma harmless_mm_at id : harmless (mm_at id : M (kernel P L T) _).
Proof. unfold mm_at. auto with harmless. Qed.

Lemma harmless_store_entry l ptr v : harmless (store_entry l ptr v : M (kernel P L T) _).
Proof. unfold store_entry. auto 20 with harmless. Qed.

Lemma harmless_on_each_cpu f cpus :
  (forall cpu, harmless (f cpu)) -> harmless (on_each_cpu f cpus : M (kernel P L T) _).
Proof. intros Hf. induction cpus as [|cpu cpus IH]; simpl; auto 20 with harmless. Qed.
Hint Resolve harmless_get_mm harmless_mm_at harmless_store_entry harmless_on_each_cpu : harmless.

Lemma harmless_invalidate_tlb_on addr cpu : harmless (invalidate_tlb_on cfg addr cpu : M (kernel P L T) _).
Proof. unfold invalidate_tlb_on, native_write_cr4. auto 20 with harmless. Qed.

Lemma harmless_invalidate_tlb_kernel addr : harmless (invalidate_tlb_kernel cfg addr : M (kernel P L T) _).
Proof. unfold invalidate_tlb_kernel, flush_tlb_page_smp. auto 30 with harmless. Qed.

Lemma harmless_set_pat_on v cpu : harmless (set_pat_on cfg v cpu : M (kernel P L T) _).
Proof. unfold set_pat_on. auto 20 with harmless. Qed.

Lemma harmless_read_mts : harmless (read_mts cfg : M (kernel P L T) _).
Proof. unfold read_mts. cbv zeta. auto 20 with harmless. Qed.

Lemma harmless_read_page p : harmless (ioctl_read_page p : M (kernel P L T) _).
Proof. unfold ioctl_read_page. cbv zeta. auto 20 with harmless. Qed.

Lemma harmless_write_page p : harmless (ioctl_write_page p : M (kernel P L T) _).
Proof. unfold ioctl_write_page. cbv zeta. auto 20 with harmless. Qed.

Lemma harmless_switch_tlb v : harmless (ioctl_switch_tlb v : M (kernel P L T) _).
Proof. unfold ioctl_switch_tlb. auto 20 with harmless. Qed.
Hint Resolve harmless_invalidate_tlb_on harmless_invalidate_tlb_kernel harmless_set_pat_on
  harmless_read_mts harmless_read_page harmless_write_page harmless_switch_tlb : harmless.

(** *** The parts of the requests that take no lock *)

Hint Resolve lockless_done lockless_when : lockless.
Hint Extern 1 (lockless (act _)) => apply lockless_act; solve [auto 20 with harmless] : lockless.
Hint Extern 4 (lockless (pbind _ _)) => apply lockless_pbind; [|intros ?] : lockless.
Hint Extern 5 (lockless (match ?x with _ => _ end)) => destruct x : lockless.
Hint Extern 1 (lockless (load_prog _)) => unfold load_prog : lockless.

Lemma lockless_resolve_from_pud addr pudp e :
  lockless (resolve_from_pud_prog cfg addr pudp e : prog P L T _).
Proof. unfold resolve_from_pud_prog. cbv zeta. auto 40 with lockless. Qed.
Hint Resolve lockless_resolve_from_pud : lockless.

Lemma lockless_resolve_levels mm addr e : lockless (resolve_levels_prog cfg mm addr e : prog P L T _).
Proof. unfold resolve_levels_prog. cbv zeta. auto 40 with lockless. Qed.
Hint Resolve lockless_resolve_levels : lockless.

Lemma lockless_resolve_vm addr e : lockless (resolve_vm_prog cfg addr e false : prog P L T _).
Proof. unfold resolve_vm_prog. cbv zeta. cbn [pwhen]. auto 20 with lockless. Qed.

Lemma lockless_update_levels old new : lockless (update_levels_prog cfg old new : prog P L T _).
Proof. unfold update_levels_prog, update_level_prog. auto 20 with lockless. Qed.

Lemma lockless_on_each_cpu f cpus :
  (forall cpu, harmless (f cpu)) -> lockless (on_each_cpu_prog f cpus : prog P L T _).
Proof. intros Hf. induction cpus as [|cpu cpus IH]; cbn [on_each_cpu_prog]; auto 20 with lockless. Qed.

Lemma lockless_call_invalidate_tlb addr : lockless (call_invalidate_tlb_prog cfg addr : prog P L T _).
Proof.
  unfold call_invalidate_tlb_prog. apply lockless_pbind; [auto with lockless|]. intros [].
  - auto with lockless.
  - apply lockless_on_each_cpu. auto with harmless.
Qed.

Lemma lockless_vm_to_user user vm : lockless (vm_to_user_prog cfg user vm : prog P L T _).
Proof. unfold vm_to_user_prog, copy_level_prog. auto 60 with lockless. Qed.
Hint Resolve lockless_resolve_vm lockless_update_levels lockless_call_invalidate_tlb
  lockless_vm_to_user : lockless.

(** *** All requests *)

Lemma disciplined_resolve_vm addr e : disciplined [] (resolve_vm_prog cfg addr e true : prog P L T _).
Proof.
  apply disciplined_pbind; [auto with lockless|]. intros [id|]; [|done].
  apply disciplined_section; auto with lockless.
Qed.

Lemma disciplined_update_vm e : disciplined [] (update_vm_prog cfg e true : prog P L T _).
Proof.
  apply disciplined_pbind; [auto with lockless|]. intros [id|]; [|done].
  split; [done|]. cbn [pbind].
  repeat (apply disciplined_pbind; [solve [auto with lockless]|intros ?]). by split.
Qed.

Lemma disciplined_root_section {A B} w id (m : M (kernel P L T) A) (k : A -> prog P L T B) :
  harmless m -> (forall a, lockless (k a)) ->
  disciplined []
    (let! locked := act (gets mm_is_locked) in
     pwhen (negb locked) (acquire w id) ;>>
     let! x := act m in
     let! locked := act (gets mm_is_locked) in
     pwhen (negb locked) (release w id) ;>>
     k x).
Proof.
  intros Hm Hk. apply disciplined_flag. split; [done|]. cbn [pbind]. apply disciplined_pbind; [done|].
  intros a. apply disciplined_flag. split; [done|]. cbn [pbind]. by apply disciplined_lockless.
Qed.

Lemma disciplined_get_root p : disciplined [] (ioctl_get_root_prog cfg p : prog P L T _).
Proof.
  unfold ioctl_get_root_prog. cbv zeta. apply disciplined_pbind; [auto with lockless|].
  intros [id|]; [|apply disciplined_lockless; destruct (kc_arch cfg); auto with lockless].
  destruct (kc_arch cfg); [apply disciplined_root_section; [auto with harmless|done]|].
  apply disciplined_pbind; [auto with lockless|]. intros mm. destruct (mm_pgd mm =? 0).
  - apply disciplined_lockless. auto with lockless.
  - apply disciplined_root_section; [auto with harmless|done].
Qed.

Lemma harmless_set_pgd id root : harmless (let* mms := gets k_mms in
  let* m := defined (mms !! id) in
  modify (with_mms (<[id := mk_mm root (mmap_sem m)]> mms)) : M (kernel P L T) _).
Proof.
  intros s. rewrite bind_gets. destruct (k_mms s !! id) as [mm|] eqn:Hmm; [|done].
  cbn [defined]. rewrite bind_ret_l. unfold modify, frame, locks. cbn. rewrite fmap_insert. cbn.
  rewrite insert_id; [done|]. by rewrite lookup_fmap, Hmm.
Qed.

Lemma disciplined_set_root p : disciplined [] (ioctl_set_root_prog p : prog P L T _).
Proof.
  apply disciplined_pbind; [auto with lockless|]. intros [id|]; [|done].
  apply disciplined_root_section; [apply harmless_set_pgd|done].
Qed.

(** Every request but the lock commands; these two are not disciplined. *)
Lemma disciplined_ioctl cmd arg : cmd <> VM_LOCK -> cmd <> VM_UNLOCK ->
  disciplined [] (device_ioctl_prog cfg cmd arg : prog P L T _).
Proof.
  intros Hl Hu. destruct cmd; try done; destruct arg; cbn [device_ioctl_prog];
    try (by apply disciplined_lockless; auto with lockless).
  - apply disciplined_flag, disciplined_then; [apply disciplined_resolve_vm|]. intros r.
    apply disciplined_lockless. auto with lockless.
  - apply disciplined_flag, disciplined_then; [apply disciplined_update_vm|done].
  - apply disciplined_get_root.
  - apply disciplined_set_root.
  - apply disciplined_lockless, lockless_pbind; [|done]. apply lockless_on_each_cpu. auto with harmless.
Qed.
End interrupted.

#[export] Hint Resolve harmless_get_mm harmless_mm_at harmless_store_entry : harmless.
#[export] Hint Resolve lockless_done lockless_when lockless_resolve_vm lockless_update_levels
  lockless_call_invalidate_tlb lockless_vm_to_user : lockless.
#[export] Hint Extern 1 (lockless (act _)) => apply lockless_act; solve [auto 20 with harmless] : lockless.

(** ** Requests of several threads *)

(** A call of [ioctl] by a thread. *)
Record call := mk_call { cl_context : context; cl_cmd : ioctl_cmd; cl_arg : ioctl_arg }.

Definition is_lock_command (cmd : ioctl_cmd) : bool :=
  match cmd with VM_LOCK | VM_UNLOCK => true | _ => false end.

Section requests.
Context {P L T : Type} `{PhysMem P} `{RwCount L} `{LinuxPT P} `{TlbOps T}.
Variable cfg : kconfig.
Implicit Types s : kernel P L T.

Definition start_call (c : call) : thread P L T (Z * ioctl_arg) :=
  mk_thread (cl_context c) [] (device_ioctl_prog cfg (cl_cmd c) (cl_arg c)).
Definition start_calls (calls : list call) s : config P L T (Z * ioctl_arg) :=
  mk_config (start_call <$> calls) s.

Definition all_free s : Prop := forall mm l, locks s !! mm = Some l -> sem_count l = mk_rwsem 0 false.

Lemma calls_start calls s : mm_is_locked s = false -> all_free s ->
  Forall (fun c => is_lock_command (cl_cmd c) = false) calls -> starts (start_calls calls s).
Proof.
  intros Hu Hl Hc. split_and!; [done| |done]. apply Forall_fmap. eapply Forall_impl; [exact Hc|].
  intros [c cmd arg] Hcmd. split; [done|]. apply disciplined_ioctl; by intros E; rewrite E in Hcmd.
Qed.

(** C25: when any number of threads make requests other than the lock
    commands, from a state in which no lock is held and the module is not in
    the locked state, then in every state their interleaved actions reach each
    lock of an address space counts the threads that hold it for reading and
    whether one holds it for writing, a thread that holds one for writing
    excludes all others, and no thread holds more than one lock. *)
Theorem requests_exclude calls s c : mm_is_locked s = false -> all_free s ->
  Forall (fun c => is_lock_command (cl_cmd c) = false) calls -> rtc cstep (start_calls calls s) c ->
  (forall mm l, locks (cf_kernel c) !! mm = Some l ->
     sem_count l = mk_rwsem (holders (false, mm) (cf_threads c)) (0 <? holders (true, mm) (cf_threads c))%nat) /\
  (forall i j ti tj mm w, i <> j -> cf_threads c !! i = Some ti -> cf_threads c !! j = Some tj ->
     (true, mm) ∈ th_held ti -> (w, mm) ∉ th_held tj) /\
  (forall i t, cf_threads c !! i = Some t -> (length (th_held t) <= 1)%nat).
Proof.
  intros Hu Hl Hc Hr. assert (invariant c) as Hi by (eapply invariant_reached; [|done]; by apply calls_start).
  split_and!.
  - intros mm l Hm. destruct Hi as (_ & _ & Hok). specialize (Hok mm). rewrite Hm in Hok. apply Hok.
  - intros i j ti tj mm w. by apply invariant_excludes.
  - intros i t Ht. destruct Hi as (_ & Hp & _). eapply Forall_lookup in Hp; [|done]. by destruct Hp.
Qed.

(** C24: requests other than the lock commands, made by any number of threads at
    once when no lock is held and the module is not in the locked state, never
    deadlock and all end: no execution goes on for ever, and in every state it
    reaches some thread can do its next action, or one's next action is
    undefined, or all threads have their results and every lock is free. *)
Theorem requests_finish calls s : mm_is_locked s = false -> all_free s ->
  Forall (fun c => is_lock_command (cl_cmd c) = false) calls ->
  Acc (flip cstep) (start_calls calls s) /\
  forall c, rtc cstep (start_calls calls s) c ->
    (exists c', cstep c c') \/ faults c \/ Forall finished (cf_threads c) /\ all_free (cf_kernel c).
Proof.
  intros Hu Hl Hc. split; [apply cstep_wf|]. intros c Hr.
  assert (invariant c) as Hi by (eapply invariant_reached; [|done]; by apply calls_start).
  destruct (invariant_progress c Hi) as [Hf|[?|?]]; auto. right; right. split; [done|].
  intros mm l. by apply (invariant_finished c Hi Hf).
Qed.
End requests.

(** ** On the concrete machine *)

Definition some_calls : list call :=
  [mk_call (mk_context task1 42 0) VM_RESOLVE (UEntry request);
   mk_call (mk_context task1 42 1) VM_UPDATE (UEntry request);
   mk_call (mk_context task2 43 1) GET_ROOT (UPaging (mk_paging 42 0))].
(** The resolver has the lock, and so has the thread that asks for the root. *)
Definition some_turns : list nat := [0; 1; 2; 0; 0; 1; 2; 2; 0]%nat.

Lemma machine_free : all_free machine.
Proof.
  intros mm l Hl. assert (l = unlocked) as ->; [|done]. unfold locks in Hl. rewrite lookup_fmap in Hl. apply fmap_Some in Hl as (m & Hm & ->).
  cbn [k_mms machine] in Hm. apply lookup_insert_Some in Hm as [[_ <-]|[_ Hm]]; [done|].
  by apply lookup_singleton_Some in Hm as [_ <-].
Qed.

Lemma requests_exclude_witness : exists c,
  play some_turns (start_calls x86_cfg some_calls machine) = Some c /\
  (forall mm l, locks (cf_kernel c) !! mm = Some l ->
     sem_count l = mk_rwsem (holders (false, mm) (cf_threads c)) (0 <? holders (true, mm) (cf_threads c))%nat) /\
  (forall i j ti tj mm w, i <> j -> cf_threads c !! i = Some ti -> cf_threads c !! j = Some tj ->
     (true, mm) ∈ th_held ti -> (w, mm) ∉ th_held tj) /\
  (forall i t, cf_threads c !! i = Some t -> (length (th_held t) <= 1)%nat).
Proof.
  destruct (plays_Some some_turns (start_calls x86_cfg some_calls machine)) as [c Hc];
    [vm_compute; reflexivity|].
  exists c. split; [done|]. apply (requests_exclude x86_cfg some_calls machine c);
    [reflexivity|apply machine_free|repeat constructor|by eapply play_steps].
Defined.

Lemma requests_finish_witness :
  Acc (flip cstep) (start_calls x86_cfg some_calls machine) /\
  forall c, rtc cstep (start_calls x86_cfg some_calls machine) c ->
    (exists c', cstep c c') \/ faults c \/ Forall finished (cf_threads c) /\ all_free (cf_kernel c).
Proof.
  apply (requests_finish x86_cfg some_calls machine); [reflexivity|apply machine_free|repeat constructor].
Defined.
