(* ===== verification/Serial.v ===== *)
(** * Requests that change one address space

    The requests that take the lock of an address space for writing,
    [VM_UPDATE] and [SET_ROOT], made by several threads at once: however their
    actions interleave, the results and the state are those of making the
    requests one after the other.  [VM_RESOLVE] has no such theorem: it reads
    the entries after it has released the lock, and an example shows a result
    that no order of the requests gives. *)

From stdpp Require Import base tactics numbers list gmap relations.
From S2P Require Import Prelude Entry PhysMem Linux Kernel Machine KernelProps Requests Threads.
From S2P Require Import Exclusion Concurrent.
Local Open Scope Z_scope.
Local Open Scope prog_scope.

Section serial.
Context {P L T : Type} `{PhysMem P} `{RwSemLaws L} `{LinuxPT P} `{TlbOps T}.
Variable cfg : kconfig.
Implicit Types s : kernel P L T.

(** What a call returns and writes back. *)
Abbreviation result := (Z * ioctl_arg)%type.

(** The calls of a list one after the other, in a given order; the results are
    in this order, each with the number of its call. *)
Fixpoint serially (order : list nat) (calls : list call) s : option (list (nat * result) * kernel P L T) :=
  match order with
  | [] => Some ([], s)
  | i :: order =>
      c ← calls !! i;
      match device_ioctl cfg (cl_cmd c) (cl_arg c) (switch_to (cl_context c) s) with
      | Ret r s' => '(rs, s'') ← serially order calls s'; Some ((i, r) :: rs, s'')
      | _ => None
      end
  end.

Lemma serially_snoc order calls s rs s1 i c r s2 :
  serially order calls s = Some (rs, s1) -> calls !! i = Some c ->
  device_ioctl cfg (cl_cmd c) (cl_arg c) (switch_to (cl_context c) s1) = Ret r s2 ->
  serially (order ++ [i]) calls s = Some (rs ++ [(i, r)], s2).
Proof.
  intros Hs Hc Hr. revert s rs Hs. induction order as [|j order IH]; intros s rs Hs; cbn in Hs |- *.
  - injection Hs as <- <-. rewrite Hc. cbn. by rewrite Hr.
  - destruct (calls !! j) as [cj|]; [|done]. cbn in Hs |- *.
    destruct (device_ioctl cfg (cl_cmd cj) (cl_arg cj) (switch_to (cl_context cj) s)) as [rj sj| |]; [|done..].
    destruct (serially order calls sj) as [[rs' s'']|] eqn:E; cbn in Hs; [|done]. injection Hs as <- ->.
    rewrite (IH _ _ E). by cbn.
Qed.

(** Two states that differ at most in which thread runs. *)
Definition same_kernel s s' : Prop := forall x, switch_to x s = switch_to x s'.

(** A call that changes the address space [g], as [s] knows the processes. *)
Definition changes (g : Z) s (c : call) : Prop :=
  match cl_cmd c, cl_arg c with
  | VM_UPDATE, UEntry e => mm_of (switch_to (cl_context c) s) (pid e) = Some g
  | SET_ROOT, UPaging p => mm_of (switch_to (cl_context c) s) (pp_pid p) = Some g
  | _, _ => False
  end.

(** ** The shape of these requests *)

Section shape.
Variable (g : Z) (vpids : gmap Z (option task_struct)).

(** What all calls find until the end. *)
Definition stable s : Prop := k_vpids s = vpids /\ mm_is_locked s = false.

(** Between taking and releasing the lock; and before it is taken, when the
    actions find what does not change. *)
Fixpoint critical {A} (p : prog P L T A) : Prop :=
  match p with
  | Act m k => harmless m /\ forall s x s', mm_is_locked s = false -> m s = Ret x s' -> critical (k x)
  | Release w mm k => w = true /\ mm = g /\ exists r, k = Done r
  | _ => False
  end.
Fixpoint waiting {A} (c : context) (p : prog P L T A) : Prop :=
  match p with
  | Act m k => exists x, (forall s, stable s -> m (switch_to c s) = Ret x (switch_to c s)) /\ waiting c (k x)
  | Acquire w mm k => w = true /\ mm = g /\ critical k
  | _ => False
  end.

Lemma critical_pbind {A B} (p : prog P L T A) (k : A -> prog P L T B) :
  lockless p -> (forall a, critical (k a)) -> critical (pbind p k).
Proof.
  intros Hp Hk. induction p as [a|X m f IH|w mm p _|w mm p _]; cbn in *;
    [apply Hk|destruct Hp; eauto|done..].
Qed.

Lemma critical_flag {A} (k : bool -> prog P L T A) :
  critical (k false) -> critical (pbind (act (gets mm_is_locked)) k).
Proof.
  intros Hk. split; [by apply harmless_reader, reader_gets|]. intros s x s' Hs [= <- _]. by rewrite Hs.
Qed.

Lemma waiting_flag {A} c (k : bool -> prog P L T A) :
  waiting c (k false) -> waiting c (pbind (act (gets mm_is_locked)) k).
Proof. intros Hk. exists false. split; [|done]. intros s [_ Hs]. unfold gets. cbn. by rewrite Hs. Qed.

Lemma waiting_get_mm {A} c pid_ id (k : option Z -> prog P L T A) :
  (forall s, stable s -> mm_of (switch_to c s) pid_ = Some id) ->
  waiting c (k (Some id)) -> waiting c (pbind (act (get_mm pid_)) k).
Proof. intros Hm Hk. exists (Some id). split; [|done]. intros s Hs. by rewrite get_mm_run, Hm. Qed.

Lemma critical_then {A B} (p : prog P L T A) (k : A -> prog P L T B) :
  critical p -> (forall a, exists b, k a = Done b) -> critical (pbind p k).
Proof.
  intros Hp Hk. induction p as [a|X m f IH|w mm p _|w mm p _]; cbn in *; [done|destruct Hp; eauto|done|].
  destruct Hp as (-> & -> & a & ->). split_and!; [done..|]. apply Hk.
Qed.

Lemma waiting_then {A B} c (p : prog P L T A) (k : A -> prog P L T B) :
  waiting c p -> (forall a, exists b, k a = Done b) -> waiting c (pbind p k).
Proof.
  intros Hp Hk. induction p as [a|X m f IH|w mm p _|w mm p _]; cbn in *; [done| | |done].
  - destruct Hp as (x & ? & ?). eauto.
  - destruct Hp as (-> & -> & ?). split_and!; [done..|]. by apply critical_then.
Qed.
End shape.

Lemma mm_of_stable c s s' pid_ : k_vpids s = k_vpids s' ->
  mm_of (switch_to c s) pid_ = mm_of (switch_to c s') pid_.
Proof. intros Hv. unfold mm_of, task_of. cbn [k_vpids k_current switch_to]. by rewrite Hv. Qed.

Lemma changes_waiting g s c : changes g s c ->
  waiting g (k_vpids s) (cl_context c) (device_ioctl_prog cfg (cl_cmd c) (cl_arg c)).
Proof.
  destruct c as [x cmd arg]. unfold changes. cbn [cl_context cl_cmd cl_arg].
  destruct cmd; try done; destruct arg; try done; intros Hm; cbn [device_ioctl_prog].
  - apply waiting_flag, waiting_then; [|eauto]. apply (waiting_get_mm _ _ _ _ g).
    { intros s' [Hv _]. by rewrite (mm_of_stable _ _ _ _ Hv). }
    split_and!; [done..|]. cbn [pbind].
    repeat (apply critical_pbind; [solve [auto with lockless]|intros ?]). split_and!; eauto.
  - apply (waiting_get_mm _ _ _ _ g).
    { intros s' [Hv _]. by rewrite (mm_of_stable _ _ _ _ Hv). }
    apply waiting_flag. split_and!; [done..|]. cbn [pbind].
    apply critical_pbind; [apply lockless_act, harmless_set_pgd|]. intros _.
    apply critical_flag. split_and!; eauto.
Qed.

(** ** The simulation *)

Section simulation.
Variables (calls : list call) (s0 : kernel P L T) (g : Z) (l : L).
Abbreviation V := (k_vpids s0).

(** The calls that have ended so far, in the order in which they released the
    lock, have led the sequential execution to [sq]; [owner] is the thread that has
    the lock.  A thread waits for it, has it, or has ended. *)
Definition phase (sq s : kernel P L T) (ended : list (nat * result)) (owner : option nat)
    (i : nat) (c : call) (t : thread P L T result) : Prop :=
  th_context t = cl_context c /\
  ((waiting g V (cl_context c) (th_prog t) /\ owner <> Some i /\ (i ∉ ended.*1) /\
    forall z, stable V z -> run (th_prog t) (switch_to (cl_context c) z) =
      device_ioctl cfg (cl_cmd c) (cl_arg c) (switch_to (cl_context c) z)) \/
   (critical g (th_prog t) /\ owner = Some i /\ (i ∉ ended.*1) /\
    run (th_prog t) (switch_to (cl_context c) s) =
      device_ioctl cfg (cl_cmd c) (cl_arg c) (switch_to (cl_context c) sq)) \/
   (exists r, th_prog t = Done r /\ owner <> Some i /\ (i, r) ∈ ended)).

Record simulates (ts : list (thread P L T result)) (s sq : kernel P L T)
    (ended : list (nat * result)) (owner : option nat) : Prop := {
  sm_serially : serially ended.*1 calls s0 = Some (ended, sq);
  sm_nodup : NoDup ended.*1;
  sm_calls : forall i r, (i, r) ∈ ended -> is_Some (calls !! i);
  sm_length : length ts = length calls;
  sm_phase i c t : calls !! i = Some c -> ts !! i = Some t -> phase sq s ended owner i c t;
  sm_stable : stable V s;
  sm_stable_sq : stable V sq;
  sm_free : locks sq !! g = Some l;
  sm_owner : match owner with
             | None => same_kernel s sq
             | Some i => is_Some (calls !! i) /\
                 exists l', locks s !! g = Some l' /\ down_write l = Some l'
             end }.

(** A number occurs once, with one result. *)
Lemma NoDup_fst {A B} (xs : list (A * B)) a b b' :
  NoDup xs.*1 -> (a, b) ∈ xs -> (a, b') ∈ xs -> b = b'.
Proof.
  induction xs as [|[x y] xs IH]; cbn; intros Hnd Hb Hb'; [by apply not_elem_of_nil in Hb|].
  apply NoDup_cons in Hnd as [Hx Hnd].
  apply elem_of_cons in Hb as [Hb|Hb]; apply elem_of_cons in Hb' as [Hb'|Hb']; simplify_eq; [done| | |by eapply IH].
  - destruct Hx. apply list_elem_of_fmap. by exists (x, b').
  - destruct Hx. apply list_elem_of_fmap. by exists (x, b).
Qed.

(** What another thread's action must leave for a thread to stay in its phase. *)
Lemma phase_other sq s ended owner sq' s' ended' owner' i c t :
  phase sq s ended owner i c t -> (owner' = Some i <-> owner = Some i) ->
  (owner = Some i -> sq' = sq /\ same_kernel s' s) ->
  (forall r, (i, r) ∈ ended -> (i, r) ∈ ended') -> ((i ∉ ended.*1) -> i ∉ ended'.*1) ->
  phase sq' s' ended' owner' i c t.
Proof.
  intros [Hc Hp] Ho Hs Hin Hni. split; [done|].
  destruct Hp as [(Hw & Hn & Hi & Hr)|[(Hw & Hn & Hi & Hr)|(r & Hr & Hn & Hi)]].
  - left. split_and!; auto. by rewrite Ho.
  - right; left. destruct (Hs Hn) as [-> Hk]. split_and!; auto; [by apply Ho|]. by rewrite Hk.
  - right; right. exists r. split_and!; auto. by rewrite Ho.
Qed.

Lemma context_frame c s s' : frame s' = frame (switch_to c s) -> switch_to c s' = s'.
Proof. unfold frame. intros [= Ht Hp Hc _ _ _]. destruct s'. unfold switch_to. cbn in *. by rewrite Ht, Hp, Hc. Qed.

Lemma context_lock_mm f id c s x s' : lock_mm f id (switch_to c s) = Ret x s' ->
  switch_to c s' = s' /\ k_vpids s' = k_vpids s /\ mm_is_locked s' = mm_is_locked s.
Proof.
  intros Hs. destruct (k_mms (switch_to c s) !! id) as [mm|] eqn:Hmm; [|by rewrite lock_mm_undef in Hs].
  rewrite (lock_mm_run _ _ _ _ Hmm) in Hs. destruct (f (mmap_sem mm)); [|done]. by injection Hs as _ <-.
Qed.

(** The number of the thread that acts, and what the others keep. *)
Lemma phases_insert ts s sq ended owner sq' s' ended' owner' i t' :
  simulates ts s sq ended owner ->
  (forall c, calls !! i = Some c -> phase sq' s' ended' owner' i c t') ->
  (forall j, j <> i -> (owner' = Some j <-> owner = Some j) /\
    (owner = Some j -> sq' = sq /\ same_kernel s' s) /\
    (forall r, (j, r) ∈ ended -> (j, r) ∈ ended') /\ ((j ∉ ended.*1) -> j ∉ ended'.*1)) ->
  forall j c t, calls !! j = Some c -> <[i := t']> ts !! j = Some t -> phase sq' s' ended' owner' j c t.
Proof.
  intros Hsim Hi Hj j c t Hc Ht. destruct (decide (j = i)) as [->|Hne].
  - apply list_lookup_insert_Some in Ht as [(_ & -> & _)|[Hne _]]; [by apply Hi|done].
  - rewrite list_lookup_insert_ne in Ht by done. destruct (Hj j Hne) as (? & ? & ? & ?).
    eapply phase_other; [by eapply sm_phase|done..].
Qed.

Lemma step_waiting {X} ts s sq ended owner i c held (m : M (kernel P L T) X) k x :
  simulates ts s sq ended owner -> calls !! i = Some c -> owner <> Some i -> i ∉ ended.*1 ->
  (forall z, stable V z -> m (switch_to (cl_context c) z) = Ret x (switch_to (cl_context c) z)) ->
  waiting g V (cl_context c) (k x) ->
  (forall z, stable V z -> run (Act m k) (switch_to (cl_context c) z) =
      device_ioctl cfg (cl_cmd c) (cl_arg c) (switch_to (cl_context c) z)) ->
  simulates (<[i := mk_thread (cl_context c) held (k x)]> ts) (switch_to (cl_context c) s) sq ended owner.
Proof.
  intros Hsim Hc Ho Hni Hm Hk Hr. split; try by destruct Hsim.
  - rewrite length_insert. by destruct Hsim.
  - eapply phases_insert; [done| |done]. intros c' Hc'. assert (c' = c) as -> by congruence. split; [done|]. left.
    split_and!; [done..|]. intros z Hz. rewrite <- Hr by done. cbn [run]. by rewrite (bind_Ret _ _ _ _ _ (Hm z Hz)).
Qed.

Lemma step_acquire ts s sq ended owner i c held k s' :
  simulates ts s sq ended owner -> calls !! i = Some c -> i ∉ ended.*1 -> critical g k ->
  (forall z, stable V z -> run (Acquire true g k) (switch_to (cl_context c) z) =
      device_ioctl cfg (cl_cmd c) (cl_arg c) (switch_to (cl_context c) z)) ->
  acquire_mm true g (switch_to (cl_context c) s) = Ret tt s' ->
  simulates (<[i := mk_thread (cl_context c) held k]> ts) s' sq ended (Some i).
Proof.
  intros Hsim Hc Hni Hk Hr Hs. pose proof (context_lock_mm _ _ _ _ _ _ Hs) as (Hx & Hv & Hu).
  pose proof (lock_mm_Ret _ _ _ _ _ Hs) as (l1 & l1' & Hl1 & Hd & Hl'). rewrite locks_switch in Hl1, Hl'.
  assert (owner = None) as ->.
  { destruct owner as [j|]; [exfalso|done]. destruct (sm_owner _ _ _ _ _ Hsim) as (_ & l' & Hg & Hd').
    destruct (writer_excludes _ _ Hd') as [_ Hn]. congruence. }
  pose proof (sm_owner _ _ _ _ _ Hsim) as Hsame. cbn in Hsame.
  assert (l1 = l) as ->.
  { pose proof (sm_free _ _ _ _ _ Hsim) as Hf. rewrite <- (locks_switch (cl_context c)), <- Hsame, locks_switch in Hf.
    congruence. }
  split; try by destruct Hsim.
  - rewrite length_insert. by destruct Hsim.
  - eapply phases_insert; [done| |].
    + intros c' Hc'. assert (c' = c) as -> by congruence. split; [done|]. right; left. split_and!; [done..|].
      rewrite <- Hr by by destruct Hsim. rewrite Hx. cbn [run]. rewrite <- Hsame.
      by rewrite (bind_Ret _ _ _ _ _ Hs).
    + intros j Hj. split_and!; [|done..]. split; congruence.
  - destruct (sm_stable _ _ _ _ _ Hsim). split; congruence.
  - split; [by eexists|]. exists l1'. rewrite Hl'. by rewrite lookup_insert_eq.
Qed.

Lemma step_critical {X} ts s sq ended i c held (m : M (kernel P L T) X) k x s' :
  simulates ts s sq ended (Some i) -> calls !! i = Some c -> i ∉ ended.*1 -> harmless m ->
  critical g (k x) ->
  run (Act m k) (switch_to (cl_context c) s) =
    device_ioctl cfg (cl_cmd c) (cl_arg c) (switch_to (cl_context c) sq) ->
  m (switch_to (cl_context c) s) = Ret x s' ->
  simulates (<[i := mk_thread (cl_context c) held (k x)]> ts) s' sq ended (Some i).
Proof.
  intros Hsim Hc Hni Hm Hk Hr Hs. specialize (Hm (switch_to (cl_context c) s)). rewrite Hs in Hm.
  split; try by destruct Hsim.
  - rewrite length_insert. by destruct Hsim.
  - eapply phases_insert; [done| |].
    + intros c' Hc'. assert (c' = c) as -> by congruence. split; [done|]. right; left. split_and!; [done..|].
      rewrite (context_frame _ _ _ Hm), <- Hr. cbn [run]. by rewrite (bind_Ret _ _ _ _ _ Hs).
    + intros j Hj. split_and!; [done| |done..]. intros [= ->]. done.
  - destruct (sm_stable _ _ _ _ _ Hsim). unfold frame in Hm. injection Hm as _ _ _ Hv Hu _.
    split; [by rewrite Hv|by rewrite Hu].
  - destruct (sm_owner _ _ _ _ _ Hsim) as (? & l' & Hl & Hd). split; [done|]. exists l'. split; [|done].
    by rewrite (frame_locks _ _ Hm).
Qed.

Lemma step_release ts s sq ended i c held r s' :
  simulates ts s sq ended (Some i) -> calls !! i = Some c -> i ∉ ended.*1 ->
  run (Release true g (Done r)) (switch_to (cl_context c) s) =
    device_ioctl cfg (cl_cmd c) (cl_arg c) (switch_to (cl_context c) sq) ->
  release_mm true g (switch_to (cl_context c) s) = Ret tt s' ->
  simulates (<[i := mk_thread (cl_context c) held (Done r)]> ts) s' s' (ended ++ [(i, r)]) None.
Proof.
  intros Hsim Hc Hni Hr Hs. pose proof Hs as Hs'. rewrite release_mm_lock in Hs'.
  pose proof (context_lock_mm _ _ _ _ _ _ Hs') as (Hx & Hv & Hu).
  pose proof (lock_mm_Ret _ _ _ _ _ Hs') as (l1 & l1' & Hl1 & [= <-] & Hl'). rewrite locks_switch in Hl1, Hl'.
  destruct (sm_owner _ _ _ _ _ Hsim) as (_ & l' & Hl & Hd).
  assert (stable V s') as Hst by (destruct (sm_stable _ _ _ _ _ Hsim); split; congruence).
  split; try done; try rewrite fmap_app.
  - eapply serially_snoc; [by destruct Hsim|done|]. rewrite <- Hr. cbn [run].
    by rewrite (bind_Ret _ _ _ _ _ Hs).
  - apply NoDup_app. split_and!; [by destruct Hsim| |apply NoDup_singleton].
    intros j Hj Hj'. cbn in Hj'. apply list_elem_of_singleton in Hj' as ->. done.
  - intros j rj [Hj|Hj]%elem_of_app; [by eapply sm_calls|].
    apply list_elem_of_singleton in Hj as [= -> ->]. by eexists.
  - rewrite length_insert. by destruct Hsim.
  - eapply phases_insert; [done| |].
    + intros c' Hc'. assert (c' = c) as -> by congruence. split; [done|]. right; right. exists r. split_and!; [done..|].
      apply elem_of_app. right. by left.
    + intros j Hj. split_and!; [split; congruence|congruence| |].
      * intros rj Hrj. apply elem_of_app. by left.
      * intros Hn. rewrite fmap_app, elem_of_app. intros [?|?%list_elem_of_singleton]; [done|]. done.
  - rewrite Hl', lookup_insert_eq. f_equal. assert (l1 = l') as -> by congruence. by apply up_down_write.
Qed.

Lemma simulates_step ts s sq ended owner c' :
  simulates ts s sq ended owner -> cstep (mk_config ts s) c' ->
  exists sq' ended' owner', simulates (cf_threads c') (cf_kernel c') sq' ended' owner'.
Proof.
  intros Hsim Hc. inversion Hc as [i t m t' ? ? s' Ht Hn Hm]; subst. cbn [cf_threads cf_kernel].
  assert (is_Some (calls !! i)) as [c Hci].
  { apply lookup_lt_is_Some. rewrite <- (sm_length _ _ _ _ _ Hsim). by eapply lookup_lt_Some. }
  destruct (sm_phase _ _ _ _ _ Hsim i c t Hci Ht) as [Hctx Hp]. destruct t as [x held p].
  unfold next in Hn. cbn [th_context th_held th_prog] in *. subst x.
  destruct p as [a|X n k|w mm k|w mm k]; [done|..]; injection Hn as <-;
    apply bind_Ret_inv in Hm as (x & s1 & Hm & [= <- <-]);
    destruct Hp as [(Hw & Ho & Hni & Hr)|[(Hw & -> & Hni & Hr)|(? & ? & _)]]; try done; cbn in Hw.
  - destruct Hw as (y & Hy & Hk). rewrite Hy in Hm by by destruct Hsim. injection Hm as <- <-.
    do 3 eexists. by eapply step_waiting.
  - destruct Hw as [Hn Hk]. do 3 eexists. eapply step_critical; try done.
    eapply (Hk (switch_to (cl_context c) s)); [|done]. by destruct (sm_stable _ _ _ _ _ Hsim).
  - destruct Hw as (-> & -> & Hk). destruct x. do 3 eexists. by eapply step_acquire.
  - destruct Hw as (-> & -> & r & ->). destruct x. do 3 eexists. by eapply step_release.
Qed.

Lemma simulates_start : mm_is_locked s0 = false -> locks s0 !! g = Some l ->
  Forall (changes g s0) calls -> simulates (start_call cfg <$> calls) s0 s0 [] None.
Proof.
  intros Hu Hl Hch. split; try done.
  - apply NoDup_nil_2.
  - intros i r Hi. by apply not_elem_of_nil in Hi.
  - by rewrite length_fmap.
  - intros i c t Hc Ht. rewrite list_lookup_fmap, Hc in Ht. injection Ht as <-. split; [done|]. left.
    split_and!; [|done|apply not_elem_of_nil|].
    + apply changes_waiting. by eapply Forall_lookup in Hch.
    + intros z _. apply device_ioctl_implements.
Qed.

Lemma simulates_reached ts s sq ended owner c' :
  simulates ts s sq ended owner -> rtc cstep (mk_config ts s) c' ->
  exists sq' ended' owner', simulates (cf_threads c') (cf_kernel c') sq' ended' owner'.
Proof.
  intros Hsim Hr. remember (mk_config ts s) as c eqn:Hc. revert ts s sq ended owner Hsim Hc.
  induction Hr as [c|c c1 c' Hs Hr IH]; intros ts s sq ended owner Hsim ->; [eauto|].
  destruct (simulates_step _ _ _ _ _ _ Hsim Hs) as (? & ? & ? & ?), c1. by eapply IH.
Qed.

(** When all threads have ended, so have all calls of the sequential
    execution, with the same results. *)
Lemma simulates_end ts s sq ended owner : simulates ts s sq ended owner -> Forall finished ts ->
  owner = None /\ (forall i, is_Some (calls !! i) -> i ∈ ended.*1) /\
  forall i r, (i, r) ∈ ended -> exists t, ts !! i = Some t /\ th_prog t = Done r.
Proof.
  intros Hsim Hf.
  assert (forall i c, calls !! i = Some c -> exists t r, ts !! i = Some t /\ th_prog t = Done r /\
    owner <> Some i /\ (i, r) ∈ ended) as Hend.
  { intros i c Hc. assert (is_Some (ts !! i)) as [t Ht].
    { apply lookup_lt_is_Some. rewrite (sm_length _ _ _ _ _ Hsim). by eapply lookup_lt_Some. }
    eapply Forall_lookup in Hf as [a Ha]; [|exact Ht]. exists t.
    destruct (sm_phase _ _ _ _ _ Hsim i c t Hc Ht) as [_ [(Hw & _)|[(Hw & _)|(r & Hr & Ho & Hi)]]];
      [by rewrite Ha in Hw..|eauto]. }
  split_and!.
  - destruct owner as [i|]; [exfalso|done]. destruct (sm_owner _ _ _ _ _ Hsim) as ([c Hc] & _).
    destruct (Hend i c Hc) as (t & r & _ & _ & Hn & _). done.
  - intros i [c Hc]. destruct (Hend i c Hc) as (t & r & _ & _ & _ & Hi).
    apply list_elem_of_fmap. by exists (i, r).
  - intros i r Hi. destruct (sm_calls _ _ _ _ _ Hsim i r Hi) as [c Hc].
    destruct (Hend i c Hc) as (t & r' & Ht & Hp & _ & Hi').
    exists t. split; [done|]. by rewrite <- (NoDup_fst _ _ _ _ (sm_nodup _ _ _ _ _ Hsim) Hi' Hi).
Qed.
End simulation.

(** ** The theorem *)

(** C23: threads that make any number of [VM_UPDATE] and [SET_ROOT] requests
    for one address space at the same time, to a module that is not in the
    locked state, are serializable: when all have their
    results, however their actions interleaved, there is an order of the requests
    in which [device_ioctl], called for one after the other, gives every
    thread the same result and leads to the same state, up to which thread runs. *)
Theorem updates_serialize calls s g c : mm_is_locked s = false -> is_Some (locks s !! g) ->
  Forall (changes g s) calls -> rtc cstep (start_calls cfg calls s) c -> Forall finished (cf_threads c) ->
  exists order results s', order ≡ₚ seq 0 (length calls) /\
    serially order calls s = Some (results, s') /\
    (forall i r, (i, r) ∈ results -> exists t, cf_threads c !! i = Some t /\ th_prog t = Done r) /\
    same_kernel (cf_kernel c) s'.
Proof.
  intros Hu [l Hl] Hc Hr Hf.
  destruct (simulates_reached calls s g l _ _ _ _ _ _ (simulates_start calls s g l Hu Hl Hc) Hr)
    as (sq & ended & owner & Hsim).
  destruct (simulates_end _ _ _ _ _ _ _ _ _ Hsim Hf) as (-> & Hall & Hres).
  exists ended.*1, ended, sq. split_and!; try by destruct Hsim.
  apply NoDup_Permutation; [by destruct Hsim|apply NoDup_seq|]. intros i.
  rewrite elem_of_seq. split.
  - intros ([? r] & -> & Hi)%list_elem_of_fmap. apply (sm_calls _ _ _ _ _ _ _ _ _ Hsim), lookup_lt_is_Some in Hi.
    cbn. lia.
  - intros [_ Hi]. apply Hall, lookup_lt_is_Some. lia.
Qed.
End serial.

(** ** On the concrete machine *)

(** Two processors run threads of the process that has the pid 42. *)
Definition thread1 : context := mk_context task1 42 0.
Definition thread2 : context := mk_context task1 42 1.

(** One thread changes the pmd and the pte of an address that the other one
    resolves. *)
Definition change_two : ptedit_entry_t := mk_entry 0 0x40201234 0 0 0 0x4027 0x6067 24.
Definition racing : list call :=
  [mk_call thread1 VM_RESOLVE (UEntry change_two); mk_call thread2 VM_UPDATE (UEntry change_two)].
(** The resolver has released the lock and read the pmd when the update begins. *)
Definition race : list nat := replicate 20 0%nat ++ replicate 22 1%nat ++ replicate 2 0%nat.
(** The old pmd, and the new pte. *)
Definition torn : ptedit_entry_t := mk_entry 0 0x40201234 0x2067 0x2067 0x3067 0x4067 0x6067 31.

(** C26: [VM_RESOLVE] is not serializable: with a [VM_UPDATE] of the pmd and the
    pte of the same address by another thread, an execution exists in which
    both requests end and it returns the old pmd with the new pte; in neither
    order of the two requests does it return this.  It reads the entries through the
    pointers it found only after it has released the lock. *)
Theorem resolve_torn :
  (exists c, rtc cstep (start_calls x86_cfg racing machine) c /\
     outcomes c = Some [(0, UEntry torn); (0, UEntry change_two)]) /\
  forall order results s', order ≡ₚ [0; 1]%nat ->
    serially x86_cfg order racing machine = Some (results, s') -> (0%nat, (0, UEntry torn)) ∉ results.
Proof.
  split; [apply (play_outcomes race); vm_compute; reflexivity|].
  intros order results s' Ho Hs.
  apply (f_equal (fmap fst)) in Hs. symmetry in Ho.
  apply Permutation_length_2_inv in Ho as [-> | ->]; vm_compute in Hs; injection Hs as <-;
    intros [E|[E|E%not_elem_of_nil]%elem_of_cons]%elem_of_cons; done.
Qed.

(** Two updates and a new root of one address space, with actions in turns. *)
Definition change_pte : ptedit_entry_t := mk_entry 42 0x40201234 0 0 0 0 0x7067 16.
Definition changing : list call :=
  [mk_call thread1 VM_UPDATE (UEntry change_two); mk_call thread2 VM_UPDATE (UEntry change_pte);
   mk_call thread2 SET_ROOT (UPaging (mk_paging 42 0x1000))].
Definition turns : list nat :=
  [0; 1; 2; 1; 0; 2; 1]%nat ++ replicate 18 1%nat ++ replicate 20 0%nat ++ replicate 4 2%nat.

Lemma updates_serialize_witness : exists c,
  play turns (start_calls x86_cfg changing machine) = Some c /\
  exists order results s', order ≡ₚ seq 0 3 /\
    serially x86_cfg order changing machine = Some (results, s') /\
    (forall i r, (i, r) ∈ results -> exists t, cf_threads c !! i = Some t /\ th_prog t = Done r) /\
    same_kernel (cf_kernel c) s'.
Proof.
  destruct (plays_out_finished turns (start_calls x86_cfg changing machine)) as (c & Hc & Hf);
    [vm_compute; reflexivity|].
  exists c. split; [done|].
  apply (updates_serialize x86_cfg changing machine 1 c);
    [reflexivity|by eexists|repeat constructor|by eapply play_steps|done].
Defined.
