(* ===== verification/Lib.v ===== *)
(** * The user-space library

    [ptedit.c] on Linux: the library's globals, its use of the device and of
    [/proc/umem], initialisation and clean-up, the implementations it can
    switch between, and the functions that need the kernel module.  The state
    has the library's globals, the open files of the process and the kernel
    behind them. *)

From stdpp Require Import base tactics numbers list gmap.
From S2P Require Import Prelude Entry MemType PhysMem Linux Kernel Walk Pte.
Local Open Scope Z_scope.

(** ** State *)

Inductive file := device_file | umem_file.

#[export] Instance file_eq_dec : EqDecision file.
Proof. solve_decision. Defined.

(** The function pointers [ptedit_resolve] and [ptedit_update]. *)
Inductive resolve_fn := resolve_null | resolve_kernel_fn | resolve_user_fn | resolve_user_map_fn.
Inductive update_fn := update_null | update_kernel_fn | update_user_fn | update_user_map_fn.

(** [ptedit_vmem]: null, [MAP_FAILED], or a mapping of physical memory. *)
Inductive vmem := vmem_null | vmem_failed | vmem_mapped.

Record lib (P L T : Type) := mk_lib {
  (** the system *)
  l_kernel : kernel P L T;
  l_files : gmap Z file;
  l_has_device : bool;
  l_has_umem : bool;
  (** the globals of the library *)
  ptedit_fd : Z;
  ptedit_umem : Z;
  ptedit_pagesize : Z;
  ptedit_paging_root : Z;
  ptedit_vmem : vmem;
  ptedit_paging_definition : ptedit_paging_definition_t;
  resolve_pointer : resolve_fn;
  update_pointer : update_fn }.
Arguments mk_lib {P L T}.
Arguments l_kernel {P L T} l.
Arguments l_files {P L T} l.
Arguments l_has_device {P L T} l.
Arguments l_has_umem {P L T} l.
Arguments ptedit_fd {P L T} l.
Arguments ptedit_umem {P L T} l.
Arguments ptedit_pagesize {P L T} l.
Arguments ptedit_paging_root {P L T} l.
Arguments ptedit_vmem {P L T} l.
Arguments ptedit_paging_definition {P L T} l.
Arguments resolve_pointer {P L T} l.
Arguments update_pointer {P L T} l.

Section setters.
Context {P L T : Type}.
Implicit Types l : lib P L T.
Definition with_kernel v l : lib P L T := mk_lib v (l_files l) (l_has_device l) (l_has_umem l)
  (ptedit_fd l) (ptedit_umem l) (ptedit_pagesize l) (ptedit_paging_root l) (ptedit_vmem l)
  (ptedit_paging_definition l) (resolve_pointer l) (update_pointer l).
Definition with_files v l : lib P L T := mk_lib (l_kernel l) v (l_has_device l) (l_has_umem l)
  (ptedit_fd l) (ptedit_umem l) (ptedit_pagesize l) (ptedit_paging_root l) (ptedit_vmem l)
  (ptedit_paging_definition l) (resolve_pointer l) (update_pointer l).
Definition with_fd v l : lib P L T := mk_lib (l_kernel l) (l_files l) (l_has_device l) (l_has_umem l)
  v (ptedit_umem l) (ptedit_pagesize l) (ptedit_paging_root l) (ptedit_vmem l)
  (ptedit_paging_definition l) (resolve_pointer l) (update_pointer l).
Definition with_umem v l : lib P L T := mk_lib (l_kernel l) (l_files l) (l_has_device l) (l_has_umem l)
  (ptedit_fd l) v (ptedit_pagesize l) (ptedit_paging_root l) (ptedit_vmem l)
  (ptedit_paging_definition l) (resolve_pointer l) (update_pointer l).
Definition with_pagesize v l : lib P L T := mk_lib (l_kernel l) (l_files l) (l_has_device l)
  (l_has_umem l) (ptedit_fd l) (ptedit_umem l) v (ptedit_paging_root l) (ptedit_vmem l)
  (ptedit_paging_definition l) (resolve_pointer l) (update_pointer l).
Definition with_paging_root v l : lib P L T := mk_lib (l_kernel l) (l_files l) (l_has_device l)
  (l_has_umem l) (ptedit_fd l) (ptedit_umem l) (ptedit_pagesize l) v (ptedit_vmem l)
  (ptedit_paging_definition l) (resolve_pointer l) (update_pointer l).
Definition with_vmem v l : lib P L T := mk_lib (l_kernel l) (l_files l) (l_has_device l)
  (l_has_umem l) (ptedit_fd l) (ptedit_umem l) (ptedit_pagesize l) (ptedit_paging_root l) v
  (ptedit_paging_definition l) (resolve_pointer l) (update_pointer l).
Definition with_definition v l : lib P L T := mk_lib (l_kernel l) (l_files l) (l_has_device l)
  (l_has_umem l) (ptedit_fd l) (ptedit_umem l) (ptedit_pagesize l) (ptedit_paging_root l)
  (ptedit_vmem l) v (resolve_pointer l) (update_pointer l).
Definition with_pointers r u l : lib P L T := mk_lib (l_kernel l) (l_files l) (l_has_device l)
  (l_has_umem l) (ptedit_fd l) (ptedit_umem l) (ptedit_pagesize l) (ptedit_paging_root l)
  (ptedit_vmem l) (ptedit_paging_definition l) r u.
End setters.

Definition PTEDIT_IMPL_KERNEL : Z := 0.
Definition PTEDIT_IMPL_USER_PREAD : Z := 1.
Definition PTEDIT_IMPL_USER : Z := 2.

(** [32ull << 30ull], the length of the mapping of physical memory. *)
Definition window : Z := Z.shiftl 32 30.

(** The C library and the system calls, as far as the library depends on
    them: the page size [getpagesize] returns, and whether [mmap] of the
    memory file succeeds. *)
Record lconfig := mk_lconfig { lc_pagesize : Z; lc_mmap : bool }.

Section operations.
Context {P L T : Type} `{PhysMem P} `{RwSem L} `{LinuxPT P} `{TlbOps T}.
Variable cfg : kconfig.
Variable lcfg : lconfig.
Abbreviation LM := (M (lib P L T)).

(** *** System calls *)

(** A computation of the kernel, from the library. *)
Definition kernel_call {A} (m : M (kernel P L T) A) : LM A := fun l =>
  match m (l_kernel l) with
  | Ret a k => Ret a (with_kernel k l)
  | Sleep k => Sleep (with_kernel k l)
  | Undef => Undef
  end.

(** The result is the return value and the argument as the caller sees it
    afterwards. *)
Definition ioctl (fd : Z) (cmd : ioctl_cmd) (arg : ioctl_arg) : LM (Z * ioctl_arg) :=
  let* files := gets l_files in
  match files !! fd with
  | Some device_file => kernel_call (device_ioctl cfg cmd arg)
  | _ => ret (-1, arg)
  end.

(** The lowest descriptor that is not in use. *)
Fixpoint free_fd (n : nat) (fd : Z) (files : gmap Z file) : Z :=
  match n with
  | O => fd
  | S n => if decide (is_Some (files !! fd)) then free_fd n (fd + 1) files else fd
  end.

Definition new_file (f : file) : LM Z :=
  let* files := gets l_files in
  let fd := free_fd (S (size files)) 0 files in
  modify (with_files (<[fd := f]> files)) ;;;
  ret fd.

(** [open(PTEDITOR_DEVICE_PATH, O_RDONLY)] *)
Definition open_device : LM Z :=
  let* has := gets l_has_device in
  if has then
    let* r := kernel_call device_open in
    if r =? 0 then new_file device_file else ret (-1)
  else ret (-1).

(** [open("/proc/umem", O_RDWR)] *)
Definition open_umem : LM Z :=
  let* has := gets l_has_umem in
  if has then new_file umem_file else ret (-1).

Definition close (fd : Z) : LM Z :=
  let* files := gets l_files in
  match files !! fd with
  | None => ret (-1)
  | Some f =>
      modify (with_files (delete fd files)) ;;;
      match f with
      | device_file => let* _ := kernel_call device_release in ret 0
      | umem_file => ret 0
      end
  end.

(** [pread] of the memory file at a file offset, [None] for -1; [off_t] is
    signed, and a negative offset is refused. *)
Definition pread (fd : Z) (n : nat) (offset : Z) : LM (option (list Z)) :=
  let* files := gets l_files in
  let* k := gets l_kernel in
  ret (match files !! fd with
       | Some umem_file => if offset <? 2 ^ 63 then pm_read (k_mem k) offset n else None
       | _ => None
       end).

(** [pwrite]; the result is whether it did not return -1. *)
Definition pwrite (fd : Z) (bs : list Z) (offset : Z) : LM bool :=
  let* files := gets l_files in
  let* k := gets l_kernel in
  match files !! fd with
  | Some umem_file =>
      match (if offset <? 2 ^ 63 then pm_write (k_mem k) offset bs else None) with
      | Some m => modify (with_kernel (with_mem m k)) ;;; ret true
      | None => ret false
      end
  | _ => ret false
  end.

(** *** Physical memory *)

Definition ptedit_phys_read_map (address : Z) : LM Z :=
  let* v := gets ptedit_vmem in
  let* k := gets l_kernel in
  match v with
  | vmem_mapped => if address + 8 <=? window then defined (load64 (k_mem k) address) else undef
  | _ => undef
  end.

Definition ptedit_phys_write_map (address value : Z) : LM unit :=
  let* v := gets ptedit_vmem in
  let* k := gets l_kernel in
  match v with
  | vmem_mapped =>
      if address + 8 <=? window then
        let* m := defined (store64 (k_mem k) address value) in
        modify (with_kernel (with_mem m k))
      else undef
  | _ => undef
  end.

(** [val] is 0 before the call, and a short read fills its low bytes only. *)
Definition ptedit_phys_read_pread (address : Z) : LM Z :=
  let* umem := gets ptedit_umem in
  let* r := pread umem 8 address in
  match r with
  | None => ret 0
  | Some bs => ret (word_of bs)
  end.

Definition ptedit_phys_write_pwrite (address value : Z) : LM unit :=
  let* umem := gets ptedit_umem in
  let* _ := pwrite umem (bytes_of 8 value) address in
  ret tt.

(** *** Requests to the module *)

Definition ptedit_resolve_kernel (address pid_ : Z) : LM ptedit_entry_t :=
  let vm := set_pid (wrap64 pid_) (set_vaddr address zero_entry) in
  let* fd := gets ptedit_fd in
  let* r := ioctl fd VM_RESOLVE (UEntry vm) in
  match snd r with UEntry vm => ret vm | _ => undef end.

Definition ptedit_update_kernel (address pid_ : Z) (vm : ptedit_entry_t) : LM ptedit_entry_t :=
  let vm := set_pid (wrap64 pid_) (set_vaddr address vm) in
  let* fd := gets ptedit_fd in
  let* r := ioctl fd VM_UPDATE (UEntry vm) in
  match snd r with UEntry vm => ret vm | _ => undef end.

(** The return value is converted to [int]. *)
Definition ptedit_get_pagesize : LM Z :=
  let* fd := gets ptedit_fd in
  let* r := ioctl fd GET_PAGESIZE (UValue 0) in
  ret (to_int (fst r)).

Definition ptedit_get_paging_root (pid_ : Z) : LM Z :=
  let* fd := gets ptedit_fd in
  let* r := ioctl fd GET_ROOT (UPaging (mk_paging (wrap64 pid_) 0)) in
  match snd r with UPaging cr3 => ret (pp_root cr3) | _ => undef end.

Definition ptedit_set_paging_root (pid_ root : Z) : LM unit :=
  let* fd := gets ptedit_fd in
  let* _ := ioctl fd SET_ROOT (UPaging (mk_paging (wrap64 pid_) root)) in
  ret tt.

Definition ptedit_invalidate_tlb (address : Z) : LM unit :=
  let* fd := gets ptedit_fd in
  let* _ := ioctl fd INVALIDATE_TLB (UValue address) in
  ret tt.

Definition ptedit_switch_tlb_invalidation (implementation : Z) : LM Z :=
  let* fd := gets ptedit_fd in
  let* r := ioctl fd SWITCH_TLB_INVALIDATION (UValue (wrap64 implementation)) in
  ret (to_int (fst r)).

#[export] Instance lib_mts : MtsOps (lib P L T) := {
  ptedit_get_mts :=
    let* fd := gets ptedit_fd in
    let* r := ioctl fd GET_PAT (USize 0) in
    match snd r with USize mt => ret mt | _ => undef end;
  ptedit_set_mts mts :=
    let* fd := gets ptedit_fd in
    let* _ := ioctl fd SET_PAT (UValue mts) in
    ret tt }.

(** The fences change no state of the model. *)
Definition ptedit_full_serializing_barrier : LM unit :=
  let* root := ptedit_get_paging_root 0 in
  ptedit_set_paging_root 0 root.

(** *** Resolving and updating in user space *)

Definition resolve_user_with (deref : Z -> LM Z) (address pid_ : Z) : LM ptedit_entry_t :=
  let* d := gets ptedit_paging_definition in
  ptedit_resolve_user_ext (kc_arch cfg) d (gets ptedit_paging_root) ptedit_get_paging_root
    deref address pid_.

Definition ptedit_resolve_user : Z -> Z -> LM ptedit_entry_t :=
  resolve_user_with ptedit_phys_read_pread.
Definition ptedit_resolve_user_map : Z -> Z -> LM ptedit_entry_t :=
  resolve_user_with ptedit_phys_read_map.

(** The call through the pointer [ptedit_resolve]. *)
Definition call_resolve (address pid_ : Z) : LM ptedit_entry_t :=
  let* f := gets resolve_pointer in
  match f with
  | resolve_null => undef
  | resolve_kernel_fn => ptedit_resolve_kernel address pid_
  | resolve_user_fn => ptedit_resolve_user address pid_
  | resolve_user_map_fn => ptedit_resolve_user_map address pid_
  end.

(** [vm] is not written through. *)
Definition update_user_with (pset : Z -> Z -> LM unit) (address pid_ : Z) (vm : ptedit_entry_t)
    : LM ptedit_entry_t :=
  let* d := gets ptedit_paging_definition in
  ptedit_update_user_ext (kc_arch cfg) d (gets ptedit_paging_root) ptedit_get_paging_root
    call_resolve ptedit_invalidate_tlb pset address pid_ vm ;;;
  ptedit_invalidate_tlb address ;;;
  ret vm.

Definition ptedit_update_user : Z -> Z -> ptedit_entry_t -> LM ptedit_entry_t :=
  update_user_with ptedit_phys_write_pwrite.
Definition ptedit_update_user_map : Z -> Z -> ptedit_entry_t -> LM ptedit_entry_t :=
  update_user_with ptedit_phys_write_map.

Definition call_update (address pid_ : Z) (vm : ptedit_entry_t) : LM ptedit_entry_t :=
  let* f := gets update_pointer in
  match f with
  | update_null => undef
  | update_kernel_fn => ptedit_update_kernel address pid_ vm
  | update_user_fn => ptedit_update_user address pid_ vm
  | update_user_map_fn => ptedit_update_user_map address pid_ vm
  end.

#[export] Instance lib_pte : PteAccess (lib P L T) := {
  ptedit_resolve := call_resolve;
  ptedit_update := call_update }.

(** *** Choosing an implementation *)

(** [mmap] of the memory file, whose failure [ptedit_use_implementation] and
    [ptedit_pmap] do not check. *)
Definition umem_mappable : LM bool :=
  let* umem := gets ptedit_umem in
  let* files := gets l_files in
  ret (match files !! umem with Some umem_file => lc_mmap lcfg | _ => false end).

Definition ptedit_use_implementation (implementation : Z) : LM unit :=
  if implementation =? PTEDIT_IMPL_KERNEL then
    modify (with_pointers resolve_kernel_fn update_kernel_fn)
  else if implementation =? PTEDIT_IMPL_USER_PREAD then
    modify (with_pointers resolve_user_fn update_user_fn) ;;;
    let* root := ptedit_get_paging_root 0 in
    modify (with_paging_root root)
  else if implementation =? PTEDIT_IMPL_USER then
    modify (with_pointers resolve_user_map_fn update_user_map_fn) ;;;
    let* root := ptedit_get_paging_root 0 in
    modify (with_paging_root root) ;;;
    let* v := gets ptedit_vmem in
    match v with
    | vmem_null =>
        let* ok := umem_mappable in
        modify (with_vmem (if ok then vmem_mapped else vmem_failed))
    | _ => ret tt
    end
  else ret tt.

(** *** Initialisation *)

Definition ptedit_init : LM Z :=
  let* fd := open_device in
  modify (with_fd fd) ;;;
  if fd <? 0 then ret (-1)
  else
    let* umem := open_umem in
    modify (with_umem umem) ;;;
    ptedit_use_implementation PTEDIT_IMPL_KERNEL ;;;
    modify (with_pagesize (lc_pagesize lcfg)) ;;;
    match kc_arch cfg with
    | X86_64 => modify (with_definition def_x86)
    | AARCH64 =>
        let* size := ptedit_get_pagesize in
        if size =? 16384 then
          modify (with_definition def_arm_16k) ;;;
          ptedit_use_implementation PTEDIT_IMPL_USER_PREAD
        else modify (with_definition def_arm_4k)
    end ;;;
    ret 0.

Definition ptedit_cleanup : LM unit :=
  let* fd := gets ptedit_fd in
  (if 0 <=? fd then close fd ;;; ret tt else ret tt) ;;;
  let* umem := gets ptedit_umem in
  if 0 <? umem then close umem ;;; ret tt else ret tt.

(** *** Physical pages *)

(** [buffer] is the memory behind the pointer; bytes that do not fit are
    written outside of it. *)
Definition ptedit_read_physical_page (pfn : Z) (buffer : list Z) : LM (list Z) :=
  let* umem := gets ptedit_umem in
  if 0 <? umem then
    let* size := gets ptedit_pagesize in
    let* r := pread umem (Z.to_nat size) (wrap64 (pfn * size)) in
    match r with
    | None => ret buffer
    | Some bs =>
        if (length buffer <? length bs)%nat then undef else ret (bs ++ drop (length bs) buffer)
    end
  else
    let* fd := gets ptedit_fd in
    let* r := ioctl fd READ_PAGE (UPage (mk_page pfn buffer)) in
    match snd r with UPage page => ret (pg_buffer page) | _ => undef end.

Definition ptedit_write_physical_page (pfn : Z) (content : list Z) : LM unit :=
  let* umem := gets ptedit_umem in
  if 0 <? umem then
    let* size := gets ptedit_pagesize in
    if (length content <? Z.to_nat size)%nat then undef
    else
      let* _ := pwrite umem (take (Z.to_nat size) content) (wrap64 (pfn * size)) in
      ret tt
  else
    let* fd := gets ptedit_fd in
    let* _ := ioctl fd WRITE_PAGE (UPage (mk_page pfn content)) in
    ret tt.

(** The mapping [ptedit_pmap] makes: whether [mmap] succeeded, the length and
    the file offset asked for, and the offset of the pointer returned from the result of
    [mmap], which is not checked. *)
Record mapping := mk_mapping {
  map_ok : bool; map_length : Z; map_offset : Z; map_pointer : Z }.

Definition ptedit_pmap (physical length : Z) : LM mapping :=
  let* size := gets ptedit_pagesize in
  if size =? 0 then undef
  else
    let u := wrap64 size in
    let* ok := umem_mappable in
    ret (mk_mapping ok (wrap64 (length + physical mod u)) (wrap64 (physical / u * u))
           (physical mod u)).
End operations.
