(* ===== verification/LibProps.v ===== *)
(** * The user-space library: theorems *)

From stdpp Require Import base tactics numbers list gmap.
From S2P Require Import Prelude Entry MemType PhysMem Linux Kernel Machine KernelProps KernelOps.
From S2P Require Import Walk Mmu Update Pte Agree KernelUpdate Lib.
Local Open Scope Z_scope.

Section lib_props.
Context {P L T : Type} `{PhysMemLaws P} `{RwSemLaws L} `{LinuxPT P} `{TlbOps T}.
Variable cfg : kconfig.
Variable lcfg : lconfig.
Implicit Types l : lib P L T.

(** ** The device file *)

(** The library holds the device open. *)
Definition connected l : Prop := l_files l !! ptedit_fd l = Some device_file.

Lemma ioctl_run cmd arg r k l : connected l ->
  device_ioctl cfg cmd arg (l_kernel l) = Ret r k ->
  ioctl cfg (ptedit_fd l) cmd arg l = Ret r (with_kernel k l).
Proof.
  intros Hc Hrun. unfold ioctl. rewrite bind_gets, Hc. unfold kernel_call. by rewrite Hrun.
Qed.

Lemma with_kernel_id l : with_kernel (l_kernel l) l = l.
Proof. by destruct l. Qed.

(** A request to the module through the device file. *)
Lemma request_run {A} cmd arg r k l (f : Z * ioctl_arg -> M (lib P L T) A) : connected l ->
  device_ioctl cfg cmd arg (l_kernel l) = Ret r k ->
  (let* fd := gets ptedit_fd in let* r := ioctl cfg fd cmd arg in f r) l = f r (with_kernel k l).
Proof.
  intros Hc Hrun. rewrite bind_gets. by rewrite (bind_Ret _ _ _ _ _ (ioctl_run _ _ _ _ _ Hc Hrun)).
Qed.

(** ** Physical memory through the memory file *)

Definition umem_open l : bool := bool_decide (l_files l !! ptedit_umem l = Some umem_file).

#[export] Instance lib_walk_mem : WalkMem (lib P L T) := {
  wm_get l p :=
    if umem_open l && (p <? 2 ^ 63) then default 0 (load64 (k_mem (l_kernel l)) p) else 0;
  wm_put p v l :=
    if umem_open l && (p <? 2 ^ 63) then
      match store64 (k_mem (l_kernel l)) p v with
      | Some m => with_kernel (with_mem m (l_kernel l)) l
      | None => l
      end
    else l;
  wm_writable l p :=
    umem_open l && (p <? 2 ^ 63) = true /\ is_Some (store64 (k_mem (l_kernel l)) p 0) }.

Lemma umem_open_true l : umem_open l = true -> l_files l !! ptedit_umem l = Some umem_file.
Proof. unfold umem_open. by rewrite bool_decide_eq_true. Qed.

Lemma pread_run n p l :
  pread (ptedit_umem l) n p l =
    Ret (if umem_open l && (p <? 2 ^ 63) then pm_read (k_mem (l_kernel l)) p n else None) l.
Proof.
  unfold pread. rewrite !bind_gets. unfold umem_open, ret.
  destruct (l_files l !! ptedit_umem l) as [[]|] eqn:E; [|by rewrite bool_decide_eq_true_2|];
    by rewrite bool_decide_eq_false_2.
Qed.

Lemma phys_read_run p l : ptedit_phys_read_pread p l = Ret (wm_get l p) l.
Proof.
  unfold ptedit_phys_read_pread. rewrite bind_gets, (bind_Ret _ _ _ _ _ (pread_run _ _ _)). simpl.
  destruct (umem_open l && (p <? 2 ^ 63)); [|done]. unfold load64.
  by destruct (pm_read (k_mem (l_kernel l)) p 8).
Qed.

Lemma pwrite_run bs p l :
  pwrite (ptedit_umem l) bs p l =
    match (if umem_open l && (p <? 2 ^ 63) then pm_write (k_mem (l_kernel l)) p bs else None) with
    | Some m => Ret true (with_kernel (with_mem m (l_kernel l)) l)
    | None => Ret false l
    end.
Proof.
  unfold pwrite. rewrite !bind_gets. unfold umem_open.
  destruct (l_files l !! ptedit_umem l) as [[]|] eqn:E;
    [by rewrite bool_decide_eq_false_2|rewrite bool_decide_eq_true_2 by done|
     by rewrite bool_decide_eq_false_2].
  cbn [andb]. destruct (p <? 2 ^ 63); [|done]. by destruct (pm_write _ p bs).
Qed.

Lemma phys_write_run p v l : ptedit_phys_write_pwrite p v l = Ret tt (wm_put p v l).
Proof.
  unfold ptedit_phys_write_pwrite. rewrite bind_gets. unfold bind. rewrite pwrite_run.
  cbn [wm_put lib_walk_mem]. unfold store64. destruct (umem_open l && (p <? 2 ^ 63)); [|done].
  by destruct (pm_write (k_mem (l_kernel l)) p (bytes_of 8 v)).
Qed.

#[export] Instance lib_walk_mem_laws : WalkMemLaws (lib P L T).
Proof.
  split.
  - intros p v l Hv [Hopen Hst]. simpl in *. rewrite Hopen.
    destruct (store64 (k_mem (l_kernel l)) p v) as [m|] eqn:E.
    + change (umem_open (with_kernel _ l)) with (umem_open l). rewrite Hopen. simpl.
      by rewrite (load64_store64 _ _ _ _ Hv E).
    + apply (store64_any _ _ 0 v) in Hst as [? Hs]. by rewrite E in Hs.
  - intros p v l q Hd. simpl. destruct (umem_open l && (p <? 2 ^ 63)); [|done].
    destruct (store64 (k_mem (l_kernel l)) p v) as [m|] eqn:E; [|done].
    change (umem_open (with_kernel _ l)) with (umem_open l). simpl.
    by rewrite (load64_store64_ne _ _ _ _ _ E Hd).
  - intros p v l q. simpl. destruct (umem_open l && (p <? 2 ^ 63)); [|done].
    destruct (store64 (k_mem (l_kernel l)) p v) as [m|] eqn:E; [|done].
    change (umem_open (with_kernel _ l)) with (umem_open l). simpl.
    by rewrite (store64_writable _ _ _ _ _ 0 0 E).
Qed.

(** ** File descriptors *)

Lemma free_fd_spec n fd files :
  fd <= free_fd n fd files /\
  (files !! free_fd n fd files = None \/
   forall k, fd <= k < fd + Z.of_nat n -> is_Some (files !! k)).
Proof.
  revert fd. induction n as [|n IH]; intros fd; cbn [free_fd].
  { split; [lia|]. right. intros; lia. }
  destruct (decide (is_Some (files !! fd))) as [Hs|Hn].
  - destruct (IH (fd + 1)) as [Hle [Hfree|Hused]]; (split; [lia|]); [by left|right].
    intros k Hk. destruct (decide (k = fd)) as [->|]; [done|]. apply Hused. lia.
  - split; [lia|]. left. by apply eq_None_not_Some.
Qed.

Lemma free_fd_free (files : gmap Z file) :
  0 <= free_fd (S (size files)) 0 files /\ files !! free_fd (S (size files)) 0 files = None.
Proof.
  destruct (free_fd_spec (S (size files)) 0 files) as [Hle [Hfree|Hused]]; [done|exfalso].
  assert (Hsub : (list_to_set (seqZ 0 (Z.of_nat (S (size files)))) : gset Z) ⊆ dom files).
  { intros k Hk. apply elem_of_list_to_set, elem_of_seqZ in Hk.
    apply elem_of_dom, Hused. lia. }
  apply subseteq_size in Hsub. rewrite size_list_to_set in Hsub by apply NoDup_seqZ.
  rewrite length_seqZ, size_dom in Hsub. lia.
Qed.

Lemma free_fd_positive (files : gmap Z file) f :
  let fd := free_fd (S (size files)) 0 files in
  let files' := <[fd := f]> files in
  0 < free_fd (S (size files')) 0 files'.
Proof.
  intros fd files'. destruct (free_fd_free files') as [Hle Hfree].
  destruct (decide (free_fd (S (size files')) 0 files' = 0)) as [E|]; [exfalso|lia].
  rewrite E in Hfree. unfold files' in Hfree.
  apply lookup_insert_None in Hfree as [Hnone Hne]. apply Hne. unfold fd. cbn [free_fd].
  destruct (decide (is_Some (files !! 0))) as [[]|]; [congruence|done].
Qed.

(** ** Initialisation *)

Definition next_fd l : Z := free_fd (S (size (l_files l))) 0 (l_files l).

Lemma open_device_run l : l_has_device l = true -> device_busy (l_kernel l) = false ->
  open_device l =
    Ret (next_fd l) (with_files (<[next_fd l := device_file]> (l_files l))
                      (with_kernel (with_busy true (l_kernel l)) l)).
Proof.
  intros Hdev Hbusy. unfold open_device. rewrite bind_gets, Hdev.
  unfold kernel_call, bind at 1, device_open. rewrite bind_gets, Hbusy. done.
Qed.

Lemma open_umem_run l :
  open_umem l =
    if l_has_umem l
    then Ret (next_fd l) (with_files (<[next_fd l := umem_file]> (l_files l)) l)
    else Ret (-1) l.
Proof. unfold open_umem. rewrite bind_gets. by destruct (l_has_umem l). Qed.

(** The state after a successful initialisation on x86-64. *)
Definition initialised l : lib P L T :=
  let l1 := with_fd (next_fd l) (with_files (<[next_fd l := device_file]> (l_files l))
              (with_kernel (with_busy true (l_kernel l)) l)) in
  let l2 := if l_has_umem l
            then with_umem (next_fd l1) (with_files (<[next_fd l1 := umem_file]> (l_files l1)) l1)
            else with_umem (-1) l1 in
  with_definition def_x86 (with_pagesize (lc_pagesize lcfg)
    (with_pointers resolve_kernel_fn update_kernel_fn l2)).

Lemma init_run l : kc_arch cfg = X86_64 -> l_has_device l = true ->
  device_busy (l_kernel l) = false -> ptedit_init cfg lcfg l = Ret 0 (initialised l).
Proof.
  intros Ha Hdev Hbusy. unfold ptedit_init.
  rewrite (bind_Ret _ _ _ _ _ (open_device_run l Hdev Hbusy)), bind_modify.
  destruct (free_fd_free (l_files l)) as [Hfd _]. fold (next_fd l) in Hfd.
  destruct (Z.ltb_spec (next_fd l) 0); [lia|].
  set (l1 := with_fd _ _). unfold bind at 1. rewrite open_umem_run.
  unfold initialised. fold l1. change (l_has_umem l1) with (l_has_umem l).
  destruct (l_has_umem l); rewrite bind_modify; unfold ptedit_use_implementation; simpl;
    rewrite !bind_modify, Ha; done.
Qed.

Lemma close_run fd f l : l_files l !! fd = Some f ->
  (close fd ;;; ret tt) l =
    Ret tt (with_files (delete fd (l_files l))
      (match f with
       | device_file => with_kernel (with_busy false (l_kernel l)) l
       | umem_file => l
       end)).
Proof. intros Hf. unfold close, bind, gets. rewrite Hf. by destruct f. Qed.

Lemma initialised_ok l : l_files l !! (-1) = None -> device_busy (l_kernel l) = false ->
  let l' := initialised l in
  connected l' /\ device_busy (l_kernel l') = true /\
  resolve_pointer l' = resolve_kernel_fn /\ update_pointer l' = update_kernel_fn /\
  ptedit_paging_definition l' = def_x86 /\ ptedit_pagesize l' = lc_pagesize lcfg /\
  umem_open l' = l_has_umem l /\
  exists l'', ptedit_cleanup l' = Ret tt l'' /\
    l_files l'' = l_files l /\ l_kernel l'' = l_kernel l.
Proof.
  intros Hneg Hbusy l'. subst l'. unfold initialised.
  set (l1 := with_fd _ _).
  destruct (free_fd_free (l_files l)) as [Hfd Hfree]. fold (next_fd l) in Hfd, Hfree.
  destruct (free_fd_free (l_files l1)) as [Hfd1 Hfree1]. fold (next_fd l1) in Hfd1, Hfree1.
  assert (Hpos : 0 < next_fd l1) by apply free_fd_positive.
  assert (Hbusy' : with_busy false (l_kernel l) = l_kernel l).
  { clear - Hbusy. destruct (l_kernel l). simpl in Hbusy. by subst. }
  assert (Hdev1 : l_files l1 !! next_fd l = Some device_file) by apply lookup_insert_eq.
  assert (Hfiles1 : l_files l1 = <[next_fd l := device_file]> (l_files l)) by done.
  assert (Hfd_l1 : ptedit_fd l1 = next_fd l) by done.
  assert (Hkernel1 : l_kernel l1 = with_busy true (l_kernel l)) by done.
  clearbody l1. unfold connected, umem_open, ptedit_cleanup. destruct (l_has_umem l); simpl.
  - assert (Hne : next_fd l1 <> next_fd l) by congruence.
    rewrite Hfd_l1, Hkernel1. split; [by rewrite lookup_insert_ne|]. repeat (split; [done|]).
    split; [rewrite lookup_insert_eq; by apply bool_decide_eq_true_2|].
    rewrite bind_gets. simpl. rewrite Hfd_l1. destruct (Z.leb_spec 0 (next_fd l)); [|lia].
    erewrite bind_Ret by (apply (close_run _ device_file); simpl; by rewrite lookup_insert_ne).
    rewrite bind_gets. simpl. destruct (Z.ltb_spec 0 (next_fd l1)); [|lia].
    eexists. split; [apply (close_run _ umem_file); simpl; rewrite lookup_delete_ne by done;
      by rewrite lookup_insert_eq|].
    simpl. rewrite Hkernel1. split; [|done].
    apply map_eq. intros k. rewrite Hfiles1 in Hfree1 |- *.
    destruct (decide (k = next_fd l1)) as [->|Hk1].
    + rewrite lookup_delete_eq. symmetry. by rewrite lookup_insert_ne in Hfree1.
    + rewrite lookup_delete_ne by done. destruct (decide (k = next_fd l)) as [->|Hk].
      * by rewrite lookup_delete_eq, Hfree.
      * by rewrite lookup_delete_ne, !lookup_insert_ne by done.
  - rewrite Hfd_l1, Hkernel1. split; [done|]. repeat (split; [done|]).
    split; [apply bool_decide_eq_false_2; rewrite Hfiles1, lookup_insert_ne by lia; by rewrite Hneg|].
    rewrite bind_gets. simpl. rewrite Hfd_l1. destruct (Z.leb_spec 0 (next_fd l)); [|lia].
    erewrite bind_Ret by by apply (close_run _ device_file).
    rewrite bind_gets. simpl. eexists. split; [done|]. simpl. rewrite Hkernel1, Hfiles1.
    split; [by rewrite delete_insert_id|done].
Qed.

(** C19: on x86-64, initialising the library when the device exists and
    nobody uses it returns 0 and leaves the library connected to the module,
    with the kernel implementation, the four-level paging definition and, if
    it exists, the memory file open; cleaning up afterwards closes exactly the
    files it opened and releases the device.  When the device is missing
    or in use it returns -1 and opens nothing. *)
Theorem init_then_cleanup l : kc_arch cfg = X86_64 -> l_files l !! (-1) = None ->
  if l_has_device l && negb (device_busy (l_kernel l)) then
    exists l', ptedit_init cfg lcfg l = Ret 0 l' /\
      connected l' /\ device_busy (l_kernel l') = true /\
      resolve_pointer l' = resolve_kernel_fn /\ update_pointer l' = update_kernel_fn /\
      ptedit_paging_definition l' = def_x86 /\ ptedit_pagesize l' = lc_pagesize lcfg /\
      umem_open l' = l_has_umem l /\
      exists l'', ptedit_cleanup l' = Ret tt l'' /\
        l_files l'' = l_files l /\ l_kernel l'' = l_kernel l
  else ptedit_init cfg lcfg l = Ret (-1) (with_fd (-1) l).
Proof.
  intros Ha Hneg. destruct (l_has_device l) eqn:Hdev; cbn [andb].
  2: { unfold ptedit_init, open_device. unfold bind, gets. by rewrite Hdev. }
  destruct (device_busy (l_kernel l)) eqn:Hbusy; cbn [negb].
  { unfold ptedit_init, open_device, kernel_call, device_open, bind, gets. rewrite Hdev, Hbusy.
    by destruct l. }
  exists (initialised l). split; [by apply init_run|]. apply initialised_ok; done.
Qed.

(** ** Physical pages *)

(** Where the library puts a page in memory. *)
Definition page_address l (pfn : Z) : Z :=
  let phys := wrap64 (pfn * ptedit_pagesize l) in
  if 0 <? ptedit_umem l then phys else virt_to_phys (phys_to_virt phys).

(** One of its two ways to physical memory works: the memory file, or the
    module when the file is not open. *)
Definition memory_open l (pfn : Z) : Prop :=
  if 0 <? ptedit_umem l
  then umem_open l && (wrap64 (pfn * ptedit_pagesize l) <? 2 ^ 63) = true
  else connected l /\ real_page_size (l_kernel l) = ptedit_pagesize l.

Lemma write_physical_run pfn content m l :
  let n := Z.to_nat (ptedit_pagesize l) in
  memory_open l pfn -> (n <= length content)%nat ->
  pm_write (k_mem (l_kernel l)) (page_address l pfn) (take n content) = Some m ->
  ptedit_write_physical_page cfg pfn content l =
    Ret tt (with_kernel (with_mem m (l_kernel l)) l).
Proof.
  unfold memory_open, page_address, ptedit_write_physical_page. cbv zeta. intros Ho Hlen Hw.
  rewrite bind_gets. destruct (0 <? ptedit_umem l).
  - rewrite bind_gets. destruct (Nat.ltb_spec (length content) (Z.to_nat (ptedit_pagesize l))); [lia|].
    unfold bind. by rewrite pwrite_run, Ho, Hw.
  - destruct Ho as [Hc Hsize]. rewrite <- Hsize in *.
    by rewrite (request_run _ _ _ _ _ _ Hc (write_page_ioctl cfg pfn content m _ Hlen Hw)).
Qed.

Lemma read_physical_run pfn buffer bs l :
  let n := Z.to_nat (ptedit_pagesize l) in
  memory_open l pfn -> (n <= length buffer)%nat ->
  pm_read (k_mem (l_kernel l)) (page_address l pfn) n = Some bs -> length bs = n ->
  ptedit_read_physical_page cfg pfn buffer l = Ret (bs ++ drop n buffer) l.
Proof.
  unfold memory_open, page_address, ptedit_read_physical_page. cbv zeta. intros Ho Hlen Hrd Hbs.
  rewrite bind_gets. destruct (0 <? ptedit_umem l).
  - rewrite bind_gets, (bind_Ret _ _ _ _ _ (pread_run _ _ l)), Ho, Hrd, Hbs.
    by destruct (Nat.ltb_spec (length buffer) (Z.to_nat (ptedit_pagesize l))); [lia|].
  - destruct Ho as [Hc Hsize]. rewrite <- Hsize in *.
    rewrite (request_run _ _ _ _ _ _ Hc (read_page_ioctl cfg pfn buffer bs _ Hlen Hrd Hbs)).
    simpl. by rewrite with_kernel_id.
Qed.

(** C31: writing a physical page through the library and reading it back
    yields the bytes written, whichever of its two ways to physical memory it
    uses, and no other memory changes. *)
Theorem physical_page_roundtrip pfn content buffer m l :
  let n := Z.to_nat (ptedit_pagesize l) in
  Forall byte_ok content -> (n <= length content)%nat -> (n <= length buffer)%nat ->
  memory_open l pfn ->
  pm_write (k_mem (l_kernel l)) (page_address l pfn) (take n content) = Some m ->
  exists l', ptedit_write_physical_page cfg pfn content l = Ret tt l' /\
    ptedit_read_physical_page cfg pfn buffer l' =
      Ret (take n content ++ drop n buffer) l' /\
    forall b k, disjoint_ranges (page_address l pfn) n b k ->
      pm_read (k_mem (l_kernel l')) b k = pm_read (k_mem (l_kernel l)) b k.
Proof.
  intros n Hok Hlen Hbuf Hopen Hw.
  assert (Hl : length (take n content) = n) by (rewrite length_take; lia).
  exists (with_kernel (with_mem m (l_kernel l)) l). split; [by apply write_physical_run|]. split.
  - apply read_physical_run; [exact Hopen|exact Hbuf| |exact Hl].
    assert (Hb : Forall byte_ok (take n content)) by by apply Forall_take.
    pose proof (pm_read_written _ _ _ _ Hb Hw) as Hrd. by rewrite Hl in Hrd.
  - intros b k Hd. eapply pm_read_elsewhere; [exact Hw|]. by rewrite Hl.
Qed.

(** The pointer [ptedit_pmap] returns designates the physical address
    asked for: the mapping starts at a page boundary of the memory file, the offset
    of the pointer makes up the difference and lies within the first page, and the mapping is long
    enough for the length asked for. *)
Theorem pmap_covers physical length l : 0 < ptedit_pagesize l < 2 ^ 31 -> u64 physical ->
  0 <= length -> length + ptedit_pagesize l < 2 ^ 64 ->
  exists m, ptedit_pmap lcfg physical length l = Ret m l /\
    map_offset m + map_pointer m = physical /\
    map_offset m mod ptedit_pagesize l = 0 /\
    0 <= map_pointer m < ptedit_pagesize l /\
    map_length m = length + map_pointer m.
Proof.
  intros Hsize Hphys Hlen Hwrap. unfold ptedit_pmap. rewrite bind_gets.
  destruct (Z.eqb_spec (ptedit_pagesize l) 0); [lia|].
  unfold umem_mappable, bind, gets, ret. eexists. split; [reflexivity|]. simpl.
  unfold u64 in Hphys. set (u := ptedit_pagesize l) in *.
  rewrite (wrap64_id u) by (unfold u64; lia).
  assert (Hmod := Z.mod_pos_bound physical u ltac:(lia)).
  assert (Hdiv := Z.div_mod physical u ltac:(lia)).
  assert (Hle : 0 <= physical / u * u <= physical).
  { split; [apply Z.mul_nonneg_nonneg; [apply Z.div_pos; lia|lia]|lia]. }
  rewrite !wrap64_id by (unfold u64; lia).
  split; [lia|]. split; [apply Z.mod_mul; lia|]. split; [done|done].
Qed.
End lib_props.
