(* ===== verification/LibImpl.v ===== *)
(** * The implementations of the library, on x86-64

    The interfaces of the other files discharged by the library on top of the
    kernel module: the memory-type register, the user-space walker over the
    memory file, and the resolver and updater of the module. *)

From stdpp Require Import base tactics numbers list gmap.
From S2P Require Import Prelude Entry MemType PhysMem Linux Kernel Machine KernelProps KernelOps.
From S2P Require Import Walk Mmu Update Pte Agree KernelUpdate Lib LibProps.
Local Open Scope Z_scope.

Section impl.
Context {P L T : Type} `{PhysMemLaws P} `{RwSemLaws L} `{!LinuxPT P} `{!LinuxX86 P} `{TlbLaws T}.
Variable cfg : kconfig.
Variable lcfg : lconfig.
Hypothesis x86 : kc_arch cfg = X86_64.
Implicit Types l : lib P L T.

(** ** The memory-type register *)

(** The register of the CPU the caller runs on. *)
Definition register l : Z := default 0 (k_mts (l_kernel l) !! k_cpu (l_kernel l)).

(** The values of the register. *)
Definition readable (v : Z) : Prop := u64 v /\ pat_ok v = true.

#[export, refine] Instance lib_mts_laws : MtsLaws (H := lib_mts cfg) (lib P L T) := {
  mts_reg := register;
  mts_ready l := connected l /\ k_cpu (l_kernel l) ∈ kc_cpus cfg /\ readable (register l);
  mts_ok := readable }.
Proof.
  - by intros l (_ & _ & Hr & _).
  - intros l (Hc & Hcpu & Hu & Hb). simpl. unfold register in *.
    pose proof (read_mts_run cfg 0 (l_kernel l) Hu) as Hrun.
    rewrite (request_run _ _ _ _ _ _ _ Hc Hrun). simpl.
    rewrite read_back_accepted by (unfold accepted; by rewrite x86).
    by rewrite with_kernel_id.
  - intros l v (Hc & Hcpu & _) [Hu Hb]. simpl.
    assert (accepted cfg v = true) as Ha by (unfold accepted; by rewrite x86).
    destruct (set_pat_run cfg v (l_kernel l) Hu Ha) as (m & Hrun & Hm).
    exists (with_kernel (with_mts m (l_kernel l)) l).
    split; [by rewrite (request_run _ _ _ _ _ _ _ Hc Hrun)|].
    assert (Hreg : register (with_kernel (with_mts m (l_kernel l)) l) = v).
    { unfold register. simpl. by rewrite Hm, bool_decide_true. }
    rewrite Hreg. split; [done|]. by split.
Defined.

(** ** The barrier *)

Lemma get_paging_root_run id mm r lr l :
  connected l -> mm_is_locked (l_kernel l) = false ->
  mm_of (l_kernel l) 0 = Some id -> k_mms (l_kernel l) !! id = Some mm ->
  mm_pgd mm = phys_to_virt r -> down_read (mmap_sem mm) = Some lr ->
  ptedit_get_paging_root cfg 0 l = Ret r l.
Proof.
  intros Hc Hlocked Hid Hmm Hpgd Hr. unfold ptedit_get_paging_root.
  pose proof (get_root_run cfg 0 0 id mm lr (l_kernel l) x86 Hlocked Hid Hmm Hr) as Hrun.
  rewrite (request_run _ _ _ _ _ _ _ Hc Hrun). simpl. by rewrite Hpgd, virt_of_phys, with_kernel_id.
Qed.

(** The full serialising barrier, which writes back the root of paging
    it reads, leaves everything as it was. *)
Lemma barrier_identity id mm r lw lr l :
  connected l -> mm_is_locked (l_kernel l) = false ->
  mm_of (l_kernel l) 0 = Some id -> k_mms (l_kernel l) !! id = Some mm ->
  mm_pgd mm = phys_to_virt r ->
  down_write (mmap_sem mm) = Some lw -> down_read (mmap_sem mm) = Some lr ->
  ptedit_full_serializing_barrier cfg l = Ret tt l.
Proof.
  intros Hc Hlocked Hid Hmm Hpgd Hw Hr. unfold ptedit_full_serializing_barrier.
  pose proof (get_paging_root_run id mm r lr l Hc Hlocked Hid Hmm Hpgd Hr) as Hget.
  rewrite (bind_Ret _ _ _ _ _ Hget). unfold ptedit_set_paging_root.
  pose proof (set_root_run cfg 0 r id mm lw (l_kernel l) Hlocked Hid Hmm Hw) as Hrun.
  rewrite (request_run _ _ _ _ _ _ _ Hc Hrun). unfold ret. f_equal.
  rewrite <- Hpgd. replace (mk_mm (mm_pgd mm) (mmap_sem mm)) with mm by by destruct mm.
  by rewrite insert_id, with_mms_id, with_kernel_id.
Qed.

(** ** The mapped and the file-based walker *)

(** C32: the two user-space implementations of [ptedit_resolve] agree: when
    physical memory is mapped and the walk reads only addresses inside the
    window of 32 GB that is mapped, the walker that dereferences the mapping returns
    what the one that reads the memory file returns; and a walk whose first entry is
    outside the window does not return. *)
Theorem map_agrees_with_pread addr pid root l :
  ptedit_vmem l = vmem_mapped ->
  walk_root (gets ptedit_paging_root) (ptedit_get_paging_root cfg) pid l = Ret root l ->
  let d := ptedit_paging_definition l in
  let in_window p := p + 8 <= window /\ is_Some (load64 (k_mem (l_kernel l)) p) in
  (umem_open l = true -> Forall in_window (walk_reads X86_64 d (wm_get l) addr root) ->
   ptedit_resolve_user_map cfg addr pid l = ptedit_resolve_user cfg addr pid l) /\
  (root <> 0 -> window < slot_in_root root (index d PGD addr) + 8 ->
   ptedit_resolve_user_map cfg addr pid l = Undef).
Proof.
  intros Hv Hroot d in_window.
  unfold ptedit_resolve_user_map, ptedit_resolve_user, resolve_user_with, ptedit_resolve_user_ext.
  rewrite !bind_gets, x86. rewrite !(bind_Ret _ _ _ _ _ Hroot). fold d. split.
  - intros Hopen Hreads. rewrite !(resolve_from_root_fun X86_64 d _ l (wm_get l)); [done|..].
    + apply reads_ok_all. intros p. apply phys_read_run.
    + eapply Forall_impl; [exact Hreads|]. intros p [Hp [v Hl]].
      unfold ptedit_phys_read_map. rewrite !bind_gets, Hv.
      destruct (Z.leb_spec (p + 8) window); [|lia]. simpl. rewrite Hopen, Hl. simpl.
      destruct (Z.ltb_spec p (2 ^ 63)) as [|Hge]; [done|]. exfalso. unfold window in *.
      change (Z.shiftl 32 30) with (2 ^ 35) in *. lia.
  - intros Hr Hout. unfold resolve_from_root. apply Z.eqb_neq in Hr. rewrite Hr.
    apply bind_Undef. unfold ptedit_phys_read_map. rewrite !bind_gets, Hv.
    destruct (Z.leb_spec (slot_in_root root (index d PGD addr) + 8) window); [lia|done].
Qed.

(** ** Updating through the memory file *)

(** The paging root of the own process, as the walker uses it. *)
Definition own_root l : Z := Z.land (ptedit_paging_root l) (wrap64 (Z.lnot 1)).

(** The library runs with the implementation that uses the memory file. *)
Definition user_mode (r : Z) l : Prop :=
  connected l /\ can_invalidate (l_kernel l) /\ own_root l = r /\
  resolve_pointer l = resolve_user_fn /\ update_pointer l = update_user_fn /\
  ptedit_paging_definition l = def_x86.

Lemma invalidate_run addr l : connected l -> can_invalidate (l_kernel l) ->
  exists k, ptedit_invalidate_tlb cfg addr l = Ret tt (with_kernel k l) /\
    cpus_only (l_kernel l) k.
Proof.
  intros Hc Hinv. destruct (invalidate_returns cfg x86 addr (l_kernel l) Hinv) as (k & Hrun & Hk).
  exists k. split; [|done]. unfold ptedit_invalidate_tlb.
  assert (Hio : device_ioctl cfg INVALIDATE_TLB (UValue addr) (l_kernel l) = Ret (0, UValue addr) k)
    by (cbn [device_ioctl]; by rewrite (bind_Ret _ _ _ _ _ Hrun)).
  by rewrite (request_run _ _ _ _ _ _ _ Hc Hio).
Qed.

Lemma user_mode_cpus r k l : cpus_only (l_kernel l) k -> user_mode r l ->
  user_mode r (with_kernel k l) /\ forall p, wm_get (with_kernel k l) p = wm_get l p.
Proof. intros (t & c & ->) Hl. by split. Qed.

Lemma user_mode_invalidate r addr l : user_mode r l -> exists l',
  ptedit_invalidate_tlb cfg addr l = Ret tt l' /\ user_mode r l' /\
  forall p, wm_get l' p = wm_get l p.
Proof.
  intros Hl. destruct (invalidate_run addr l) as (k & Hrun & Hk); [apply Hl..|].
  exists (with_kernel k l). split; [done|]. by apply user_mode_cpus.
Qed.

Lemma user_mode_put r p v l : user_mode r l -> user_mode r (wm_put p v l).
Proof.
  intros Hl. simpl. destruct (umem_open l && (p <? 2 ^ 63)); [|done].
  by destruct (store64 (k_mem (l_kernel l)) p v).
Qed.

Lemma user_mode_root r l : user_mode r l ->
  walk_root (gets ptedit_paging_root) (ptedit_get_paging_root cfg) 0 l = Ret r l.
Proof. intros (_ & _ & <- & _). done. Qed.

(** The resolver and updater of [Update] for this implementation. *)
Definition file_resolve : Z -> Z -> M (lib P L T) ptedit_entry_t :=
  resolve X86_64 def_x86 ptedit_phys_read_pread (gets ptedit_paging_root)
    (ptedit_get_paging_root cfg).
Definition file_update : Z -> Z -> ptedit_entry_t -> M (lib P L T) unit :=
  update X86_64 def_x86 ptedit_phys_read_pread ptedit_phys_write_pwrite (gets ptedit_paging_root)
    (ptedit_get_paging_root cfg) (ptedit_invalidate_tlb cfg).

Lemma call_resolve_user r addr pid l : user_mode r l ->
  call_resolve cfg addr pid l = file_resolve addr pid l.
Proof.
  intros (_ & _ & _ & Hr & _ & Hd). unfold call_resolve. rewrite bind_gets, Hr.
  unfold ptedit_resolve_user, resolve_user_with. by rewrite bind_gets, Hd, x86.
Qed.

Lemma call_update_user r addr pid vm l : user_mode r l ->
  call_update cfg addr pid vm l =
    (file_update addr pid vm ;;; ptedit_invalidate_tlb cfg addr ;;; ret vm) l.
Proof.
  intros Hl. pose proof (call_resolve_user r addr pid l Hl) as Hres.
  destruct Hl as (_ & _ & _ & Hr & Hu & Hd). unfold call_update. rewrite bind_gets, Hu.
  unfold ptedit_update_user, update_user_with. rewrite bind_gets, Hd, x86.
  unfold file_update, update, ptedit_update_user_ext. unfold bind at 1. unfold bind at 1.
  rewrite Hres. unfold bind at 4. unfold bind at 4. done.
Qed.

(** ** Both implementations keep the promises of [Pte] *)

Hypothesis v4_11 : kc_v4_11 cfg = true.

(** The user-space implementation. *)
Definition user_entry l (addr : Z) : ptedit_entry_t :=
  resolve_fun X86_64 def_x86 (wm_get l) addr 0 (own_root l).
Definition user_slot l (lv : level) (addr : Z) : Z :=
  slot_of X86_64 def_x86 (own_root l) lv addr (user_entry l addr).

Record user_ready l (addr pid : Z) : Prop := {
  ur_pid : pid = 0;
  ur_mode : user_mode (own_root l) l;
  ur_valid : level_valid PTE (user_entry l addr) = true;
  ur_u64 : u64 (pte (user_entry l addr));
  ur_writable : wm_writable l (user_slot l PTE addr);
  ur_disjoint lv : level_valid lv (user_entry l addr) = true -> lv <> PTE ->
    disjoint_ranges (user_slot l PTE addr) 8 (user_slot l lv addr) 8 }.

(** The implementation in the kernel module. *)
Definition process_root (k : kernel P L T) (pid : Z) : Z :=
  match mm_of k (wrap64 pid) ≫= (fun id => k_mms k !! id) with
  | Some mm => virt_to_phys (mm_pgd mm)
  | None => 0
  end.
Definition request (addr pid : Z) : ptedit_entry_t :=
  set_pid (wrap64 pid) (set_vaddr addr zero_entry).

Record kernel_ready l (addr pid : Z) : Prop := {
  kr_connected : connected l;
  kr_resolve : resolve_pointer l = resolve_kernel_fn;
  kr_update : update_pointer l = update_kernel_fn;
  kr_locked : mm_is_locked (l_kernel l) = false;
  kr_invalidate : can_invalidate (l_kernel l);
  kr_mm : exists id mm lw lr root, mm_of (l_kernel l) (wrap64 pid) = Some id /\
    k_mms (l_kernel l) !! id = Some mm /\ mm_pgd mm = phys_to_virt root /\
    down_write (mmap_sem mm) = Some lw /\ down_read (mmap_sem mm) = Some lr;
  kr_tables : tables_ok (l_kernel l) (process_root (l_kernel l) pid) addr;
  kr_mapped : mapped (process_root (l_kernel l) pid) addr (l_kernel l);
  kr_writable : is_Some (store64 (k_mem (l_kernel l))
    (mmu_slot (l_kernel l) (process_root (l_kernel l) pid) addr PTE) 0);
  kr_disjoint lv : lv <> PTE ->
    disjoint_ranges (mmu_slot (l_kernel l) (process_root (l_kernel l) pid) addr PTE) 8
      (mmu_slot (l_kernel l) (process_root (l_kernel l) pid) addr lv) 8 }.

Definition lib_entry l (addr pid : Z) : ptedit_entry_t :=
  match resolve_pointer l with
  | resolve_kernel_fn =>
      kernel_entry (l_kernel l) (process_root (l_kernel l) pid) addr (request addr pid)
  | _ => user_entry l addr
  end.

Lemma process_root_mm (k : kernel P L T) pid id mm root : mm_of k (wrap64 pid) = Some id ->
  k_mms k !! id = Some mm -> mm_pgd mm = phys_to_virt root -> process_root k pid = root.
Proof. intros Hid Hmm Hpgd. unfold process_root. rewrite Hid. simpl. by rewrite Hmm, Hpgd, virt_of_phys. Qed.

(** The implementation in the module, also where there is no PTE. *)
Lemma kernel_resolve_tables addr pid l id mm lr root : connected l ->
  resolve_pointer l = resolve_kernel_fn -> mm_is_locked (l_kernel l) = false ->
  mm_of (l_kernel l) (wrap64 pid) = Some id -> k_mms (l_kernel l) !! id = Some mm ->
  mm_pgd mm = phys_to_virt root -> down_read (mmap_sem mm) = Some lr ->
  tables_ok (l_kernel l) root addr ->
  call_resolve cfg addr pid l = Ret (kernel_entry (l_kernel l) root addr (request addr pid)) l.
Proof.
  intros Hc Hr Hlocked Hid Hmm Hpgd Hrd Hok.
  unfold call_resolve. rewrite bind_gets, Hr. unfold ptedit_resolve_kernel. cbv zeta.
  fold (request addr pid).
  pose proof (ioctl_resolve_x86 cfg x86 v4_11 root addr (request addr pid) id mm lr (l_kernel l)
    Hok eq_refl Hlocked Hid Hmm Hpgd Hrd) as Hio.
  rewrite (request_run _ _ _ _ _ _ _ Hc Hio). simpl. by rewrite with_kernel_id.
Qed.

Lemma kernel_resolve_run addr pid l : kernel_ready l addr pid ->
  call_resolve cfg addr pid l =
    Ret (kernel_entry (l_kernel l) (process_root (l_kernel l) pid) addr (request addr pid)) l.
Proof.
  intros [Hc Hr Hu Hlocked Hinv (id & mm & lw & lr & root & Hid & Hmm & Hpgd & Hw & Hrd) Hok _ _ _].
  rewrite (process_root_mm _ _ _ _ _ Hid Hmm Hpgd) in *. by eapply kernel_resolve_tables.
Qed.

Lemma kernel_entry_mapped (k : kernel P L T) root addr e : mapped root addr k ->
  kernel_entry k root addr e =
    mk_entry (pid e) (vaddr e) (mmu_entry (memory k) root addr PGD) (mmu_entry (memory k) root addr PGD)
      (mmu_entry (memory k) root addr PUD) (mmu_entry (memory k) root addr PMD)
      (mmu_entry (memory k) root addr PTE) 31.
Proof.
  unfold mapped, Mmu.reached, kernel_entry. rewrite !andb_true_iff, negb_true_iff.
  by intros [[[-> ->] ->] ->].
Qed.

(** From [l] to [l'], apart from the TLBs and the control registers, only the
    PTE of the address changes, to [v]; its translations have been invalidated
    in the address space of the caller. *)
Definition pte_updated (addr pid v : Z) l l' : Prop := exists t c m id mm,
  store64 (k_mem (l_kernel l)) (mmu_slot (l_kernel l) (process_root (l_kernel l) pid) addr PTE) v
    = Some m /\
  l' = with_kernel (with_cr4 c (with_tlb t (with_mem m (l_kernel l)))) l /\
  invalidates cfg addr id mm m (l_kernel l) t /\
  exists mm', k_mms (l_kernel l) !! id = Some mm' /\ mm_pgd mm = mm_pgd mm'.

Lemma kernel_update_ready addr pid vm l : kernel_ready l addr pid ->
  valid vm = PTEDIT_VALID_MASK_PTE -> small_frame (pte vm) ->
  exists l', call_update cfg addr pid vm l = Ret (set_pid (wrap64 pid) (set_vaddr addr vm)) l' /\
    kernel_ready l' addr pid /\
    lib_entry l' addr pid = set_pte (pte vm) (lib_entry l addr pid) /\
    pte_updated addr pid (pte vm) l l'.
Proof.
  intros [Hc Hr Hu Hlocked Hinv (id & mm & lw & lr & root & Hid & Hmm & Hpgd & Hw & Hrd) Hok Hmap Hst Hd]
    Hv Hpte.
  pose proof (process_root_mm _ _ _ _ _ Hid Hmm Hpgd) as Hroot. rewrite Hroot in *.
  apply (store64_any _ _ _ (pte vm)) in Hst as [m Hst].
  set (req := set_pid (wrap64 pid) (set_vaddr addr vm)).
  destruct (update_pte_run cfg x86 v4_11 root addr id mm lw req (l_kernel l) m)
    as (t & c & Hrun & Hinval & Hok' & Hmap' & Hslot' & Hentry'); try done.
  set (k' := with_cr4 c (with_tlb t (with_mem m (l_kernel l)))) in *.
  exists (with_kernel k' l).
  assert (Hroot' : process_root k' pid = root) by by apply (process_root_mm k' pid id mm).
  split; [|split; [|split]].
  - unfold call_update. rewrite bind_gets, Hu. unfold ptedit_update_kernel. cbv zeta. fold req.
    rewrite (request_run _ _ _ _ _ _ _ Hc Hrun). done.
  - split; try done; cbn [l_kernel with_kernel]; rewrite ?Hroot'; try done.
    + by exists id, mm, lw, lr, root.
    + rewrite Hslot'. apply (store64_writable _ _ _ _ _ 0 0 Hst).
      apply (store64_any _ _ (pte vm)). by exists m.
    + intros lv Hlv. rewrite !Hslot'. by apply Hd.
  - unfold lib_entry. cbn [resolve_pointer with_kernel l_kernel]. rewrite Hr, Hroot', Hroot.
    apply Hentry'.
  - exists t, c, m, id, (mk_mm (mm_pgd mm) lw). rewrite Hroot. split; [done|]. split; [done|].
    split; [done|]. by exists mm.
Qed.

(** The user-space updater, with the second invalidation of [ptedit_update_user]. *)
Lemma user_update_ready addr pid vm l : user_ready l addr pid ->
  valid vm = PTEDIT_VALID_MASK_PTE -> u64 (pte vm) ->
  exists vm' l', call_update cfg addr pid vm l = Ret vm' l' /\ user_ready l' addr pid /\
    user_entry l' addr = set_pte (pte vm) (user_entry l addr) /\
    resolve_pointer l' = resolve_pointer l.
Proof.
  intros [-> Hmode Hval Hu64 Hw Hd] Hv Hpte.
  set (r := own_root l) in *. set (slot := user_slot l PTE addr) in *.
  set (ready := fun l => user_mode r l /\ wm_writable l slot).
  assert (Hinv : forall l addr, ready l -> exists l',
    ptedit_invalidate_tlb cfg addr l = Ret tt l' /\ ready l' /\ forall p, wm_get l' p = wm_get l p).
  { intros l0 addr0 [Hm Hw0]. destruct (invalidate_run addr0 l0) as (k & Hrun & Hk); [apply Hm..|].
    destruct (user_mode_cpus r k l0 Hk Hm) as [Hm' Hg].
    exists (with_kernel k l0). split; [done|]. split; [split; [done|]|done].
    by destruct Hk as (t & c & ->). }
  assert (Hput : forall l p v, ready l -> ready (wm_put p v l)).
  { intros l0 p v [Hm Hw0]. split; [by apply user_mode_put|]. by apply wm_put_writable. }
  destruct (update_twice_run X86_64 def_x86 ptedit_phys_read_pread ptedit_phys_write_pwrite
    (gets ptedit_paging_root) (ptedit_get_paging_root cfg) (ptedit_invalidate_tlb cfg) 0 r ready
    eq_refl (fun l p _ _ => phys_read_run p l) (fun l p v _ _ => phys_write_run p v l) Hput
    (fun l Hl => user_mode_root r l (proj1 Hl)) Hinv addr vm l) as (l2 & Hrun & Hready2 & Hentry & _);
    try done.
  assert (Hroot2 : own_root l2 = r) by apply Hready2.
  assert (Hentry2 : user_entry l2 addr = set_pte (pte vm) (user_entry l addr))
    by (unfold user_entry at 1; by rewrite Hroot2).
  assert (Hslots : forall lv, user_slot l2 lv addr = user_slot l lv addr).
  { intros lv. unfold user_slot. rewrite Hentry2, Hroot2. by destruct lv. }
  exists vm, l2. split; [|split; [|split; [done|]]].
  - by rewrite (call_update_user r).
  - split; rewrite ?Hroot2, ?Hentry2, ?Hslots; try done; [apply Hready2..|].
    intros lv. rewrite !Hslots. apply Hd.
  - destruct Hready2 as [(_ & _ & _ & -> & _) _]. by destruct Hmode as (_ & _ & _ & -> & _).
Qed.

#[export, refine] Instance lib_pte_laws : PteLaws (H := lib_pte cfg) (lib P L T) := {
  pte_ready l addr pid := kernel_ready l addr pid \/ user_ready l addr pid;
  pte_entry := lib_entry;
  pte_ok := small_frame }.
Proof.
  - intros l addr pid [Hk|Hu]; simpl.
    + rewrite kernel_resolve_run by done. unfold lib_entry. by rewrite (kr_resolve _ _ _ Hk).
    + pose proof (ur_mode _ _ _ Hu) as Hmode. rewrite (call_resolve_user _ _ _ _ Hmode).
      rewrite (ur_pid _ _ _ Hu). unfold lib_entry.
      destruct (Hmode) as (_ & _ & _ & -> & _).
      by apply (resolve_ready X86_64 def_x86 ptedit_phys_read_pread (gets ptedit_paging_root)
        (ptedit_get_paging_root cfg) 0 (own_root l) (user_mode (own_root l))
        (fun l p _ _ => phys_read_run p l) (user_mode_root (own_root l))).
  - intros l addr pid [Hk|Hu]; unfold lib_entry.
    + rewrite (kr_resolve _ _ _ Hk), kernel_entry_mapped by apply Hk. split; [done|].
      by apply (ok_frame _ _ _ (kr_tables _ _ _ Hk) PTE (kr_mapped _ _ _ Hk)).
    + destruct (ur_mode _ _ _ Hu) as (_ & _ & _ & -> & _). split; apply Hu.
  - intros l addr pid vm [Hk|Hu] Hv Hpte Hok Ha Hp; simpl.
    + unfold lib_entry in Hp at 1. rewrite (kr_resolve _ _ _ Hk), kernel_entry_mapped in Hp by apply Hk.
      destruct (kernel_update_ready addr pid vm l Hk Hv Hok) as (l' & Hrun & Hr & He & _).
      eexists _, l'. by eauto.
    + destruct (user_update_ready addr pid vm l Hu Hv Hpte) as (vm' & l' & Hrun & Hr & He & Hptr).
      exists vm', l'. split; [done|]. split; [by right|]. unfold lib_entry. rewrite Hptr.
      by destruct (ur_mode _ _ _ Hu) as (_ & _ & _ & -> & _).
  - intros l addr pid [Hk|Hu]; unfold lib_entry.
    + by rewrite (kr_resolve _ _ _ Hk), kernel_entry_mapped by apply Hk.
    + destruct (ur_mode _ _ _ Hu) as (_ & _ & _ & -> & _). unfold user_entry, resolve_fun.
      by repeat case_match.
Defined.
End impl.
