(* ===== verification/LibWitness.v ===== *)
(** * The library on the concrete machine

    The theorems of [Pte], [LibProps] and [LibImpl] at a library that has the
    device open on the machine of [Machine]. *)

From stdpp Require Import base tactics numbers list gmap.
From S2P Require Import Prelude Entry MemType PhysMem Linux Kernel Machine KernelProps KernelOps.
From S2P Require Import Walk Mmu Update Pte Agree KernelUpdate Lib LibProps LibImpl.
Local Open Scope Z_scope.

(** An equation of closed terms, by evaluation of both sides. *)
Ltac evaluate := match goal with |- ?a = ?b => exact (eq_refl b <: a = b) end.

Definition x86_lcfg : lconfig := mk_lconfig 4096 true.

(** The library before [ptedit_init], in a process without open descriptors. *)
Definition fresh_library : lib ram rwsem (list tlb_entry) := {|
  l_kernel := machine;
  l_files := ∅;
  l_has_device := true;
  l_has_umem := true;
  ptedit_fd := 0;
  ptedit_umem := 0;
  ptedit_pagesize := 0;
  ptedit_paging_root := 0;
  ptedit_vmem := vmem_null;
  ptedit_paging_definition := mk_def false false false false false 0 0 0 0 0 0;
  resolve_pointer := resolve_null;
  update_pointer := update_null |}.

(** What an array of a program holds before it is assigned. *)
Definition garbage0 (n : Z) : list Z := repeat 0 (Z.to_nat n).

(** With each implementation installed. *)
Definition kernel_library : lib ram rwsem (list tlb_entry) := {|
  l_kernel := with_busy true machine;
  l_files := {[ 3 := device_file; 4 := umem_file ]};
  l_has_device := true;
  l_has_umem := true;
  ptedit_fd := 3;
  ptedit_umem := 4;
  ptedit_pagesize := 4096;
  ptedit_paging_root := 0x1000;
  ptedit_vmem := vmem_mapped;
  ptedit_paging_definition := def_x86;
  resolve_pointer := resolve_kernel_fn;
  update_pointer := update_kernel_fn |}.
Definition user_library : lib ram rwsem (list tlb_entry) :=
  with_pointers resolve_user_fn update_user_fn kernel_library.

Lemma init_then_cleanup_witness :
  exists l', ptedit_init x86_cfg x86_lcfg fresh_library = Ret 0 l' /\ connected l' /\
    device_busy (l_kernel l') = true.
Proof.
  pose proof (init_then_cleanup x86_cfg x86_lcfg fresh_library eq_refl eq_refl) as H.
  simpl in H. destruct H as (l' & Hi & Hc & Hb & _).
  exists l'. split; [exact Hi|]. split; [exact Hc|exact Hb].
Defined.

Lemma pmap_covers_witness :
  exists m, ptedit_pmap x86_lcfg 0x5234 100 kernel_library = Ret m kernel_library /\
    map_offset m + map_pointer m = 0x5234.
Proof.
  destruct (pmap_covers x86_lcfg 0x5234 100 kernel_library) as (m & Hm & Ho & _); try done.
  exists m. split; [exact Hm|exact Ho].
Defined.

(** Pages of 16 bytes. *)
Definition small_library : lib ram rwsem (list tlb_entry) :=
  with_pagesize 16 (with_kernel small_pages kernel_library).

Lemma physical_page_roundtrip_witness :
  exists l', ptedit_write_physical_page x86_cfg 0x600 (page_of 0xab) small_library = Ret tt l' /\
    ptedit_read_physical_page x86_cfg 0x600 (page_of 0) l' = Ret (page_of 0xab) l'.
Proof.
  destruct (physical_page_roundtrip x86_cfg 0x600 (page_of 0xab) (page_of 0)
    (mk_ram 0x8000 (write_bytes (ram_bytes machine_ram) 0x6000 (page_of 0xab))) small_library)
    as (l' & Hw & Hr & _).
  - by apply Forall_replicate.
  - vm_compute. lia.
  - vm_compute. lia.
  - reflexivity.
  - reflexivity.
  - exists l'. split; [exact Hw|exact Hr].
Defined.

Lemma barrier_identity_witness :
  ptedit_full_serializing_barrier x86_cfg kernel_library = Ret tt kernel_library.
Proof.
  by apply (barrier_identity x86_cfg eq_refl 1 (mk_mm (PAGE_OFFSET + 0x1000) unlocked) 0x1000
    (mk_rwsem 0 true) (mk_rwsem 1 false)).
Defined.

Lemma map_agrees_with_pread_witness :
  ptedit_resolve_user_map x86_cfg 0x40201234 0 kernel_library =
  ptedit_resolve_user x86_cfg 0x40201234 0 kernel_library.
Proof.
  apply (map_agrees_with_pread x86_cfg eq_refl 0x40201234 0 0x1000); [reflexivity|reflexivity|reflexivity|].
  replace (walk_reads _ _ _ _ _) with [0x1000; 0x2008; 0x3008; 0x4008] by (vm_compute; reflexivity).
  repeat (apply Forall_cons_2; [split; [vm_compute; discriminate|vm_compute; eauto]|]).
  apply Forall_nil_2.
Defined.

(** ** The two implementations *)

Lemma kernel_library_ready : kernel_ready kernel_library 0x40201234 0.
Proof.
  assert (Hroot : process_root (l_kernel kernel_library) 0 = 0x1000) by (vm_compute; reflexivity).
  split; rewrite ?Hroot; try (vm_compute; reflexivity).
  - right. vm_compute. eauto.
  - exists 1, (mk_mm (PAGE_OFFSET + 0x1000) unlocked), (mk_rwsem 0 true), (mk_rwsem 1 false), 0x1000.
    repeat split.
  - apply (tables_ok_mem 0x1000 0x40201234 machine (l_kernel kernel_library) eq_refl
      machine_tables_ok).
  - vm_compute. eauto.
  - intros lv Hlv. destruct lv; try done; solve_disjoint.
Qed.

Lemma user_library_ready : user_ready user_library 0x40201234 0.
Proof.
  assert (He : user_entry user_library 0x40201234 =
            mk_entry 0 0x40201234 0x2067 0x2067 0x3067 0x4067 0x5067 29) by (vm_compute; reflexivity).
  assert (Hroot : own_root user_library = 0x1000) by (vm_compute; reflexivity).
  split; unfold user_slot; rewrite ?He, ?Hroot; clear He Hroot.
  - reflexivity.
  - split; [reflexivity|]. split; [right; vm_compute; eauto|]. by repeat split.
  - reflexivity.
  - vm_compute. split; congruence.
  - cbn [wm_writable lib_walk_mem]. apply conj; vm_compute; eauto.
  - intros lv Hv Hlv. clear Hv. destruct lv; try (by destruct Hlv); solve_disjoint.
Qed.

#[local] Instance machine_pte : PteAccess (lib ram rwsem (list tlb_entry)) := lib_pte x86_cfg.
#[local] Instance machine_pte_laws : PteLaws (lib ram rwsem (list tlb_entry)) :=
  lib_pte_laws x86_cfg eq_refl eq_refl.

Lemma kernel_pte_ready : pte_ready kernel_library 0x40201234 0.
Proof.
  change (kernel_ready kernel_library 0x40201234 0 \/ user_ready kernel_library 0x40201234 0).
  left. apply kernel_library_ready.
Qed.

Lemma user_pte_ready : pte_ready user_library 0x40201234 0.
Proof.
  change (kernel_ready user_library 0x40201234 0 \/ user_ready user_library 0x40201234 0).
  right. apply user_library_ready.
Qed.

Lemma small_frame_bits e : 0 <= e < 2 ^ 40 -> small_frame e.
Proof.
  intros He. split; [unfold u64; lia|]. simpl. rewrite !Z.shiftr_shiftr by lia.
  apply Z.bits_inj'. intros i Hi. bits_at.
Qed.

(** Write-protecting the page through the module, and making it dirty through the memory file. *)
Lemma pte_set_clear_get_bit_witness :
  (exists l', ptedit_pte_clear_bit 0x40201234 0 Bit.RW kernel_library = Ret tt l' /\
    ptedit_pte_get_bit 0x40201234 0 Bit.RW l' = Ret 0 l') /\
  exists l', ptedit_pte_set_bit 0x40201234 0 Bit.GLOBAL user_library = Ret tt l' /\
    ptedit_pte_get_bit 0x40201234 0 Bit.GLOBAL l' = Ret 1 l'.
Proof.
  split.
  - destruct (pte_set_clear_get_bit false 0x40201234 0 Bit.RW kernel_library
      kernel_pte_ready) as (l' & Hrun & Hget & _).
    + done.
    + apply small_frame_bits. vm_compute. split; congruence.
    + exists l'. split; [exact Hrun|]. apply (Hget Bit.RW). clear. done.
  - destruct (pte_set_clear_get_bit true 0x40201234 0 Bit.GLOBAL user_library
      user_pte_ready) as (l' & Hrun & Hget & _).
    + done.
    + apply small_frame_bits. vm_compute. split; congruence.
    + exists l'. split; [exact Hrun|]. apply (Hget Bit.GLOBAL). clear. done.
Defined.

Lemma pte_set_get_pfn_witness :
  exists l', ptedit_pte_set_pfn X86_64 0x40201234 0 6 kernel_library = Ret tt l' /\
    ptedit_pte_get_pfn X86_64 0x40201234 0 l' = Ret 6 l'.
Proof.
  destruct (pte_set_get_pfn X86_64 0x40201234 0 6 kernel_library
    kernel_pte_ready) as (l' & Hrun & Hget & _).
  - done.
  - apply small_frame_bits. vm_compute. split; congruence.
  - exists l'. split; [exact Hrun|exact Hget].
Defined.

(** Selecting the PTE and the PMD. *)
Lemma set_clear_bit_spec_witness :
  exists vm', ptedit_set_bit (gets ptedit_paging_definition) 0x40201234 0 Bit.USER 24 kernel_library =
      (ptedit_update 0x40201234 0 vm' ;;; ret tt) kernel_library /\
    valid vm' = 31.
Proof.
  destruct (set_clear_bit_spec true (gets ptedit_paging_definition) def_x86 0x40201234 0 Bit.USER 24
    (lib_entry kernel_library 0x40201234 0) kernel_library) as (vm' & Hrun & Hv & _).
  - apply (resolve_entry kernel_library 0x40201234 0 kernel_pte_ready).
  - reflexivity.
  - done.
  - reflexivity.
  - exists vm'. split; [exact Hrun|]. rewrite Hv. vm_compute. reflexivity.
Defined.
