(* ===== verification/Process.v ===== *)
(** * The process and the processor

    The programs of the repository do not only call the library: they read
    their own memory through the page tables they change, and physical memory
    through the mappings [ptedit_pmap] makes.  This file has these accesses, with
    the translation and the TLB of the processor, and what the library's
    functions on a page of the process do to them, on x86-64 and with the
    implementation in the kernel module. *)

From stdpp Require Import base tactics numbers list gmap strings.
From S2P Require Import Prelude Entry Print PhysMem Linux Kernel Machine KernelProps KernelOps.
From S2P Require Import Walk Mmu Update Pte Agree KernelUpdate Lib LibProps LibImpl.
Local Open Scope Z_scope.

(** ** Accesses *)

(** A processor: how it translates with the tables at a root, and, where its
    TLB may have a translation of the page of an address, the physical address
    that translation gives. *)
Record processor (T : Type) := mk_processor {
  translate : (Z -> Z) -> Z -> Z -> option Z;
  translate_cached : T -> Z -> Z -> Z -> Z }.
Arguments mk_processor {T}.
Arguments translate {T} p.
Arguments translate_cached {T} p.

Section accesses.
Context {P L T : Type} `{PhysMem P} `{RwSem L} `{LinuxPT P} `{TlbOps T}.
Variable proc : processor T.
Abbreviation LM := (M (lib P L T)).
Implicit Types l : lib P L T.

(** A CPU may have cached a translation under any of the tags, or a global one. *)
Definition tlb_hit (t : T) (cpu id addr : Z) : bool :=
  tlb_global t cpu addr || existsb (fun pcid => tlb_cached t cpu id pcid addr) (seqZ 0 4096).

Definition user_translate l (addr : Z) : option Z :=
  let k := l_kernel l in
  id ← mm_of k 0;
  mm ← k_mms k !! id;
  if tlb_hit (k_tlb k) (k_cpu k) id addr
  then Some (translate_cached proc (k_tlb k) (k_cpu k) id addr)
  else translate proc (memory k) (virt_to_phys (mm_pgd mm)) addr.

Definition physical_byte (a : Z) : LM Z :=
  let* k := gets l_kernel in
  match pm_read (k_mem k) a 1 with Some [b] => ret b | _ => undef end.

(** [*(volatile char * )addr]; an address that is not mapped faults. *)
Definition user_byte (addr : Z) : LM Z :=
  let* l := gets (fun l => l) in
  let* a := defined (user_translate l addr) in
  physical_byte a.

(** [*(size_t* )addr], aligned, so that the word is inside a page. *)
Definition user_word (addr : Z) : LM Z :=
  let* l := gets (fun l => l) in
  let* a := defined (user_translate l addr) in
  defined (load64 (k_mem (l_kernel l)) a).
Definition set_user_word (addr v : Z) : LM unit :=
  let* l := gets (fun l => l) in
  let* a := defined (user_translate l addr) in
  let* m := defined (store64 (k_mem (l_kernel l)) a v) in
  modify (with_kernel (with_mem m (l_kernel l))).

(** The physical address [i] bytes behind the pointer [ptedit_pmap] returned;
    [n] bytes there have to be inside the mapping. *)
Definition map_address (m : mapping) (i n : Z) : LM Z :=
  if map_ok m && (0 <=? map_pointer m + i) && (map_pointer m + i + n <=? map_length m)
  then ret (map_offset m + (map_pointer m + i)) else undef.

Definition map_byte (m : mapping) (i : Z) : LM Z :=
  let* a := map_address m i 1 in physical_byte a.
Definition map_word (m : mapping) (i : Z) : LM Z :=
  let* a := map_address m (8 * i) 8 in
  let* k := gets l_kernel in
  defined (load64 (k_mem k) a).
Definition set_map_word (m : mapping) (i v : Z) : LM unit :=
  let* a := map_address m (8 * i) 8 in
  let* k := gets l_kernel in
  let* r := defined (store64 (k_mem k) a v) in
  modify (with_kernel (with_mem r k)).
End accesses.

(** ** The C library

    What the programs use of it: [mmap] of fresh anonymous memory, given its
    length, [memset] and [munmap]. *)
Record system (S : Type) := mk_system {
  mmap : Z -> M S Z;
  memset : Z -> Z -> Z -> M S unit;
  munmap : Z -> Z -> M S unit }.
Arguments mk_system {S}.
Arguments mmap {S} s.
Arguments memset {S} s.
Arguments munmap {S} s.

(** ** Messages *)

Definition escape (s : string) : string := String (Ascii.ascii_of_nat 27) s.
Definition COLOR_RED : string := escape "[31m".
Definition COLOR_GREEN : string := escape "[32m".
Definition COLOR_YELLOW : string := escape "[33m".
Definition COLOR_RESET : string := escape "[0m".
Definition tag (colour s : string) : string := (colour ++ s ++ COLOR_RESET ++ " ")%string.
Definition TAG_OK : string := tag COLOR_GREEN "[+]".
Definition TAG_FAIL : string := tag COLOR_RED "[-]".
Definition TAG_PROGRESS : string := tag COLOR_YELLOW "[~]".

Definition message (t : string) (s : list string) : list string := t :: s ++ [newline].
Definition yellow (s : string) : list string := [COLOR_YELLOW; s; COLOR_RESET].

(** * Theorems *)

Section pages.
Context {P L T : Type} `{PhysMemLaws P} `{RwSemLaws L} `{!LinuxPT P} `{!LinuxX86 P} `{TlbLaws T}.
Variable cfg : kconfig.
Hypothesis x86 : kc_arch cfg = X86_64.
Hypothesis v4_11 : kc_v4_11 cfg = true.
(** The processor of [Mmu], with any TLB. *)
Variable cached : T -> Z -> Z -> Z -> Z.
Definition cpu86 : processor T := mk_processor x86_mmu cached.
Implicit Types l : lib P L T.

Abbreviation pmem l := (k_mem (l_kernel l)).

(** ** The root and the PTE of an address of the process *)

Definition root_of l : Z := process_root (l_kernel l) 0.
Definition slot l (lv : level) (addr : Z) : Z := mmu_slot (l_kernel l) (root_of l) addr lv.
Definition pte_of l (addr : Z) : Z := mmu_entry (memory (l_kernel l)) (root_of l) addr PTE.

(** The caller runs in its own address space, and the module invalidates the
    TLB with the method it starts with. *)
Record runs_default l : Prop := {
  rd_method : invalidate_tlb (l_kernel l) = invalidate_tlb_kernel_fn;
  rd_current : mm_of (l_kernel l) (k_current_pid (l_kernel l)) = mm_of (l_kernel l) 0;
  rd_page_size : real_page_size (l_kernel l) = 4096 }.

(** A page of the process: [addr] is its first address, the library can
    resolve it, its PTE is present and has the frame number [pfn]. *)
Record page l (addr pfn : Z) : Prop := {
  pg_ready : kernel_ready l addr 0;
  pg_addr : 0 <= addr < 2 ^ 47;
  pg_aligned : addr mod 4096 = 0;
  pg_present : Z.testbit (pte_of l addr) 0 = true;
  pg_frame : ptedit_get_pfn X86_64 (pte_of l addr) = pfn }.

Lemma wrap64_0 : wrap64 0 = 0.
Proof. done. Qed.

Lemma page_entry l addr pfn : page l addr pfn ->
  lib_entry l addr 0 = mk_entry 0 addr
    (mmu_entry (memory (l_kernel l)) (root_of l) addr PGD)
    (mmu_entry (memory (l_kernel l)) (root_of l) addr PGD)
    (mmu_entry (memory (l_kernel l)) (root_of l) addr PUD)
    (mmu_entry (memory (l_kernel l)) (root_of l) addr PMD) (pte_of l addr) 31.
Proof.
  intros [Hr _ _ _ _]. unfold lib_entry. rewrite (kr_resolve _ _ _ Hr).
  rewrite kernel_entry_mapped by apply Hr. done.
Qed.

Lemma page_resolve l addr pfn : page l addr pfn ->
  call_resolve cfg addr 0 l = Ret (lib_entry l addr 0) l.
Proof.
  intros Hp. destruct Hp as [Hr _ _ _ _]. rewrite (kernel_resolve_run cfg x86 v4_11 _ _ _ Hr).
  unfold lib_entry. by rewrite (kr_resolve _ _ _ Hr).
Qed.

Lemma page_small_frame l addr pfn : page l addr pfn -> small_frame (pte_of l addr).
Proof. intros [Hr _ _ _ _]. apply (ok_frame _ _ _ (kr_tables _ _ _ Hr) PTE (kr_mapped _ _ _ Hr)). Qed.

Lemma pfn_small e : small_frame e -> 0 <= ptedit_get_pfn X86_64 e < 2 ^ 28.
Proof.
  intros He. split; [unfold ptedit_get_pfn; apply Z.shiftr_nonneg, Z.land_nonneg; right; done|].
  apply bound_of_testbit; [done|unfold ptedit_get_pfn; apply Z.shiftr_nonneg, Z.land_nonneg; right; done|].
  intros i Hi. rewrite get_pfn_testbit. change (pfn_bits X86_64) with 40.
  destruct (Z.ltb_spec i 40); [|by rewrite andb_false_r].
  rewrite (small_frame_testbit e) by (done || lia). by rewrite andb_false_r.
Qed.

Lemma page_pfn l addr pfn : page l addr pfn -> 0 <= pfn < 2 ^ 28.
Proof. intros Hp. rewrite <- (pg_frame _ _ _ Hp). apply pfn_small. by eapply page_small_frame. Qed.

(** ** The processor *)

Lemma same_page_shift addr addr' n : Z.shiftr addr' 12 = Z.shiftr addr 12 -> 12 <= n ->
  Z.shiftr addr' n = Z.shiftr addr n.
Proof.
  intros Ha Hn. replace n with (12 + (n - 12)) by lia. rewrite <- !Z.shiftr_shiftr by lia. by rewrite Ha.
Qed.

(** Addresses of one page are translated by the same entries. *)
Lemma mapped_translate_page (k : kernel P L T) root addr addr' : tables_ok k root addr ->
  mapped root addr k -> Z.testbit (mmu_entry (memory k) root addr PTE) 0 = true ->
  Z.shiftr addr' 12 = Z.shiftr addr 12 ->
  x86_mmu (memory k) root addr' =
    Some (ptedit_get_pfn X86_64 (mmu_entry (memory k) root addr PTE) * 4096 + addr' mod 4096).
Proof.
  intros Hok Hm Hp Ha. pose proof (ok_frame _ _ _ Hok PTE Hm) as Hs.
  pose proof (ok_pud _ _ _ Hok) as H1g. unfold mapped, Mmu.reached in *.
  apply andb_true_iff in Hm as [[[Hg Hu]%andb_true_iff Hd]%andb_true_iff Hl].
  rewrite negb_true_iff in Hl. rewrite Hg, Hu in H1g. cbn [andb] in H1g.
  assert (Hr : forall table n, 12 <= n -> mmu_read (memory k) table n addr' = mmu_read (memory k) table n addr)
    by (intros table n Hn; unfold mmu_read; by rewrite (same_page_shift addr addr')).
  unfold x86_mmu. rewrite !Hr by lia.
  change (mmu_read (memory k) root 39 addr) with (mmu_entry (memory k) root addr PGD).
  change (mmu_read (memory k) (mmu_frame (mmu_entry (memory k) root addr PGD)) 30 addr)
    with (mmu_entry (memory k) root addr PUD).
  change (mmu_read (memory k) (mmu_frame (mmu_entry (memory k) root addr PUD)) 21 addr)
    with (mmu_entry (memory k) root addr PMD).
  change (mmu_read (memory k) (mmu_frame (mmu_entry (memory k) root addr PMD)) 12 addr)
    with (mmu_entry (memory k) root addr PTE).
  rewrite Hg, Hu, H1g, Hd, Hl, Hp. cbn [negb]. rewrite mmu_page_pfn by (done || lia).
  change (12 - 12) with 0. by rewrite Z.shiftr_0_r, Z.shiftl_mul_pow2.
Qed.

Lemma mapped_translate (k : kernel P L T) root addr : tables_ok k root addr ->
  mapped root addr k -> Z.testbit (mmu_entry (memory k) root addr PTE) 0 = true ->
  x86_mmu (memory k) root addr =
    Some (ptedit_get_pfn X86_64 (mmu_entry (memory k) root addr PTE) * 4096 + addr mod 4096).
Proof. intros. by apply mapped_translate_page. Qed.

(** What the TLB may have for an address is nothing, or the frame [pfn]. *)
Definition tlb_agrees l (addr pfn : Z) : Prop := forall id, mm_of (l_kernel l) 0 = Some id ->
  tlb_hit (k_tlb (l_kernel l)) (k_cpu (l_kernel l)) id addr = true ->
  cached (k_tlb (l_kernel l)) (k_cpu (l_kernel l)) id addr = pfn * 4096.

Lemma page_translate l addr pfn : page l addr pfn -> tlb_agrees l addr pfn ->
  user_translate cpu86 l addr = Some (pfn * 4096).
Proof.
  intros Hp Ht. destruct (kr_mm _ _ _ (pg_ready _ _ _ Hp)) as (id & mm & lw & lr & root & Hid & Hmm & Hpgd & _).
  rewrite wrap64_0 in Hid. unfold user_translate. rewrite Hid. cbn [mbind option_bind].
  rewrite Hmm. cbn [mbind option_bind].
  destruct (tlb_hit _ _ _ _) eqn:E; [by rewrite <- (Ht id Hid E)|].
  assert (root_of l = root) as Hroot by by apply (process_root_mm _ 0 id mm).
  rewrite Hpgd, virt_of_phys, <- Hroot. cbn [translate cpu86].
  pose proof (pg_ready _ _ _ Hp) as Hr.
  rewrite mapped_translate; [|apply Hr|apply Hr|apply Hp].
  change (mmu_entry _ _ _ PTE) with (pte_of l addr).
  by rewrite (pg_frame _ _ _ Hp), (pg_aligned _ _ _ Hp), Z.add_0_r.
Qed.

(** What the TLB has for an address is nothing, when it agrees with every frame. *)
Lemma tlb_agrees_all l addr id : (forall q, tlb_agrees l addr q) -> mm_of (l_kernel l) 0 = Some id ->
  tlb_hit (k_tlb (l_kernel l)) (k_cpu (l_kernel l)) id addr = false.
Proof.
  intros Ht Hid. destruct (tlb_hit _ _ _ _) eqn:E; [|done].
  pose proof (Ht 0 id Hid E). pose proof (Ht 1 id Hid E). lia.
Qed.

Lemma tlb_hit_page t cpu id addr addr' : Z.shiftr addr' 12 = Z.shiftr addr 12 ->
  tlb_hit t cpu id addr' = tlb_hit t cpu id addr.
Proof.
  intros Ha. unfold tlb_hit. rewrite (tlb_global_page t cpu addr' addr) by done. f_equal.
  generalize (seqZ 0 4096). intros pcids.
  induction pcids as [|pcid pcids IH]; [done|]. simpl. by rewrite IH, (tlb_page t cpu id pcid addr' addr).
Qed.

(** An access to a word of a page that the TLB does not have. *)
Lemma page_word_translate l addr pfn off : page l addr pfn -> (forall q, tlb_agrees l addr q) ->
  0 <= off < 4096 -> user_translate cpu86 l (addr + off) = Some (pfn * 4096 + off).
Proof.
  intros Hp Ht Ho. destruct (kr_mm _ _ _ (pg_ready _ _ _ Hp)) as (id & mm & lw & lr & root & Hid & Hmm & Hpgd & _).
  rewrite wrap64_0 in Hid. pose proof (pg_aligned _ _ _ Hp) as Hal.
  assert (Hs : Z.shiftr (addr + off) 12 = Z.shiftr addr 12).
  { rewrite !Z.shiftr_div_pow2 by done. change (2 ^ 12) with 4096. Z.to_euclidean_division_equations. lia. }
  unfold user_translate. rewrite Hid. cbn [mbind option_bind]. rewrite Hmm. cbn [mbind option_bind].
  rewrite (tlb_hit_page _ _ _ addr), (tlb_agrees_all l addr id Ht Hid) by done.
  assert (root_of l = root) as Hroot by by apply (process_root_mm _ 0 id mm).
  rewrite Hpgd, virt_of_phys, <- Hroot. cbn [translate cpu86].
  pose proof (pg_ready _ _ _ Hp) as Hr.
  rewrite (mapped_translate_page _ _ addr (addr + off)); [|apply Hr|apply Hr|apply Hp|done].
  change (mmu_entry _ _ _ PTE) with (pte_of l addr). rewrite (pg_frame _ _ _ Hp).
  do 2 f_equal. Z.to_euclidean_division_equations. lia.
Qed.

Lemma page_word l addr pfn off v : page l addr pfn -> (forall q, tlb_agrees l addr q) ->
  0 <= off < 4096 -> load64 (pmem l) (pfn * 4096 + off) = Some v ->
  user_word cpu86 (addr + off) l = Ret v l.
Proof.
  intros Hp Ht Ho Hv. unfold user_word. rewrite bind_gets, (page_word_translate _ _ _ _ Hp Ht Ho).
  cbn [defined]. by rewrite bind_ret_l, Hv.
Qed.

Lemma page_set_word l addr pfn off v m : page l addr pfn -> (forall q, tlb_agrees l addr q) ->
  0 <= off < 4096 -> store64 (pmem l) (pfn * 4096 + off) v = Some m ->
  set_user_word cpu86 (addr + off) v l = Ret tt (with_kernel (with_mem m (l_kernel l)) l).
Proof.
  intros Hp Ht Ho Hv. unfold set_user_word. rewrite bind_gets, (page_word_translate _ _ _ _ Hp Ht Ho).
  cbn [defined]. by rewrite bind_ret_l, Hv.
Qed.

Lemma page_byte l addr pfn b : page l addr pfn -> tlb_agrees l addr pfn ->
  pm_read (pmem l) (pfn * 4096) 1 = Some [b] -> user_byte cpu86 addr l = Ret b l.
Proof.
  intros Hp Ht Hb. unfold user_byte, physical_byte.
  rewrite bind_gets, (page_translate _ _ _ Hp Ht). cbn [defined].
  by rewrite bind_ret_l, bind_gets, Hb.
Qed.

(** ** Changes of memory *)

(** Memory may change anywhere but in the entries of the walk. *)
Lemma tables_same (k k' : kernel P L T) root addr : tables_ok k root addr -> mapped root addr k ->
  (forall lv, load64 (k_mem k') (mmu_slot k root addr lv) = load64 (k_mem k) (mmu_slot k root addr lv)) ->
  tables_ok k' root addr /\ mapped root addr k' /\
  (forall lv, mmu_slot k' root addr lv = mmu_slot k root addr lv) /\
  forall lv, mmu_entry (memory k') root addr lv = mmu_entry (memory k) root addr lv.
Proof.
  intros Hok Hmap Hsame.
  assert (Hmem : forall lv, memory k' (mmu_slot k root addr lv) = memory k (mmu_slot k root addr lv))
    by (intros lv; unfold memory; by rewrite Hsame).
  assert (Eg : mmu_entry (memory k') root addr PGD = mmu_entry (memory k) root addr PGD)
    by apply (Hmem PGD).
  assert (Eu : mmu_entry (memory k') root addr PUD = mmu_entry (memory k) root addr PUD).
  { pose proof (Hmem PUD) as E. simpl in *. unfold x86_frame in E. unfold mmu_frame. by rewrite Eg. }
  assert (Em : mmu_entry (memory k') root addr PMD = mmu_entry (memory k) root addr PMD).
  { pose proof (Hmem PMD) as E. simpl in *. unfold x86_frame in E. unfold mmu_frame in *. by rewrite Eu. }
  assert (Et : mmu_entry (memory k') root addr PTE = mmu_entry (memory k) root addr PTE).
  { pose proof (Hmem PTE) as E. simpl in *. unfold x86_frame in E. unfold mmu_frame in *. by rewrite Em. }
  assert (Hentry : forall lv, mmu_entry (memory k') root addr lv = mmu_entry (memory k) root addr lv)
    by by intros [].
  assert (Hslot : forall lv, mmu_slot k' root addr lv = mmu_slot k root addr lv)
    by (intros []; unfold mmu_slot; by rewrite ?Eg, ?Eu, ?Em).
  assert (Hr : forall lv, Mmu.reached (memory k') root addr lv = Mmu.reached (memory k) root addr lv)
    by (intros []; unfold Mmu.reached; by rewrite ?Eg, ?Eu, ?Em).
  split; [|split; [by unfold mapped; rewrite Hr|done]].
  destruct Hok as [H1' H2' H3' H4' H5'].
  split; intros; rewrite ?Hentry, ?Hslot, ?Hr, ?Hsame in *; auto.
Qed.

Lemma kernel_ready_mem l m addr : kernel_ready l addr 0 ->
  (forall lv, load64 m (slot l lv addr) = load64 (pmem l) (slot l lv addr)) ->
  is_Some (store64 m (slot l PTE addr) 0) ->
  let l' := with_kernel (with_mem m (l_kernel l)) l in
  kernel_ready l' addr 0 /\ pte_of l' addr = pte_of l addr /\
  (forall lv, slot l' lv addr = slot l lv addr) /\ lib_entry l' addr 0 = lib_entry l addr 0.
Proof.
  intros [Hc Hr Hu Hl Hinv Hmm Hok Hmap Hw Hd] Hsame Hst l'.
  destruct (tables_same (l_kernel l) (with_mem m (l_kernel l)) _ _ Hok Hmap Hsame)
    as (Hok' & Hmap' & Hslot & Hentry).
  assert (process_root (with_mem m (l_kernel l)) 0 = process_root (l_kernel l) 0) as Hroot by done.
  split; [|split; [|split]].
  - split; try done; cbn [l_kernel with_kernel l']; rewrite ?Hroot; try done.
    + rewrite Hslot. exact Hst.
    + intros lv Hlv. rewrite !Hslot. by apply Hd.
  - apply (Hentry PTE).
  - exact Hslot.
  - unfold lib_entry, l'. cbn [resolve_pointer with_kernel l_kernel]. rewrite Hr, Hroot.
    rewrite !kernel_entry_mapped by done. by rewrite !Hentry.
Qed.

Lemma page_mem l m addr pfn : page l addr pfn ->
  (forall lv, load64 m (slot l lv addr) = load64 (pmem l) (slot l lv addr)) ->
  is_Some (store64 m (slot l PTE addr) 0) ->
  page (with_kernel (with_mem m (l_kernel l)) l) addr pfn.
Proof.
  intros [Hr Ha Hal Hp Hf] Hsame Hst.
  destruct (kernel_ready_mem l m addr Hr Hsame Hst) as (Hr' & He & _).
  split; rewrite ?He; done.
Qed.

(** *** Storing a PTE without the library *)

Lemma kernel_ready_pte l addr v m : kernel_ready l addr 0 -> small_frame v ->
  store64 (pmem l) (slot l PTE addr) v = Some m ->
  let l' := with_kernel (with_mem m (l_kernel l)) l in
  kernel_ready l' addr 0 /\ pte_of l' addr = v /\ forall lv, slot l' lv addr = slot l lv addr.
Proof.
  intros [Hc Hr Hu Hl Hinv Hmm Hok Hmap Hw Hd] Hv Hst l'.
  destruct (pte_changed (root_of l) addr (l_kernel l) (with_mem m (l_kernel l)) v Hok Hmap Hv)
    as (Hok' & Hmap' & Hslot & Hentry).
  { eapply load64_store64; [apply Hv|exact Hst]. }
  { intros q Hq. by eapply load64_store64_ne. }
  { exact Hd. }
  assert (process_root (with_mem m (l_kernel l)) 0 = process_root (l_kernel l) 0) as Hroot by done.
  split; [|split].
  - split; try done; cbn [l_kernel with_kernel l']; rewrite ?Hroot; try done.
    + rewrite Hslot. by apply (store64_writable _ _ _ _ _ 0 0 Hst).
    + intros lv Hlv. rewrite !Hslot. by apply Hd.
  - specialize (Hentry zero_entry). rewrite !kernel_entry_mapped in Hentry by done.
    exact (f_equal pte Hentry).
  - exact Hslot.
Qed.

Lemma kernel_ready_tlb l t addr : kernel_ready l addr 0 ->
  kernel_ready (with_kernel (with_tlb t (l_kernel l)) l) addr 0.
Proof. intros [??????????]. split; try done. by apply (tables_ok_mem _ _ (l_kernel l)). Qed.

Lemma tlb_hit_false t cpu id addr :
  tlb_global t cpu addr = false -> (forall pcid, tlb_cached t cpu id pcid addr = false) ->
  tlb_hit t cpu id addr = false.
Proof.
  intros Hg Ht. unfold tlb_hit. rewrite Hg. cbn [orb]. generalize (seqZ 0 4096). intros pcids.
  induction pcids as [|pcid pcids IH]; [done|]. simpl. by rewrite Ht.
Qed.

(** A flush of a page of the own address space removes it from the TLB of the
    CPU, and a flush adds nothing. *)
Lemma tlb_hit_own_flush t cpu id addr sh fr :
  tlb_hit (flush_tlb_mm_range cpu (Some id) id addr (addr + 4096) sh fr t) cpu id addr = false.
Proof.
  apply tlb_hit_false; [apply global_own_range; [lia|done]|].
  intros pcid. apply cached_own_range; [lia|done].
Qed.

Lemma tlb_hit_flush t c o mm lo hi sh fr cpu id a : tlb_hit t cpu id a = false ->
  tlb_hit (flush_tlb_mm_range c o mm lo hi sh fr t) cpu id a = false.
Proof.
  unfold tlb_hit. rewrite !orb_false_iff. intros [Hg Ht]. split.
  { apply not_true_iff_false. intros E%mm_range_le. congruence. }
  revert Ht. generalize (seqZ 0 4096). intros pcids.
  induction pcids as [|pcid pcids IH]; [done|]. simpl. intros [Ht Hts]%orb_false_iff.
  rewrite IH, orb_false_r by done. apply not_true_iff_false. intros E%mm_range_le. congruence.
Qed.

(** ** Changing the PTE *)

(** From [l] to [l'] the PTE of [addr] was set to [v] by an update. *)
Record pte_set (addr v : Z) l l' : Prop := {
  ps_mem : store64 (pmem l) (slot l PTE addr) v = Some (pmem l');
  ps_same : exists t c, l' = with_kernel (with_cr4 c (with_tlb t (with_mem (pmem l') (l_kernel l)))) l;
  ps_ready : kernel_ready l' addr 0;
  ps_slots lv : slot l' lv addr = slot l lv addr;
  ps_entry : lib_entry l' addr 0 = set_pte v (lib_entry l addr 0);
  ps_tlb id : mm_of (l_kernel l) 0 = Some id ->
    tlb_hit (k_tlb (l_kernel l')) (k_cpu (l_kernel l')) id addr = false }.

Lemma update_page addr pfn v vm l : page l addr pfn -> runs_default l ->
  valid vm = PTEDIT_VALID_MASK_PTE -> pte vm = v -> small_frame v ->
  exists l', call_update cfg addr 0 vm l = Ret (set_pid 0 (set_vaddr addr vm)) l' /\ pte_set addr v l l'.
Proof.
  intros Hp [Hm Hcur Hsize] Hv <- Hsmall. pose proof (pg_ready _ _ _ Hp) as Hr.
  destruct (kernel_update_ready cfg x86 v4_11 addr 0 vm l Hr Hv Hsmall)
    as (l' & Hrun & Hr' & He & t & c & m & id & mm & Hst & -> & Hinv & mm' & Hmm & Hpgd).
  eexists. split; [exact Hrun|]. split; [exact Hst|by exists t, c|exact Hr'| |exact He|].
  - intros lv. pose proof (kr_tables _ _ _ Hr) as Hok. pose proof (kr_mapped _ _ _ Hr) as Hmap.
    refine (proj1 (proj2 (proj2 (pte_changed (root_of l) addr (l_kernel l) _ (pte vm) Hok Hmap Hsmall
      _ _ _))) lv); cbn [l_kernel with_kernel k_mem with_cr4 with_tlb with_mem].
    + eapply load64_store64; [apply Hsmall|exact Hst].
    + intros q Hq. by eapply load64_store64_ne.
    + intros lv' Hlv'. by apply (kr_disjoint _ _ _ Hr).
  - intros id' Hid'. cbn [l_kernel with_kernel k_tlb k_cpu with_cr4 with_tlb with_mem].
    destruct Hinv as (c' & Hinv). cbv zeta in Hinv. pose proof (pg_addr _ _ _ Hp).
    erewrite invalidate_kernel_run in Hinv.
    2: exact x86. 2: exact Hm. 2: exact (eq_trans Hcur Hid').
    2, 3, 4: cbn [real_page_size with_mem with_mms]; lia.
    apply (f_equal (fun o => match o with Ret _ s => k_tlb s | _ => t end)) in Hinv.
    cbn [k_tlb with_tlb with_cr4] in Hinv. rewrite <- Hinv.
    cbn [real_page_size k_cpu with_mem with_mms]. rewrite Hsize.
    change (mm_of _ 0) with (mm_of (l_kernel l) 0). rewrite Hid'. apply tlb_hit_own_flush.
Qed.

Lemma small_frame_of_testbit e : u64 e -> (forall i, 40 <= i < 52 -> Z.testbit e i = false) ->
  small_frame e.
Proof.
  intros He Hb. split; [done|]. simpl. rewrite !Z.shiftr_shiftr by lia.
  apply Z.bits_inj'. intros i Hi. autorewrite with bits.
  destruct (Z.ltb_spec i 12); [rewrite Hb by lia|]; bits_at.
Qed.

Lemma set_pfn_small_frame e p : small_frame e -> 0 <= p < 2 ^ 28 ->
  small_frame (ptedit_set_pfn X86_64 e p).
Proof.
  intros He Hp. pose proof (proj1 He) as Hu. apply small_frame_of_testbit; [auto with width|].
  intros i Hi. rewrite set_pfn_testbit by (done || lia). change (pfn_bits X86_64) with 40.
  destruct (Z.ltb_spec i 12); [lia|]. destruct (Z.ltb_spec i (12 + 40)); [|lia].
  apply (testbit_bound 28); lia.
Qed.

Lemma set_pfn_present e p : u64 e -> Z.testbit (ptedit_set_pfn X86_64 e p) 0 = Z.testbit e 0.
Proof. intros He. by rewrite set_pfn_testbit. Qed.

Lemma pte_set_page addr pfn v l l' : page l addr pfn -> pte_set addr v l l' ->
  Z.testbit v 0 = true ->
  page l' addr (ptedit_get_pfn X86_64 v) /\ pte_of l' addr = v /\
  forall q, tlb_agrees l' addr q.
Proof.
  intros Hp [Hst (t & c & He) Hr Hs Hent Ht] Hpres.
  assert (Hpte : pte_of l' addr = v).
  { unfold lib_entry in Hent. rewrite (kr_resolve _ _ _ Hr), (kr_resolve _ _ _ (pg_ready _ _ _ Hp)) in Hent.
    rewrite kernel_entry_mapped in Hent by apply Hr.
    apply (f_equal pte) in Hent. exact Hent. }
  split; [|split; [done|]].
  - destruct Hp. by split; rewrite ?Hpte.
  - intros q id Hid Hhit. rewrite Ht in Hhit; [done|]. by rewrite He in Hid.
Qed.

Lemma pte_set_default addr v l l' : pte_set addr v l l' -> runs_default l -> runs_default l'.
Proof. intros [_ (t & c & ->) _ _ _ _] [??]. by split. Qed.

Lemma pte_set_read addr v l l' a n : pte_set addr v l l' ->
  disjoint_ranges (slot l PTE addr) 8 a n -> pm_read (pmem l') a n = pm_read (pmem l) a n.
Proof.
  intros [Hst _ _ _ _ _] Hd. eapply pm_read_elsewhere; [exact Hst|]. by rewrite length_bytes_of.
Qed.

Lemma pte_set_kernel addr v l l' : pte_set addr v l l' -> exists k, l' = with_kernel k l.
Proof. intros [_ (t & c & ->) _ _ _ _]. by eexists. Qed.

(** Setting the PTE of another page. *)
Lemma page_pte_set addr v l l' addr2 pfn2 : pte_set addr v l l' -> page l addr2 pfn2 ->
  (forall lv, disjoint_ranges (slot l PTE addr) 8 (slot l lv addr2) 8) ->
  page l' addr2 pfn2 /\ pte_of l' addr2 = pte_of l addr2 /\ forall lv, slot l' lv addr2 = slot l lv addr2.
Proof.
  intros [Hst (t & c & Hl') _ _ _ _] Hp Hd. remember (pmem l') as m eqn:Hm. clear Hm.
  assert (Hsame : forall lv, load64 m (slot l lv addr2) = load64 (pmem l) (slot l lv addr2))
    by (intros lv; eapply load64_store64_ne; [exact Hst|apply Hd]).
  assert (Hw : is_Some (store64 m (slot l PTE addr2) 0)).
  { apply (store64_writable _ _ _ _ _ 0 0 Hst). exact (kr_writable _ _ _ (pg_ready _ _ _ Hp)). }
  destruct (kernel_ready_mem l m addr2 (pg_ready _ _ _ Hp) Hsame Hw) as (_ & He & Hs & _).
  pose proof (page_mem l m addr2 pfn2 Hp Hsame Hw) as [Hr Ha Hal Hp' Hf]. subst l'.
  split; [|by split]. split; [|done..]. destruct Hr as [??????????].
  split; try done. by apply (tables_ok_mem _ _ (with_mem m (l_kernel l))).
Qed.

Lemma disjoint_sym a n b k : disjoint_ranges a n b k -> disjoint_ranges b k a n.
Proof. unfold disjoint_ranges. lia. Qed.

(** Writing a range that has no entry of the walk in it. *)
Lemma page_write l addr pfn a bs m : page l addr pfn -> pm_write (pmem l) a bs = Some m ->
  (forall lv, disjoint_ranges (slot l lv addr) 8 a (length bs)) ->
  let l' := with_kernel (with_mem m (l_kernel l)) l in
  page l' addr pfn /\ pte_of l' addr = pte_of l addr /\
  (forall lv, slot l' lv addr = slot l lv addr).
Proof.
  intros Hp Hw Hd l'.
  assert (forall lv, load64 m (slot l lv addr) = load64 (pmem l) (slot l lv addr)) as Hsame.
  { intros lv. unfold load64. f_equal. eapply pm_read_elsewhere; [exact Hw|]. apply disjoint_sym, Hd. }
  assert (is_Some (store64 m (slot l PTE addr) 0)) as Hst.
  { eapply (pm_writable _ _ _ _ _ _ (bytes_of 8 0) Hw); [done|].
    exact (kr_writable _ _ _ (pg_ready _ _ _ Hp)). }
  destruct (kernel_ready_mem l m addr (pg_ready _ _ _ Hp) Hsame Hst) as (_ & He & Hs & _).
  split; [by apply page_mem|]. by split.
Qed.

(** ** The functions on frame numbers *)

#[local] Instance process_pte : PteAccess (lib P L T) := lib_pte cfg.

Lemma page_get_pfn addr pfn l : page l addr pfn ->
  ptedit_pte_get_pfn X86_64 addr 0 l = Ret pfn l.
Proof.
  intros Hp. unfold ptedit_pte_get_pfn. cbn [ptedit_resolve process_pte lib_pte].
  rewrite (bind_Ret _ _ _ _ _ (page_resolve _ _ _ Hp)), (page_entry _ _ _ Hp).
  change (level_valid PTE _) with true. cbn [negb pte]. by rewrite (pg_frame _ _ _ Hp).
Qed.

(** Giving a page another frame, by an update of the resolved entry. *)
Lemma page_redirect addr pfn p l vm : page l addr pfn -> runs_default l -> 0 <= p < 2 ^ 28 ->
  let v := ptedit_set_pfn X86_64 (pte_of l addr) p in
  valid vm = PTEDIT_VALID_MASK_PTE -> pte vm = v ->
  exists l', call_update cfg addr 0 vm l = Ret (set_pid 0 (set_vaddr addr vm)) l' /\
    pte_set addr v l l' /\ page l' addr p /\ pte_of l' addr = v /\ runs_default l' /\
    forall q, tlb_agrees l' addr q.
Proof.
  intros Hp Hd Hpr v Hv Hvm. pose proof (page_small_frame _ _ _ Hp) as Hs. pose proof (proj1 Hs) as Hu.
  destruct (update_page addr pfn v vm l Hp Hd Hv Hvm) as (l' & Hrun & Hset); [by apply set_pfn_small_frame|].
  exists l'. split; [exact Hrun|]. split; [done|].
  destruct (pte_set_page _ _ _ _ _ Hp Hset) as (Hp' & Hpte & Ht).
  { unfold v. rewrite set_pfn_present by done. apply Hp. }
  split; [|split; [done|split; [by eapply pte_set_default|done]]].
  replace p with (ptedit_get_pfn X86_64 v); [done|].
  apply (set_get_pfn X86_64 (pte_of l addr) p Hu). change (pfn_bits X86_64) with 40. lia.
Qed.

Lemma page_set_pfn addr pfn p l : page l addr pfn -> runs_default l -> 0 <= p < 2 ^ 28 ->
  let v := ptedit_set_pfn X86_64 (pte_of l addr) p in
  exists l', ptedit_pte_set_pfn X86_64 addr 0 p l = Ret tt l' /\
    pte_set addr v l l' /\ page l' addr p /\ pte_of l' addr = v /\ runs_default l' /\
    forall q, tlb_agrees l' addr q.
Proof.
  intros Hp Hd Hpr v. destruct (page_redirect addr pfn p l
    (set_valid PTEDIT_VALID_MASK_PTE (set_pte v (lib_entry l addr 0))) Hp Hd Hpr) as (l' & Hrun & Hrest); [done..|].
  exists l'. split; [|done]. unfold ptedit_pte_set_pfn. cbn [ptedit_resolve ptedit_update process_pte lib_pte].
  rewrite (bind_Ret _ _ _ _ _ (page_resolve _ _ _ Hp)).
  assert (level_valid PTE (lib_entry l addr 0) = true) as -> by by rewrite (page_entry _ _ _ Hp).
  assert (pte (lib_entry l addr 0) = pte_of l addr) as -> by by rewrite (page_entry _ _ _ Hp).
  cbn [negb]. by rewrite (bind_Ret _ _ _ _ _ Hrun).
Qed.

(** ** Other functions of the library *)

Abbreviation PAGE := (Z.to_nat 4096).

Lemma pagesize_run l : connected l -> real_page_size (l_kernel l) = 4096 ->
  ptedit_get_pagesize cfg l = Ret 4096 l.
Proof.
  intros Hc Hs. unfold ptedit_get_pagesize.
  assert (device_ioctl cfg GET_PAGESIZE (UValue 0) (l_kernel l) = Ret (4096, UValue 0) (l_kernel l))
    as Hio by (cbn [device_ioctl]; by rewrite bind_gets, Hs).
  rewrite (request_run _ _ _ _ _ _ _ Hc Hio). by rewrite with_kernel_id.
Qed.

Lemma page_barrier addr pfn l : page l addr pfn ->
  ptedit_full_serializing_barrier cfg l = Ret tt l.
Proof.
  intros Hp. pose proof (pg_ready _ _ _ Hp) as Hr.
  destruct (kr_mm _ _ _ Hr) as (id & mm & lw & lr & root & Hid & Hmm & Hpgd & Hw & Hrd).
  apply (barrier_identity cfg x86 id mm root lw lr); try done; apply Hr.
Qed.

(** The memory file is open, and pages have 4 KB. *)
Definition has_umem l : Prop := (0 <? ptedit_umem l) && umem_open l = true /\ ptedit_pagesize l = 4096.

Lemma has_umem_kernel k l : has_umem l -> has_umem (with_kernel k l).
Proof. done. Qed.

Lemma has_umem_opens l pfn : has_umem l -> 0 <= pfn < 2 ^ 40 ->
  memory_open l pfn /\ page_address l pfn = pfn * 4096.
Proof.
  intros [[Hu Ho]%andb_true_iff Hs] Hp. unfold memory_open, page_address. rewrite Hu, Hs, Ho.
  rewrite wrap64_id by (unfold u64; lia). by destruct (Z.ltb_spec (pfn * 4096) (2 ^ 63)); [|lia].
Qed.

Lemma read_page_run pfn bs buf l : has_umem l -> 0 <= pfn < 2 ^ 40 ->
  pm_read (pmem l) (pfn * 4096) PAGE = Some bs -> length bs = PAGE -> length buf = PAGE ->
  ptedit_read_physical_page cfg pfn buf l = Ret bs l.
Proof.
  intros Hu Hp Hrd Hl Hb. destruct (has_umem_opens l pfn Hu Hp) as [Ho Ha]. destruct Hu as [_ Hs].
  rewrite (read_physical_run cfg pfn buf bs l); rewrite ?Hs, ?Ha; try (done || lia).
  by rewrite drop_ge, app_nil_r by lia.
Qed.

Lemma write_page_run pfn bs m l : has_umem l -> 0 <= pfn < 2 ^ 40 -> length bs = PAGE ->
  pm_write (pmem l) (pfn * 4096) bs = Some m ->
  ptedit_write_physical_page cfg pfn bs l = Ret tt (with_kernel (with_mem m (l_kernel l)) l).
Proof.
  intros Hu Hp Hl Hw. destruct (has_umem_opens l pfn Hu Hp) as [Ho Ha]. destruct Hu as [_ Hs].
  apply write_physical_run; rewrite ?Hs, ?Ha; [done|lia|]. by rewrite take_ge by lia.
Qed.

(** A mapping of one page. *)
Definition page_mapping (pfn : Z) : mapping := mk_mapping true 4096 (pfn * 4096) 0.

Lemma pmap_run lcfg pfn l : lc_mmap lcfg = true -> has_umem l -> 0 <= pfn < 2 ^ 40 ->
  ptedit_pmap lcfg (pfn * 4096) 4096 l = Ret (page_mapping pfn) l.
Proof.
  intros Hm [[Hu Ho]%andb_true_iff Hs] Hp. apply umem_open_true in Ho.
  unfold ptedit_pmap, umem_mappable. rewrite bind_gets, Hs. change (4096 =? 0) with false. cbv iota.
  unfold bind, gets, ret. rewrite Ho, Hm. change (wrap64 4096) with 4096.
  rewrite Z.mod_mul, Z.div_mul by done. unfold page_mapping. f_equal. f_equal.
  apply wrap64_id. unfold u64. lia.
Qed.

Lemma map_byte_run pfn i b l : 0 <= i < 4096 ->
  pm_read (pmem l) (pfn * 4096 + i) 1 = Some [b] -> map_byte (page_mapping pfn) i l = Ret b l.
Proof.
  intros Hi Hb. unfold map_byte, map_address, physical_byte, page_mapping. cbn [map_ok map_pointer map_length map_offset].
  destruct (Z.leb_spec 0 (0 + i)), (Z.leb_spec (0 + i + 1) 4096); try lia. cbn [andb].
  by rewrite bind_ret_l, bind_gets, Z.add_0_l, Hb.
Qed.

(** The first byte of a page of equal bytes. *)
Lemma first_byte (m : P) a b : pm_read m a PAGE = Some (replicate PAGE b) -> pm_read m a 1 = Some [b].
Proof.
  intros Hrd. pose proof (pm_read_part _ _ _ _ 0 1 Hrd (length_replicate _ _)) as H1'.
  change (Z.of_nat 0) with 0 in H1'. rewrite Z.add_0_r in H1'.
  rewrite H1' by lia. rewrite drop_0. by replace (Z.to_nat 4096) with (S (Z.to_nat 4095)) by lia.
Qed.
End pages.
