(* ===== verification/ProcessWitness.v ===== *)
(** * A process on the concrete machine

    A C library and a process with up to three pages, on which the theorems about the
    programs are evaluated. *)

From stdpp Require Import base tactics numbers list gmap strings sets.
From S2P Require Import Prelude Entry PhysMem Linux Kernel Machine KernelProps.
From S2P Require Import Walk Mmu Pte Agree KernelUpdate Lib LibProps LibImpl LibWitness Process.
Local Open Scope Z_scope.

(** The C library on a process with one page table, in frame 4: [mmap] gives it
    the page 0x40201000 in frame 5, then 0x40202000 in frame 6, then 0x40203000
    in frame 7. *)
Section toy.
Abbreviation LM := (M (lib ram rwsem (list tlb_entry))).

Definition put_pte (slot v addr : Z) : LM Z :=
  let* k := gets l_kernel in
  let* m := defined (store64 (k_mem k) slot v) in
  modify (with_kernel (with_mem m k)) ;;; ret addr.
Definition toy_mmap (len : Z) : LM Z :=
  let* k := gets l_kernel in
  let* e := defined (load64 (k_mem k) 0x4008) in
  let* e' := defined (load64 (k_mem k) 0x4010) in
  if e =? 0 then put_pte 0x4008 0x8000000000005067 0x40201000
  else if e' =? 0 then put_pte 0x4010 0x6067 0x40202000
  else put_pte 0x4018 0x7067 0x40203000.
Definition toy_memset (addr b n : Z) : LM unit :=
  let* k := gets l_kernel in
  let* a := defined (x86_mmu (memory k) 0x1000 addr) in
  let* m := defined (pm_write (k_mem k) a (replicate (Z.to_nat n) b)) in
  modify (with_kernel (with_mem m k)).
Definition toy : system (lib ram rwsem (list tlb_entry)) :=
  mk_system toy_mmap toy_memset (fun _ _ => ret tt).
End toy.

Definition empty_ram : ram :=
  put_words [(0x1000, 0x2067); (0x2008, 0x3067); (0x3008, 0x4067)] (mk_ram 0x8000 ∅).
(** The library before and after [ptedit_init], with memory [r]. *)
Definition closed (r : ram) : lib ram rwsem (list tlb_entry) :=
  with_kernel (with_mem r machine) fresh_library.
Definition opened (r : ram) : lib ram rwsem (list tlb_entry) := {|
  l_kernel := with_busy true (with_mem r machine);
  l_files := {[ 0 := device_file; 1 := umem_file ]};
  l_has_device := true;
  l_has_umem := true;
  ptedit_fd := 0;
  ptedit_umem := 1;
  ptedit_pagesize := 4096;
  ptedit_paging_root := 0;
  ptedit_vmem := vmem_null;
  ptedit_paging_definition := def_x86;
  resolve_pointer := resolve_kernel_fn;
  update_pointer := update_kernel_fn |}.

(** With one page, with two or three, and with two pages filled. *)
Definition one_page : ram := put_words [(0x4008, 0x8000000000005067)] empty_ram.
Definition both_pages (r : ram) : ram := put_words [(0x4010, 0x6067)] r.
Definition third_page (r : ram) : ram := put_words [(0x4018, 0x7067)] r.
Definition fill (a b : Z) (r : ram) : ram := default r (pm_write r a (replicate (Z.to_nat 4096) b)).
Definition filled (a b : Z) : ram := fill 0x6000 b (fill 0x5000 a (both_pages one_page)).

(** *** Checking that an address is a page

    The conditions of [page] on the states above, which can be decided. *)
Definition level_ok (r : ram) (addr : Z) (l : level) : Prop :=
  let k := l_kernel (opened r) in
  let e := mmu_entry (memory k) 0x1000 addr l in
  is_Some (load64 r (mmu_slot k 0x1000 addr l)) /\
  (l = PTE \/ x86_none e = negb (Z.testbit e 0)) /\
  (0 <= e /\ e < 2 ^ 64) /\ field ptedit_pgd_t_x86 "reserved_1"%string e = 0 /\
  (l = PTE \/ disjoint_ranges (mmu_slot k 0x1000 addr PTE) 8 (mmu_slot k 0x1000 addr l) 8).

Definition page_ok (r : ram) (addr pfn : Z) : Prop :=
  let k := l_kernel (opened r) in
  let entry l := mmu_entry (memory k) 0x1000 addr l in
  Forall (level_ok r addr) [PGD; P4D; PUD; PMD; PTE] /\
  x86_good_table (entry PGD) = true /\ Z.testbit (entry PUD) 7 = false /\
  Mmu.reached (memory k) 0x1000 addr PTE = true /\
  ram_ok r (mmu_slot k 0x1000 addr PTE) 8 = true /\
  0 <= addr /\ addr < 2 ^ 47 /\ addr mod 4096 = 0 /\ Z.testbit (entry PTE) 0 = true /\
  ptedit_get_pfn X86_64 (entry PTE) = pfn.

#[export] Instance level_ok_dec r addr l : Decision (level_ok r addr l).
Proof. unfold level_ok, disjoint_ranges. apply _. Defined.
#[export] Instance page_ok_dec r addr pfn : Decision (page_ok r addr pfn).
Proof. unfold page_ok. apply _. Defined.

Lemma toy_root r : process_root (l_kernel (opened r)) 0 = 0x1000.
Proof. reflexivity. Qed.

Lemma page_ok_levels r addr pfn : page_ok r addr pfn -> forall l, level_ok r addr l.
Proof.
  intros [Hl _] l. rewrite Forall_forall in Hl. apply Hl. destruct l; set_solver.
Qed.

Lemma page_ok_tables r addr pfn : page_ok r addr pfn -> tables_ok (l_kernel (opened r)) 0x1000 addr.
Proof.
  intros Hok. pose proof (page_ok_levels _ _ _ Hok) as Hl. destruct Hok as (_ & Hg & Hu & _).
  split; [intros l _; apply Hl| |intros l _; split; apply Hl|intros _; exact Hg|exact (eq_trans (f_equal (andb _) Hu) (andb_false_r _))].
  intros l _ Hne. by destruct (Hl l) as (_ & [?|?] & _).
Qed.

Lemma page_checked r addr pfn : page_ok r addr pfn -> page (opened r) addr pfn.
Proof.
  intros Hok. pose proof (page_ok_levels _ _ _ Hok) as Hl. pose proof (page_ok_tables _ _ _ Hok) as Ht.
  destruct Hok as (_ & _ & _ & Hm & Hw & Ha1 & Ha2 & Hal & Hp & Hf).
  assert (Hready : kernel_ready (opened r) addr 0).
  { split; rewrite ?toy_root; try done.
    - right. by eexists.
    - by exists 1, (mk_mm (PAGE_OFFSET + 0x1000) unlocked), (mk_rwsem 0 true), (mk_rwsem 1 false), 0x1000.
    - by apply ram_writable.
    - intros lv Hlv. by destruct (Hl lv) as (_ & _ & _ & _ & [?|?]). }
  by split.
Qed.

(** An evaluation of the check. *)
Ltac check_page :=
  match goal with |- page (opened ?r) ?addr ?pfn =>
    apply page_checked, (bool_decide_eq_true_1 (page_ok r addr pfn)); evaluate end.

