(* ===== verification/Example.v ===== *)
(** * The example

    [example.c]: a program that gives a page of its own the frame of another
    one, looks at both through the page tables and through physical memory, and
    puts the frame back.  On x86-64 every check it makes succeeds. *)

From stdpp Require Import base tactics numbers list gmap strings.
From S2P Require Import Prelude Entry Print PhysMem Linux Kernel Machine KernelProps.
From S2P Require Import Walk Mmu Pte Agree KernelUpdate Lib LibProps LibImpl LibWitness Process ProcessWitness.
Local Open Scope Z_scope.

Section program.
Context {P L T : Type} `{PhysMem P} `{RwSem L} `{LinuxPT P} `{TlbOps T}.
Variable cfg : kconfig.
Variable lcfg : lconfig.
Variable os : system (lib P L T).
Variable proc : processor T.
Abbreviation LM := (M (lib P L T)).

#[local] Instance example_pte : PteAccess (lib P L T) := lib_pte cfg.

(** [printf(TAG_OK s COLOR_YELLOW "%c" COLOR_RESET "\n", b)] *)
Definition shown (t s : string) (b : Z) : list string := message t (s :: yellow (fmt_c b)).
(** The test of a byte that follows. *)
Definition checked (b expected : Z) : list string :=
  if b =? expected then message TAG_OK ["OK!"] else message TAG_FAIL ["Fail!"].

(** Each [*(volatile char* )address] is a read. *)
Definition look (t : string) (address expected : Z) : LM (list string) :=
  let* b := user_byte proc address in
  let* b' := user_byte proc address in
  ret (shown t "address[0] = " b ++ checked b' expected).

(** Lines 49 to 115, when the address is mapped; [page] is the buffer. *)
Definition example_resolved (page : list Z) (address target : Z) (vm : ptedit_entry_t)
    (out : list string) : LM (list string) :=
  let a := kc_arch cfg in
  let out := out ++ ptedit_print_entry_t a vm in
  let out := out ++ message TAG_PROGRESS ["PTE PFN "; fmt_zx (pte_pfn a (pte vm))] in
  let* s := look TAG_PROGRESS address 65 in
  let out := out ++ s in
  let out := out ++ message TAG_OK ["Set PFN of address to PFN of target"] in
  let address_pfn := ptedit_get_pfn a (pte vm) in
  let* target_pfn := ptedit_pte_get_pfn a target 0 in
  let vm := set_pte (ptedit_set_pfn a (pte vm) target_pfn) vm in
  let vm := set_valid PTEDIT_VALID_MASK_PTE vm in
  let* vm := ptedit_update address 0 vm in
  let* s := look TAG_OK address 66 in
  let out := out ++ s in
  let out := out ++ message TAG_OK ["Reading physical page of address"] in
  let* page := ptedit_read_physical_page cfg address_pfn page in
  let* b := defined (head page) in
  let out := out ++ shown TAG_OK "old address[0] (via physical page) = " b ++ checked b 65 in
  let* size := ptedit_get_pagesize cfg in
  let out := out ++ message TAG_OK
    ["Mapping physical address "; fmt_zx (wrap64 (address_pfn * wrap64 size)); " to new virtual address"] in
  let* size := ptedit_get_pagesize cfg in
  let* size' := ptedit_get_pagesize cfg in
  let* new_addr := ptedit_pmap lcfg (wrap64 (address_pfn * wrap64 size)) (wrap64 size') in
  let out := out ++ message TAG_PROGRESS ["mapped to virtual address "; "%p"] in
  let* b := map_byte new_addr 0 in
  let* b' := map_byte new_addr 0 in
  let out := out ++ shown TAG_OK "old address[0] (via pmap) = " b ++ checked b' 65 in
  let out := out ++ message TAG_OK
    ["Overwriting physical page of target with "; COLOR_YELLOW; "C"; COLOR_RESET; "s"] in
  let* size := ptedit_get_pagesize cfg in
  if (length page <? Z.to_nat (wrap64 size))%nat then undef
  else
    let page := replicate (Z.to_nat (wrap64 size)) 67 ++ drop (Z.to_nat (wrap64 size)) page in
    ptedit_write_physical_page cfg target_pfn page ;;;
    ptedit_full_serializing_barrier cfg ;;;
    let* s := look TAG_OK address 67 in
    let out := out ++ s in
    let out := out ++ message TAG_OK ["Resetting PFN of address"] in
    ptedit_pte_set_pfn a address 0 address_pfn ;;;
    ret out.

(** [main]; [garbage] is what an array holds before it is assigned.  The
    pointer [ptedit_pmap] returns has no number in this model, and is printed
    as its format. *)
Definition example (garbage : Z -> list Z) : LM (Z * list string) :=
  let* r := ptedit_init cfg lcfg in
  if negb (r =? 0) then
    ret (1, message TAG_FAIL ["Could not initialize ptedit (did you load the kernel module?)"])
  else
    let* size := ptedit_get_pagesize cfg in
    if size <=? 0 then undef
    else
      let page := garbage size in
      let* address := mmap os 4096 in
      memset os address 65 4096 ;;;
      let* target := mmap os 4096 in
      memset os target 66 4096 ;;;
      let out := message TAG_OK ("address @ " :: yellow (fmt_p address)) in
      let out := out ++ message TAG_OK ("target @ " :: yellow (fmt_p target)) in
      let* vm := ptedit_resolve address 0 in
      let* out :=
        (if pgd vm =? 0 then ret (out ++ message TAG_FAIL ["Could not resolve PTs"])
         else example_resolved page address target vm out) in
      munmap os address 4096 ;;;
      munmap os target 4096 ;;;
      ptedit_cleanup ;;;
      ret (0, out).
End program.

(** * Theorem *)

Section theorem.
Context {P L T : Type} `{PhysMemLaws P} `{RwSemLaws L} `{!LinuxPT P} `{!LinuxX86 P} `{TlbLaws T}.
Variable cfg : kconfig.
Variable lcfg : lconfig.
Hypothesis x86 : kc_arch cfg = X86_64.
Hypothesis v4_11 : kc_v4_11 cfg = true.
Variable os : system (lib P L T).
Variable cached : T -> Z -> Z -> Z -> Z.
Implicit Types l : lib P L T.

Abbreviation pmem l := (k_mem (l_kernel l)).
Abbreviation PAGE := (Z.to_nat 4096).
Abbreviation proc := (cpu86 cached).
#[local] Instance theorem_pte : PteAccess (lib P L T) := lib_pte cfg.

(** Two pages of the process, filled with As and Bs, whose frames can be
    accessed through the memory file and are not page tables of the first. *)
Record two_pages l (address target pa pt : Z) : Prop := {
  tp_address : page l address pa;
  tp_target : page l target pt;
  tp_default : runs_default l;
  tp_umem : has_umem l;
  tp_mmap : lc_mmap lcfg = true;
  tp_tlb : tlb_agrees cached l address pa;
  tp_distinct : pa <> pt;
  tp_A : pm_read (pmem l) (pa * 4096) PAGE = Some (replicate PAGE 65);
  tp_B : pm_read (pmem l) (pt * 4096) PAGE = Some (replicate PAGE 66);
  tp_writable : is_Some (pm_write (pmem l) (pt * 4096) (replicate PAGE 67));
  tp_apart lv p : p = pa \/ p = pt -> disjoint_ranges (slot l lv address) 8 (p * 4096) PAGE }.

(** What the program prints when everything goes well: the two addresses,
    then what [example_resolved] prints. *)
Definition fine (t : string) (b : Z) : list string :=
  shown t "address[0] = " b ++ message TAG_OK ["OK!"].
Definition greeting (address target : Z) : list string :=
  message TAG_OK ("address @ " :: yellow (fmt_p address)) ++
  message TAG_OK ("target @ " :: yellow (fmt_p target)).
Definition transcript (pa : Z) (vm : ptedit_entry_t) : list string :=
  ptedit_print_entry_t X86_64 vm ++
  message TAG_PROGRESS ["PTE PFN "; fmt_zx (pte_pfn X86_64 (pte vm))] ++
  fine TAG_PROGRESS 65 ++
  message TAG_OK ["Set PFN of address to PFN of target"] ++
  fine TAG_OK 66 ++
  message TAG_OK ["Reading physical page of address"] ++
  shown TAG_OK "old address[0] (via physical page) = " 65 ++ message TAG_OK ["OK!"] ++
  message TAG_OK ["Mapping physical address "; fmt_zx (pa * 4096); " to new virtual address"] ++
  message TAG_PROGRESS ["mapped to virtual address "; "%p"] ++
  shown TAG_OK "old address[0] (via pmap) = " 65 ++ message TAG_OK ["OK!"] ++
  message TAG_OK ["Overwriting physical page of target with "; COLOR_YELLOW; "C"; COLOR_RESET; "s"] ++
  fine TAG_OK 67 ++
  message TAG_OK ["Resetting PFN of address"].

Lemma look_run t address pfn b l : page l address pfn -> tlb_agrees cached l address pfn ->
  pm_read (pmem l) (pfn * 4096) 1 = Some [b] ->
  look proc t address b l = Ret (shown t "address[0] = " b ++ message TAG_OK ["OK!"]) l.
Proof.
  intros Hp Ht Hb. unfold look.
  rewrite !(bind_Ret _ _ _ _ _ (page_byte cached _ _ _ _ Hp Ht Hb)).
  unfold checked. by rewrite Z.eqb_refl.
Qed.

Lemma two_pages_pfns l address target pa pt : two_pages l address target pa pt ->
  0 <= pa < 2 ^ 28 /\ 0 <= pt < 2 ^ 28.
Proof. intros Ht. split; eapply page_pfn; apply Ht. Qed.

(** The frames of the pages are different pages of memory. *)
Lemma frames_disjoint pa pt : pa <> pt -> disjoint_ranges (pa * 4096) PAGE (pt * 4096) PAGE.
Proof. intros Hne. unfold disjoint_ranges. lia. Qed.

Lemma head_page (b : Z) : head (replicate PAGE b) = Some b.
Proof. by replace PAGE with (S (Z.to_nat 4095)) by lia. Qed.

(** The contents of the two frames, with the address on the frame [p]. *)
Record contents l (address p pa pt b : Z) : Prop := {
  ct_page : page l address p;
  ct_umem : has_umem l;
  ct_default : runs_default l;
  ct_tlb q : tlb_agrees cached l address q;
  ct_A : pm_read (pmem l) (pa * 4096) PAGE = Some (replicate PAGE 65);
  ct_B : pm_read (pmem l) (pt * 4096) PAGE = Some (replicate PAGE b) }.

(** A new frame for the address leaves the two frames as they are. *)
Lemma contents_set l l' v address p pa pt b : pte_set address v l l' ->
  has_umem l -> page l' address p -> runs_default l' -> (forall q, tlb_agrees cached l' address q) ->
  (forall q, q = pa \/ q = pt -> disjoint_ranges (slot l PTE address) 8 (q * 4096) PAGE) ->
  pm_read (pmem l) (pa * 4096) PAGE = Some (replicate PAGE 65) ->
  pm_read (pmem l) (pt * 4096) PAGE = Some (replicate PAGE b) ->
  contents l' address p pa pt b.
Proof.
  intros Hset Hu Hp Hd Ht Hapart HA HB. destruct (pte_set_kernel _ _ _ _ Hset) as [k Hk].
  split; try done; [by rewrite Hk|..]; rewrite (pte_set_read _ _ _ _ _ _ Hset); auto.
Qed.

(** Overwriting the second frame. *)
Lemma contents_write l m address p pa pt b : contents l address p pa pt b -> pa <> pt ->
  (forall lv, disjoint_ranges (slot l lv address) 8 (pt * 4096) PAGE) ->
  pm_write (pmem l) (pt * 4096) (replicate PAGE 67) = Some m ->
  let l' := with_kernel (with_mem m (l_kernel l)) l in
  contents l' address p pa pt 67 /\ pte_of l' address = pte_of l address /\
  forall lv, slot l' lv address = slot l lv address.
Proof.
  intros [Hp Hu Hd Ht HA HB] Hne Hapart Hw l'.
  assert (Hb : Forall byte_ok (replicate PAGE 67)) by by apply Forall_replicate.
  destruct (page_write l address p (pt * 4096) _ m Hp Hw) as (Hp' & Hpte & Hslot).
  { intros lv. by rewrite length_replicate. }
  split; [|by split]. split; [done|done|by destruct Hd|done|..].
  - rewrite <- HA. eapply pm_read_elsewhere; [exact Hw|]. rewrite length_replicate.
    by apply frames_disjoint, not_eq_sym.
  - pose proof (pm_read_written _ _ _ _ Hb Hw) as Hrd. by rewrite length_replicate in Hrd.
Qed.

(** The states of the program: after the redirection, after the write, at the end. *)
Lemma example_states l address target pa pt : two_pages l address target pa pt ->
  exists vm1 l1 m2 l3,
    call_update cfg address 0 (set_valid PTEDIT_VALID_MASK_PTE
      (set_pte (ptedit_set_pfn X86_64 (pte_of l address) pt) (lib_entry l address 0))) l = Ret vm1 l1 /\
    contents l1 address pt pa pt 66 /\
    pm_write (pmem l1) (pt * 4096) (replicate PAGE 67) = Some m2 /\
    let l2 := with_kernel (with_mem m2 (l_kernel l1)) l1 in
    contents l2 address pt pa pt 67 /\
    ptedit_pte_set_pfn X86_64 address 0 pa l2 = Ret tt l3 /\
    contents l3 address pa pa pt 67 /\ pte_of l3 address = pte_of l address.
Proof.
  intros Ht. destruct (two_pages_pfns _ _ _ _ _ Ht) as [Hpa Hpt].
  destruct Ht as [Ha Htg Hdef Humem Hmmap Htlb Hne HA HB Hw Hapart].
  destruct (page_redirect cfg x86 v4_11 cached address pa pt l (set_valid PTEDIT_VALID_MASK_PTE
      (set_pte (ptedit_set_pfn X86_64 (pte_of l address) pt) (lib_entry l address 0))) Ha Hdef Hpt)
    as (l1 & Hrun1 & Hset1 & Ha1 & Hpte1 & Hdef1 & Htlb1); [done..|].
  pose proof (contents_set _ _ _ _ _ pa pt 66 Hset1 Humem Ha1 Hdef1 Htlb1
    ltac:(auto) HA HB) as Hc1.
  apply (pm_writable _ _ _ _ _ (replicate PAGE 67) _ (ps_mem _ _ _ _ Hset1)) in Hw as [m2 Hw]; [|done].
  destruct (contents_write l1 m2 _ _ _ _ _ Hc1 Hne) as (Hc2 & Hpte2 & Hslot2); [|done|].
  { intros lv. rewrite (ps_slots _ _ _ _ Hset1). auto. }
  set (l2 := with_kernel (with_mem m2 (l_kernel l1)) l1) in *.
  destruct (page_set_pfn cfg x86 v4_11 cached address pt pa l2 (ct_page _ _ _ _ _ _ Hc2)
    (ct_default _ _ _ _ _ _ Hc2) Hpa) as (l3 & Hrun3 & Hset3 & Ha3 & Hpte3 & Hdef3 & Htlb3).
  eexists _, l1, m2, l3. split; [exact Hrun1|]. split; [done|]. split; [done|].
  split; [done|]. split; [exact Hrun3|]. split.
  - apply (contents_set _ _ _ _ _ _ _ _ Hset3);
      [by destruct Hc2|done|done|done| |by destruct Hc2|by destruct Hc2].
    intros q Hq. rewrite Hslot2, (ps_slots _ _ _ _ Hset1). auto.
  - assert (Hu : u64 (pte_of l address)) by exact (proj1 (page_small_frame _ _ _ Ha)).
    destruct (set_get_pfn X86_64 (pte_of l address) pa Hu) as (_ & _ & Hid & Hset); [simpl; lia|].
    rewrite Hpte3, Hpte2, Hpte1, Hset by (simpl; lia). by rewrite <- (pg_frame _ _ _ Ha).
Qed.

Lemma resolved_run l address target pa pt buf out : two_pages l address target pa pt ->
  length buf = PAGE ->
  exists l', example_resolved cfg lcfg proc buf address target (lib_entry l address 0) out l =
      Ret (out ++ transcript pa (lib_entry l address 0)) l' /\
    contents l' address pa pa pt 67 /\ pte_of l' address = pte_of l address.
Proof.
  intros Ht Hbuf. destruct (two_pages_pfns _ _ _ _ _ Ht) as [Hpa Hpt].
  destruct (example_states _ _ _ _ _ Ht) as (vm1 & l1 & m2 & l3 & Hrun1 & Hc1 & Hw & Hc2 & Hrun3 & Hc3 & Hpte3).
  destruct Ht as [Ha Htg Hdef Humem Hmmap Htlb Hne HA HB _ Hapart].
  assert (pte (lib_entry l address 0) = pte_of l address) as Hpte by by rewrite (page_entry _ _ _ Ha).
  exists l3. split; [|done]. set (l2 := with_kernel (with_mem m2 (l_kernel l1)) l1) in *.
  assert (Hsize : ptedit_get_pagesize cfg l1 = Ret 4096 l1).
  { apply pagesize_run; [|apply Hc1]. apply (kr_connected _ _ _ (pg_ready _ _ _ (ct_page _ _ _ _ _ _ Hc1))). }
  unfold example_resolved. rewrite x86.
  rewrite (bind_Ret _ _ _ _ _ (look_run TAG_PROGRESS _ _ _ _ Ha Htlb (first_byte _ _ _ HA))).
  rewrite (bind_Ret _ _ _ _ _ (page_get_pfn cfg x86 v4_11 _ _ _ Htg)), Hpte, (pg_frame _ _ _ Ha).
  rewrite (bind_Ret _ _ _ _ _ Hrun1).
  rewrite (bind_Ret _ _ _ _ _ (look_run TAG_OK _ _ _ _ (ct_page _ _ _ _ _ _ Hc1) (ct_tlb _ _ _ _ _ _ Hc1 _)
    (first_byte _ _ _ (ct_B _ _ _ _ _ _ Hc1)))).
  rewrite (bind_Ret _ _ _ _ _ (read_page_run cfg pa _ buf l1 (ct_umem _ _ _ _ _ _ Hc1) ltac:(lia)
    (ct_A _ _ _ _ _ _ Hc1) (length_replicate _ _) Hbuf)).
  rewrite head_page. cbn [defined]. rewrite bind_ret_l.
  rewrite !(bind_Ret _ _ _ _ _ Hsize). change (wrap64 4096) with 4096.
  rewrite (wrap64_id (pa * 4096)) by (unfold u64; lia).
  rewrite (bind_Ret _ _ _ _ _ (pmap_run lcfg pa l1 Hmmap (ct_umem _ _ _ _ _ _ Hc1) ltac:(lia))).
  assert (Hmap : map_byte (page_mapping pa) 0 l1 = Ret 65 l1).
  { apply map_byte_run; [lia|]. rewrite Z.add_0_r. apply first_byte, Hc1. }
  rewrite !(bind_Ret _ _ _ _ _ Hmap), (bind_Ret _ _ _ _ _ Hsize), length_replicate.
  change (wrap64 4096) with 4096.
  destruct (Nat.ltb_spec PAGE PAGE); [lia|]. rewrite (drop_ge (replicate PAGE 65)) by by rewrite length_replicate.
  rewrite app_nil_r.
  rewrite (bind_Ret _ _ _ _ _ (write_page_run cfg pt _ m2 l1 (ct_umem _ _ _ _ _ _ Hc1) ltac:(lia)
    (length_replicate _ _) Hw)). fold l2.
  rewrite (bind_Ret _ _ _ _ _ (page_barrier cfg x86 _ _ _ (ct_page _ _ _ _ _ _ Hc2))).
  rewrite (bind_Ret _ _ _ _ _ (look_run TAG_OK _ _ _ _ (ct_page _ _ _ _ _ _ Hc2) (ct_tlb _ _ _ _ _ _ Hc2 _)
    (first_byte _ _ _ (ct_B _ _ _ _ _ _ Hc2)))).
  rewrite (bind_Ret _ _ _ _ _ Hrun3). unfold ret. f_equal. unfold transcript, fine, checked.
  rewrite Hpte, !Z.eqb_refl. by rewrite <- !app_assoc.
Qed.
Lemma page_pgd l address pfn : page l address pfn -> pgd (lib_entry l address 0) <> 0.
Proof.
  intros Hp. rewrite (page_entry _ _ _ Hp). cbn [pgd].
  pose proof (kr_mapped _ _ _ (pg_ready _ _ _ Hp)) as Hm. unfold mapped, Mmu.reached in Hm.
  apply andb_true_iff in Hm as [[[Hg _]%andb_true_iff _]%andb_true_iff _].
  intros E. unfold root_of in E. by rewrite E in Hg.
Qed.

(** C39: on x86-64, when the C library gives it two fresh pages, the example
    returns 0 and every check it makes succeeds: the byte at the address is an
    A, after the redirection the B of the other page, its old frame is still
    seen through physical memory and through a new mapping with its As, and the
    Cs written to the other frame are seen at the address.  Before it unmaps the
    pages the address has its old PTE and is translated to its old
    frame, even by a processor that uses every translation its TLB may have. *)
Theorem example_succeeds l l1 la lb lc l2 address target pa pt garbage :
  ptedit_init cfg lcfg l = Ret 0 l1 -> ptedit_get_pagesize cfg l1 = Ret 4096 l1 ->
  mmap os 4096 l1 = Ret address la -> memset os address 65 4096 la = Ret tt lb ->
  mmap os 4096 lb = Ret target lc -> memset os target 66 4096 lc = Ret tt l2 ->
  two_pages l2 address target pa pt -> length (garbage 4096) = PAGE ->
  exists l3,
    example cfg lcfg os proc garbage l =
      (munmap os address 4096 ;;; munmap os target 4096 ;;; ptedit_cleanup ;;;
       ret (0, greeting address target ++ transcript pa (lib_entry l2 address 0))) l3 /\
    pte_of l3 address = pte_of l2 address /\
    user_translate proc l3 address = Some (pa * 4096) /\
    pm_read (pmem l3) (pa * 4096) PAGE = Some (replicate PAGE 65) /\
    pm_read (pmem l3) (pt * 4096) PAGE = Some (replicate PAGE 67).
Proof.
  intros Hinit Hsize Hm1 Hs1 Hm2 Hs2 Ht Hg.
  destruct (resolved_run l2 address target pa pt (garbage 4096) (greeting address target) Ht Hg)
    as (l3 & Hrun & [Hp _ _ Htlb HA HB] & Hpte).
  exists l3. split; [|split; [done|split; [by apply (page_translate cached)|done]]].
  unfold example. rewrite (bind_Ret _ _ _ _ _ Hinit). change (negb (0 =? 0)) with false. cbv iota.
  rewrite (bind_Ret _ _ _ _ _ Hsize). change (4096 <=? 0) with false. cbv iota zeta.
  rewrite (bind_Ret _ _ _ _ _ Hm1), (bind_Ret _ _ _ _ _ Hs1), (bind_Ret _ _ _ _ _ Hm2),
    (bind_Ret _ _ _ _ _ Hs2).
  cbn [ptedit_resolve example_pte lib_pte].
  rewrite (bind_Ret _ _ _ _ _ (page_resolve cfg x86 v4_11 _ _ _ (tp_address _ _ _ _ _ Ht))).
  destruct (Z.eqb_spec (pgd (lib_entry l2 address 0)) 0) as [E|_].
  { by destruct (page_pgd _ _ _ (tp_address _ _ _ _ _ Ht)). }
  by rewrite (bind_Ret _ _ _ _ _ Hrun).
Qed.
End theorem.

(** ** On the concrete machine *)

Lemma toy_two_pages : two_pages x86_lcfg (fun _ _ _ _ => 0x5000) (opened (filled 65 66)) 0x40201000 0x40202000 5 6.
Proof.
  split.
  - check_page.
  - check_page.
  - split; vm_compute; reflexivity.
  - split; vm_compute; reflexivity.
  - reflexivity.
  - intros id _ _. reflexivity.
  - done.
  - vm_compute. reflexivity.
  - vm_compute. reflexivity.
  - apply ram_writable. vm_compute. reflexivity.
  - intros lv p [-> | ->]; destruct lv; solve_disjoint.
Qed.

Lemma toy_runs :
  ptedit_init x86_cfg x86_lcfg (closed empty_ram) = Ret 0 (opened empty_ram) /\
  ptedit_get_pagesize x86_cfg (opened empty_ram) = Ret 4096 (opened empty_ram) /\
  toy_mmap 4096 (opened empty_ram) = Ret 0x40201000 (opened one_page) /\
  toy_memset 0x40201000 65 4096 (opened one_page) = Ret tt (opened (fill 0x5000 65 one_page)) /\
  toy_mmap 4096 (opened (fill 0x5000 65 one_page)) = Ret 0x40202000 (opened (both_pages (fill 0x5000 65 one_page))) /\
  toy_memset 0x40202000 66 4096 (opened (both_pages (fill 0x5000 65 one_page))) = Ret tt (opened (filled 65 66)).
Proof. repeat apply conj; evaluate. Qed.

(** The TLB of the machine has a translation of the address. *)
Lemma example_succeeds_witness :
  tlb_hit (k_tlb (l_kernel (opened (filled 65 66)))) 0 1 0x40201000 = true /\
  exists l3, example x86_cfg x86_lcfg toy (cpu86 (fun _ _ _ _ => 0x5000)) garbage0 (closed empty_ram) =
    (ptedit_cleanup ;;;
     ret (0, greeting 0x40201000 0x40202000 ++
             transcript 5 (mk_entry 0 0x40201000 0x2067 0x2067 0x3067 0x4067 0x8000000000005067 31))) l3.
Proof.
  split; [evaluate|]. destruct toy_runs as (R1 & R2 & R3 & R4 & R5 & R6).
  destruct (example_succeeds x86_cfg x86_lcfg eq_refl eq_refl toy (fun _ _ _ _ => 0x5000) (closed empty_ram)
    _ _ _ _ _ _ _ _ _ garbage0 R1 R2 R3 R4 R5 R6 toy_two_pages) as (l3 & Hrun & _).
  - unfold garbage0. by rewrite repeat_length.
  - exists l3. rewrite Hrun. cbn [munmap toy]. rewrite !bind_ret_l.
    replace (lib_entry (opened (filled 65 66)) 0x40201000 0) with
      (mk_entry 0 0x40201000 0x2067 0x2067 0x3067 0x4067 0x8000000000005067 31) by evaluate.
    reflexivity.
Defined.
