(* ===== verification/MapPt.v ===== *)
(** * Mapping a page table

    [demos/map_pt.c]: a program that maps the page table of one of its pages
    into its own memory, and redirects the page to another one by writing to
    the entry there. *)

From stdpp Require Import base tactics numbers list gmap strings.
From S2P Require Import Prelude Entry Print PhysMem Linux Kernel Machine KernelProps KernelOps.
From S2P Require Import Walk Mmu Pte Agree KernelUpdate Lib LibProps LibImpl LibWitness Process ProcessWitness.
Local Open Scope Z_scope.

Section program.
Context {P L T : Type} `{PhysMem P} `{RwSem L} `{LinuxPT P} `{TlbOps T}.
Variable cfg : kconfig.
Variable lcfg : lconfig.
Variable os : system (lib P L T).
Variable proc : processor T.
Abbreviation LM := (M (lib P L T)).

#[local] Instance map_pt_pte : PteAccess (lib P L T) := lib_pte cfg.

(** Lines 30 to 65, after the initialisation: what is printed. *)
Definition redirect (target secret : Z) : LM (list string) :=
  let a := kc_arch cfg in
  let* secret_entry := ptedit_resolve secret 0 in
  let* target_entry := ptedit_resolve target 0 in
  let out := ptedit_print_entry a (pte target_entry) in
  let pt_pfn := table_pfn a (pmd target_entry) in
  let* size := ptedit_get_pagesize cfg in
  let* size' := ptedit_get_pagesize cfg in
  let* pt := ptedit_pmap lcfg (wrap64 (pt_pfn * wrap64 size)) (wrap64 size') in
  let out := out ++ message TAG_PROGRESS ["PT mapped at "; "%p"] in
  let entry := Z.land (Z.shiftr target 12) 0x1ff in
  let out := out ++ message TAG_PROGRESS ["Entry: "; fmt_zd entry] in
  let* e := map_word pt entry in
  let out := out ++ (if negb (e =? pte target_entry)
                     then message TAG_FAIL ["Something went wrong..."]
                     else message TAG_OK ["Worked!"]) in
  let* e := map_word pt entry in
  set_map_word pt entry (ptedit_set_pfn a e (ptedit_get_pfn a (pte secret_entry))) ;;;
  Lib.ptedit_invalidate_tlb cfg target ;;;
  let* b := user_byte proc target in
  let out := out ++ message TAG_PROGRESS ["Target[0]: "; fmt_c b] in
  let* b := user_byte proc target in
  let out := out ++ (if b =? 83 then message TAG_OK ["Success!"] else message TAG_FAIL ["Fail!"]) in
  set_map_word pt entry (pte target_entry) ;;;
  ret out.

(** [main]. *)
Definition map_pt : LM (Z * list string) :=
  let* target := mmap os 4096 in
  let* secret := mmap os 4096 in
  memset os target 66 4096 ;;;
  memset os secret 83 4096 ;;;
  let* r := ptedit_init cfg lcfg in
  if negb (r =? 0) then
    ret (1, message TAG_FAIL
      ["Error: Could not initalize PTEditor, did you load the kernel module?"])
  else
    let* out := redirect target secret in
    ptedit_cleanup ;;;
    ret (0, out ++ message TAG_OK ["Done"]).
End program.

(** * Theorem *)

Section theorem.
Context {P L T : Type} `{PhysMemLaws P} `{RwSemLaws L} `{!LinuxPT P} `{!LinuxX86 P} `{TlbLaws T}.
Variable cfg : kconfig.
Variable lcfg : lconfig.
Hypothesis x86 : kc_arch cfg = X86_64.
Hypothesis v4_11 : kc_v4_11 cfg = true.
Variable os : system (lib P L T).
Variable cached : T -> Z -> Z -> Z -> Z.
Implicit Types l : lib P L T.

Abbreviation pmem l := (k_mem (l_kernel l)).
Abbreviation proc := (cpu86 cached).
#[local] Instance theorem_pte : PteAccess (lib P L T) := lib_pte cfg.

(** The frame of the page table of an address, and the mapping of it. *)
Definition table_frame l (addr : Z) : Z := table_pfn X86_64 (pmd (lib_entry l addr 0)).
Definition entry_index (addr : Z) : Z := Z.land (Z.shiftr addr 12) 0x1ff.

(** The entry the program computes is the PTE. *)
Lemma table_slot l addr pfn : page l addr pfn ->
  0 <= table_frame l addr < 2 ^ 28 /\ 0 <= entry_index addr < 512 /\
  slot l PTE addr = table_frame l addr * 4096 + 8 * entry_index addr.
Proof.
  intros Hp. unfold table_frame. rewrite (page_entry _ _ _ Hp). cbn [pmd].
  pose proof (pg_ready _ _ _ Hp) as Hr. pose proof (kr_mapped _ _ _ Hr) as Hm.
  assert (small_frame (mmu_entry (memory (l_kernel l)) (root_of l) addr PMD)) as Hs.
  { apply (ok_frame _ _ _ (kr_tables _ _ _ Hr) PMD). unfold mapped, Mmu.reached in *.
    by apply andb_true_iff in Hm as [[Hm _]%andb_true_iff _]. }
  split; [rewrite table_pfn_x86, Z.land_ones by done; by apply Z.mod_pos_bound|]. split.
  - unfold entry_index. change 0x1ff with (Z.ones 9). rewrite Z.land_ones by done.
    by apply Z.mod_pos_bound.
  - unfold slot, mmu_slot. change x86_frame with mmu_frame. rewrite mmu_frame_table_pfn by done. done.
Qed.

Lemma entry_address pfn i l : 0 <= i < 512 ->
  map_address (page_mapping pfn) (8 * i) 8 l = Ret (pfn * 4096 + 8 * i) l.
Proof.
  intros Hi. unfold map_address, page_mapping. cbn [map_ok map_pointer map_length map_offset].
  destruct (Z.leb_spec 0 (0 + 8 * i)), (Z.leb_spec (0 + 8 * i + 8) 4096); try lia. done.
Qed.

Lemma pte_word l addr pfn : page l addr pfn ->
  load64 (pmem l) (slot l PTE addr) = Some (pte_of l addr).
Proof.
  intros Hp. pose proof (pg_ready _ _ _ Hp) as Hr.
  destruct (ok_readable _ _ _ (kr_tables _ _ _ Hr) PTE (kr_mapped _ _ _ Hr)) as [v Hv].
  unfold pte_of. rewrite entry_slot. unfold memory. fold (slot l PTE addr) in *.
  unfold slot, root_of in *. by rewrite Hv.
Qed.

Lemma map_word_run l addr pfn : page l addr pfn ->
  map_word (page_mapping (table_frame l addr)) (entry_index addr) l = Ret (pte_of l addr) l.
Proof.
  intros Hp. destruct (table_slot _ _ _ Hp) as (_ & Hi & Hslot). unfold map_word.
  rewrite (bind_Ret _ _ _ _ _ (entry_address _ _ l Hi)), <- Hslot, bind_gets.
  by rewrite (pte_word _ _ _ Hp).
Qed.

Lemma set_map_word_run l pfn i v m : 0 <= i < 512 ->
  store64 (pmem l) (pfn * 4096 + 8 * i) v = Some m ->
  set_map_word (page_mapping pfn) i v l = Ret tt (with_kernel (with_mem m (l_kernel l)) l).
Proof.
  intros Hi Hst. unfold set_map_word. by rewrite (bind_Ret _ _ _ _ _ (entry_address _ _ l Hi)), bind_gets, Hst.
Qed.

(** The invalidation by the module. *)
Lemma invalidate_default l addr : connected l -> runs_default l ->
  is_Some (mm_of (l_kernel l) 0) -> 0 <= addr < 2 ^ 47 ->
  exists t, Lib.ptedit_invalidate_tlb cfg addr l = Ret tt (with_kernel (with_tlb t (l_kernel l)) l) /\
    (forall pfn, tlb_agrees cached (with_kernel (with_tlb t (l_kernel l)) l) addr pfn) /\
    (forall cpu id a, tlb_hit (k_tlb (l_kernel l)) cpu id a = false -> tlb_hit t cpu id a = false).
Proof.
  intros Hc [Hm Hcur Hsize] [id Hid] Ha.
  assert (Hrun : device_ioctl cfg INVALIDATE_TLB (UValue addr) (l_kernel l) = Ret (0, UValue addr)
    (with_tlb (flush_tlb_mm_range (k_cpu (l_kernel l)) (Some id) id addr (addr + 4096)
                 (real_page_shift (l_kernel l)) false (k_tlb (l_kernel l))) (l_kernel l))).
  { cbn [device_ioctl]. rewrite Hid in Hcur.
    rewrite (bind_Ret _ _ _ _ _ (invalidate_kernel_run cfg addr (l_kernel l) id x86 Hm Hcur
      ltac:(lia) ltac:(lia) ltac:(lia))). by rewrite Hid, Hsize. }
  eexists. split.
  - unfold Lib.ptedit_invalidate_tlb. by rewrite (request_run _ _ _ _ _ _ _ Hc Hrun).
  - split; [|intros cpu id' a; apply tlb_hit_flush]. intros pfn id' Hid' Hhit. change (mm_of (l_kernel l) 0 = Some id') in Hid'. cbn [l_kernel with_kernel k_tlb k_cpu with_tlb] in *.
    assert (id' = id) as -> by congruence. by rewrite tlb_hit_own_flush in Hhit.
Qed.

(** Two pages of the process, of which the second is filled with Ss. *)
Record pages_ready l (target secret pt ps : Z) : Prop := {
  pr_target : page l target pt;
  pr_secret : page l secret ps;
  pr_default : runs_default l;
  pr_umem : has_umem l;
  pr_mmap : lc_mmap lcfg = true;
  pr_S : pm_read (pmem l) (ps * 4096) (Z.to_nat 4096) = Some (replicate (Z.to_nat 4096) 83);
  pr_apart : disjoint_ranges (slot l PTE target) 8 (ps * 4096) (Z.to_nat 4096) }.

(** Storing an entry with another frame in the PTE and invalidating. *)
Lemma store_pte l addr pfn v : page l addr pfn -> runs_default l -> small_frame v ->
  Z.testbit v 0 = true ->
  exists m t, store64 (pmem l) (slot l PTE addr) v = Some m /\
    let l1 := with_kernel (with_mem m (l_kernel l)) l in
    let l2 := with_kernel (with_tlb t (l_kernel l1)) l1 in
    Lib.ptedit_invalidate_tlb cfg addr l1 = Ret tt l2 /\
    page l1 addr (ptedit_get_pfn X86_64 v) /\ pte_of l1 addr = v /\
    page l2 addr (ptedit_get_pfn X86_64 v) /\ slot l2 PTE addr = slot l PTE addr /\
    (forall q, tlb_agrees cached l2 addr q) /\
    forall a, (forall q, tlb_agrees cached l a q) -> forall q, tlb_agrees cached l2 a q.
Proof.
  intros [Hr Ha Hal Hp Hf] Hd Hv Hv0.
  destruct (store64_any _ _ 0 v (kr_writable _ _ _ Hr)) as [m Hst]. fold (slot l PTE addr) in Hst.
  destruct (kernel_ready_pte l addr v m Hr Hv Hst) as (Hr1 & Hpte1 & Hslot1).
  set (l1 := with_kernel (with_mem m (l_kernel l)) l) in *.
  destruct (invalidate_default l1 addr) as (t & Hinv & Ht & Hmono); [apply Hr1| |..|done|].
  - by destruct Hd.
  - destruct (kr_mm _ _ _ Hr1) as (id & mm & lw & lr & root & Hid & _). by exists id.
  - exists m, t. cbv zeta. fold l1. split; [done|]. split; [done|].
    split; [by split; rewrite ?Hpte1|]. split; [done|].
    split; [|split; [exact (Hslot1 PTE)|split; [done|]]].
    2: { intros a Hall q id Hid Hhit. assert (tlb_hit t (k_cpu (l_kernel l1)) id a = false) as Hmiss;
         [|by cbn [l_kernel with_kernel k_tlb k_cpu with_tlb] in Hhit; rewrite Hmiss in Hhit].
         by apply Hmono, (tlb_agrees_all cached l a id). }
    split; [by apply kernel_ready_tlb|done|done|..]; change (pte_of _ addr) with (pte_of l1 addr);
      by rewrite Hpte1.
Qed.

(** What [redirect] prints when everything goes well. *)
Definition success (target pte : Z) : list string :=
  ptedit_print_entry X86_64 pte ++
  message TAG_PROGRESS ["PT mapped at "; "%p"] ++
  message TAG_PROGRESS ["Entry: "; fmt_zd (entry_index target)] ++
  message TAG_OK ["Worked!"] ++
  message TAG_PROGRESS ["Target[0]: "; fmt_c 83] ++
  message TAG_OK ["Success!"].

(** The states of [redirect]: after the store, after the invalidation, at the
    end. *)
Lemma redirect_states l target secret pt ps : pages_ready l target secret pt ps ->
  exists m t m3,
    let v := ptedit_set_pfn X86_64 (pte_of l target) ps in
    let l1 := with_kernel (with_mem m (l_kernel l)) l in
    let l2 := with_kernel (with_tlb t (l_kernel l1)) l1 in
    let l3 := with_kernel (with_mem m3 (l_kernel l2)) l2 in
    store64 (pmem l) (slot l PTE target) v = Some m /\
    Lib.ptedit_invalidate_tlb cfg target l1 = Ret tt l2 /\
    user_byte proc target l2 = Ret 83 l2 /\
    store64 (pmem l2) (slot l PTE target) (pte_of l target) = Some m3 /\
    pte_of l3 target = pte_of l target /\
    forall a n, disjoint_ranges (slot l PTE target) 8 a n ->
      pm_read (pmem l3) a n = pm_read (pmem l) a n.
Proof.
  intros [Ht Hs Hd Hu Hmm HS Hapart].
  pose proof (page_small_frame _ _ _ Ht) as Hsm. pose proof (page_pfn _ _ _ Hs) as Hps.
  set (v := ptedit_set_pfn X86_64 (pte_of l target) ps).
  destruct (store_pte l target pt v Ht Hd) as (m & t & Hst & Hinv & _ & _ & Hp2 & Hslot2 & Htlb2 & _).
  { by apply set_pfn_small_frame. }
  { unfold v. rewrite set_pfn_present by apply Hsm. apply Ht. }
  assert (ptedit_get_pfn X86_64 v = ps) as Hv.
  { apply (set_get_pfn X86_64 (pte_of l target) ps (proj1 Hsm)). simpl. lia. }
  rewrite Hv in Hp2. cbv zeta in Hinv, Hp2, Hslot2, Htlb2.
  set (l1 := with_kernel (with_mem m (l_kernel l)) l) in *.
  set (l2 := with_kernel (with_tlb t (l_kernel l1)) l1) in *.
  assert (pm_read (pmem l2) (ps * 4096) (Z.to_nat 4096) = Some (replicate (Z.to_nat 4096) 83)) as HS2.
  { rewrite <- HS. eapply pm_read_elsewhere; [exact Hst|]. by rewrite length_bytes_of. }
  assert (runs_default l2) as Hd2 by by destruct Hd.
  destruct (store_pte l2 target ps (pte_of l target) Hp2 Hd2 Hsm (pg_present _ _ _ Ht))
    as (m3 & _ & Hst3 & _ & _ & Hpte3 & _). rewrite Hslot2 in Hst3.
  exists m, t, m3. cbv zeta. split; [done|]. split; [exact Hinv|].
  split; [exact (page_byte cached l2 target ps 83 Hp2 (Htlb2 ps) (first_byte _ _ _ HS2))|].
  split; [exact Hst3|]. split; [exact Hpte3|].
  intros a n Ha. etrans; eapply pm_read_elsewhere; [exact Hst3| |exact Hst|]; by rewrite length_bytes_of.
Qed.

Lemma redirect_run l target secret pt ps : pages_ready l target secret pt ps ->
  exists l', redirect cfg lcfg proc target secret l = Ret (success target (pte_of l target)) l' /\
    pte_of l' target = pte_of l target /\
    forall a n, disjoint_ranges (slot l PTE target) 8 a n ->
      pm_read (pmem l') a n = pm_read (pmem l) a n.
Proof.
  intros Hready. destruct (redirect_states _ _ _ _ _ Hready) as (m & t & m3 & Hst & Hinv & Hbyte & Hst3 & Hpte3 & Hmem).
  destruct Hready as [Ht Hs Hd Hu Hmm _ _]. destruct (table_slot _ _ _ Ht) as (Htf & Hi & Hslot).
  eexists. split; [|split; [exact Hpte3|exact Hmem]].
  assert (Hsize : ptedit_get_pagesize cfg l = Ret 4096 l)
    by (apply pagesize_run; [apply (kr_connected _ _ _ (pg_ready _ _ _ Ht))|apply Hd]).
  assert (pte (lib_entry l target 0) = pte_of l target) as Hpte by by rewrite (page_entry _ _ _ Ht).
  assert (pte (lib_entry l secret 0) = pte_of l secret) as Hpte' by by rewrite (page_entry _ _ _ Hs).
  unfold redirect. rewrite x86. cbn [ptedit_resolve map_pt_pte lib_pte].
  rewrite (bind_Ret _ _ _ _ _ (page_resolve cfg x86 v4_11 _ _ _ Hs)).
  rewrite (bind_Ret _ _ _ _ _ (page_resolve cfg x86 v4_11 _ _ _ Ht)).
  rewrite Hpte, Hpte', (pg_frame _ _ _ Hs), !(bind_Ret _ _ _ _ _ Hsize).
  change (wrap64 4096) with 4096. fold (table_frame l target). fold (entry_index target).
  rewrite (wrap64_id (table_frame l target * 4096)) by (unfold u64; lia).
  rewrite (bind_Ret _ _ _ _ _ (pmap_run lcfg (table_frame l target) l Hmm Hu ltac:(lia))).
  rewrite !(bind_Ret _ _ _ _ _ (map_word_run l target pt Ht)), Z.eqb_refl. cbn [negb].
  rewrite Hslot in Hst, Hst3.
  rewrite (bind_Ret _ _ _ _ _ (set_map_word_run l _ _ _ m Hi Hst)).
  rewrite (bind_Ret _ _ _ _ _ Hinv), !(bind_Ret _ _ _ _ _ Hbyte).
  change (83 =? 83) with true. cbv iota.
  rewrite (bind_Ret _ _ _ _ _ (set_map_word_run _ _ _ (pte_of l target) m3 Hi Hst3)).
  unfold ret, success. by rewrite <- !app_assoc.
Qed.

(** On x86-64, when the C library gives the program two pages, it finds
    the PTE of the first one in the mapping of the page table, and after
    writing the frame of the second page there and invalidating it reads the
    S of the second page at the first address, even if the processor uses
    every translation its TLB may have.  In the end the PTE is the
    one of before, and no other memory has changed. *)
Theorem map_pt_redirects l la lb lc ld l0 target secret pt ps :
  mmap os 4096 l = Ret target la -> mmap os 4096 la = Ret secret lb ->
  memset os target 66 4096 lb = Ret tt lc -> memset os secret 83 4096 lc = Ret tt ld ->
  ptedit_init cfg lcfg ld = Ret 0 l0 -> pages_ready l0 target secret pt ps ->
  exists l', map_pt cfg lcfg os proc l =
      (ptedit_cleanup ;;;
       ret (0, success target (pte_of l0 target) ++ message TAG_OK ["Done"])) l' /\
    pte_of l' target = pte_of l0 target /\
    forall a n, disjoint_ranges (slot l0 PTE target) 8 a n ->
      pm_read (pmem l') a n = pm_read (pmem l0) a n.
Proof.
  intros Hm1 Hm2 Hs1 Hs2 Hinit Hready.
  destruct (redirect_run _ _ _ _ _ Hready) as (l' & Hrun & Hpte & Hmem).
  exists l'. split; [|done]. unfold map_pt.
  rewrite (bind_Ret _ _ _ _ _ Hm1), (bind_Ret _ _ _ _ _ Hm2), (bind_Ret _ _ _ _ _ Hs1),
    (bind_Ret _ _ _ _ _ Hs2), (bind_Ret _ _ _ _ _ Hinit).
  change (negb (0 =? 0)) with false. cbv iota. by rewrite (bind_Ret _ _ _ _ _ Hrun).
Qed.
End theorem.

(** ** On the concrete machine *)

Lemma toy_pages_ready : pages_ready x86_lcfg (opened (filled 66 83)) 0x40201000 0x40202000 5 6.
Proof.
  split.
  - check_page.
  - check_page.
  - split; evaluate.
  - split; evaluate.
  - reflexivity.
  - evaluate.
  - solve_disjoint.
Qed.

Lemma toy_map_pt_runs :
  toy_mmap 4096 (closed empty_ram) = Ret 0x40201000 (closed one_page) /\
  toy_mmap 4096 (closed one_page) = Ret 0x40202000 (closed (both_pages one_page)) /\
  toy_memset 0x40201000 66 4096 (closed (both_pages one_page)) =
    Ret tt (closed (fill 0x5000 66 (both_pages one_page))) /\
  toy_memset 0x40202000 83 4096 (closed (fill 0x5000 66 (both_pages one_page))) =
    Ret tt (closed (filled 66 83)) /\
  ptedit_init x86_cfg x86_lcfg (closed (filled 66 83)) = Ret 0 (opened (filled 66 83)).
Proof. repeat apply conj; evaluate. Qed.

Lemma map_pt_redirects_witness :
  tlb_hit (k_tlb (l_kernel (opened (filled 66 83)))) 0 1 0x40201000 = true /\
  exists l', map_pt x86_cfg x86_lcfg toy (cpu86 (fun _ _ _ _ => 0x5000)) (closed empty_ram) =
    (ptedit_cleanup ;;;
     ret (0, success 0x40201000 0x8000000000005067 ++ message TAG_OK ["Done"%string])) l'.
Proof.
  split; [evaluate|]. destruct toy_map_pt_runs as (R1 & R2 & R3 & R4 & R5).
  destruct (map_pt_redirects x86_cfg x86_lcfg eq_refl eq_refl toy (fun _ _ _ _ => 0x5000) _ _ _ _ _ _
    _ _ _ _ R1 R2 R3 R4 R5 toy_pages_ready) as (l' & Hrun & _).
  exists l'. rewrite Hrun.
  replace (pte_of (opened (filled 66 83)) 0x40201000) with 0x8000000000005067 by evaluate.
  reflexivity.
Defined.
