(* ===== verification/MapPtManual.v ===== *)
(** * Mapping a page table without the help of the library

    [demos/map_pt_manual.c]: as [demos/map_pt.c], but the program reaches the
    page table by giving a page of its own the frame of the table, and writes
    the entry through its own memory. *)

From stdpp Require Import base tactics numbers list gmap strings.
From S2P Require Import Prelude Entry Print PhysMem Linux Kernel Machine KernelProps KernelOps.
From S2P Require Import Walk Mmu Pte Agree KernelUpdate Lib LibProps LibImpl LibWitness Process ProcessWitness.
From S2P Require Import MapPt.
Local Open Scope Z_scope.

Section program.
Context {P L T : Type} `{PhysMem P} `{RwSem L} `{LinuxPT P} `{TlbOps T}.
Variable cfg : kconfig.
Variable lcfg : lconfig.
Variable os : system (lib P L T).
Variable proc : processor T.
Abbreviation LM := (M (lib P L T)).

#[local] Instance manual_pte : PteAccess (lib P L T) := lib_pte cfg.

(** Giving the page [pt] the frame of the page table of the target. *)
Definition map_table (pt pfn : Z) (pt_entry : ptedit_entry_t) : LM ptedit_entry_t :=
  let pt_entry := set_pte (ptedit_set_pfn (kc_arch cfg) (pte pt_entry) pfn) pt_entry in
  let pt_entry := set_valid PTEDIT_VALID_MASK_PTE pt_entry in
  ptedit_update pt 0 pt_entry.

(** Lines 47 to 71: what the program does through the mapped table. *)
Definition redirect_mapped (pt target : Z) (target_entry secret_entry : ptedit_entry_t) : LM (list string) :=
  let a := kc_arch cfg in
  let entry := Z.land (Z.shiftr target 12) 0x1ff in
  let out := message TAG_PROGRESS ["Entry: "; fmt_zd entry] in
  let mapped_entry := pt + 8 * entry in
  let* e := user_word proc mapped_entry in
  let out := out ++ (if negb (e =? pte target_entry)
                     then message TAG_FAIL ["Something went wrong..."]
                     else message TAG_OK ["Worked!"]) in
  let* e := user_word proc mapped_entry in
  set_user_word proc mapped_entry (ptedit_set_pfn a e (ptedit_get_pfn a (pte secret_entry))) ;;;
  Lib.ptedit_invalidate_tlb cfg target ;;;
  let* b := user_byte proc target in
  let out := out ++ message TAG_PROGRESS ["Target[0]: "; fmt_c b] in
  let* b := user_byte proc target in
  let out := out ++ (if b =? 83 then message TAG_OK ["Success!"] else message TAG_FAIL ["Fail!"]) in
  set_user_word proc mapped_entry (pte target_entry) ;;;
  ret out.

(** Lines 31 to 76, after the initialisation. *)
Definition redirect_manual (pt target secret : Z) : LM (list string) :=
  let a := kc_arch cfg in
  let* secret_entry := ptedit_resolve secret 0 in
  let* target_entry := ptedit_resolve target 0 in
  let out := ptedit_print_entry a (pte target_entry) in
  let* pt_entry := ptedit_resolve pt 0 in
  let old_pte := pte pt_entry in
  let* pt_entry := map_table pt (ptedit_get_pfn a (pmd target_entry)) pt_entry in
  let* s := redirect_mapped pt target target_entry secret_entry in
  let out := out ++ s in
  let pt_entry := set_pte old_pte pt_entry in
  let pt_entry := set_valid PTEDIT_VALID_MASK_PTE pt_entry in
  let* _ := ptedit_update pt 0 pt_entry in
  ret out.

(** [main]. *)
Definition map_pt_manual : LM (Z * list string) :=
  let* pt := mmap os 4096 in
  let* target := mmap os 4096 in
  let* secret := mmap os 4096 in
  memset os pt 65 4096 ;;;
  memset os target 66 4096 ;;;
  memset os secret 83 4096 ;;;
  let* r := ptedit_init cfg lcfg in
  if negb (r =? 0) then
    ret (1, message TAG_FAIL
      ["Error: Could not initalize PTEditor, did you load the kernel module?"])
  else
    let* out := redirect_manual pt target secret in
    ptedit_cleanup ;;;
    ret (0, out ++ message TAG_OK ["Done"]).
End program.

(** * Theorem *)

Section theorem.
Context {P L T : Type} `{PhysMemLaws P} `{RwSemLaws L} `{!LinuxPT P} `{!LinuxX86 P} `{TlbLaws T}.
Variable cfg : kconfig.
Variable lcfg : lconfig.
Hypothesis x86 : kc_arch cfg = X86_64.
Hypothesis v4_11 : kc_v4_11 cfg = true.
Variable os : system (lib P L T).
Variable cached : T -> Z -> Z -> Z -> Z.
Implicit Types l : lib P L T.

Abbreviation pmem l := (k_mem (l_kernel l)).
Abbreviation PAGE := (Z.to_nat 4096).
Abbreviation proc := (cpu86 cached).
#[local] Instance manual_theorem_pte : PteAccess (lib P L T) := lib_pte cfg.

(** Three pages of the process, of which the last is filled with Ss; the
    entries of the first two are different words, and neither is in the last. *)
Record three_pages l (pt target secret pp tp sp : Z) : Prop := {
  th_pt : page l pt pp;
  th_target : page l target tp;
  th_secret : page l secret sp;
  th_default : runs_default l;
  th_S : pm_read (pmem l) (sp * 4096) PAGE = Some (replicate PAGE 83);
  th_pt_apart lv : disjoint_ranges (slot l PTE pt) 8 (slot l lv target) 8;
  th_target_apart lv : disjoint_ranges (slot l PTE target) 8 (slot l lv pt) 8;
  th_pt_secret : disjoint_ranges (slot l PTE pt) 8 (sp * 4096) PAGE;
  th_target_secret : disjoint_ranges (slot l PTE target) 8 (sp * 4096) PAGE }.

(** The frame of the table is the one the structures give as well. *)
Lemma pfn_table_pfn e : small_frame e -> ptedit_get_pfn X86_64 e = table_pfn X86_64 e.
Proof.
  intros He. apply Z.bits_inj'. intros i Hi. rewrite get_pfn_testbit, table_pfn_testbit.
  change (pfn_bits X86_64) with 40. rewrite (proj2 (Z.leb_le 0 i) Hi). cbn [andb].
  destruct (Z.ltb_spec i 28), (Z.ltb_spec i 40); try lia; rewrite ?andb_true_r, ?andb_false_r; try done.
  by rewrite (small_frame_testbit e) by (done || lia).
Qed.

Lemma target_table l target tp : page l target tp ->
  ptedit_get_pfn X86_64 (pmd (lib_entry l target 0)) = table_frame l target.
Proof.
  intros Hp. unfold table_frame. apply pfn_table_pfn. rewrite (page_entry _ _ _ Hp). cbn [pmd].
  pose proof (pg_ready _ _ _ Hp) as Hr. pose proof (kr_mapped _ _ _ Hr) as Hm.
  apply (ok_frame _ _ _ (kr_tables _ _ _ Hr) PMD). unfold mapped, Mmu.reached in *.
  by apply andb_true_iff in Hm as [[Hm _]%andb_true_iff _].
Qed.
Lemma page_tlb l t addr pfn : page l addr pfn -> page (with_kernel (with_tlb t (l_kernel l)) l) addr pfn.
Proof. intros [Hr Ha Hal Hp Hf]. by split; [apply kernel_ready_tlb|..]. Qed.

(** Storing a word that is no entry of the walk of a page. *)
Lemma page_store l addr pfn a v m : page l addr pfn -> store64 (pmem l) a v = Some m ->
  (forall lv, disjoint_ranges a 8 (slot l lv addr) 8) ->
  let l' := with_kernel (with_mem m (l_kernel l)) l in
  page l' addr pfn /\ pte_of l' addr = pte_of l addr /\ (forall lv, slot l' lv addr = slot l lv addr).
Proof.
  intros Hp Hst Hd. apply (page_write l addr pfn a (bytes_of 8 v) m Hp Hst).
  intros lv. rewrite length_bytes_of. apply disjoint_sym, Hd.
Qed.

(** The table of the target is mapped at [pt]. *)
Record table_mapped l (pt target tp sp : Z) : Prop := {
  tm_pt : page l pt (table_frame l target);
  tm_tlb q : tlb_agrees cached l pt q;
  tm_target : page l target tp;
  tm_default : runs_default l;
  tm_frame : 0 <= sp < 2 ^ 28;
  tm_S : pm_read (pmem l) (sp * 4096) PAGE = Some (replicate PAGE 83);
  tm_apart lv : disjoint_ranges (slot l PTE target) 8 (slot l lv pt) 8;
  tm_secret : disjoint_ranges (slot l PTE target) 8 (sp * 4096) PAGE }.

(** The states of [redirect_mapped]: after the store, after the invalidation,
    after the reset. *)
Lemma mapped_states l pt target tp sp : table_mapped l pt target tp sp ->
  exists m t m3,
    let v := ptedit_set_pfn X86_64 (pte_of l target) sp in
    let tf := table_frame l target in
    let l1 := with_kernel (with_mem m (l_kernel l)) l in
    let l2 := with_kernel (with_tlb t (l_kernel l1)) l1 in
    let l3 := with_kernel (with_mem m3 (l_kernel l2)) l2 in
    store64 (pmem l) (slot l PTE target) v = Some m /\
    Lib.ptedit_invalidate_tlb cfg target l1 = Ret tt l2 /\
    user_byte proc target l2 = Ret 83 l2 /\
    page l2 pt tf /\ (forall q, tlb_agrees cached l2 pt q) /\
    store64 (pmem l2) (slot l PTE target) (pte_of l target) = Some m3 /\
    page l3 pt tf /\ slot l3 PTE pt = slot l PTE pt /\ runs_default l3 /\
    pte_of l3 target = pte_of l target /\
    (forall lv, slot l3 lv target = slot l lv target) /\ page l3 target tp /\
    forall a n, disjoint_ranges (slot l PTE target) 8 a n ->
      pm_read (pmem l3) a n = pm_read (pmem l) a n.
Proof.
  intros [Hpt Htlb Ht Hd Hsp HS Hapart Hsec].
  pose proof (page_small_frame _ _ _ Ht) as Hsm.
  set (v := ptedit_set_pfn X86_64 (pte_of l target) sp). set (tf := table_frame l target) in *.
  assert (small_frame v) as Hvs by by apply set_pfn_small_frame.
  destruct (store_pte cfg x86 cached l target tp v Ht Hd) as (m & t & Hst & Hinv & _ & _ & Hp2 & _ & Htlb2 & Hkeep);
    [done|unfold v; rewrite set_pfn_present by apply Hsm; apply Ht|].
  assert (ptedit_get_pfn X86_64 v = sp) as Hv.
  { apply (set_get_pfn X86_64 (pte_of l target) sp (proj1 Hsm)). simpl. lia. }
  rewrite Hv in Hp2. cbv zeta in Hinv, Hp2, Htlb2, Hkeep.
  destruct (page_store _ _ _ _ _ _ Hpt Hst Hapart) as (Hpt1 & _ & Hslot1). cbv zeta in Hpt1, Hslot1.
  set (l1 := with_kernel (with_mem m (l_kernel l)) l) in *.
  pose proof (page_tlb l1 t _ _ Hpt1) as Hpt2.
  destruct (kernel_ready_pte l target v m (pg_ready _ _ _ Ht) Hvs Hst) as (_ & _ & Hslott1). cbv zeta in Hslott1.
  fold l1 in Hslott1.
  set (l2 := with_kernel (with_tlb t (l_kernel l1)) l1) in *.
  assert (HS2 : pm_read (pmem l2) (sp * 4096) PAGE = Some (replicate PAGE 83)).
  { rewrite <- HS. eapply pm_read_elsewhere; [exact Hst|]. by rewrite length_bytes_of. }
  assert (Hst3 : is_Some (store64 (pmem l2) (slot l PTE target) (pte_of l target))).
  { apply (store64_writable _ _ _ _ _ _ v Hst). by exists m. }
  destruct Hst3 as [m3 Hst3]. change (slot l2) with (slot l1) in *.
  destruct (page_store l2 pt tf (slot l PTE target) _ m3 Hpt2 Hst3) as (Hpt3 & _ & Hslot3).
  { intros lv. change (slot l2 lv pt) with (slot l1 lv pt). rewrite Hslot1. apply Hapart. }
  assert (Hst3' : store64 (pmem l2) (slot l2 PTE target) (pte_of l target) = Some m3)
    by (change (slot l2 PTE target) with (slot l1 PTE target); by rewrite Hslott1).
  destruct (kernel_ready_pte l2 target (pte_of l target) m3 (pg_ready _ _ _ Hp2) Hsm Hst3')
    as (Hr3 & Hpte3 & Hslott3). cbv zeta in *.
  set (l3 := with_kernel (with_mem m3 (l_kernel l2)) l2) in *.
  exists m, t, m3. fold v l1 l2 l3. split; [done|]. split; [exact Hinv|].
  split; [exact (page_byte cached l2 target sp 83 Hp2 (Htlb2 sp) (first_byte _ _ _ HS2))|].
  split; [done|]. split; [by apply Hkeep|]. split; [exact Hst3|]. split; [exact Hpt3|].
  split; [rewrite Hslot3; exact (Hslot1 PTE)|]. split; [by destruct Hd|]. split; [exact Hpte3|].
  split; [intros lv; rewrite Hslott3; exact (Hslott1 lv)|].
  split; [by destruct Ht; split; rewrite ?Hpte3|].
  intros a n Ha. etrans; eapply pm_read_elsewhere; [exact Hst3| |exact Hst|]; by rewrite length_bytes_of.
Qed.

Definition success_mapped (target : Z) : list string :=
  message TAG_PROGRESS ["Entry: "; fmt_zd (entry_index target)] ++
  message TAG_OK ["Worked!"] ++
  message TAG_PROGRESS ["Target[0]: "; fmt_c 83] ++
  message TAG_OK ["Success!"].

Lemma redirect_mapped_run l pt target tp sp te se : table_mapped l pt target tp sp ->
  pte te = pte_of l target -> ptedit_get_pfn X86_64 (pte se) = sp ->
  exists l', redirect_mapped cfg proc pt target te se l = Ret (success_mapped target) l' /\
    page l' pt (table_frame l target) /\ slot l' PTE pt = slot l PTE pt /\ runs_default l' /\
    page l' target tp /\ pte_of l' target = pte_of l target /\
    (forall lv, slot l' lv target = slot l lv target) /\
    forall a n, disjoint_ranges (slot l PTE target) 8 a n ->
      pm_read (pmem l') a n = pm_read (pmem l) a n.
Proof.
  intros Hm Hte Hse.
  destruct (mapped_states _ _ _ _ _ Hm)
    as (m & t & m3 & Hst & Hinv & Hbyte & Hpt2 & Htlb2 & Hst3 & Hpt3 & Hslot3 & Hd3 & Hpte3 & Hslott3 & Ht3 & Hmem).
  cbv zeta in *. destruct Hm as [Hpt Htlb Ht Hd Hsp HS Hapart Hsec].
  destruct (table_slot _ _ _ Ht) as (Htf & Hi & Hslot).
  assert (Ho : 0 <= 8 * entry_index target < 4096) by lia.
  pose proof (pte_word _ _ _ Ht) as Hw. rewrite Hslot in Hw, Hst, Hst3.
  eexists. split; [|repeat (split; [eassumption|]); exact Hmem].
  unfold redirect_mapped. rewrite x86, Hte, Hse. fold (entry_index target).
  rewrite !(bind_Ret _ _ _ _ _ (page_word cached _ _ _ _ _ Hpt Htlb Ho Hw)), Z.eqb_refl. cbn [negb].
  rewrite (bind_Ret _ _ _ _ _ (page_set_word cached _ _ _ _ _ _ Hpt Htlb Ho Hst)).
  rewrite (bind_Ret _ _ _ _ _ Hinv), !(bind_Ret _ _ _ _ _ Hbyte).
  change (83 =? 83) with true. cbv iota.
  rewrite (bind_Ret _ _ _ _ _ (page_set_word cached _ _ _ _ _ _ Hpt2 Htlb2 Ho Hst3)).
  unfold ret, success_mapped. by rewrite <- !app_assoc.
Qed.

(** Mapping the table: the target's walk and the secret stay. *)
Lemma map_table_run l pt target secret pp tp sp : three_pages l pt target secret pp tp sp ->
  let tf := table_frame l target in
  let v := ptedit_set_pfn X86_64 (pte_of l pt) tf in
  exists e l', map_table cfg pt tf (lib_entry l pt 0) l = Ret e l' /\
    pte_set pt v l l' /\ table_mapped l' pt target tp sp /\ table_frame l' target = tf /\
    pte_of l' target = pte_of l target /\ (forall lv, slot l' lv target = slot l lv target) /\
    pte_of l' pt = v.
Proof.
  intros [Hpt Ht Hs Hd HS Hap1 Hap2 Hsec1 Hsec2] tf v.
  destruct (table_slot _ _ _ Ht) as (Htf & _ & Hslot).
  assert (pte (lib_entry l pt 0) = pte_of l pt) as Hpte by by rewrite (page_entry _ _ _ Hpt).
  destruct (page_redirect cfg x86 v4_11 cached pt pp tf l
    (set_valid PTEDIT_VALID_MASK_PTE (set_pte v (lib_entry l pt 0))) Hpt Hd Htf)
    as (l' & Hrun & Hset & Hpt' & Hpte' & Hd' & Htlb); [done..|].
  destruct (page_pte_set _ _ _ _ _ _ Hset Ht Hap1) as (Ht' & Hptet & Hslott).
  assert (table_frame l' target = tf) as Htf'.
  { destruct (table_slot _ _ _ Ht') as (_ & _ & Hslot'). rewrite Hslott, Hslot in Hslot'. unfold tf. lia. }
  eexists _, l'. split; [|split; [exact Hset|split; [|done]]].
  - unfold map_table. rewrite x86, Hpte. fold v. exact Hrun.
  - split; rewrite ?Htf'; try done; rewrite ?Hslott; try done; [by eapply page_pfn| |].
    + by rewrite (pte_set_read _ _ _ _ _ _ Hset Hsec1).
    + intros lv. rewrite (ps_slots _ _ _ _ Hset). apply Hap2.
Qed.

(** What the program prints. *)
Definition success_manual (target pte_ : Z) : list string :=
  ptedit_print_entry X86_64 pte_ ++ success_mapped target.

Lemma redirect_manual_run l pt target secret pp tp sp : three_pages l pt target secret pp tp sp ->
  exists l', redirect_manual cfg proc pt target secret l = Ret (success_manual target (pte_of l target)) l' /\
    pte_of l' pt = pte_of l pt /\ page l' target tp /\ pte_of l' target = pte_of l target /\
    forall a n, disjoint_ranges (slot l PTE target) 8 a n -> disjoint_ranges (slot l PTE pt) 8 a n ->
      pm_read (pmem l') a n = pm_read (pmem l) a n.
Proof.
  intros Hth. destruct (map_table_run _ _ _ _ _ _ _ Hth) as (e & l1 & Hrun1 & Hset1 & Hm & Htf1 & Hptet1 & Hslott1 & Hpte1).
  cbv zeta in *. destruct Hth as [Hpt Ht Hs Hd HS Hap1 Hap2 Hsec1 Hsec2].
  assert (pte (lib_entry l target 0) = pte_of l target) as Het by by rewrite (page_entry _ _ _ Ht).
  assert (pte (lib_entry l pt 0) = pte_of l pt) as Hep by by rewrite (page_entry _ _ _ Hpt).
  assert (pte (lib_entry l secret 0) = pte_of l secret) as Hes by by rewrite (page_entry _ _ _ Hs).
  destruct (redirect_mapped_run l1 pt target tp sp (lib_entry l target 0) (lib_entry l secret 0) Hm)
    as (l2 & Hrun2 & Hpt2 & Hslot2 & Hd2 & Ht2 & Hptet2 & Hslott2 & Hmem2).
  { by rewrite Het, Hptet1. }
  { rewrite Hes. apply Hs. }
  assert (slot l2 PTE pt = slot l PTE pt) as Hsp by by rewrite Hslot2, (ps_slots _ _ _ _ Hset1).
  destruct (update_page cfg x86 v4_11 pt _ (pte_of l pt)
    (set_valid PTEDIT_VALID_MASK_PTE (set_pte (pte_of l pt) e)) l2 Hpt2 Hd2 eq_refl eq_refl
    (page_small_frame _ _ _ Hpt)) as (l3 & Hrun3 & Hset3).
  destruct (pte_set_page cached _ _ _ _ _ Hpt2 Hset3 (pg_present _ _ _ Hpt)) as (_ & Hpte3 & _).
  destruct (page_pte_set _ _ _ _ _ _ Hset3 Ht2) as (Ht3 & Hptet3 & _).
  { intros lv. rewrite Hsp, Hslott2, Hslott1. apply Hap1. }
  exists l3. split; [|split; [exact Hpte3|split; [exact Ht3|split; [by rewrite Hptet3, Hptet2|]]]].
  - unfold redirect_manual. cbn [ptedit_resolve manual_pte lib_pte].
    rewrite (bind_Ret _ _ _ _ _ (page_resolve cfg x86 v4_11 _ _ _ Hs)).
    rewrite (bind_Ret _ _ _ _ _ (page_resolve cfg x86 v4_11 _ _ _ Ht)).
    rewrite (bind_Ret _ _ _ _ _ (page_resolve cfg x86 v4_11 _ _ _ Hpt)).
    rewrite x86, (target_table _ _ _ Ht), (bind_Ret _ _ _ _ _ Hrun1), (bind_Ret _ _ _ _ _ Hrun2), Hep, Het.
    cbn [ptedit_update manual_pte lib_pte]. by rewrite (bind_Ret _ _ _ _ _ Hrun3).
  - intros a n Ha Ha'. rewrite (pte_set_read _ _ _ _ _ _ Hset3), Hmem2, (pte_set_read _ _ _ _ _ _ Hset1); try done.
    + by rewrite Hslott1.
    + by rewrite Hsp.
Qed.

(** C40: on x86-64, when the C library gives the program three pages, it sees the
    page table of the second through the first, redirects the second to the
    third by writing there, and puts both entries back; no other memory has
    changed. *)
Theorem map_pt_manual_redirects l la lb lc ld le lf l0 pt target secret pp tp sp :
  mmap os 4096 l = Ret pt la -> mmap os 4096 la = Ret target lb -> mmap os 4096 lb = Ret secret lc ->
  memset os pt 65 4096 lc = Ret tt ld -> memset os target 66 4096 ld = Ret tt le ->
  memset os secret 83 4096 le = Ret tt lf -> ptedit_init cfg lcfg lf = Ret 0 l0 ->
  three_pages l0 pt target secret pp tp sp ->
  exists l', map_pt_manual cfg lcfg os proc l =
      (ptedit_cleanup ;;;
       ret (0, success_manual target (pte_of l0 target) ++ message TAG_OK ["Done"])) l' /\
    pte_of l' pt = pte_of l0 pt /\ page l' target tp /\ pte_of l' target = pte_of l0 target /\
    forall a n, disjoint_ranges (slot l0 PTE target) 8 a n -> disjoint_ranges (slot l0 PTE pt) 8 a n ->
      pm_read (pmem l') a n = pm_read (pmem l0) a n.
Proof.
  intros Hm1 Hm2 Hm3 Hs1 Hs2 Hs3 Hinit Hth.
  destruct (redirect_manual_run _ _ _ _ _ _ _ Hth) as (l' & Hrun & Hrest).
  exists l'. split; [|done]. unfold map_pt_manual.
  rewrite (bind_Ret _ _ _ _ _ Hm1), (bind_Ret _ _ _ _ _ Hm2), (bind_Ret _ _ _ _ _ Hm3),
    (bind_Ret _ _ _ _ _ Hs1), (bind_Ret _ _ _ _ _ Hs2), (bind_Ret _ _ _ _ _ Hs3), (bind_Ret _ _ _ _ _ Hinit).
  change (negb (0 =? 0)) with false. cbv iota. by rewrite (bind_Ret _ _ _ _ _ Hrun).
Qed.
End theorem.

(** ** On the concrete machine *)

Definition three : ram := third_page (both_pages one_page).
Definition three_filled : ram := fill 0x7000 83 (fill 0x6000 66 (fill 0x5000 65 three)).

Lemma toy_three_pages :
  three_pages (opened three_filled) 0x40201000 0x40202000 0x40203000 5 6 7.
Proof.
  split; [check_page|check_page|check_page|split; evaluate|evaluate|..].
  - intros lv. destruct lv; solve_disjoint.
  - intros lv. destruct lv; solve_disjoint.
  - solve_disjoint.
  - solve_disjoint.
Qed.

Lemma toy_manual_runs :
  toy_mmap 4096 (closed empty_ram) = Ret 0x40201000 (closed one_page) /\
  toy_mmap 4096 (closed one_page) = Ret 0x40202000 (closed (both_pages one_page)) /\
  toy_mmap 4096 (closed (both_pages one_page)) = Ret 0x40203000 (closed three) /\
  toy_memset 0x40201000 65 4096 (closed three) = Ret tt (closed (fill 0x5000 65 three)) /\
  toy_memset 0x40202000 66 4096 (closed (fill 0x5000 65 three)) =
    Ret tt (closed (fill 0x6000 66 (fill 0x5000 65 three))) /\
  toy_memset 0x40203000 83 4096 (closed (fill 0x6000 66 (fill 0x5000 65 three))) =
    Ret tt (closed three_filled) /\
  ptedit_init x86_cfg x86_lcfg (closed three_filled) = Ret 0 (opened three_filled).
Proof. repeat apply conj; evaluate. Qed.

Lemma map_pt_manual_redirects_witness :
  exists l', map_pt_manual x86_cfg x86_lcfg toy (cpu86 (fun _ _ _ _ => 0x5000)) (closed empty_ram) =
    (ptedit_cleanup ;;;
     ret (0, success_manual 0x40202000 0x6067 ++ message TAG_OK ["Done"%string])) l'.
Proof.
  destruct toy_manual_runs as (R1 & R2 & R3 & R4 & R5 & R6 & R7).
  destruct (map_pt_manual_redirects x86_cfg x86_lcfg eq_refl eq_refl toy (fun _ _ _ _ => 0x5000)
    _ _ _ _ _ _ _ _ _ _ _ _ _ _ R1 R2 R3 R4 R5 R6 R7 toy_three_pages) as (l' & Hrun & _).
  exists l'. rewrite Hrun.
  replace (pte_of (opened three_filled) 0x40202000) with 0x6067 by evaluate.
  reflexivity.
Defined.
