(* ===== verification/Performance.v ===== *)
(** * Comparing the implementations

    [demos/performance.c]: a program that resolves an address with the three
    implementations of the library, prints how long each takes, and complains
    when they disagree.  On x86-64 they do not. *)

From stdpp Require Import base tactics numbers list gmap strings.
From S2P Require Import Prelude Entry Print PhysMem Linux Kernel Machine KernelProps KernelOps.
From S2P Require Import Walk Mmu Update Pte Agree KernelUpdate Lib LibProps LibImpl LibWitness Process ProcessWitness.
Local Open Scope Z_scope.

(** The clock of the processor, as [rdtsc] gives it in EDX and EAX, and the
    monotonic clock of the C library, in seconds and nanoseconds. *)
Record clocks (S : Type) := mk_clocks {
  rdtsc_edx_eax : M S (Z * Z);
  clock_gettime : M S (Z * Z) }.
Arguments mk_clocks {S}.
Arguments rdtsc_edx_eax {S} c.
Arguments clock_gettime {S} c.

Definition rdtsc {S} (a : arch) (c : clocks S) : M S Z :=
  match a with
  | X86_64 => let* da := rdtsc_edx_eax c in ret (Z.lor (wrap64 (Z.shiftl (fst da) 32)) (snd da))
  | AARCH64 => let* t := clock_gettime c in ret (wrap64 (fst t * 1000 * 1000 * 1000 + snd t))
  end.

Definition REPEAT : Z := 10000.

(** [diff |= x ^ y] on an [int] and two [size_t]. *)
Definition or_diff (diff x y : Z) : Z := to_int (Z.lor (wrap64 diff) (Z.lxor x y)).

(** [if((e1->valid & mask) && (e2->valid & mask)) diff |= e1->l ^ e2->l] *)
Definition diff_level (e1 e2 : ptedit_entry_t) (l : level) (diff : Z) : Z :=
  if level_valid l e1 && level_valid l e2
  then or_diff diff (level_entry l e1) (level_entry l e2) else diff.

Definition is_same (e1 e2 : ptedit_entry_t) : bool :=
  let diff := 0 in
  let diff := diff_level e1 e2 PGD diff in
  let diff := diff_level e1 e2 P4D diff in
  let diff := diff_level e1 e2 PUD diff in
  let diff := diff_level e1 e2 PMD diff in
  let diff := diff_level e1 e2 PTE diff in
  diff =? 0.

Section program.
Context {P L T : Type} `{PhysMem P} `{RwSem L} `{LinuxPT P} `{TlbOps T}.
Variable cfg : kconfig.
Variable lcfg : lconfig.
Variable clock : clocks (lib P L T).
Abbreviation LM := (M (lib P L T)).

(** The time of a loop of calls, and the entry the last one returns; [entry]
    is what the variable holds before. *)
Definition timed (target : Z) (entry : ptedit_entry_t) : LM (Z * ptedit_entry_t) :=
  let* start := rdtsc (kc_arch cfg) clock in
  let* entry := for_range (Z.to_nat REPEAT) 0 (fun _ _ => call_resolve cfg target 0) entry in
  let* stop := rdtsc (kc_arch cfg) clock in
  ret (to_int (wrap64 (stop - start) / REPEAT), entry).

Definition cycles (name : string) (t : Z) : list string :=
  message TAG_OK ([name; " implementation takes "] ++ yellow (fmt_d t) ++ [" cycles/resolve"]).

Definition compared (entry entry_us : ptedit_entry_t) : list string :=
  if negb (is_same entry entry_us)
  then message TAG_FAIL ["Kernel and user-space resolver do not agree!"] ++
    ptedit_print_entry_t (kc_arch cfg) entry ++ ptedit_print_entry_t (kc_arch cfg) entry_us
  else [].

(** [main]; [target] is the address of the global variable, and
    [garbage] what the local variables hold before they are assigned.  The
    assignment to the variable only makes its page present. *)
Definition performance (target : Z) (garbage : ptedit_entry_t) : LM (Z * list string) :=
  let* r := ptedit_init cfg lcfg in
  if negb (r =? 0) then
    ret (1, message TAG_FAIL
      ["Error: Could not initalize PTEditor, did you load the kernel module?"])
  else
    ptedit_use_implementation cfg lcfg PTEDIT_IMPL_KERNEL ;;;
    let* te := timed target garbage in
    let entry := snd te in
    let out := cycles "Kernel" (fst te) in
    ptedit_use_implementation cfg lcfg PTEDIT_IMPL_USER ;;;
    let* te := timed target garbage in
    let entry_us := snd te in
    let out := out ++ cycles "User" (fst te) in
    let out := out ++ compared entry entry_us in
    ptedit_use_implementation cfg lcfg PTEDIT_IMPL_USER_PREAD ;;;
    let* te := timed target entry_us in
    let entry_us := snd te in
    let out := out ++ cycles "User (pread)" (fst te) in
    let out := out ++ compared entry entry_us in
    ptedit_cleanup ;;;
    ret (0, out ++ message TAG_OK ["Done"]).
End program.

(** * Theorems *)

(** ** [is_same] *)

Definition int (z : Z) : Prop := - 2 ^ 31 <= z < 2 ^ 31.

Lemma int_to_int z : int (to_int z).
Proof. unfold int, to_int. pose proof (Z.mod_pos_bound (z + 2 ^ 31) (2 ^ 32) ltac:(lia)). lia. Qed.

Lemma to_int_zero z : to_int z = 0 <-> z mod 2 ^ 32 = 0.
Proof. unfold to_int. split; intros; Z.to_euclidean_division_equations; lia. Qed.

Lemma int_zero z : int z -> z mod 2 ^ 32 = 0 <-> z = 0.
Proof. unfold int. intros Hz. split; [|by intros ->]. Z.to_euclidean_division_equations; lia. Qed.

Lemma low_bits_zero z : z mod 2 ^ 32 = 0 <-> forall i, 0 <= i < 32 -> Z.testbit z i = false.
Proof.
  split.
  - intros Hz i Hi. rewrite <- (Z.mod_pow2_bits_low z 32 i) by lia. by rewrite Hz, Z.bits_0.
  - intros Hz. apply Z.bits_inj'. intros i Hi. rewrite Z.bits_0.
    destruct (Z.ltb_spec i 32); [rewrite Z.mod_pow2_bits_low by lia; by apply Hz|].
    by apply Z.mod_pow2_bits_high; lia.
Qed.

Lemma lxor_low_zero x y : Z.lxor x y mod 2 ^ 32 = 0 <-> x mod 2 ^ 32 = y mod 2 ^ 32.
Proof.
  rewrite low_bits_zero. split.
  - intros H. apply Z.bits_inj'. intros i Hi. destruct (Z.ltb_spec i 32).
    + rewrite !Z.mod_pow2_bits_low by lia. specialize (H i ltac:(lia)). rewrite Z.lxor_spec in H.
      by destruct (Z.testbit x i), (Z.testbit y i).
    + by rewrite !Z.mod_pow2_bits_high by lia.
  - intros H i Hi. rewrite Z.lxor_spec, <- (Z.mod_pow2_bits_low x 32), <- (Z.mod_pow2_bits_low y 32), H by lia.
    apply xorb_nilpotent.
Qed.

Lemma or_diff_zero d x y : int d -> or_diff d x y = 0 <-> d = 0 /\ x mod 2 ^ 32 = y mod 2 ^ 32.
Proof.
  intros Hd. unfold or_diff. rewrite to_int_zero, <- (int_zero d Hd), <- lxor_low_zero, !low_bits_zero.
  split.
  - intros H. split; intros i Hi; specialize (H i Hi);
      rewrite Z.lor_spec, testbit_wrap64 in H; apply orb_false_iff in H as [H1 H2]; [|done].
    by destruct (Z.ltb_spec i 64); [|lia].
  - intros [H1 H2] i Hi. rewrite Z.lor_spec, testbit_wrap64, H1, H2 by done. by rewrite andb_false_r.
Qed.

(** Two entries have the same low half at a level that is valid in both. *)
Definition low_same (e1 e2 : ptedit_entry_t) (l : level) : Prop :=
  level_valid l e1 = true -> level_valid l e2 = true ->
  level_entry l e1 mod 2 ^ 32 = level_entry l e2 mod 2 ^ 32.

Lemma diff_level_zero e1 e2 l d : int d ->
  int (diff_level e1 e2 l d) /\ (diff_level e1 e2 l d = 0 <-> d = 0 /\ low_same e1 e2 l).
Proof.
  intros Hd. unfold diff_level, low_same.
  destruct (level_valid l e1), (level_valid l e2); cbn [andb];
    try (split; [done|]; split; [intros ->; split; [done|]; congruence|tauto]).
  split; [apply int_to_int|]. rewrite or_diff_zero by done. tauto.
Qed.

(** The comparison looks at the low 32 bits of the entries only. *)
Lemma is_same_spec e1 e2 : is_same e1 e2 = true <-> forall l, low_same e1 e2 l.
Proof.
  unfold is_same. assert (H0 : int 0) by (unfold int; lia).
  destruct (diff_level_zero e1 e2 PGD 0 H0) as [I1 Z1]. set (d1 := diff_level e1 e2 PGD 0) in *.
  destruct (diff_level_zero e1 e2 P4D d1 I1) as [I2 Z2]. set (d2 := diff_level e1 e2 P4D d1) in *.
  destruct (diff_level_zero e1 e2 PUD d2 I2) as [I3 Z3]. set (d3 := diff_level e1 e2 PUD d2) in *.
  destruct (diff_level_zero e1 e2 PMD d3 I3) as [I4 Z4]. set (d4 := diff_level e1 e2 PMD d3) in *.
  destruct (diff_level_zero e1 e2 PTE d4 I4) as [_ Z5].
  rewrite Z.eqb_eq, Z5, Z4, Z3, Z2, Z1. split; [intros H []; tauto|]. intros H. repeat split; apply H.
Qed.

(** So the no-execute bit of a page can differ unnoticed. *)
Lemma is_same_upper_half :
  is_same (mk_entry 0 0 0 0 0 0 0x5067 31) (mk_entry 0 0 0 0 0 0 0x8000000000005067 31) = true.
Proof. reflexivity. Qed.

(** ** The program *)

Section theorem.
Context {P L T : Type} `{PhysMemLaws P} `{RwSemLaws L} `{!LinuxPT P} `{!LinuxX86 P} `{TlbLaws T}.
Variable cfg : kconfig.
Variable lcfg : lconfig.
Hypothesis x86 : kc_arch cfg = X86_64.
Hypothesis v4_11 : kc_v4_11 cfg = true.
Variable clock : clocks (lib P L T).
(** Reading the clock changes nothing. *)
Hypothesis clock_reads : forall l, exists t, rdtsc X86_64 clock l = Ret t l.
Implicit Types l : lib P L T.

Lemma timed_run target g e l : call_resolve cfg target 0 l = Ret e l ->
  exists t, timed cfg clock target g l = Ret (t, e) l.
Proof.
  intros Hres. unfold timed. rewrite x86. destruct (clock_reads l) as [t Ht].
  rewrite (bind_Ret _ _ _ _ _ Ht).
  rewrite (bind_Ret _ _ _ _ _ (for_range_const (Z.to_nat REPEAT) 0 (fun _ _ => call_resolve cfg target 0)
    g e l ltac:(unfold REPEAT; lia) (fun _ _ => Hres))).
  rewrite (bind_Ret _ _ _ _ _ Ht). by eexists.
Qed.

(** The library is initialised, with the memory file, on a process whose
    tables for the address are inside the window that is mapped. *)
Record comparable l (target : Z) : Prop := {
  cm_ready : kernel_ready l target 0;
  cm_umem : umem_open l = true;
  cm_mmap : lc_mmap lcfg = true;
  cm_vmem : ptedit_vmem l = vmem_null;
  cm_definition : ptedit_paging_definition l = def_x86;
  cm_root : 0 < root_of l < 2 ^ 52 /\ Z.testbit (root_of l) 0 = false;
  cm_window : Forall (fun p => p + 8 <= window /\ is_Some (load64 (k_mem (l_kernel l)) p))
    (walk_reads X86_64 def_x86 (memory (l_kernel l)) target (root_of l)) }.

(** The library with another implementation. *)
Definition on_mapping l : lib P L T :=
  with_vmem vmem_mapped (with_paging_root (root_of l)
    (with_pointers resolve_user_map_fn update_user_map_fn l)).
Definition on_file l : lib P L T :=
  with_paging_root (root_of l) (with_pointers resolve_user_fn update_user_fn l).

Lemma root_run l l' target : comparable l target -> l_kernel l' = l_kernel l -> connected l' ->
  ptedit_get_paging_root cfg 0 l' = Ret (root_of l) l'.
Proof.
  intros Hc Hk Hconn. pose proof (cm_ready _ _ Hc) as Hr.
  destruct (kr_mm _ _ _ Hr) as (id & mm & lw & lr & root & Hid & Hmm & Hpgd & _ & Hrd).
  assert (root_of l = root) as -> by by apply (process_root_mm _ 0 id mm).
  apply (get_paging_root_run cfg x86 id mm root lr); rewrite ?Hk; try done. apply Hr.
Qed.

Lemma masked_root z : u64 z -> Z.testbit z 0 = false -> Z.land z (wrap64 (Z.lnot 1)) = z.
Proof.
  intros Hu Hb. change (wrap64 (Z.lnot 1)) with (not64 (bit 0)). apply Z.bits_inj'. intros i Hi.
  autorewrite with bits. destruct (Z.eqb_spec i 0) as [->|]; [by rewrite Hb|].
  destruct (Z.ltb_spec i 64); [bits_at|]. rewrite (u64_testbit z) by done. done.
Qed.

Lemma use_mapping l target : comparable l target ->
  ptedit_use_implementation cfg lcfg PTEDIT_IMPL_USER l = Ret tt (on_mapping l).
Proof.
  intros Hc. unfold ptedit_use_implementation.
  change (PTEDIT_IMPL_USER =? PTEDIT_IMPL_KERNEL) with false.
  change (PTEDIT_IMPL_USER =? PTEDIT_IMPL_USER_PREAD) with false.
  change (PTEDIT_IMPL_USER =? PTEDIT_IMPL_USER) with true. cbv iota. rewrite bind_modify.
  rewrite (bind_Ret _ _ _ _ _ (root_run l (with_pointers resolve_user_map_fn update_user_map_fn l) target
    Hc eq_refl (kr_connected _ _ _ (cm_ready _ _ Hc)))).
  rewrite bind_modify, bind_gets. cbn [ptedit_vmem with_paging_root with_pointers].
  rewrite (cm_vmem _ _ Hc). unfold umem_mappable. rewrite bind_assoc, bind_gets.
  pose proof (umem_open_true _ (cm_umem _ _ Hc)) as Ho.
  unfold bind, gets, ret, modify. cbn [l_files ptedit_umem with_paging_root with_pointers].
  by rewrite Ho, (cm_mmap _ _ Hc).
Qed.

Lemma use_file l0 l target : comparable l0 target -> l_kernel l = l_kernel l0 -> connected l ->
  ptedit_use_implementation cfg lcfg PTEDIT_IMPL_USER_PREAD l =
    Ret tt (with_paging_root (root_of l0) (with_pointers resolve_user_fn update_user_fn l)).
Proof.
  intros Hc Hk Hconn. unfold ptedit_use_implementation.
  change (PTEDIT_IMPL_USER_PREAD =? PTEDIT_IMPL_KERNEL) with false.
  change (PTEDIT_IMPL_USER_PREAD =? PTEDIT_IMPL_USER_PREAD) with true. cbv iota. rewrite bind_modify.
  by rewrite (bind_Ret _ _ _ _ _ (root_run l0 (with_pointers resolve_user_fn update_user_fn l) target
    Hc Hk Hconn)).
Qed.

(** The entry both user-space implementations return, and its difference from
    the one of the module. *)
Definition user_result l (target : Z) : ptedit_entry_t :=
  resolve_fun X86_64 def_x86 (memory (l_kernel l)) target 0 (root_of l).

Lemma user_resolve (deref : Z -> M (lib P L T) Z) l0 l target : comparable l0 target ->
  ptedit_paging_root l = root_of l0 -> ptedit_paging_definition l = def_x86 ->
  reads_ok X86_64 def_x86 deref l (memory (l_kernel l0)) target (root_of l0) ->
  resolve_user_with cfg deref target 0 l = Ret (user_result l0 target) l.
Proof.
  intros Hc Hroot Hdef Hreads. destruct (cm_root _ _ Hc) as [Hr Hb].
  unfold resolve_user_with. rewrite bind_gets, Hdef, x86. unfold ptedit_resolve_user_ext.
  assert (walk_root (gets ptedit_paging_root) (ptedit_get_paging_root cfg) 0 l = Ret (root_of l0) l) as Hw.
  { unfold walk_root. change (0 =? 0) with true. cbv iota. rewrite bind_gets, Hroot, masked_root; [done| |done].
    unfold u64. lia. }
  rewrite (bind_Ret _ _ _ _ _ Hw). by apply resolve_from_root_fun.
Qed.

Lemma results_same l target : comparable l target ->
  is_same (lib_entry l target 0) (user_result l target) = true.
Proof.
  intros Hc. apply is_same_spec. intros lv _ _. f_equal.
  pose proof (cm_ready _ _ Hc) as Hr. pose proof (kr_mapped _ _ _ Hr) as Hm.
  unfold lib_entry. rewrite (kr_resolve _ _ _ Hr), kernel_entry_mapped by done.
  unfold user_result. change (resolve_fun X86_64 def_x86 (memory (l_kernel l)) target 0 (root_of l))
    with (result (memory (l_kernel l)) (root_of l) target 0).
  rewrite result_x86; [|apply Hc|apply (ok_frame _ _ _ (kr_tables _ _ _ Hr))].
  unfold mapped, Mmu.reached in Hm. rewrite !andb_true_iff, negb_true_iff in Hm.
  unfold root_of. destruct Hm as [[[-> ->] ->] ->]. by destruct lv.
Qed.

Lemma resolve_on_mapping l target : comparable l target ->
  call_resolve cfg target 0 (on_mapping l) = Ret (user_result l target) (on_mapping l).
Proof.
  intros Hc. change (call_resolve cfg target 0 (on_mapping l))
    with (resolve_user_with cfg ptedit_phys_read_map target 0 (on_mapping l)).
  apply user_resolve; [done|done|apply Hc|]. eapply Forall_impl; [apply Hc|].
  intros p [Hp [v Hv]]. unfold ptedit_phys_read_map. rewrite !bind_gets. cbn [ptedit_vmem on_mapping with_vmem].
  destruct (Z.leb_spec (p + 8) window); [|lia]. unfold memory. cbn [l_kernel on_mapping with_vmem with_paging_root with_pointers].
  by rewrite Hv.
Qed.

Lemma resolve_on_file l0 l target : comparable l0 target -> l_kernel l = l_kernel l0 ->
  umem_open l = true -> resolve_pointer l = resolve_user_fn ->
  ptedit_paging_root l = root_of l0 -> ptedit_paging_definition l = def_x86 ->
  call_resolve cfg target 0 l = Ret (user_result l0 target) l.
Proof.
  intros Hc Hk Ho Hres Hroot Hdef. unfold call_resolve. rewrite bind_gets, Hres.
  apply user_resolve; [done|done|done|]. eapply Forall_impl; [apply Hc|].
  intros p [Hp _]. rewrite phys_read_run. unfold wm_get, lib_walk_mem, memory. rewrite Ho, Hk.
  destruct (Z.ltb_spec p (2 ^ 63)) as [|Hge]; [done|]. exfalso. unfold window in Hp.
  change (Z.shiftl 32 30) with (2 ^ 35) in Hp. lia.
Qed.

(** On x86-64 the three implementations agree on the address, so that the
    program prints the three times and no complaint. *)
Theorem performance_agrees l l1 target garbage :
  ptedit_init cfg lcfg l = Ret 0 l1 -> comparable l1 target ->
  exists t1 t2 t3 l', performance cfg lcfg clock target garbage l =
    (ptedit_cleanup ;;;
     ret (0, cycles "Kernel" t1 ++ cycles "User" t2 ++ cycles "User (pread)" t3 ++
             message TAG_OK ["Done"%string])) l'.
Proof.
  intros Hinit Hc. pose proof (cm_ready _ _ Hc) as Hr.
  assert (Hkernel : ptedit_use_implementation cfg lcfg PTEDIT_IMPL_KERNEL l1 = Ret tt l1).
  { unfold ptedit_use_implementation. change (PTEDIT_IMPL_KERNEL =? PTEDIT_IMPL_KERNEL) with true.
    pose proof (kr_resolve _ _ _ Hr) as H1'. pose proof (kr_update _ _ _ Hr) as H2'.
    unfold modify. f_equal. destruct l1. simpl in *. by subst. }
  assert (Hres1 : call_resolve cfg target 0 l1 = Ret (lib_entry l1 target 0) l1).
  { rewrite (kernel_resolve_run cfg x86 v4_11 _ _ _ Hr). unfold lib_entry. by rewrite (kr_resolve _ _ _ Hr). }
  destruct (timed_run target garbage _ l1 Hres1) as [t1 Ht1].
  destruct (timed_run target garbage _ _ (resolve_on_mapping l1 target Hc)) as [t2 Ht2].
  set (l3 := with_paging_root (root_of l1) (with_pointers resolve_user_fn update_user_fn (on_mapping l1))).
  destruct (timed_run target (user_result l1 target) _ l3
    (resolve_on_file l1 l3 target Hc eq_refl (cm_umem _ _ Hc) eq_refl eq_refl (cm_definition _ _ Hc))) as [t3 Ht3].
  exists t1, t2, t3, l3. unfold performance. rewrite (bind_Ret _ _ _ _ _ Hinit).
  change (negb (0 =? 0)) with false. cbv iota.
  rewrite (bind_Ret _ _ _ _ _ Hkernel), (bind_Ret _ _ _ _ _ Ht1), (bind_Ret _ _ _ _ _ (use_mapping l1 target Hc)).
  rewrite (bind_Ret _ _ _ _ _ Ht2).
  rewrite (bind_Ret _ _ _ _ _ (use_file l1 (on_mapping l1) target Hc eq_refl (kr_connected _ _ _ Hr))).
  fold l3. rewrite (bind_Ret _ _ _ _ _ Ht3). cbn [fst snd]. unfold compared.
  rewrite (results_same l1 target Hc). cbn [negb]. by rewrite !app_nil_r, <- !app_assoc.
Qed.
End theorem.

(** ** On the concrete machine *)

Definition no_clock : clocks (lib ram rwsem (list tlb_entry)) :=
  mk_clocks (ret (0, 0)) (ret (0, 0)).

Lemma toy_comparable : comparable x86_lcfg (opened (filled 66 83)) 0x40201000.
Proof.
  split.
  - assert (page (opened (filled 66 83)) 0x40201000 5) as Hp by check_page. apply Hp.
  - evaluate.
  - reflexivity.
  - reflexivity.
  - reflexivity.
  - unfold root_of. replace (process_root (l_kernel (opened (filled 66 83))) 0) with 0x1000 by evaluate.
    split; [lia|reflexivity].
  - replace (walk_reads _ _ _ _ _) with [0x1000; 0x2008; 0x3008; 0x4008] by evaluate.
    repeat (apply Forall_cons_2; [split; [vm_compute; discriminate|vm_compute; eauto]|]).
    apply Forall_nil_2.
Qed.

Lemma performance_agrees_witness :
  exists t1 t2 t3 l', performance x86_cfg x86_lcfg no_clock 0x40201000 zero_entry (closed (filled 66 83)) =
    (ptedit_cleanup ;;;
     ret (0, cycles "Kernel" t1 ++ cycles "User" t2 ++ cycles "User (pread)" t3 ++
             message TAG_OK ["Done"%string])) l'.
Proof.
  apply (performance_agrees x86_cfg x86_lcfg eq_refl eq_refl no_clock) with (l1 := opened (filled 66 83)).
  - intros l. by eexists.
  - evaluate.
  - apply toy_comparable.
Defined.
