(* ===== verification/Demos.v ===== *)
(** * Smaller programs

    [demos/virt2phys.c], [demos/tlb_test.c], [demos/clear_bits.c] and
    [demos/nx.c]: programs that show one function of the library each. *)

From stdpp Require Import base tactics numbers list gmap strings.
From S2P Require Import Prelude Entry Bits Print PhysMem Linux Kernel Machine KernelProps KernelOps.
From S2P Require Import Walk Mmu Update Pte Agree KernelUpdate Lib LibProps LibImpl LibWitness Process.
From S2P Require Import ProcessWitness Performance.
Local Open Scope Z_scope.

(** The message of every program when [ptedit_init] fails. *)
Definition init_failed : list string :=
  message TAG_FAIL ["Error: Could not initalize PTEditor, did you load the kernel module?"%string].

(** ** Translating an address *)

Module Virt2phys.
Definition is_normal_page (a : arch) (entry : Z) : bool :=
  match a with
  | X86_64 => Z.land entry (bit Bit.PSE) =? 0
  | AARCH64 => true
  end.

Section program.
Context {P L T : Type} `{PhysMem P} `{RwSem L} `{LinuxPT P} `{TlbOps T}.
Variable cfg : kconfig.
Variable lcfg : lconfig.
Abbreviation LM := (M (lib P L T)).

(** The physical address computed from an entry, and what is printed of it. *)
Definition physical (target : Z) (entry : ptedit_entry_t) : Z * list string :=
  let a := kc_arch cfg in
  if is_normal_page a (pmd entry) then
    (Z.lor (wrap64 (Z.shiftl (ptedit_get_pfn a (pte entry)) 12)) (Z.land target 0xfff),
     message TAG_PROGRESS ["Page is 4KB"%string] ++ ptedit_print_entry a (pte entry))
  else
    (Z.lor (wrap64 (Z.shiftl (ptedit_get_pfn a (pmd entry)) 21)) (Z.land target 0x1fffff),
     message TAG_PROGRESS ["Page is 2MB"%string] ++ ptedit_print_entry a (pmd entry)).

(** [main]; [target] is the address of the global variable. *)
Definition virt2phys (target : Z) : LM (Z * list string) :=
  let* r := ptedit_init cfg lcfg in
  if negb (r =? 0) then ret (1, init_failed)
  else
    let* entry := call_resolve cfg target 0 in
    let '(phys, out) := physical target entry in
    let out := out ++ message TAG_OK ["Virtual address: "%string; fmt_p target] in
    let out := out ++ message TAG_OK ["Physical address: 0x"%string; fmt_zx phys] in
    ptedit_cleanup ;;;
    ret (0, out ++ message TAG_OK ["Done"%string]).
End program.

Section theorems.
Context {P L T : Type} `{PhysMemLaws P} `{RwSemLaws L} `{!LinuxPT P} `{!LinuxX86 P} `{TlbLaws T}.
Variable cfg : kconfig.
Hypothesis x86 : kc_arch cfg = X86_64.
Hypothesis v4_11 : kc_v4_11 cfg = true.
Implicit Types l : lib P L T.

Lemma normal_page_bit e : is_normal_page X86_64 e = negb (Z.testbit e 7).
Proof.
  unfold is_normal_page, Bit.PSE. pose proof (has_testbit e 7 ltac:(done)) as Hb.
  unfold has in Hb. by rewrite <- Hb, negb_involutive.
Qed.

(** For an address in a 4 KB page the program computes what the processor
    translates it to. *)
Theorem physical_4k l target : kernel_ready l target 0 -> Z.testbit (pte_of l target) 0 = true ->
  call_resolve cfg target 0 l = Ret (lib_entry l target 0) l /\
  x86_mmu (memory (l_kernel l)) (root_of l) target =
    Some (fst (physical cfg target (lib_entry l target 0))).
Proof.
  intros Hr Hp. pose proof (kr_mapped _ _ _ Hr) as Hm. split.
  { rewrite (kernel_resolve_run cfg x86 v4_11 _ _ _ Hr). unfold lib_entry. by rewrite (kr_resolve _ _ _ Hr). }
  unfold root_of. rewrite (mapped_translate _ _ _ (kr_tables _ _ _ Hr) Hm Hp). f_equal.
  unfold lib_entry. rewrite (kr_resolve _ _ _ Hr), kernel_entry_mapped by done.
  unfold physical. rewrite x86, normal_page_bit. cbn [pmd pte].
  assert (Z.testbit (mmu_entry (memory (l_kernel l)) (process_root (l_kernel l) 0) target PMD) 7 = false) as ->.
  { unfold mapped, Mmu.reached in Hm. by apply andb_true_iff in Hm as [_ Hm%negb_true_iff]. }
  cbn [negb fst]. fold (root_of l). fold (pte_of l target).
  pose proof (ok_frame _ _ _ (kr_tables _ _ _ Hr) PTE Hm) as Hs. fold (root_of l) (pte_of l target) in Hs.
  pose proof (pfn_small _ Hs) as Hf. pose proof (Z.mod_pos_bound target 4096 ltac:(lia)).
  rewrite wrap64_id by (rewrite Z.shiftl_mul_pow2 by done; unfold u64; lia).
  change 0xfff with (Z.ones 12). rewrite Z.land_ones by done. change (2 ^ 12) with 4096.
  rewrite Z.lor_comm, lor_shift by lia. lia.
Qed.

(** For an address in a 2 MB page it takes the frame number, which counts
    pages of 4 KB, for a number of 2 MB pages: the address it computes is wrong
    unless the frame number is 0. *)
Theorem physical_2m l target id mm lr root :
  connected l -> resolve_pointer l = resolve_kernel_fn -> mm_is_locked (l_kernel l) = false ->
  mm_of (l_kernel l) 0 = Some id -> k_mms (l_kernel l) !! id = Some mm ->
  mm_pgd mm = phys_to_virt root -> down_read (mmap_sem mm) = Some lr ->
  tables_ok (l_kernel l) root target ->
  let e := mmu_entry (memory (l_kernel l)) root target PMD in
  Mmu.reached (memory (l_kernel l)) root target PMD = true ->
  Z.testbit e 0 = true -> Z.testbit e 7 = true ->
  let pfn := ptedit_get_pfn X86_64 e in
  exists entry, call_resolve cfg target 0 l = Ret entry l /\
    fst (physical cfg target entry) = pfn * 2 ^ 21 + target mod 2 ^ 21 /\
    x86_mmu (memory (l_kernel l)) root target = Some (pfn / 512 * 2 ^ 21 + target mod 2 ^ 21).
Proof.
  intros Hc Hr Hlocked Hid Hmm Hpgd Hrd Hok e Hreach He0 He7 pfn. eexists. split; [|split].
  - by apply (kernel_resolve_tables cfg x86 v4_11 target 0 l id mm lr root).
  - pose proof (ok_frame _ _ _ Hok PMD Hreach) as Hs. fold e in Hs.
    unfold Mmu.reached in Hreach. apply andb_true_iff in Hreach as [Hg Hu].
    unfold kernel_entry, physical. rewrite Hg, Hu. fold e. rewrite He0, He7. cbn [negb pmd].
    rewrite x86, normal_page_bit, He7. cbn [negb fst]. fold pfn.
    pose proof (pfn_small _ Hs) as Hf. fold pfn in Hf. pose proof (Z.mod_pos_bound target (2 ^ 21) ltac:(lia)).
    rewrite wrap64_id by (rewrite Z.shiftl_mul_pow2 by done; unfold u64; lia).
    change 0x1fffff with (Z.ones 21). rewrite Z.land_ones by done.
    rewrite Z.lor_comm, lor_shift by lia. lia.
  - pose proof (ok_frame _ _ _ Hok PMD Hreach) as Hs. fold e in Hs.
    pose proof (ok_pud _ _ _ Hok) as H1g. rewrite Hreach in H1g. cbn [andb] in H1g.
    unfold Mmu.reached in Hreach. apply andb_true_iff in Hreach as [Hg Hu]. unfold x86_mmu.
    change (mmu_read (memory (l_kernel l)) root 39 target)
      with (mmu_entry (memory (l_kernel l)) root target PGD).
    change (mmu_read (memory (l_kernel l)) (mmu_frame (mmu_entry (memory (l_kernel l)) root target PGD)) 30 target)
      with (mmu_entry (memory (l_kernel l)) root target PUD).
    change (mmu_read (memory (l_kernel l)) (mmu_frame (mmu_entry (memory (l_kernel l)) root target PUD)) 21 target)
      with e.
    rewrite Hg, Hu, H1g, He0, He7. cbn [negb]. rewrite mmu_page_pfn by (done || lia). fold pfn.
    by rewrite Z.shiftl_mul_pow2, Z.shiftr_div_pow2 by done.
Qed.
End theorems.
End Virt2phys.

(** ** Timing the invalidation of the TLB *)

Module TlbTest.
Section program.
Context {P L T : Type} `{PhysMem P} `{RwSem L} `{LinuxPT P} `{TlbOps T}.
Variable cfg : kconfig.
Variable lcfg : lconfig.
Variable clock : clocks (lib P L T).
Variable proc : processor T.
(** The text of [((float)total)/REPEAT]. *)
Variable average : Z -> string.
Abbreviation LM := (M (lib P L T)).

(** One measurement; [target] is the address of the variable.  Its value is not
    used, only its page. *)
Definition measure (target : Z) (total : Z) : LM Z :=
  let* _ := user_byte proc target in
  let* start := rdtsc (kc_arch cfg) clock in
  let* fd := gets ptedit_fd in
  let* _ := ioctl cfg fd INVALIDATE_TLB (UValue target) in
  let* stop := rdtsc (kc_arch cfg) clock in
  ret (wrap64 (total + (stop - start))).

Definition setting : list string :=
  message TAG_OK ["Setting TLB invalidation method to kernel version"%string].
Definition result (total : Z) : list string :=
  message TAG_OK ["TLB invalidation: "%string; average total].

(** [main]; the total is not reset before the second loop. *)
Definition tlb_test (target : Z) : LM (Z * list string) :=
  let* r := ptedit_init cfg lcfg in
  if negb (r =? 0) then ret (1, init_failed)
  else
    let* _ := ptedit_switch_tlb_invalidation cfg PTEDITOR_TLB_INVALIDATION_KERNEL in
    let* total := for_range (Z.to_nat REPEAT) 0 (fun _ total => measure target total) 0 in
    let out := setting ++ result total in
    let* _ := ptedit_switch_tlb_invalidation cfg PTEDITOR_TLB_INVALIDATION_CUSTOM in
    let* total := for_range (Z.to_nat REPEAT) 0 (fun _ total => measure target total) total in
    let out := out ++ setting ++ result total in
    ptedit_cleanup ;;;
    ret (0, out ++ message TAG_OK ["Done"%string]).
End program.

Section theorem.
Context {P L T : Type} `{PhysMemLaws P} `{RwSemLaws L} `{!LinuxPT P} `{!LinuxX86 P} `{TlbLaws T}.
Variable cfg : kconfig.
Variable lcfg : lconfig.
Hypothesis x86 : kc_arch cfg = X86_64.
Variable clock : clocks (lib P L T).
Hypothesis clock_reads : forall l, exists t, rdtsc X86_64 clock l = Ret t l.
Variable proc : processor T.
Variable average : Z -> string.
Implicit Types l : lib P L T.

(** The library in [l0] with the method [m], after some invalidations. *)
Definition runs_method (m : tlb_method) l0 l : Prop :=
  exists k, l = with_kernel k l0 /\ cpus_only (with_method m (l_kernel l0)) k.

(** The variable can be read, and the module can invalidate, whatever the TLBs
    hold. *)
Definition measurable l0 (target : Z) : Prop :=
  connected l0 /\ is_Some (mm_of (l_kernel l0) (k_current_pid (l_kernel l0))) /\
  forall m l, runs_method m l0 l -> exists b, user_byte proc target l = Ret b l.

Lemma measure_run m l0 l target total : measurable l0 target -> runs_method m l0 l ->
  exists total' l', measure cfg clock proc target total l = Ret total' l' /\ runs_method m l0 l'.
Proof.
  intros (Hc & Hid & Hread) Hl. destruct (Hread m l Hl) as [b Hb]. destruct Hl as (k & -> & Hk).
  destruct (clock_reads (with_kernel k l0)) as [t Ht].
  assert (can_invalidate (l_kernel (with_kernel k l0))) as Hinv.
  { right. by destruct Hk as (t' & c' & ->). }
  destruct (invalidate_returns cfg x86 target k Hinv) as (k' & Hrun & Hk').
  assert (device_ioctl cfg INVALIDATE_TLB (UValue target) k = Ret (0, UValue target) k') as Hio
    by (cbn [device_ioctl]; by rewrite (bind_Ret _ _ _ _ _ Hrun)).
  destruct (clock_reads (with_kernel k' l0)) as [t' Ht'].
  unfold measure. rewrite (bind_Ret _ _ _ _ _ Hb), x86, (bind_Ret _ _ _ _ _ Ht).
  assert (connected (with_kernel k l0)) as Hc' by exact Hc.
  rewrite (request_run _ _ _ _ _ _ _ Hc' Hio). change (with_kernel k' (with_kernel k l0)) with (with_kernel k' l0).
  rewrite (bind_Ret _ _ _ _ _ Ht'). do 2 eexists. split; [reflexivity|].
  exists k'. split; [done|]. by eapply cpus_only_trans.
Qed.

Lemma switch_run v m m' l0 l : connected l0 -> runs_method m l0 l ->
  v = PTEDITOR_TLB_INVALIDATION_KERNEL /\ m' = invalidate_tlb_kernel_fn \/
  v = PTEDITOR_TLB_INVALIDATION_CUSTOM /\ m' = invalidate_tlb_custom_fn ->
  exists l', ptedit_switch_tlb_invalidation cfg v l = Ret 0 l' /\ runs_method m' l0 l'.
Proof.
  intros Hc (k & -> & t & c & ->) Hv. set (k := with_cr4 c (with_tlb t (with_method m (l_kernel l0)))).
  assert (device_ioctl cfg SWITCH_TLB_INVALIDATION (UValue (wrap64 v)) k =
    Ret (0, UValue (wrap64 v)) (with_method m' k)) as Hio.
  { rewrite switch_tlb_invalidation. by destruct Hv as [[-> ->]|[-> ->]]. }
  assert (connected (with_kernel k l0)) as Hc' by exact Hc. eexists. split.
  - unfold ptedit_switch_tlb_invalidation. rewrite (request_run _ _ _ _ _ _ _ Hc' Hio). reflexivity.
  - eexists. split; [reflexivity|]. by exists t, c.
Qed.

(** The program leaves the method of the module switched: the one it tried
    last stays for the next user of the device. *)
Theorem tlb_test_leaves_custom l l0 target :
  ptedit_init cfg lcfg l = Ret 0 l0 -> measurable l0 target ->
  exists out l', tlb_test cfg lcfg clock proc average target l =
      (ptedit_cleanup ;;; ret (0, out)) l' /\
    invalidate_tlb (l_kernel l') = invalidate_tlb_custom_fn.
Proof.
  intros Hinit Hm.
  assert (H0' : runs_method (invalidate_tlb (l_kernel l0)) l0 l0).
  { exists (l_kernel l0). split; [by rewrite with_kernel_id|].
    exists (k_tlb (l_kernel l0)), (k_cr4 (l_kernel l0)). by destruct (l_kernel l0). }
  destruct (switch_run PTEDITOR_TLB_INVALIDATION_KERNEL _ invalidate_tlb_kernel_fn l0 l0 (proj1 Hm) H0' ltac:(auto))
    as (l1 & R1 & I1).
  destruct (for_range_run (runs_method invalidate_tlb_kernel_fn l0) (Z.to_nat REPEAT) 0
    (fun _ total => measure cfg clock proc target total) 0 l1 I1) as (total & l2 & R2 & I2).
  { intros i x l' Hl'. by apply measure_run. }
  destruct (switch_run PTEDITOR_TLB_INVALIDATION_CUSTOM _ invalidate_tlb_custom_fn l0 l2 (proj1 Hm) I2 ltac:(auto))
    as (l3 & R3 & I3).
  destruct (for_range_run (runs_method invalidate_tlb_custom_fn l0) (Z.to_nat REPEAT) 0
    (fun _ total => measure cfg clock proc target total) total l3 I3) as (total' & l4 & R4 & I4).
  { intros i x l' Hl'. by apply measure_run. }
  eexists _, l4. split.
  - unfold tlb_test. rewrite (bind_Ret _ _ _ _ _ Hinit). change (negb (0 =? 0)) with false. cbv iota.
    rewrite (bind_Ret _ _ _ _ _ R1), (bind_Ret _ _ _ _ _ R2), (bind_Ret _ _ _ _ _ R3),
      (bind_Ret _ _ _ _ _ R4). reflexivity.
  - by destruct I4 as (k & -> & t & c & ->).
Qed.
End theorem.
End TlbTest.

(** ** Clearing and setting bits *)

Module ClearBits.
Section program.
Context {P L T : Type} `{PhysMem P} `{RwSem L} `{LinuxPT P} `{TlbOps T}.
Variable cfg : kconfig.
Variable lcfg : lconfig.
Variable os : system (lib P L T).
Abbreviation LM := (M (lib P L T)).

#[local] Instance clear_bits_pte : PteAccess (lib P L T) := lib_pte cfg.

Definition ACCESSED : Z :=
  match kc_arch cfg with X86_64 => Bit.ACCESSED_X86 | AARCH64 => Bit.ACCESSED_ARM end.

Definition levels : Z :=
  Z.lor (Z.lor PTEDIT_VALID_MASK_PUD PTEDIT_VALID_MASK_PMD) PTEDIT_VALID_MASK_PTE.

Definition print_entries (entry : ptedit_entry_t) : list string :=
  let a := kc_arch cfg in
  ptedit_print_entry a (pte entry) ++ ptedit_print_entry a (pmd entry) ++
  ptedit_print_entry a (pud entry).

(** [main]. *)
Definition clear_bits : LM (Z * list string) :=
  let* r := ptedit_init cfg lcfg in
  if negb (r =? 0) then
    ret (1, ["Error: Could not initalize PTEditor, did you load the kernel module?"; newline]%string)
  else
    let* addr := mmap os (2 * 1024 * 1024) in
    memset os addr 0x42 (2 * 1024 * 1024) ;;;
    let* _ := ptedit_resolve addr 0 in
    ptedit_clear_bit (gets ptedit_paging_definition) addr 0 ACCESSED levels ;;;
    let* entry := ptedit_resolve addr 0 in
    let out := print_entries entry in
    ptedit_set_bit (gets ptedit_paging_definition) addr 0 ACCESSED levels ;;;
    let* entry := ptedit_resolve addr 0 in
    let out := out ++ print_entries entry in
    ptedit_set_bit (gets ptedit_paging_definition) addr 0 ACCESSED PTEDIT_VALID_MASK_PMD ;;;
    munmap os addr 4096 ;;;
    ptedit_cleanup ;;;
    ret (0, out).
End program.
End ClearBits.

(** ** The no-execute bit of another process *)

Module Nx.
Section program.
Context {P L T : Type} `{PhysMem P} `{RwSem L} `{LinuxPT P} `{TlbOps T}.
Variable cfg : kconfig.
Variable lcfg : lconfig.
Variable proc : processor T.
(** The system calls [mprotect(addr, 4096, PROT_READ)], [fork], [sleep] and
    [waitpid], of which the last gives whether the child exited by itself; and a
    call of the function [nx_function], which prints unless it faults. *)
Variable mprotect : Z -> M (lib P L T) unit.
Variable fork : M (lib P L T) Z.
Variable sleep_ : Z -> M (lib P L T) unit.
Variable waitpid : Z -> M (lib P L T) bool.
Variable call : Z -> M (lib P L T) (list string).
Abbreviation LM := (M (lib P L T)).

#[local] Instance nx_pte : PteAccess (lib P L T) := lib_pte cfg.

Definition NX_BIT : Z := match kc_arch cfg with X86_64 => Bit.NX | AARCH64 => Bit.XN end.

(** [if(c) printf(yes); else printf(no);] *)
Definition either (c : bool) (yes no : list string) : list string := if c then yes else no.

(** Lines 63 to 91: what the parent does with the page of the child. *)
Definition change_child (addr pid_ : Z) : LM (list string) :=
  let out := message TAG_PROGRESS ["Child entry should have NX bit set"%string] in
  let* b := ptedit_pte_get_bit addr pid_ NX_BIT in
  let out := out ++ either (negb (b =? 0))
    (message TAG_OK ["Child mapping is non-executable"%string])
    (message TAG_FAIL ["Child mapping is executable"%string]) in
  let out := out ++ message TAG_PROGRESS ["Clearing child's NX bit..."%string] in
  ptedit_pte_clear_bit addr pid_ NX_BIT ;;;
  let out := out ++ message TAG_PROGRESS ["Check NX bit of child"%string] in
  let* b := ptedit_pte_get_bit addr pid_ NX_BIT in
  let out := out ++ either (negb (b =? 0))
    (message TAG_FAIL ["Child mapping is still non-executable"%string])
    (message TAG_OK ["Child mapping is executable"%string]) in
  let out := out ++ message TAG_OK ["Own entry should have NX bit set"%string] in
  let* b := ptedit_pte_get_bit addr 0 NX_BIT in
  ret (out ++ either (negb (b =? 0))
    (message TAG_OK ["Own mapping is non-executable"%string])
    (message TAG_FAIL ["Own mapping is executable"%string])).

Definition parent (addr pid_ : Z) : LM (Z * list string) :=
  let* r := ptedit_init cfg lcfg in
  if negb (r =? 0) then ret (1, init_failed)
  else
    sleep_ 1 ;;;
    let* out := change_child addr pid_ in
    ptedit_cleanup ;;;
    let* exited := waitpid pid_ in
    let out := out ++ either exited (message TAG_OK ["Success"%string]) (message TAG_FAIL ["Fail"%string]) in
    ret (0, out ++ message TAG_OK ["Done"%string]).

Definition child (nx_function addr : Z) : LM (Z * list string) :=
  let* b := user_byte proc addr in
  let out := either (negb (b =? 0)) (message TAG_OK ["Function is mapped"%string])
    (message TAG_FAIL ["Function is not mapped in child!"%string]) in
  sleep_ 2 ;;;
  let out := out ++ message TAG_PROGRESS ["Executing previously non-executable function"%string] in
  let* hello := call nx_function in
  ret (0, out ++ hello ++ message TAG_OK ["Child exited normally!"%string]).

(** [main], in the process that [fork] returns in. *)
Definition nx (nx_function : Z) : LM (Z * list string) :=
  let addr := Z.land (wrap64 (nx_function + 4096)) (not64 0xfff) in
  let out := [TAG_PROGRESS; "Expect 'Hello': "]%string in
  let* hello := call nx_function in
  let out := out ++ hello in
  mprotect addr ;;;
  let* pid_ := fork in
  let* r := (if negb (pid_ =? 0) then parent addr pid_ else child nx_function addr) in
  ret (fst r, out ++ snd r).
End program.

Section theorem.
Context {P L T : Type} `{PhysMemLaws P} `{RwSemLaws L} `{!LinuxPT P} `{!LinuxX86 P} `{TlbLaws T}.
Variable cfg : kconfig.
Hypothesis x86 : kc_arch cfg = X86_64.
Hypothesis v4_11 : kc_v4_11 cfg = true.
Implicit Types l : lib P L T.

#[local] Instance theorem_pte : PteAccess (lib P L T) := lib_pte cfg.

(** The PTE of an address of the process [pid_]. *)
Definition pte_of_pid l (addr pid_ : Z) : Z :=
  mmu_entry (memory (l_kernel l)) (process_root (l_kernel l) pid_) addr PTE.
Definition slot_of_pid l (addr pid_ : Z) (lv : level) : Z :=
  mmu_slot (l_kernel l) (process_root (l_kernel l) pid_) addr lv.

Lemma entry_of_pid l addr pid_ : kernel_ready l addr pid_ ->
  call_resolve cfg addr pid_ l = Ret (lib_entry l addr pid_) l /\
  pte (lib_entry l addr pid_) = pte_of_pid l addr pid_ /\
  level_valid PTE (lib_entry l addr pid_) = true /\
  vaddr (lib_entry l addr pid_) = addr /\ Entry.pid (lib_entry l addr pid_) = wrap64 pid_ /\
  small_frame (pte_of_pid l addr pid_).
Proof.
  intros Hr. rewrite (kernel_resolve_run cfg x86 v4_11 _ _ _ Hr). unfold lib_entry.
  rewrite (kr_resolve _ _ _ Hr). split; [done|]. rewrite kernel_entry_mapped by apply Hr.
  repeat (split; [done|]). apply (ok_frame _ _ _ (kr_tables _ _ _ Hr) PTE (kr_mapped _ _ _ Hr)).
Qed.

Lemma get_nx l addr pid_ : kernel_ready l addr pid_ ->
  ptedit_pte_get_bit addr pid_ (NX_BIT cfg) l = Ret (Z.b2z (Z.testbit (pte_of_pid l addr pid_) 63)) l.
Proof.
  intros Hr. destruct (entry_of_pid _ _ _ Hr) as (Hres & Hpte & _). unfold ptedit_pte_get_bit, NX_BIT.
  cbn [ptedit_resolve theorem_pte lib_pte]. rewrite (bind_Ret _ _ _ _ _ Hres), x86.
  rewrite (bind_Ret _ _ _ _ _ (bitmask_run Bit.NX l ltac:(done))), Hpte.
  by rewrite nz_bit.
Qed.

Lemma clear_nx_small e : small_frame e -> small_frame (Z.land e (not64 (bit Bit.NX))).
Proof.
  intros He. pose proof (proj1 He) as Hu. apply small_frame_of_testbit.
  { apply u64_land; [done|]. by apply u64_not64, u64_bit. }
  intros i Hi. rewrite Z.land_spec, (small_frame_testbit e) by done. done.
Qed.

(** Clearing the bit in one process leaves another one as it was. *)
Lemma clear_nx l addr pid_ : kernel_ready l addr pid_ -> kernel_ready l addr 0 ->
  (forall lv, disjoint_ranges (slot_of_pid l addr pid_ PTE) 8 (slot_of_pid l addr 0 lv) 8) ->
  exists l', ptedit_pte_clear_bit addr pid_ (NX_BIT cfg) l = Ret tt l' /\
    kernel_ready l' addr pid_ /\ kernel_ready l' addr 0 /\
    pte_of_pid l' addr pid_ = Z.land (pte_of_pid l addr pid_) (not64 (bit Bit.NX)) /\
    pte_of_pid l' addr 0 = pte_of_pid l addr 0.
Proof.
  intros Hr Hr0 Hd. destruct (entry_of_pid _ _ _ Hr) as (Hres & Hpte & Hval & Hva & Hpid & Hs).
  set (v := Z.land (pte_of_pid l addr pid_) (not64 (bit Bit.NX))).
  destruct (kernel_update_ready cfg x86 v4_11 addr pid_
    (set_valid PTEDIT_VALID_MASK_PTE (set_pte v (lib_entry l addr pid_))) l Hr eq_refl
    (clear_nx_small _ Hs))
    as (l' & Hrun & Hr' & He & t & c & m & id & mm & Hst & Hl' & _ & _).
  exists l'. split; [|split; [done|]].
  - unfold ptedit_pte_clear_bit. cbn [ptedit_resolve ptedit_update theorem_pte lib_pte].
    rewrite (bind_Ret _ _ _ _ _ Hres), Hval. cbn [negb]. unfold NX_BIT. rewrite x86.
    rewrite (bind_Ret _ _ _ _ _ (bitmask_run Bit.NX l ltac:(done))), Hpte. fold v.
    by rewrite (bind_Ret _ _ _ _ _ Hrun).
  - destruct (kernel_ready_mem l m addr Hr0) as (Hr0' & Hpte0 & _).
    { intros lv. eapply load64_store64_ne; [exact Hst|]. apply Hd. }
    { apply (store64_writable _ _ _ _ _ 0 0 Hst). exact (kr_writable _ _ _ Hr0). }
    split; [|split].
    + subst l'. destruct Hr0' as [??????????]. split; try done. by apply (tables_ok_mem _ _ (with_mem m (l_kernel l))).
    + destruct (entry_of_pid _ _ _ Hr') as (_ & Hpte' & _). by rewrite <- Hpte', He.
    + subst l'. exact Hpte0.
Qed.

(** What [change_child] prints when everything is as the program expects. *)
Definition expected : list string :=
  message TAG_PROGRESS ["Child entry should have NX bit set"%string] ++
  message TAG_OK ["Child mapping is non-executable"%string] ++
  message TAG_PROGRESS ["Clearing child's NX bit..."%string] ++
  message TAG_PROGRESS ["Check NX bit of child"%string] ++
  message TAG_OK ["Child mapping is executable"%string] ++
  message TAG_OK ["Own entry should have NX bit set"%string] ++
  message TAG_OK ["Own mapping is non-executable"%string].

(** The program makes the page of the child executable, and only that: when
    both pages are not executable and the child has a page table of its own,
    all its checks succeed. *)
Theorem change_child_only l addr pid_ : kernel_ready l addr pid_ -> kernel_ready l addr 0 ->
  (forall lv, disjoint_ranges (slot_of_pid l addr pid_ PTE) 8 (slot_of_pid l addr 0 lv) 8) ->
  Z.testbit (pte_of_pid l addr pid_) 63 = true -> Z.testbit (pte_of_pid l addr 0) 63 = true ->
  exists l', change_child cfg addr pid_ l = Ret expected l' /\
    Z.testbit (pte_of_pid l' addr pid_) 63 = false /\
    pte_of_pid l' addr 0 = pte_of_pid l addr 0.
Proof.
  intros Hr Hr0 Hd Hnx Hnx0. destruct (clear_nx l addr pid_ Hr Hr0 Hd) as (l' & Hrun & Hr' & Hr0' & Hpte & Hpte0).
  assert (Z.testbit (pte_of_pid l' addr pid_) 63 = false) as Hc.
  { rewrite Hpte, Z.land_spec, testbit_not64, testbit_bit. simpl. by rewrite andb_false_r. }
  exists l'. split; [|done]. unfold change_child.
  rewrite (bind_Ret _ _ _ _ _ (get_nx l addr pid_ Hr)), (bind_Ret _ _ _ _ _ Hrun).
  rewrite (bind_Ret _ _ _ _ _ (get_nx l' addr pid_ Hr')), (bind_Ret _ _ _ _ _ (get_nx l' addr 0 Hr0')).
  rewrite Hnx, Hc, Hpte0, Hnx0. unfold expected, either, ret. by rewrite <- !app_assoc.
Qed.
End theorem.
End Nx.

(** ** On the concrete machine *)

(** The state after a program that returns 0. *)
Definition finished {A S} (o : outcome S (Z * A)) : option S :=
  match o with Ret (0, _) s => Some s | _ => None end.

(** The program that clears and sets the accessed bits leaves memory as it was,
    when they were set before. *)
Example clear_bits_restores :
  (fun l => k_mem (l_kernel l)) <$>
    finished (ClearBits.clear_bits x86_cfg x86_lcfg
      (mk_system (fun _ => ret 0x40201000) (fun _ _ _ => ret tt) (fun _ _ => ret tt))
      (closed (filled 66 83))) = Some (filled 66 83).
Proof. evaluate. Qed.
