(* ===== verification/Uncachable.v ===== *)
(** * Changing the memory type of a page

    [demos/uncachable.c]: a program that makes a page, and a huge one,
    uncachable and cachable again, and times accesses to it.  On x86-64 the
    page gets the memory type asked for and keeps its frame. *)

From stdpp Require Import base tactics numbers list gmap strings.
From S2P Require Import Prelude Entry MemType Print PhysMem Linux Kernel Machine KernelProps KernelOps.
From S2P Require Import Walk Mmu Update Pte Agree KernelUpdate Lib LibProps LibImpl LibWitness Process.
From S2P Require Import ProcessWitness Performance.
Local Open Scope Z_scope.

Definition MEASUREMENTS : Z := 1000000.

Definition PTEDIT_MT_UC (a : arch) : Z := match a with X86_64 => 0 | AARCH64 => 0x44 end.
Definition PTEDIT_MT_WB (a : arch) : Z := match a with X86_64 => 6 | AARCH64 => 0xff end.

(** [__builtin_popcount] of an [unsigned int]. *)
Definition builtin_popcount (x : Z) : Z :=
  foldr (fun i n => Z.b2z (Z.testbit x (Z.of_nat i)) + n) 0 (seq 0 32).

Section program.
Context {P L T : Type} `{PhysMem P} `{RwSem L} `{LinuxPT P} `{TlbOps T}.
Variable cfg : kconfig.
Variable lcfg : lconfig.
Variable os : system (lib P L T).
Variable proc : processor T.
Variable clock : clocks (lib P L T).
(** The [mmap] of a huge page, which may fail. *)
Variable mmap_huge : M (lib P L T) (option Z).
Abbreviation LM := (M (lib P L T)).

#[local] Instance uncachable_mts : MtsOps (lib P L T) := lib_mts cfg.
#[local] Instance uncachable_pte : PteAccess (lib P L T) := lib_pte cfg.
Abbreviation a := (kc_arch cfg).

(** [printf("%s", ptedit_mt_to_string(mt))]; a null pointer is not a string. *)
Definition mt_text (mt : Z) : LM string :=
  let* s := ptedit_mt_to_string a mt in defined s.

Definition dump_mt (i : Z) (out : list string) : LM (list string) :=
  let* v := ptedit_get_mt a i in
  let* v' := ptedit_get_mt a i in
  let* s := mt_text v' in
  ret (out ++ ["MT"; fmt_d i; ": "; fmt_d v; " -> "; s; newline]%string).

Definition dump_mts : LM (list string) :=
  let* mts := ptedit_get_mts in
  for_range 8 0 dump_mt ["MTs (raw): "; fmt_zx mts; newline]%string.

(** One iteration of the loop of [access_time]. *)
Definition access_once (ptr sum : Z) : LM Z :=
  let* start := rdtsc a clock in
  let* _ := user_byte proc ptr in
  let* stop := rdtsc a clock in
  ret (wrap64 (sum + (stop - start))).

Definition access_time (ptr : Z) : LM Z :=
  let* sum := for_range (Z.to_nat MEASUREMENTS) 0 (fun _ sum => access_once ptr sum) 0 in
  ret (to_int (sum / MEASUREMENTS)).

(** The [printf] of the access time; flushing the cache, which comes before it,
    has no effect on this model. *)
Definition show_time (ptr : Z) : LM (list string) :=
  let* t := access_time ptr in
  ret (message TAG_PROGRESS (["Average access time: "%string] ++ yellow (fmt_d t) ++ [" cycles"%string])).

(** Looking for a slot of a type, which the program does for UC and for WB. *)
Definition choose (type : Z) (name : string) : LM (option Z * list string) :=
  let* mt := ptedit_find_first_mt a type in
  if negb (mt =? -1) then
    let* found := ptedit_find_mt a type in
    ret (Some mt, message TAG_OK
      [fmt_d (builtin_popcount found); " MTs for "; name; " (first is MT"; fmt_d mt; ")"]%string)
  else ret (None, message TAG_FAIL ["No "; name; " MT available!"]%string).

(** Giving the page the slot, and the time afterwards. *)
Definition retype (pt : Z) (entry : ptedit_entry_t) (mt : Z) (s : string)
    : LM (ptedit_entry_t * list string) :=
  let entry := set_pte (ptedit_apply_mt a (pte entry) (wrap8 mt)) entry in
  let entry := set_valid PTEDIT_VALID_MASK_PTE entry in
  let* entry := ptedit_update pt 0 entry in
  let out := message TAG_OK [s] in
  let* t := show_time pt in
  ret (entry, out ++ t).

(** The same for the PMD entry of the huge page. *)
Definition retype_huge (page : Z) (entry : ptedit_entry_t) (v : Z) (s : string)
    : LM (ptedit_entry_t * list string) :=
  let entry := set_valid PTEDIT_VALID_MASK_PMD (set_pmd v entry) in
  let* entry := ptedit_update page 0 entry in
  let out := message TAG_OK [s] in
  let* t := show_time page in
  ret (entry, out ++ t).

Definition huge_page (uc_mt : Z) : LM (list string) :=
  let* p := mmap_huge in
  match p with
  | None => ret (message TAG_FAIL ["Note: Could not allocate huge page."%string])
  | Some page =>
      let out := message TAG_OK ["Allocated huge page"%string] in
      let* entry := ptedit_resolve page 0 in
      let out := out ++ ptedit_print_entry_t a entry in
      let mt := ptedit_extract_mt_huge a (pmd entry) in
      let* v := ptedit_get_mt a mt in
      let* s := mt_text v in
      let out := out ++ message TAG_OK ["Mapping is "%string; s] in
      let original_pmd := pmd entry in
      let* t := show_time page in
      let out := out ++ t in
      let* er := retype_huge page entry (ptedit_apply_mt_huge a (pmd entry) (wrap8 uc_mt))
        "Mapping should now be uncachable" in
      let out := out ++ snd er in
      let* er := retype_huge page (fst er) original_pmd "Mapping should now be cachable again" in
      munmap os page (2 * 1024 * 1024) ;;;
      ret (out ++ snd er)
  end.

(** Lines 121 to 198, up to the label [error]. *)
Definition change_types (pt : Z) : LM (list string) :=
  let* entry := ptedit_resolve pt 0 in
  let out := ptedit_print_entry a (pte entry) in
  let* v := ptedit_get_mt a (ptedit_extract_mt a (pte entry)) in
  let* s := mt_text v in
  let out := out ++ message TAG_OK ["Mapping is "%string; s] in
  let* t := show_time pt in
  let out := out ++ t in
  let* d := dump_mts in
  let out := out ++ d in
  let* uc := choose (PTEDIT_MT_UC a) "UC" in
  let out := out ++ snd uc in
  match fst uc with
  | None => ret out
  | Some uc_mt =>
      let* er := retype pt entry uc_mt "Mapping should now be uncachable" in
      let out := out ++ snd er in
      let* wb := choose (PTEDIT_MT_WB a) "WB" in
      let out := out ++ snd wb in
      match fst wb with
      | None => ret out
      | Some wb_mt =>
          let* er := retype pt (fst er) wb_mt "Mapping should now be cachable again" in
          let out := out ++ snd er in
          let* h := huge_page uc_mt in
          ret (out ++ h)
      end
  end.

(** [main]. *)
Definition uncachable : LM (Z * list string) :=
  let* pt := mmap os 4096 in
  memset os pt 65 4096 ;;;
  let* r := ptedit_init cfg lcfg in
  if negb (r =? 0) then
    ret (1, message TAG_FAIL
      ["Error: Could not initalize PTEditor, did you load the kernel module?"%string])
  else
    let* out := change_types pt in
    ptedit_cleanup ;;;
    ret (0, out ++ message TAG_OK ["Done"%string]).
End program.

(** * Theorem *)

Section theorem.
Context {P L T : Type} `{PhysMemLaws P} `{RwSemLaws L} `{!LinuxPT P} `{!LinuxX86 P} `{TlbLaws T}.
Variable cfg : kconfig.
Hypothesis x86 : kc_arch cfg = X86_64.
Hypothesis v4_11 : kc_v4_11 cfg = true.
Variable cached : T -> Z -> Z -> Z -> Z.
Variable clock : clocks (lib P L T).
(** Reading the clock changes nothing. *)
Hypothesis clock_reads : forall l, exists t, rdtsc X86_64 clock l = Ret t l.
Implicit Types l : lib P L T.

Abbreviation pmem l := (k_mem (l_kernel l)).
Abbreviation proc := (cpu86 cached).

(** The time is taken without changing anything. *)
Lemma show_time_run ptr b l : user_byte proc ptr l = Ret b l ->
  exists t, show_time cfg proc clock ptr l = Ret t l.
Proof.
  intros Hb. unfold show_time, access_time.
  destruct (for_range_run (fun s => s = l) (Z.to_nat MEASUREMENTS) 0
    (fun _ sum => access_once cfg proc clock ptr sum) 0 l) as (sum & ? & Hrun & ->); [done| |].
  { intros i sum s ->. unfold access_once. rewrite x86. destruct (clock_reads l) as [t Ht].
    rewrite (bind_Ret _ _ _ _ _ Ht), (bind_Ret _ _ _ _ _ Hb), (bind_Ret _ _ _ _ _ Ht). by do 2 eexists. }
  rewrite bind_assoc, (bind_Ret _ _ _ _ _ Hrun), bind_ret_l. by eexists.
Qed.

(** Choosing a type keeps the presence and the frame of an entry. *)
Lemma apply_mt_entry e mt : small_frame e ->
  let e' := ptedit_apply_mt X86_64 e mt in
  small_frame e' /\ Z.testbit e' 0 = Z.testbit e 0 /\
  ptedit_get_pfn X86_64 e' = ptedit_get_pfn X86_64 e.
Proof.
  intros He e'. pose proof (proj1 He) as Hu.
  assert (u64 e') as Hu'.
  { subst e'. cbv beta iota zeta delta [ptedit_apply_mt apply_x86 clear_x86].
    repeat first [exact Hu | done | apply u64_if | apply u64_lor | apply u64_land | apply u64_not64]. }
  assert (forall i, 0 <= i -> Z.testbit e' i = if i =? 3 then Z.testbit mt 0 else
    if i =? 4 then Z.testbit mt 1 else if i =? 7 then Z.testbit mt 2 else Z.testbit e i) as Hbits
    by (intros i Hi; by apply (apply_x86_testbit 7)).
  split; [|split; [by rewrite Hbits|]].
  - apply small_frame_of_testbit; [done|]. intros i Hi. rewrite Hbits, (small_frame_testbit e) by (done || lia).
    destruct (Z.eqb_spec i 3), (Z.eqb_spec i 4), (Z.eqb_spec i 7); try lia; done.
  - apply Z.bits_inj'. intros i Hi. rewrite !get_pfn_testbit by done. rewrite Hbits by lia.
    destruct (Z.eqb_spec (i + 12) 3), (Z.eqb_spec (i + 12) 4), (Z.eqb_spec (i + 12) 7); try lia; done.
Qed.

(** The page gets the memory type asked for and keeps its frame. *)
Theorem retype_page l addr pfn entry mt s b : page l addr pfn -> runs_default l -> u8 mt ->
  pte entry = pte_of l addr -> vaddr entry = addr -> Entry.pid entry = 0 ->
  pm_read (pmem l) (pfn * 4096) 1 = Some [b] ->
  disjoint_ranges (slot l PTE addr) 8 (pfn * 4096) 1 ->
  exists e out l', retype cfg proc clock addr entry mt s l = Ret (e, out) l' /\
    page l' addr pfn /\ pte_of l' addr = ptedit_apply_mt X86_64 (pte_of l addr) mt /\
    store64 (pmem l) (slot l PTE addr) (pte_of l' addr) = Some (pmem l').
Proof.
  intros Hp Hd Hmt Hpte0 Hva Hpid Hb Hdis. pose proof (page_small_frame _ _ _ Hp) as Hs.
  destruct (apply_mt_entry (pte_of l addr) mt Hs) as (Hs' & Hp0 & Hf).
  set (v := ptedit_apply_mt X86_64 (pte_of l addr) mt) in *.
  destruct (update_page cfg x86 v4_11 addr pfn v (set_valid PTEDIT_VALID_MASK_PTE (set_pte v entry)) l Hp Hd)
    as (l' & Hrun & Hset); [done..|].
  destruct (pte_set_page cached addr pfn v l l' Hp Hset) as (Hp' & Hpte & Htlb); [rewrite Hp0; apply Hp|].
  rewrite Hf, (pg_frame _ _ _ Hp) in Hp'.
  assert (user_byte proc addr l' = Ret b l') as Hbyte.
  { apply (page_byte cached l' addr pfn); [done|apply Htlb|]. by rewrite (pte_set_read _ _ _ _ _ _ Hset Hdis). }
  destruct (show_time_run addr b l' Hbyte) as [t Ht].
  eexists _, (message TAG_OK [s] ++ t), l'. split; [|rewrite Hpte; split; [exact Hp'|split; [done|apply Hset]]].
  unfold retype. rewrite x86, Hpte0. replace (wrap8 mt) with mt by (symmetry; by apply Z.mod_small). fold v.
  change (ptedit_update addr 0) with (call_update (P := P) (L := L) (T := T) cfg addr 0).
  by rewrite (bind_Ret _ _ _ _ _ Hrun), (bind_Ret _ _ _ _ _ Ht).
Qed.
End theorem.
