(* ===== verification/Memmap.v ===== *)
(** * The memory map of a process

    [demos/memmap.c]: the program that walks all page tables of a process,
    prints every entry and every page it finds, and adds up the memory in use.
    On x86-64 it is proved to list exactly the addresses the processor
    translates. *)

From stdpp Require Import base tactics numbers list strings.
From S2P Require Import Prelude Entry Print PhysMem Linux Kernel Machine.
From S2P Require Import Walk Mmu Lib LibProps LibWitness.
Local Open Scope Z_scope.

(** ** Entries *)

(** The [size_t] conditions are converted to [int]. *)
Definition is_present (a : arch) (entry : Z) : bool :=
  match a with
  | X86_64 => negb (to_int (Z.land entry (bit Bit.PRESENT)) =? 0)
  | AARCH64 => Z.land entry 3 =? 3
  end.

Definition is_normal_page (a : arch) (entry : Z) : bool :=
  match a with
  | X86_64 => Z.land entry (bit Bit.PSE) =? 0
  | AARCH64 => true
  end.

Definition FIRST_LEVEL_ENTRIES (a : arch) : nat :=
  match a with X86_64 => 256 | AARCH64 => 512 end.

(** ** Output

    An entry with its prefix, a page of 4 KB or of 2 MB at an address, the
    process and the memory in use. *)
Inductive item :=
| Pid (pid : Z)
| Dump (type : string) (entry : Z)
| Page_4k (addr : Z)
| Page_2m (addr : Z)
| Used (kb : Z).

#[export] Instance item_eq_dec : EqDecision item.
Proof. solve_decision. Defined.

Definition dump (a : arch) (entry : Z) (type : string) : list string :=
  List.concat (map (fun i => type :: ptedit_print_entry_line a entry i) [0; 1; 2; 3]).

Definition print_item (a : arch) (i : item) : list string :=
  match i with
  | Pid pid => ["Dumping PID "; fmt_zd pid; newline]
  | Dump type entry => dump a entry type
  | Page_4k addr => ["            -> "; fmt_zx addr; newline]
  | Page_2m addr => ["        -> "; fmt_zx addr; newline]
  | Used kb => ["Used memory: "; fmt_zd kb; " KB"; newline]
  end%string.

(** ** The walk *)

(** The local variables of [main] the loops assign: the buffers of the tables
    below the first, which keep what was read last, [mem_usage], and what has
    been printed. *)
Record locals := mk_locals {
  v_pdpt : list Z;
  v_pd : list Z;
  v_pt : list Z;
  mem_usage : Z;
  printed : list item }.

Definition set_pdpt v x := mk_locals v (v_pd x) (v_pt x) (mem_usage x) (printed x).
Definition set_pd v x := mk_locals (v_pdpt x) v (v_pt x) (mem_usage x) (printed x).
Definition set_pt v x := mk_locals (v_pdpt x) (v_pd x) v (mem_usage x) (printed x).
Definition use n x := mk_locals (v_pdpt x) (v_pd x) (v_pt x) (wrap64 (mem_usage x + n)) (printed x).
Definition print i x := mk_locals (v_pdpt x) (v_pd x) (v_pt x) (mem_usage x) (printed x ++ [i]).

(** [table[i]] of a buffer used as an array of [size_t]. *)
Definition entry_at (table : list Z) (i : Z) : option Z :=
  if (0 <=? i) && (8 * i + 8 <=? Z.of_nat (length table))
  then Some (word_of (take 8 (drop (Z.to_nat (8 * i)) table))) else None.

Section walk.
Context {S : Type}.
Variable a : arch.
(** [ptedit_read_physical_page] of the library. *)
Variable read_page : Z -> list Z -> M S (list Z).

(** The address of a page, from the indices of the levels. *)
Definition page_address (pml4i pdpti pdi pti : Z) : Z :=
  match a with
  | X86_64 => Z.lor (Z.lor (Z.lor (Z.shiftl pti 12) (Z.shiftl pdi 21)) (Z.shiftl pdpti 30))
                    (Z.shiftl pml4i 39)
  | AARCH64 => Z.lor (Z.lor (Z.shiftl pti 12) (Z.shiftl pdi 21)) (Z.shiftl pml4i 30)
  end.

Definition large_address (pml4i pdpti pdi : Z) : Z :=
  Z.lor (Z.lor (Z.shiftl pdi 21) (Z.shiftl pdpti 30)) (Z.shiftl pml4i 39).

Definition pt_body (pml4i pdpti pdi pti : Z) (x : locals) : M S locals :=
  let* pt_entry := defined (entry_at (v_pt x) pti) in
  if negb (is_present a pt_entry) then ret x
  else
    let x := print (Dump "        PT  " pt_entry) x in
    let x := print (Page_4k (page_address pml4i pdpti pdi pti)) x in
    ret (use 4096 x).

Definition pd_body (pml4i pdpti pdi : Z) (x : locals) : M S locals :=
  let* pd_entry := defined (entry_at (v_pd x) pdi) in
  if negb (is_present a pd_entry) then ret x
  else
    let x := print (Dump "    PD  " pd_entry) x in
    if is_normal_page a pd_entry then
      let* pt := read_page (ptedit_get_pfn a pd_entry) (v_pt x) in
      for_range 512 0 (pt_body pml4i pdpti pdi) (set_pt pt x)
    else
      let x := print (Page_2m (large_address pml4i pdpti pdi)) x in
      ret (use (2 * 1024 * 1024) x).

(** Lines 79 to 108: the page directory of an entry. *)
Definition pd_loop (pml4i pdpti pdpt_entry : Z) (x : locals) : M S locals :=
  let* pd := read_page (ptedit_get_pfn a pdpt_entry) (v_pd x) in
  for_range 512 0 (pd_body pml4i pdpti) (set_pd pd x).

Definition pdpt_body (pml4i pdpti : Z) (x : locals) : M S locals :=
  let* pdpt_entry := defined (entry_at (v_pdpt x) pdpti) in
  if negb (is_present a pdpt_entry) then ret x
  else pd_loop pml4i pdpti pdpt_entry (print (Dump "PDPT" pdpt_entry) x).

(** On AArch64 there are three levels, and [pdpti] is not used. *)
Definition pml4_body (pml4 : list Z) (pml4i : Z) (x : locals) : M S locals :=
  let* pml4_entry := defined (entry_at pml4 pml4i) in
  if negb (is_present a pml4_entry) then ret x
  else
    let x := print (Dump "" pml4_entry) x in
    match a with
    | X86_64 =>
        let* pdpt := read_page (ptedit_get_pfn a pml4_entry) (v_pdpt x) in
        for_range 512 0 (pdpt_body pml4i) (set_pdpt pdpt x)
    | AARCH64 => pd_loop pml4i 0 pml4_entry x
    end.

Definition walk_tables (pml4 : list Z) (x : locals) : M S locals :=
  for_range (FIRST_LEVEL_ENTRIES a) 0 (pml4_body pml4) x.
End walk.

(** [main]; [argument] is [atoi(argv[1])], or 0 without arguments, and
    [garbage] what an array holds before it is assigned.  The result is the exit
    status and what was printed. *)
Definition memmap {P L T} `{PhysMem P} `{RwSem L} `{LinuxPT P} `{TlbOps T} (cfg : kconfig)
    (lcfg : lconfig) (argument : Z) (garbage : Z -> list Z) : M (lib P L T) (Z * list item) :=
  let* r := ptedit_init cfg lcfg in
  if negb (r =? 0) then ret (1, [])
  else
    let pid := wrap64 argument in
    let* root := ptedit_get_paging_root cfg (to_int pid) in
    let* pagesize := ptedit_get_pagesize cfg in
    if pagesize =? 0 then undef
    else
      let pagesize := wrap64 pagesize in
      let array := garbage pagesize in
      let* pml4 := ptedit_read_physical_page cfg (root / pagesize) array in
      let* x := walk_tables (kc_arch cfg) (ptedit_read_physical_page cfg) pml4
                  (mk_locals array array array 0 [Pid pid]) in
      ptedit_cleanup ;;;
      ret (0, printed (print (Used (mem_usage x / 1024)) x)).

(** * Theorems *)

(** ** Loops that print *)

Definition item_size (i : item) : Z :=
  match i with Page_4k _ => 4096 | Page_2m _ => 2 * 1024 * 1024 | _ => 0 end.
Definition size_of (l : list item) : Z := foldr (fun i n => item_size i + n) 0 l.

Lemma size_of_app l k : size_of (l ++ k) = size_of l + size_of k.
Proof. induction l as [|i l IH]; simpl; [done|]. unfold size_of in *. lia. Qed.

(** Between [x] and [y], [l] was printed and its pages counted. *)
Definition emits (x y : locals) (l : list item) : Prop :=
  printed y = printed x ++ l /\
  (u64 (mem_usage x) -> mem_usage y = wrap64 (mem_usage x + size_of l)).

Lemma emits_nil x y : printed y = printed x -> mem_usage y = mem_usage x -> emits x y [].
Proof.
  intros Hp Hm. split; [by rewrite app_nil_r|]. intros Hu. simpl.
  by rewrite Z.add_0_r, wrap64_id.
Qed.

Lemma emits_trans x y z l k : emits x y l -> emits y z k -> emits x z (l ++ k).
Proof.
  intros [Hp Hm] [Hp' Hm']. split; [by rewrite Hp', Hp, app_assoc|]. intros Hu.
  rewrite Hm' by (rewrite Hm by done; apply u64_wrap64). rewrite Hm, size_of_app by done.
  unfold wrap64. rewrite Zplus_mod_idemp_l. f_equal. lia.
Qed.

Lemma emits_print x i : item_size i = 0 -> emits x (print i x) [i].
Proof.
  intros Hi. split; [done|]. intros Hu. simpl. by rewrite Hi, Z.add_0_r, wrap64_id.
Qed.

Lemma emits_page x i : emits x (use (item_size i) (print i x)) [i].
Proof. split; [done|]. intros Hu. simpl. by rewrite Z.add_0_r. Qed.

Lemma emits_set x y x' l : emits x y l -> printed x' = printed x -> mem_usage x' = mem_usage x ->
  emits x' y l.
Proof. intros [Hp Hm] H1 H2. split; rewrite ?H1, ?H2; done. Qed.

Fixpoint range (n : nat) (lo : Z) : list Z :=
  match n with O => [] | Datatypes.S n => lo :: range n (lo + 1) end.

Lemma elem_of_range n lo i : i ∈ range n lo <-> lo <= i < lo + Z.of_nat n.
Proof.
  revert lo. induction n as [|n IH]; intros lo; cbn [range].
  - rewrite elem_of_nil. lia.
  - rewrite elem_of_cons, IH. lia.
Qed.

Section loops.
Context {S : Type}.
Variable s : S.

(** A computation that leaves the state alone, keeps [I] and prints [l]. *)
Definition runs (I : locals -> Prop) (m : M S locals) (x : locals) (l : list item) : Prop :=
  exists y, m s = Ret y s /\ I y /\ emits x y l.

Lemma runs_ret I x : I x -> runs I (ret x) x [].
Proof. intros Hx. exists x. split; [done|]. split; [done|]. by apply emits_nil. Qed.

Lemma runs_for (I : locals -> Prop) (f : Z -> list item) body n lo x :
  I x -> (forall i x, lo <= i < lo + Z.of_nat n -> I x -> runs I (body i x) x (f i)) ->
  runs I (for_range n lo body x) x (flat_map f (range n lo)).
Proof.
  revert lo x. induction n as [|n IH]; intros lo x Hx Hbody; [by apply runs_ret|].
  destruct (Hbody lo x ltac:(lia) Hx) as (y & Hy & HIy & Hxy).
  destruct (IH (lo + 1) y HIy) as (z & Hz & HIz & Hyz).
  { intros i x' Hi. apply Hbody. lia. }
  exists z. split; [|split; [done|by apply (emits_trans _ y)]].
  unfold for_range; fold (@for_range S locals). by rewrite (bind_Ret _ _ _ _ _ Hy).
Qed.
End loops.

(** ** What the program prints on x86-64 *)

Section x86.
Context {S : Type}.
Variable read_page : Z -> list Z -> M S (list Z).
Variable s : S.
(** The words of memory. *)
Variable rd : Z -> Z.

Definition word (table i : Z) : Z := rd (table * 4096 + 8 * i).
Definition frame (e : Z) : Z := ptedit_get_pfn X86_64 e.
Definition is_page (bs : list Z) : Prop := Z.of_nat (length bs) = 4096.

(** The page of a table can be read, and holds the words of memory. *)
Definition table_ok (table : Z) : Prop := forall buf, is_page buf ->
  exists bs, read_page table buf s = Ret bs s /\ is_page bs /\
    forall i, 0 <= i < 512 -> entry_at bs i = Some (word table i).

Abbreviation present e := (Z.testbit e 0).
Abbreviation large e := (Z.testbit e 7).

Lemma is_present_x86 e : is_present X86_64 e = present e.
Proof.
  unfold is_present, Bit.PRESENT. destruct (present e) eqn:E.
  - replace (Z.land e (bit 0)) with 1; [done|]. symmetry. change 1 with (bit 0).
    change (bit (bit 0)) with 2. bits.
  - replace (Z.land e (bit 0)) with 0; [done|]. symmetry. bits.
Qed.

Lemma is_normal_page_x86 e : is_normal_page X86_64 e = negb (large e).
Proof.
  unfold is_normal_page, Bit.PSE. pose proof (has_testbit e 7 ltac:(done)) as H.
  unfold has in H. by rewrite <- H, negb_involutive.
Qed.

(** What each loop prints, by the index of its level. *)
Definition pt_out (i j k pt l : Z) : list item :=
  let e := word pt l in
  if present e then [Dump "        PT  " e; Page_4k (page_address X86_64 i j k l)] else [].
Definition pd_out (i j pd k : Z) : list item :=
  let e := word pd k in
  if present e then
    Dump "    PD  " e ::
    (if large e then [Page_2m (large_address i j k)]
     else flat_map (pt_out i j k (frame e)) (range 512 0))
  else [].
Definition pdpt_out (i pdpt j : Z) : list item :=
  let e := word pdpt j in
  if present e then Dump "PDPT" e :: flat_map (pd_out i j (frame e)) (range 512 0) else [].
Definition pml4_out (pml4 i : Z) : list item :=
  let e := word pml4 i in
  if present e then Dump "" e :: flat_map (pdpt_out i (frame e)) (range 512 0) else [].

(** The tables the program reads. *)
Definition pd_ok (pd : Z) : Prop := table_ok pd /\
  forall k, 0 <= k < 512 -> present (word pd k) = true -> large (word pd k) = false ->
    table_ok (frame (word pd k)).
Definition pdpt_ok (pdpt : Z) : Prop := table_ok pdpt /\
  forall j, 0 <= j < 512 -> present (word pdpt j) = true -> pd_ok (frame (word pdpt j)).
Definition pml4_ok (pml4 : Z) : Prop := table_ok pml4 /\
  forall i, 0 <= i < 256 -> present (word pml4 i) = true -> pdpt_ok (frame (word pml4 i)).

(** The buffers are pages, and the ones above the current level are kept. *)
Definition bufs (x : locals) : Prop := is_page (v_pdpt x) /\ is_page (v_pd x) /\ is_page (v_pt x).
Definition at_pdpt (p : list Z) (x : locals) : Prop := bufs x /\ v_pdpt x = p.
Definition at_pd (p d : list Z) (x : locals) : Prop := at_pdpt p x /\ v_pd x = d.
Definition at_pt (p d t : list Z) (x : locals) : Prop := at_pd p d x /\ v_pt x = t.

Lemma pt_run p d t T i j k l x : at_pt p d t x -> entry_at t l = Some (word T l) ->
  runs s (at_pt p d t) (pt_body X86_64 i j k l x) x (pt_out i j k T l).
Proof.
  intros Hx He. unfold pt_body, pt_out. destruct Hx as [Hx Ht]. rewrite Ht, He.
  cbn [defined]. unfold runs. rewrite bind_ret_l, is_present_x86.
  destruct (present (word T l)); cbn [negb]; [|by apply runs_ret].
  eexists. split; [reflexivity|]. split; [done|].
  exact (emits_trans _ _ _ [_] [_] (emits_print x (Dump _ _) eq_refl)
    (emits_page _ (Page_4k _))).
Qed.

Lemma pd_run p d D i j k x : pd_ok D -> at_pd p d x -> 0 <= k < 512 ->
  entry_at d k = Some (word D k) ->
  runs s (at_pd p d) (pd_body X86_64 read_page i j k x) x (pd_out i j D k).
Proof.
  intros [_ Hok] Hx Hk He. unfold pd_body, pd_out. pose proof Hx as [_ Hd]. rewrite Hd, He.
  cbn [defined]. unfold runs. rewrite bind_ret_l, is_present_x86, is_normal_page_x86.
  destruct (present (word D k)) eqn:Hp; cbn [negb]; [|by apply runs_ret].
  specialize (Hok k Hk Hp). destruct (large (word D k)); cbn [negb].
  - eexists. split; [reflexivity|]. split; [done|].
    exact (emits_trans _ _ _ [_] [_] (emits_print x (Dump _ _) eq_refl)
      (emits_page _ (Page_2m _))).
  - destruct Hx as [[(H1 & H2 & H3) H4] H5].
    destruct (Hok eq_refl (v_pt x) H3) as (bs & Hrd & Hbs & Hw).
    cbn [v_pt print]. rewrite (bind_Ret _ _ _ _ _ Hrd).
    destruct (runs_for s (at_pt p d bs) (pt_out i j k (frame (word D k))) (pt_body X86_64 i j k)
      512 0 (set_pt bs (print (Dump "    PD  " (word D k)) x))) as (y & Hy & Iy & Ey).
    { done. }
    { intros l x' Hl Hx'. apply pt_run; [done|]. apply Hw. lia. }
    exists y. split; [done|]. split; [by destruct Iy|].
    exact (emits_trans _ _ _ [_] _ (emits_print x (Dump _ _) eq_refl)
      (emits_set _ _ _ _ Ey eq_refl eq_refl)).
Qed.

Lemma pd_loop_run p i j e x : pd_ok (frame e) -> at_pdpt p x ->
  runs s (at_pdpt p) (pd_loop X86_64 read_page i j e x) x (flat_map (pd_out i j (frame e)) (range 512 0)).
Proof.
  intros Hok [(H1 & H2 & H3) H4]. unfold pd_loop.
  destruct (proj1 Hok (v_pd x) H2) as (bs & Hrd & Hbs & Hw).
  unfold runs. rewrite (bind_Ret _ _ _ _ _ Hrd).
  destruct (runs_for s (at_pd p bs) (pd_out i j (frame e)) (pd_body X86_64 read_page i j)
    512 0 (set_pd bs x)) as (y & Hy & Iy & Ey).
  { done. }
  { intros k x' Hk Hx'. apply pd_run; [done..|lia|]. apply Hw. lia. }
  exists y. split; [done|]. split; [by destruct Iy|]. by apply (emits_set _ _ _ _ Ey).
Qed.

Lemma pdpt_run p P i j x : pdpt_ok P -> at_pdpt p x -> 0 <= j < 512 ->
  entry_at p j = Some (word P j) ->
  runs s (at_pdpt p) (pdpt_body X86_64 read_page i j x) x (pdpt_out i P j).
Proof.
  intros [_ Hok] Hx Hj He. unfold pdpt_body, pdpt_out. pose proof Hx as [_ Hp]. rewrite Hp, He.
  cbn [defined]. unfold runs. rewrite bind_ret_l, is_present_x86.
  destruct (present (word P j)) eqn:Hpr; cbn [negb]; [|by apply runs_ret].
  destruct (pd_loop_run p i j (word P j) (print (Dump "PDPT" (word P j)) x)) as (y & Hy & Iy & Ey);
    [by apply Hok|done|].
  exists y. split; [done|]. split; [done|].
  exact (emits_trans _ _ _ [_] _ (emits_print x (Dump _ _) eq_refl) Ey).
Qed.

Lemma pml4_run b R i x : pml4_ok R -> bufs x -> 0 <= i < 256 -> entry_at b i = Some (word R i) ->
  runs s bufs (pml4_body X86_64 read_page b i x) x (pml4_out R i).
Proof.
  intros [_ Hok] Hx Hi He. unfold pml4_body, pml4_out. rewrite He.
  cbn [defined]. unfold runs. rewrite bind_ret_l, is_present_x86.
  destruct (present (word R i)) eqn:Hp; cbn [negb]; [|by apply runs_ret].
  specialize (Hok i Hi Hp). pose proof Hx as (H1 & H2 & H3).
  destruct (proj1 Hok (v_pdpt x) H1) as (bs & Hrd & Hbs & Hw).
  cbn [v_pdpt print]. rewrite (bind_Ret _ _ _ _ _ Hrd).
  destruct (runs_for s (at_pdpt bs) (pdpt_out i (frame (word R i))) (pdpt_body X86_64 read_page i)
    512 0 (set_pdpt bs (print (Dump "" (word R i)) x))) as (y & Hy & Iy & Ey).
  { done. }
  { intros j x' Hj Hx'. apply pdpt_run; [done..|lia|]. apply Hw. lia. }
  exists y. split; [done|]. split; [by destruct Iy|].
  exact (emits_trans _ _ _ [_] _ (emits_print x (Dump _ _) eq_refl)
    (emits_set _ _ _ _ Ey eq_refl eq_refl)).
Qed.

Lemma walk_run b R x : pml4_ok R -> bufs x -> (forall i, 0 <= i < 512 -> entry_at b i = Some (word R i)) ->
  runs s bufs (walk_tables X86_64 read_page b x) x (flat_map (pml4_out R) (range 256 0)).
Proof.
  intros Hok Hx Hw. apply runs_for; [done|]. intros i x' Hi Hx'.
  apply pml4_run; [done..|lia|]. apply Hw. lia.
Qed.

(** *** Which addresses are printed *)

(** The entries of the levels for given indices. *)
Definition e4 (R i : Z) : Z := word R i.
Definition e3 (R i j : Z) : Z := word (frame (e4 R i)) j.
Definition e2 (R i j k : Z) : Z := word (frame (e3 R i j)) k.
Definition e1 (R i j k l : Z) : Z := word (frame (e2 R i j k)) l.

Definition directory (R i j k : Z) : Prop :=
  0 <= i < 256 /\ 0 <= j < 512 /\ 0 <= k < 512 /\
  present (e4 R i) = true /\ present (e3 R i j) = true /\ present (e2 R i j k) = true.

Definition listed (R : Z) : list item := flat_map (pml4_out R) (range 256 0).

Lemma elem_of_flat_map {A B} (f : A -> list B) l x :
  x ∈ flat_map f l <-> exists y, y ∈ l /\ x ∈ f y.
Proof.
  rewrite list_elem_of_In, in_flat_map.
  split; intros (y & Hy & Hx); exists y; by rewrite !list_elem_of_In in *.
Qed.

Lemma listed_directory R x : (forall ty e, x <> Dump ty e) ->
  x ∈ listed R <-> exists i j k, directory R i j k /\
    if large (e2 R i j k) then x = Page_2m (large_address i j k)
    else exists l, 0 <= l < 512 /\ present (e1 R i j k l) = true /\
      x = Page_4k (page_address X86_64 i j k l).
Proof.
  intros Hx. unfold listed. rewrite elem_of_flat_map. split.
  - intros (i & Hi & H). unfold pml4_out in H. fold (e4 R i) in H.
    destruct (present (e4 R i)) eqn:E4; [|by apply elem_of_nil in H].
    rewrite elem_of_cons, elem_of_flat_map in H. destruct H as [H|(j & Hj & H)]; [by destruct (Hx _ _ H)|].
    unfold pdpt_out in H. fold (e3 R i j) in H.
    destruct (present (e3 R i j)) eqn:E3; [|by apply elem_of_nil in H].
    rewrite elem_of_cons, elem_of_flat_map in H. destruct H as [H|(k & Hk & H)]; [by destruct (Hx _ _ H)|].
    unfold pd_out in H. fold (e2 R i j k) in H.
    destruct (present (e2 R i j k)) eqn:E2; [|by apply elem_of_nil in H].
    rewrite elem_of_cons in H. destruct H as [H|H]; [by destruct (Hx _ _ H)|].
    rewrite elem_of_range in *. exists i, j, k. split; [by repeat split; try lia|].
    destruct (large (e2 R i j k)); [by rewrite list_elem_of_singleton in H|].
    rewrite elem_of_flat_map in H. destruct H as (l & Hl & H). unfold pt_out in H. fold (e1 R i j k l) in H.
    rewrite elem_of_range in Hl. destruct (present (e1 R i j k l)) eqn:E1; [|by apply elem_of_nil in H].
    rewrite elem_of_cons, list_elem_of_singleton in H. destruct H as [H|H]; [by destruct (Hx _ _ H)|].
    exists l. by repeat split; try lia.
  - intros (i & j & k & (Hi & Hj & Hk & E4 & E3 & E2) & H). exists i. split; [apply elem_of_range; lia|].
    unfold pml4_out. fold (e4 R i). rewrite E4. right. apply elem_of_flat_map. exists j.
    split; [apply elem_of_range; lia|]. unfold pdpt_out. fold (e3 R i j). rewrite E3. right.
    apply elem_of_flat_map. exists k. split; [apply elem_of_range; lia|].
    unfold pd_out. fold (e2 R i j k). rewrite E2. right.
    destruct (large (e2 R i j k)); [by apply list_elem_of_singleton|].
    destruct H as (l & Hl & E1 & ->). apply elem_of_flat_map. exists l.
    split; [apply elem_of_range; lia|]. unfold pt_out. fold (e1 R i j k l). rewrite E1.
    right. by apply list_elem_of_singleton.
Qed.

(** *** Addresses *)

Lemma page_address_sum i j k l : 0 <= i -> 0 <= j < 512 -> 0 <= k < 512 -> 0 <= l < 512 ->
  page_address X86_64 i j k l = ((i * 512 + j) * 512 + k) * 512 * 4096 + l * 4096.
Proof.
  intros. unfold page_address. rewrite (Z.shiftl_mul_pow2 l) by done.
  rewrite (lor_shift _ k), (lor_shift _ j), (lor_shift _ i) by lia. lia.
Qed.

Lemma large_address_sum i j k : 0 <= i -> 0 <= j < 512 -> 0 <= k < 512 ->
  large_address i j k = ((i * 512 + j) * 512 + k) * 2097152.
Proof.
  intros. unfold large_address. rewrite (Z.shiftl_mul_pow2 k) by done.
  rewrite (lor_shift _ j), (lor_shift _ i) by lia. lia.
Qed.

(** The index of an address at the level with the given shift. *)
Definition idx (n addr : Z) : Z := Z.land (Z.shiftr addr n) (Z.ones 9).

Lemma idx_spec n addr : 0 <= n -> idx n addr = addr / 2 ^ n mod 512.
Proof. intros. unfold idx. by rewrite Z.land_ones, Z.shiftr_div_pow2 by lia. Qed.

Lemma large_address_idx i j k addr : 0 <= addr < 2 ^ 47 ->
  0 <= i < 256 -> 0 <= j < 512 -> 0 <= k < 512 ->
  large_address i j k = 2097152 * (addr / 2097152) <->
  i = idx 39 addr /\ j = idx 30 addr /\ k = idx 21 addr.
Proof.
  intros Ha Hi Hj Hk. rewrite large_address_sum, !idx_spec by lia.
  change (2 ^ 47) with 140737488355328 in Ha. change (2 ^ 39) with 549755813888.
  change (2 ^ 30) with 1073741824. change (2 ^ 21) with 2097152. 
  split; [intros H; repeat split|intros (-> & -> & ->)]; Z.to_euclidean_division_equations; lia.
Qed.

Lemma page_address_idx i j k l addr : 0 <= addr < 2 ^ 47 ->
  0 <= i < 256 -> 0 <= j < 512 -> 0 <= k < 512 -> 0 <= l < 512 ->
  page_address X86_64 i j k l = 4096 * (addr / 4096) <->
  i = idx 39 addr /\ j = idx 30 addr /\ k = idx 21 addr /\ l = idx 12 addr.
Proof.
  intros Ha Hi Hj Hk Hl. rewrite page_address_sum, !idx_spec by lia.
  change (2 ^ 47) with 140737488355328 in Ha. change (2 ^ 39) with 549755813888.
  change (2 ^ 30) with 1073741824. change (2 ^ 21) with 2097152. change (2 ^ 12) with 4096.
  split; [intros H; repeat split|intros (-> & -> & -> & ->)];
    Z.to_euclidean_division_equations; lia.
Qed.

Lemma idx_range n addr : 0 <= idx n addr < 512.
Proof. unfold idx. rewrite Z.land_ones by done. by apply Z.mod_pos_bound. Qed.

Lemma idx_39_user addr : 0 <= addr < 2 ^ 47 -> 0 <= idx 39 addr < 256.
Proof.
  intros Ha. rewrite idx_spec by done.
  change (2 ^ 47) with 140737488355328 in Ha. change (2 ^ 39) with 549755813888.
  Z.to_euclidean_division_equations; lia.
Qed.

Lemma mmu_frame_pfn e : mmu_frame e = frame e * 4096.
Proof.
  unfold mmu_frame, frame. change 4096 with (2 ^ 12). rewrite <- Z.shiftl_mul_pow2 by done.
  apply Z.bits_inj'. intros i Hi. rewrite testbit_shiftl, get_pfn_testbit. simpl. bits_at.
Qed.

Lemma mmu_read_word T n addr : mmu_read rd (T * 4096) n addr = word T (idx n addr).
Proof. done. Qed.

(** The processor's translation, in terms of the same entries. *)
Lemma x86_mmu_entries R addr : 0 <= addr < 2 ^ 47 ->
  (present (e4 R (idx 39 addr)) = true -> present (e3 R (idx 39 addr) (idx 30 addr)) = true ->
   large (e3 R (idx 39 addr) (idx 30 addr)) = false) ->
  is_Some (x86_mmu rd (R * 4096) addr) <->
  let i := idx 39 addr in let j := idx 30 addr in let k := idx 21 addr in
  directory R i j k /\
  (large (e2 R i j k) = true \/ present (e1 R i j k (idx 12 addr)) = true).
Proof.
  intros Ha Hl. pose proof (idx_39_user addr Ha). pose proof (idx_range 30 addr).
  pose proof (idx_range 21 addr). cbv zeta. unfold x86_mmu, directory.
  rewrite !mmu_frame_pfn, !mmu_read_word. fold (e4 R (idx 39 addr)).
  fold (e3 R (idx 39 addr) (idx 30 addr)).
  fold (e2 R (idx 39 addr) (idx 30 addr) (idx 21 addr)).
  fold (e1 R (idx 39 addr) (idx 30 addr) (idx 21 addr) (idx 12 addr)).
  assert (forall x : Z, is_Some (Some x)) by (intros x; by eexists).
  pose proof (is_Some_None (A := Z)).
  destruct (present (e4 R _)); cbn [negb]; [|intuition congruence].
  destruct (present (e3 R _ _)); cbn [negb]; [|intuition congruence].
  rewrite (Hl eq_refl eq_refl).
  destruct (present (e2 R _ _ _)); cbn [negb]; [|intuition congruence].
  destruct (large (e2 R _ _ _)); cbn [negb]; [intuition auto|].
  destruct (present (e1 R _ _ _ _)); cbn [negb]; intuition (auto || congruence).
Qed.

(** The walk prints the pages in which the processor translates an address,
    provided that no page is larger than 2 MB. *)
Definition no_1g_page (R : Z) : Prop := forall i j, 0 <= i < 256 -> 0 <= j < 512 ->
  present (e4 R i) = true -> present (e3 R i j) = true -> large (e3 R i j) = false.

Lemma walk_lists_mapped R pid buf : pml4_ok R -> is_page buf ->
  no_1g_page R ->
  exists pml4 x, read_page R buf s = Ret pml4 s /\
    walk_tables X86_64 read_page pml4 (mk_locals buf buf buf 0 [Pid pid]) s = Ret x s /\
    mem_usage x = wrap64 (size_of (listed R)) /\
    printed x = Pid pid :: listed R /\
    forall addr, 0 <= addr < 2 ^ 47 ->
      is_Some (x86_mmu rd (R * 4096) addr) <->
      Page_4k (4096 * (addr / 4096)) ∈ printed x \/
      Page_2m (2097152 * (addr / 2097152)) ∈ printed x.
Proof.
  intros Hok Hbuf Hsmall. destruct (proj1 Hok buf Hbuf) as (pml4 & Hrd & Hp & Hw).
  destruct (walk_run pml4 R (mk_locals buf buf buf 0 [Pid pid]) Hok) as (x & Hx & _ & Hout & Hmem);
    [done..|].
  fold (listed R) in Hout, Hmem. cbn [printed] in Hout. exists pml4, x. split; [done|]. split; [done|].
  split; [by rewrite Hmem|]. split; [done|]. rewrite Hout. intros addr Ha. cbn [app].
  rewrite !elem_of_cons, !listed_directory by done.
  assert (forall i j k, i = idx 39 addr /\ j = idx 30 addr /\ k = idx 21 addr ->
    0 <= i < 256 /\ 0 <= j < 512 /\ 0 <= k < 512) as Hidx.
  { intros i j k (-> & -> & ->). split; [by apply idx_39_user|]. split; apply idx_range. }
  rewrite x86_mmu_entries; [cbv zeta|done|].
  2: { intros. apply Hsmall; try done; [by apply idx_39_user|apply idx_range]. }
  destruct (Hidx _ _ _ (conj eq_refl (conj eq_refl eq_refl))) as (H4 & H3 & H2).
  pose proof (idx_range 12 addr) as H1. split.
  - intros [Hd Hcase].
    destruct (large (e2 R (idx 39 addr) (idx 30 addr) (idx 21 addr))) eqn:E2.
    + right. right. do 3 eexists. split; [exact Hd|]. rewrite E2. f_equal. symmetry.
      by apply large_address_idx.
    + left. right. do 3 eexists. split; [exact Hd|]. rewrite E2. exists (idx 12 addr).
      destruct Hcase as [|E1]; [done|]. split; [done|]. split; [done|]. f_equal. symmetry.
      by apply page_address_idx.
  - intros [[|(i & j & k & Hd & H)]|[|(i & j & k & Hd & H)]]; try done;
      destruct (large (e2 R i j k)) eqn:E2; try done; pose proof Hd as (? & ? & ? & _).
    + destruct H as (l & Hl & E1 & [= H]). symmetry in H.
      apply page_address_idx in H as (-> & -> & -> & ->); [by auto|done..].
    + injection H as H. symmetry in H.
      apply large_address_idx in H as (-> & -> & ->); [by auto|done..].
    + by destruct H as (? & _ & _ & ?).
Qed.
End x86.

(** ** The program, on the library *)

Section program.
Context {P L T : Type} `{PhysMem P} `{RwSem L} `{LinuxPT P} `{TlbOps T}.
Variable cfg : kconfig.
Variable lcfg : lconfig.
Implicit Types l : lib P L T.

(** The words of the pages of physical memory. *)
Definition page_words l (p : Z) : Z :=
  match pm_read (k_mem (l_kernel l)) (p / 4096 * 4096) (Z.to_nat 4096) with
  | Some bs => default 0 (entry_at bs (p mod 4096 / 8))
  | None => 0
  end.

Lemma entry_at_Some bs i : is_page bs -> 0 <= i < 512 -> is_Some (entry_at bs i).
Proof.
  unfold is_page, entry_at. intros Hl Hi. rewrite Hl.
  destruct (Z.leb_spec 0 i), (Z.leb_spec (8 * i + 8) 4096); try lia. by eexists.
Qed.

(** With the memory file, a page that can be read is a table the program can
    read. *)
Lemma library_table_ok l table bs : (0 <? ptedit_umem l) && umem_open l = true ->
  ptedit_pagesize l = 4096 -> 0 <= table < 2 ^ 51 ->
  pm_read (k_mem (l_kernel l)) (table * 4096) (Z.to_nat 4096) = Some bs -> is_page bs ->
  table_ok (ptedit_read_physical_page cfg) l (page_words l) table.
Proof.
  intros [Hu Ho]%andb_true_iff Hs Ht Hrd Hbs buf Hbuf. exists bs. split; [|split; [done|]].
  - unfold is_page in *.
    assert (memory_open l table /\ LibProps.page_address l table = table * 4096) as [Hopen Ha].
    { unfold memory_open, LibProps.page_address. rewrite Hu, Hs, Ho, wrap64_id by (unfold u64; lia).
      by destruct (Z.ltb_spec (table * 4096) (2 ^ 63)); [|lia]. }
    rewrite (read_physical_run cfg table buf bs l); rewrite ?Hs, ?Ha; try (done || lia).
    rewrite drop_ge by lia. by rewrite app_nil_r.
  - intros i Hi. unfold word, page_words.
    replace ((table * 4096 + 8 * i) / 4096) with table by (Z.to_euclidean_division_equations; lia).
    replace ((table * 4096 + 8 * i) mod 4096 / 8) with i by (Z.to_euclidean_division_equations; lia).
    rewrite Hrd. by destruct (entry_at_Some bs i Hbs Hi) as [w ->].
Qed.

(** C38: on x86-64 the program [memmap] lists exactly the memory of the
    process: of the addresses of the lower half, those the processor
    translates with the root of paging of the process are the ones in a page
    it has printed, 4 KB or 2 MB, and the memory in use it reports is the sum
    of the sizes of these pages; provided that the tables can be read and that
    no page is larger than 2 MB. *)
Theorem memmap_lists_mapped l l1 l2 argument garbage R : kc_arch cfg = X86_64 ->
  ptedit_init cfg lcfg l = Ret 0 l1 ->
  ptedit_get_paging_root cfg (to_int (wrap64 argument)) l1 = Ret (R * 4096) l1 ->
  ptedit_get_pagesize cfg l1 = Ret 4096 l1 ->
  ptedit_cleanup l1 = Ret tt l2 -> is_page (garbage 4096) ->
  pml4_ok (ptedit_read_physical_page cfg) l1 (page_words l1) R -> no_1g_page (page_words l1) R ->
  exists pages, memmap cfg lcfg argument garbage l =
      Ret (0, Pid (wrap64 argument) :: pages ++ [Used (wrap64 (size_of pages) / 1024)]) l2 /\
    forall addr, 0 <= addr < 2 ^ 47 ->
      is_Some (x86_mmu (page_words l1) (R * 4096) addr) <->
      Page_4k (4096 * (addr / 4096)) ∈ pages \/ Page_2m (2097152 * (addr / 2097152)) ∈ pages.
Proof.
  intros Ha Hinit Hroot Hsize Hclean Hg Hok Hsmall.
  destruct (walk_lists_mapped _ _ _ R (wrap64 argument) (garbage 4096) Hok Hg Hsmall)
    as (pml4 & x & Hrd & Hx & Hmem & Hout & Hmap).
  exists (listed (page_words l1) R). split.
  - unfold memmap. rewrite (bind_Ret _ _ _ _ _ Hinit). change (negb (0 =? 0)) with false.
    cbv beta iota zeta. rewrite (bind_Ret _ _ _ _ _ Hroot), (bind_Ret _ _ _ _ _ Hsize), Ha. simpl.
    change (wrap64 4096) with 4096. rewrite Z.div_mul by done.
    rewrite (bind_Ret _ _ _ _ _ Hrd), (bind_Ret _ _ _ _ _ Hx), (bind_Ret _ _ _ _ _ Hclean).
    by rewrite Hmem, Hout.
  - intros addr Haddr. rewrite (Hmap addr Haddr), Hout, !elem_of_cons. 
    intuition congruence.
Qed.
End program.

(** ** The program on the concrete machine *)

(** [fresh_library] after [ptedit_init]. *)
Definition initialised : lib ram rwsem (list tlb_entry) := {|
  l_kernel := with_busy true machine;
  l_files := {[ 0 := device_file; 1 := umem_file ]};
  l_has_device := true;
  l_has_umem := true;
  ptedit_fd := 0;
  ptedit_umem := 1;
  ptedit_pagesize := 4096;
  ptedit_paging_root := 0;
  ptedit_vmem := vmem_null;
  ptedit_paging_definition := def_x86;
  resolve_pointer := resolve_kernel_fn;
  update_pointer := update_kernel_fn |}.

(** A table that can be read, in which only the entry [i] is present and is not
    a large page. *)
Definition only_entry {P L T} `{PhysMem P} (l : lib P L T) (table i : Z) : bool :=
  match pm_read (k_mem (l_kernel l)) (table * 4096) (Z.to_nat 4096) with
  | None => false
  | Some bs =>
      (Z.of_nat (length bs) =? 4096) &&
      forallb (fun k => let e := default 0 (entry_at bs k) in
        negb (Z.testbit e 0) || ((k =? i) && negb (Z.testbit e 7))) (range 512 0)
  end.

Lemma only_entry_ok table i : 0 <= table < 2 ^ 51 -> only_entry initialised table i = true ->
  table_ok (ptedit_read_physical_page x86_cfg) initialised (page_words initialised) table /\
  forall k, 0 <= k < 512 -> Z.testbit (word (page_words initialised) table k) 0 = true ->
    k = i /\ Z.testbit (word (page_words initialised) table k) 7 = false.
Proof.
  unfold only_entry. intros Ht.
  destruct (pm_read _ (table * 4096) _) as [bs|] eqn:Hrd; [|done].
  intros [Hbs%Z.eqb_eq Hall]%andb_true_iff.
  split; [by apply (library_table_ok _ _ _ bs)|].
  intros k Hk. unfold word, page_words.
  replace ((table * 4096 + 8 * k) / 4096) with table by (Z.to_euclidean_division_equations; lia).
  replace ((table * 4096 + 8 * k) mod 4096 / 8) with k by (Z.to_euclidean_division_equations; lia).
  rewrite Hrd. rewrite forallb_forall in Hall.
  specialize (Hall k ltac:(apply list_elem_of_In, elem_of_range; lia)). cbv zeta in Hall.
  intros Hp. rewrite Hp in Hall. cbn [negb orb] in Hall.
  apply andb_true_iff in Hall as [?%Z.eqb_eq ?%negb_true_iff]. done.
Qed.

Lemma initialised_words : forall table i, (table, i) ∈ [(1, 0); (2, 1); (3, 1); (4, 1)] ->
  frame (word (page_words initialised) table i) = table + 1.
Proof.
  intros table i Hin. apply list_elem_of_In in Hin. simpl in Hin.
  destruct Hin as [[= <- <-]|[[= <- <-]|[[= <- <-]|[[= <- <-]|[]]]]]; vm_compute; reflexivity.
Qed.

Lemma initialised_tables :
  pml4_ok (ptedit_read_physical_page x86_cfg) initialised (page_words initialised) 1 /\
  no_1g_page (page_words initialised) 1.
Proof.
  destruct (only_entry_ok 1 0 ltac:(lia) ltac:(vm_compute; reflexivity)) as [T1 E1].
  destruct (only_entry_ok 2 1 ltac:(lia) ltac:(vm_compute; reflexivity)) as [T2 E2].
  destruct (only_entry_ok 3 1 ltac:(lia) ltac:(vm_compute; reflexivity)) as [T3 E3].
  destruct (only_entry_ok 4 1 ltac:(lia) ltac:(vm_compute; reflexivity)) as [T4 _].
  assert (forall i, 0 <= i < 256 -> Z.testbit (word (page_words initialised) 1 i) 0 = true ->
    i = 0 /\ frame (word (page_words initialised) 1 i) = 2) as F1.
  { intros i Hi He. destruct (E1 i ltac:(lia) He) as [-> _]. split; [done|].
    rewrite (initialised_words 1 0); [done|]. apply list_elem_of_In. simpl. tauto. }
  assert (forall i, 0 <= i < 512 -> Z.testbit (word (page_words initialised) 2 i) 0 = true ->
    frame (word (page_words initialised) 2 i) = 3) as F2.
  { intros i Hi He. destruct (E2 i Hi He) as [-> _].
    rewrite (initialised_words 2 1); [done|]. apply list_elem_of_In. simpl. tauto. }
  assert (forall i, 0 <= i < 512 -> Z.testbit (word (page_words initialised) 3 i) 0 = true ->
    frame (word (page_words initialised) 3 i) = 4) as F3.
  { intros i Hi He. destruct (E3 i Hi He) as [-> _].
    rewrite (initialised_words 3 1); [done|]. apply list_elem_of_In. simpl. tauto. }
  split.
  - split; [done|]. intros i Hi He. rewrite (proj2 (F1 i Hi He)).
    split; [done|]. intros j Hj He'. rewrite (F2 j Hj He').
    split; [done|]. intros k Hk He'' _. by rewrite (F3 k Hk He'').
  - intros i j Hi Hj He He'. unfold e3, e4 in *. revert He'. rewrite (proj2 (F1 i Hi He)).
    intros He'. by apply E2.
Qed.

(** The process has one page, which the program prints. *)
Lemma memmap_lists_mapped_witness :
  exists pages l2, memmap x86_cfg x86_lcfg 0 garbage0 fresh_library =
      Ret (0, Pid 0 :: pages ++ [Used (wrap64 (size_of pages) / 1024)]) l2 /\
    (Page_4k 0x40201000 ∈ pages \/ Page_2m 0x40200000 ∈ pages).
Proof.
  destruct (memmap_lists_mapped x86_cfg x86_lcfg fresh_library initialised
    (with_kernel (with_busy false machine) (with_files ∅ initialised)) 0 garbage0 1)
    as (pages & Hrun & Hmap).
  - reflexivity.
  - vm_compute. reflexivity.
  - vm_compute. reflexivity.
  - vm_compute. reflexivity.
  - vm_compute. reflexivity.
  - unfold is_page, garbage0. rewrite repeat_length. lia.
  - apply initialised_tables.
  - apply initialised_tables.
  - exists pages. eexists. split; [exact Hrun|].
    apply (Hmap 0x40201234); [lia|]. vm_compute. by eexists.
Defined.
