(* ===== verification/Driver.v ===== *)
(** * The Windows driver

    [driver/PTEdit/Driver.c]: the requests the driver serves, and loading and
    unloading it.  The functions of the Windows kernel it calls are the state
    and the parameters of this file, as they are documented. *)

From stdpp Require Import base tactics numbers list gmap.
From S2P Require Import Prelude PhysMem.
Local Open Scope Z_scope.

(** ** Control codes and status values *)

(** [CTL_CODE(FILE_DEVICE_UNKNOWN, function, METHOD_BUFFERED, access)] *)
Definition CTL_CODE (function access : Z) : Z :=
  Z.lor (Z.lor (Z.shiftl 0x22 16) (Z.shiftl access 14)) (Z.shiftl function 2).
Definition FILE_ANY_ACCESS : Z := 0.
Definition FILE_READ_DATA : Z := 1.

Definition PTEDITOR_READ_PAGE : Z := CTL_CODE 0x801 FILE_ANY_ACCESS.
Definition PTEDITOR_WRITE_PAGE : Z := CTL_CODE 0x802 FILE_READ_DATA.
Definition PTEDITOR_GET_CR3 : Z := CTL_CODE 0x803 FILE_ANY_ACCESS.
Definition PTEDITOR_SET_CR3 : Z := CTL_CODE 0x807 FILE_ANY_ACCESS.
Definition PTEDITOR_FLUSH_TLB : Z := CTL_CODE 0x804 FILE_ANY_ACCESS.
Definition PTEDITOR_READ_PHYS_VAL : Z := CTL_CODE 0x805 FILE_ANY_ACCESS.
Definition PTEDITOR_WRITE_PHYS_VAL : Z := CTL_CODE 0x806 FILE_ANY_ACCESS.
Definition PTEDITOR_SET_PAT : Z := CTL_CODE 0x808 FILE_ANY_ACCESS.
Definition PTEDITOR_GET_PAT : Z := CTL_CODE 0x809 FILE_ANY_ACCESS.

Definition STATUS_SUCCESS : Z := 0.
Definition STATUS_INVALID_PARAMETER : Z := 0xC000000D - 2 ^ 32.
Definition NT_SUCCESS (status : Z) : bool := 0 <=? status.
#[global] Arguments NT_SUCCESS : simpl never.

(** ** State *)

(** A process object: the root of its page tables and its reference count. *)
Record eprocess := mk_eprocess { DirectoryTableBase : Z; ep_refs : nat }.

(** The machine as the driver's thread sees it: physical memory, the processes
    by their id, the CR3 and the number of the CPU it runs on, the PAT of each
    CPU, the TLB invalidations each CPU has executed, the latest first, and the
    bits of CR3 the processor reserves, which depend on its model. *)
Record windows (P : Type) := mk_windows {
  w_mem : P;
  w_processes : gmap Z eprocess;
  w_cr3 : Z;
  w_cpu : Z;
  w_pat : gmap Z Z;
  w_invlpg : list (Z * Z);
  w_cr3_reserved : Z }.
Arguments mk_windows {P}.
Arguments w_mem {P} w.
Arguments w_processes {P} w.
Arguments w_cr3 {P} w.
Arguments w_cpu {P} w.
Arguments w_pat {P} w.
Arguments w_invlpg {P} w.
Arguments w_cr3_reserved {P} w.

Section setters.
Context {P : Type}.
Implicit Types w : windows P.
Definition with_mem v w : windows P :=
  mk_windows v (w_processes w) (w_cr3 w) (w_cpu w) (w_pat w) (w_invlpg w) (w_cr3_reserved w).
Definition with_processes v w : windows P :=
  mk_windows (w_mem w) v (w_cr3 w) (w_cpu w) (w_pat w) (w_invlpg w) (w_cr3_reserved w).
Definition with_cr3 v w : windows P :=
  mk_windows (w_mem w) (w_processes w) v (w_cpu w) (w_pat w) (w_invlpg w) (w_cr3_reserved w).
Definition with_pat v w : windows P :=
  mk_windows (w_mem w) (w_processes w) (w_cr3 w) (w_cpu w) v (w_invlpg w) (w_cr3_reserved w).
Definition with_invlpg v w : windows P :=
  mk_windows (w_mem w) (w_processes w) (w_cr3 w) (w_cpu w) (w_pat w) v (w_cr3_reserved w).
End setters.

(** ** Requests *)

(** The system buffer of a request, and the accesses through a pointer to it:
    outside of the buffer they are undefined. *)
Definition buffer_word (k : nat) (b : list Z) : option Z :=
  if (8 * k + 8 <=? length b)%nat then Some (word_of (take 8 (drop (8 * k) b))) else None.

(** [n] bytes are written at the start of the buffer, of which [bs] were
    copied. *)
Definition buffer_write (n : nat) (bs b : list Z) : option (list Z) :=
  if (n <=? length b)%nat then Some (bs ++ drop (length bs) b) else None.

(** [PageContent]: the page, and the address in the eight bytes after it. *)
Definition PAGE : nat := Z.to_nat 4096.
Definition content_paddr (b : list Z) : option Z :=
  if (PAGE + 8 <=? length b)%nat then Some (word_of (take 8 (drop PAGE b))) else None.

(** The answer: the status, the number of bytes returned, and the buffer. *)
Record answer := mk_answer { a_status : Z; a_information : Z; a_buffer : list Z }.

Section driver.
Context {P : Type} `{PhysMem P}.
(** The CPUs, and the physical addresses [MmGetVirtualForPhysical] has a
    virtual address for. *)
Variable cpus : list Z.
Variable mapped : Z -> bool.
Abbreviation W := (M (windows P)).

(** *** The kernel's functions *)

(** [PsLookupProcessByProcessId] takes a reference to the process it finds. *)
Definition PsLookupProcessByProcessId (pid : Z) : W bool :=
  let* ps := gets w_processes in
  match ps !! pid with
  | None => ret false
  | Some p =>
      modify (with_processes (<[pid := mk_eprocess (DirectoryTableBase p) (S (ep_refs p))]> ps)) ;;;
      ret true
  end.

(** Attaching to a process loads its page tables; detaching restores the ones
    the thread had before. *)
Definition KeStackAttachProcess (pid : Z) : W Z :=
  let* ps := gets w_processes in
  let* saved := gets w_cr3 in
  let* p := defined (ps !! pid) in
  modify (with_cr3 (DirectoryTableBase p)) ;;;
  ret saved.
Definition KeUnstackDetachProcess (saved : Z) : W unit := modify (with_cr3 saved).

Fixpoint on_all (f : Z -> W unit) (cs : list Z) : W unit :=
  match cs with
  | [] => ret tt
  | c :: cs => f c ;;; on_all f cs
  end.
Definition KeIpiGenericCall (f : Z -> Z -> W unit) (v : Z) : W unit := on_all (f v) cpus.

(** [MmCopyMemory] from a physical address to the buffer, which has to have
    the [n] bytes asked for; its status is ignored. *)
Definition copy_physical (pa : Z) (n : nat) (b : list Z) : W (list Z) :=
  let* m := gets w_mem in
  defined (buffer_write n (default [] (pm_read m pa n)) b).

(** The intrinsics [__writecr3], and [__writemsr] of the PAT: a value with
    reserved bits, or of a memory type the processor does not have, makes the
    processor fault in the kernel. *)
Definition writecr3 (v : Z) : W unit :=
  let* reserved := gets w_cr3_reserved in
  if cr3_ok reserved v then modify (with_cr3 v) else undef.
Definition writemsr_pat (v cpu : Z) : W unit :=
  if pat_ok v then let* pats := gets w_pat in modify (with_pat (<[cpu := v]> pats)) else undef.

(** Writing through the virtual address of a physical one. *)
Definition write_mapped (pa : Z) (bs : list Z) : W unit :=
  if mapped pa then
    let* m := gets w_mem in
    let* m := defined (pm_write m pa bs) in
    modify (with_mem m)
  else ret tt.

(** *** The driver *)

(** [invalidate_tlb] and [set_pat], on one CPU. *)
Definition invalidate_tlb (addr cpu : Z) : W unit :=
  let* log := gets w_invlpg in modify (with_invlpg ((cpu, addr) :: log)).
Definition set_pat (pat cpu : Z) : W unit := writemsr_pat pat cpu.

Definition case_write_page (b : list Z) : W answer :=
  let* pa := defined (content_paddr b) in
  write_mapped pa (take PAGE b) ;;;
  ret (mk_answer STATUS_SUCCESS 0 b).

Definition case_read_page (b : list Z) : W answer :=
  let* pa := defined (buffer_word 0 b) in
  let* b := copy_physical pa PAGE b in
  ret (mk_answer STATUS_SUCCESS 4096 b).

Definition case_get_cr3 (b : list Z) : W answer :=
  let* pid := defined (buffer_word 0 b) in
  let* found := PsLookupProcessByProcessId pid in
  let* root := (if found then
      let* saved := KeStackAttachProcess pid in
      let* cr3 := gets w_cr3 in
      KeUnstackDetachProcess saved ;;;
      ret cr3
    else ret 0) in
  let* b := defined (buffer_write 8 (bytes_of 8 root) b) in
  ret (mk_answer STATUS_SUCCESS 8 b).

Definition case_flush_tlb (b : list Z) : W answer :=
  let* addr := defined (buffer_word 0 b) in
  KeIpiGenericCall invalidate_tlb addr ;;;
  ret (mk_answer STATUS_SUCCESS 0 b).

(** This case has no [break]: it goes on with the next one. *)
Definition case_set_cr3 (b : list Z) : W answer :=
  let* pid := defined (buffer_word 0 b) in
  let* found := PsLookupProcessByProcessId pid in
  (if found then
     let* saved := KeStackAttachProcess pid in
     let* root := defined (buffer_word 1 b) in
     writecr3 root ;;;
     KeUnstackDetachProcess saved
   else ret tt) ;;;
  case_flush_tlb b.

Definition case_read_phys_val (b : list Z) : W answer :=
  let* pa := defined (buffer_word 0 b) in
  let* b := copy_physical pa 8 b in
  ret (mk_answer STATUS_SUCCESS 8 b).

Definition case_write_phys_val (b : list Z) : W answer :=
  let* val := defined (buffer_word 1 b) in
  let* pa := defined (buffer_word 0 b) in
  write_mapped pa (bytes_of 8 val) ;;;
  ret (mk_answer STATUS_SUCCESS 0 b).

Definition case_get_pat (b : list Z) : W answer :=
  let* cpu := gets w_cpu in
  let* pats := gets w_pat in
  let* b := defined (buffer_write 8 (bytes_of 8 (default 0 (pats !! cpu))) b) in
  ret (mk_answer STATUS_SUCCESS 8 b).

Definition case_set_pat (b : list Z) : W answer :=
  let* pat := defined (buffer_word 0 b) in
  KeIpiGenericCall set_pat pat ;;;
  ret (mk_answer STATUS_SUCCESS 0 b).

Definition DispatchDeviceCtl (IoControlCode : Z) (b : list Z) : W answer :=
  if IoControlCode =? PTEDITOR_WRITE_PAGE then case_write_page b
  else if IoControlCode =? PTEDITOR_READ_PAGE then case_read_page b
  else if IoControlCode =? PTEDITOR_GET_CR3 then case_get_cr3 b
  else if IoControlCode =? PTEDITOR_SET_CR3 then case_set_cr3 b
  else if IoControlCode =? PTEDITOR_FLUSH_TLB then case_flush_tlb b
  else if IoControlCode =? PTEDITOR_READ_PHYS_VAL then case_read_phys_val b
  else if IoControlCode =? PTEDITOR_WRITE_PHYS_VAL then case_write_phys_val b
  else if IoControlCode =? PTEDITOR_GET_PAT then case_get_pat b
  else if IoControlCode =? PTEDITOR_SET_PAT then case_set_pat b
  else ret (mk_answer STATUS_INVALID_PARAMETER 0 b).
End driver.

(** ** Loading and unloading *)

(** The routines a major function can be dispatched to; the system's own one
    refuses the request. *)
Inductive routine := IopInvalidDeviceRequest | DispatchPassThru_fn | DispatchDeviceCtl_fn.

#[export] Instance routine_eq_dec : EqDecision routine.
Proof. solve_decision. Defined.

Definition IRP_MJ_CREATE : Z := 0.
Definition IRP_MJ_CLOSE : Z := 2.
Definition IRP_MJ_DEVICE_CONTROL : nat := 14.
Definition IRP_MJ_CLEANUP : Z := 18.
Definition IRP_MJ_MAXIMUM_FUNCTION : nat := 27.

Record driver_object := mk_driver {
  MajorFunction : list routine;
  DriverUnload : bool;
  d_device : bool;
  d_link : bool }.

Definition with_major v d := mk_driver v (DriverUnload d) (d_device d) (d_link d).
Definition with_unload v d := mk_driver (MajorFunction d) v (d_device d) (d_link d).
Definition with_device v d := mk_driver (MajorFunction d) (DriverUnload d) v (d_link d).
Definition with_link v d := mk_driver (MajorFunction d) (DriverUnload d) (d_device d) v.

(** The status and the information of the answer to a request of a major
    function. *)
Definition DispatchPassThru (major : Z) : Z * Z :=
  if major =? IRP_MJ_CREATE then (STATUS_SUCCESS, 0)
  else if major =? IRP_MJ_CLOSE then (STATUS_SUCCESS, 0)
  else if major =? IRP_MJ_CLEANUP then (STATUS_SUCCESS, 0)
  else (STATUS_INVALID_PARAMETER, 0).

(** Lines 214 to 218: the loop, and the handler of device control. *)
Definition set_major_functions (major : list routine) : list routine :=
  <[IRP_MJ_DEVICE_CONTROL := DispatchDeviceCtl_fn]>
    (foldl (fun l i => <[i := DispatchPassThru_fn]> l) major (seq 0 IRP_MJ_MAXIMUM_FUNCTION)).
#[global] Arguments set_major_functions : simpl never.

Section entry.
(** What [IoCreateDevice] and [IoCreateSymbolicLink] return. *)
Variables create_device create_link : Z.

Definition IoCreateDevice : M driver_object Z :=
  when (NT_SUCCESS create_device) (modify (with_device true)) ;;; ret create_device.
Definition IoDeleteDevice : M driver_object unit := modify (with_device false).
Definition IoCreateSymbolicLink : M driver_object Z :=
  when (NT_SUCCESS create_link) (modify (with_link true)) ;;; ret create_link.
Definition IoDeleteSymbolicLink : M driver_object unit := modify (with_link false).

Definition Unload : M driver_object unit :=
  IoDeleteSymbolicLink ;;;
  IoDeleteDevice.

Definition DriverEntry : M driver_object Z :=
  modify (with_unload true) ;;;
  let* status := IoCreateDevice in
  if negb (NT_SUCCESS status) then ret status
  else
    let* status := IoCreateSymbolicLink in
    if negb (NT_SUCCESS status) then
      IoDeleteDevice ;;;
      ret status
    else
      let* major := gets MajorFunction in
      modify (with_major (set_major_functions major)) ;;;
      ret status.
End entry.

(** * Theorems *)

(** ** The control codes are different *)

Definition codes : list Z :=
  [PTEDITOR_WRITE_PAGE; PTEDITOR_READ_PAGE; PTEDITOR_GET_CR3; PTEDITOR_SET_CR3;
   PTEDITOR_FLUSH_TLB; PTEDITOR_READ_PHYS_VAL; PTEDITOR_WRITE_PHYS_VAL; PTEDITOR_GET_PAT;
   PTEDITOR_SET_PAT].

(** The buffer each case needs. *)
Definition needed (code : Z) (process_found : bool) : nat :=
  if code =? PTEDITOR_WRITE_PAGE then PAGE + 8
  else if code =? PTEDITOR_READ_PAGE then PAGE
  else if (code =? PTEDITOR_SET_CR3) && process_found then 16
  else if code =? PTEDITOR_WRITE_PHYS_VAL then 16
  else if bool_decide (code ∈ codes) then 8 else 0.

Section driver_props.
Context {P : Type} `{PhysMemLaws P}.
Variable cpus : list Z.
Variable mapped : Z -> bool.
Implicit Types w : windows P.

Lemma on_all_run (f : Z -> M (windows P) unit) (g : Z -> windows P -> windows P) cs w :
  (forall c w, f c w = Ret tt (g c w)) -> on_all f cs w = Ret tt (foldl (fun w c => g c w) w cs).
Proof.
  intros Hf. revert w. induction cs as [|c cs IH]; intros w; [done|].
  cbn [on_all foldl]. rewrite (bind_Ret _ _ _ _ _ (Hf c w)). apply IH.
Qed.

Lemma flush_run addr w : KeIpiGenericCall cpus invalidate_tlb addr w =
  Ret tt (with_invlpg (rev (map (fun c => (c, addr)) cpus) ++ w_invlpg w)%list w).
Proof.
  unfold KeIpiGenericCall.
  rewrite (on_all_run _ (fun c w => with_invlpg ((c, addr) :: w_invlpg w) w)) by done.
  f_equal. revert w. induction cpus as [|c cs IH]; intros w; [by destruct w|].
  cbn [foldl map rev]. rewrite IH. simpl. by rewrite <- app_assoc.
Qed.

(** All CPUs have the value. *)
Definition pats_of (pat : Z) (m : gmap Z Z) : gmap Z Z :=
  foldl (fun m c => <[c := pat]> m) m cpus.

Lemma set_pat_all pat w : pat_ok pat = true -> KeIpiGenericCall cpus set_pat pat w =
  Ret tt (with_pat (pats_of pat (w_pat w)) w).
Proof.
  intros Hok. unfold KeIpiGenericCall, pats_of, set_pat, writemsr_pat. rewrite Hok.
  rewrite (on_all_run _ (fun c w => with_pat (<[c := pat]> (w_pat w)) w)) by done.
  f_equal. revert w. induction cpus as [|c cs IH]; intros w; [by destruct w|].
  cbn [foldl]. by rewrite IH.
Qed.

Lemma pats_of_lookup pat m c :
  pats_of pat m !! c = if bool_decide (c ∈ cpus) then Some pat else m !! c.
Proof.
  unfold pats_of. revert m. induction cpus as [|d cs IH]; intros m; [done|].
  cbn [foldl]. rewrite IH. clear IH. destruct (decide (c = d)) as [->|Hne].
  - rewrite lookup_insert_eq, (bool_decide_eq_true_2 (d ∈ d :: cs)) by left.
    by destruct (bool_decide _).
  - rewrite lookup_insert_ne by done. rewrite (bool_decide_ext _ (c ∈ d :: cs)); [done|].
    rewrite elem_of_cons. tauto.
Qed.

(** *** Buffers *)

Lemma buffer_word_Some k b : (8 * k + 8 <= length b)%nat ->
  buffer_word k b = Some (word_of (take 8 (drop (8 * k) b))).
Proof. intros Hl. unfold buffer_word. by rewrite (proj2 (Nat.leb_le _ _) Hl). Qed.

Lemma buffer_word_None k b : (length b < 8 * k + 8)%nat -> buffer_word k b = None.
Proof. intros Hl. unfold buffer_word. by rewrite (proj2 (Nat.leb_gt _ _) Hl). Qed.

Lemma buffer_write_Some n bs b : (n <= length b)%nat -> (length bs <= n)%nat ->
  exists b', buffer_write n bs b = Some b' /\ length b' = length b /\ take (length bs) b' = bs.
Proof.
  intros Hl Hbs. unfold buffer_write. rewrite (proj2 (Nat.leb_le _ _) Hl).
  eexists. split; [reflexivity|]. split.
  - rewrite length_app, length_drop. lia.
  - apply take_app_length.
Qed.

Lemma buffer_write_None n bs b : (length b < n)%nat -> buffer_write n bs b = None.
Proof. intros Hl. unfold buffer_write. by rewrite (proj2 (Nat.leb_gt _ _) Hl). Qed.

(** The process a request names. *)
Definition found (w : windows P) (b : list Z) : bool :=
  bool_decide (is_Some (w_processes w !! word_of (take 8 b))).

(** A case with a buffer of [n] bytes at least returns success and a buffer of
    the same length; with a shorter one it reaches past the end of it. *)
Definition needs (n : nat) (m : M (windows P) answer) (b : list Z) (w : windows P) : Prop :=
  if (n <=? length b)%nat then
    exists r w', m w = Ret r w' /\ a_status r = STATUS_SUCCESS /\ length (a_buffer r) = length b
  else m w = Undef.

Lemma needs_dispatch n m b w : needs n m b w ->
  (m w = Undef <-> (length b < n)%nat) /\
  ((n <= length b)%nat -> exists r w', m w = Ret r w' /\ a_status r = STATUS_SUCCESS /\
     length (a_buffer r) = length b).
Proof.
  unfold needs. destruct (Nat.leb_spec n (length b)); intros Hm.
  - split; [|done]. destruct Hm as (r & w' & -> & _). split; [done|lia].
  - split; [done|lia].
Qed.

(** A virtual address [MmGetVirtualForPhysical] returns can be written, up to a
    page. *)
Definition mapped_writable w : Prop := forall pa bs,
  mapped pa = true -> (length bs <= PAGE)%nat -> is_Some (pm_write (w_mem w) pa bs).

Lemma write_mapped_run pa bs w : mapped_writable w -> (length bs <= PAGE)%nat ->
  exists m, write_mapped mapped pa bs w = Ret tt (with_mem m w).
Proof.
  intros mw Hbs. unfold write_mapped. destruct (mapped pa) eqn:E; [|exists (w_mem w); by destruct w].
  destruct (mw pa bs E Hbs) as [m Hm]. exists m.
  by rewrite bind_gets, Hm.
Qed.

Lemma copy_physical_run pa n b w : (n <= length b)%nat -> exists b',
  copy_physical pa n b w = Ret b' w /\ length b' = length b.
Proof.
  intros Hl. unfold copy_physical. rewrite bind_gets.
  destruct (buffer_write_Some n (default [] (pm_read (w_mem w) pa n)) b Hl) as (b' & -> & Hb' & _).
  { destruct (pm_read (w_mem w) pa n) as [bs|] eqn:E; simpl; [|lia]. by destruct (pm_read_ok _ _ _ _ E). }
  by exists b'.
Qed.

Lemma copy_physical_short pa n b w : (length b < n)%nat -> copy_physical pa n b w = Undef.
Proof. intros Hl. unfold copy_physical. by rewrite bind_gets, buffer_write_None. Qed.

(** Execution of a case, on a buffer that is long enough or not. *)
Ltac short_word := by rewrite buffer_word_None by lia.
Ltac next_word := rewrite buffer_word_Some by lia; cbn [defined]; rewrite bind_ret_l.

Lemma write_page_needs b w : mapped_writable w -> needs (PAGE + 8) (case_write_page mapped b) b w.
Proof.
  intros mw. unfold needs, case_write_page, content_paddr.
  destruct (PAGE + 8 <=? length b)%nat eqn:E; [|done]. cbn [defined]. rewrite bind_ret_l.
  destruct (write_mapped_run (word_of (take 8 (drop PAGE b))) (take PAGE b) w mw) as [m Hm].
  { rewrite length_take. lia. }
  rewrite (bind_Ret _ _ _ _ _ Hm). by repeat eexists.
Qed.

Lemma read_needs n info b w : (8 <= n)%nat ->
  needs n (let* pa := defined (buffer_word 0 b) in
           let* b := copy_physical pa n b in ret (mk_answer STATUS_SUCCESS info b)) b w.
Proof.
  intros Hn. unfold needs. destruct (Nat.leb_spec n (length b)).
  - next_word. destruct (copy_physical_run (word_of (take 8 (drop (8 * 0) b))) n b w) as (b' & Hr & Hl);
      [lia|]. rewrite (bind_Ret _ _ _ _ _ Hr). by repeat eexists.
  - destruct (Nat.leb_spec 8 (length b)); [|short_word].
    next_word. by rewrite (bind_Undef _ _ _ (copy_physical_short _ _ _ _ H1)).
Qed.

Lemma flush_tlb_needs b w : needs 8 (case_flush_tlb cpus b) b w.
Proof.
  unfold needs, case_flush_tlb. destruct (Nat.leb_spec 8 (length b)); [|short_word].
  next_word. rewrite (bind_Ret _ _ _ _ _ (flush_run _ w)). by repeat eexists.
Qed.

(** The value a request makes the processor write to the PAT of the CPUs, or to
    CR3 while the driver is attached to the process, is one it faults on. *)
Definition refused (code : Z) (b : list Z) (w : windows P) : bool :=
  if code =? PTEDITOR_SET_PAT then
    negb (bool_decide (cpus = [])) && negb (pat_ok (word_of (take 8 b)))
  else if code =? PTEDITOR_SET_CR3 then
    found w b && negb (cr3_ok (w_cr3_reserved w) (word_of (take 8 (drop 8 b))))
  else false.

Lemma refused_pat b w : refused PTEDITOR_SET_PAT b w =
  negb (bool_decide (cpus = [])) && negb (pat_ok (word_of (take 8 (drop (8 * 0) b)))).
Proof. reflexivity. Qed.

Lemma set_pat_needs b w : refused PTEDITOR_SET_PAT b w = false -> needs 8 (case_set_pat cpus b) b w.
Proof.
  rewrite refused_pat. intros Hok. unfold needs, case_set_pat.
  destruct (Nat.leb_spec 8 (length b)); [|short_word]. next_word.
  destruct (pat_ok _) eqn:Hpat.
  { rewrite (bind_Ret _ _ _ _ _ (set_pat_all _ w Hpat)). by repeat eexists. }
  rewrite andb_true_r, negb_false_iff, bool_decide_eq_true in Hok.
  unfold KeIpiGenericCall. rewrite Hok. by repeat eexists.
Qed.

Lemma set_pat_faults b w : refused PTEDITOR_SET_PAT b w = true -> case_set_pat cpus b w = Undef.
Proof.
  rewrite refused_pat, andb_true_iff, !negb_true_iff, bool_decide_eq_false. intros [Hne Hpat].
  unfold case_set_pat. destruct (Nat.leb_spec 8 (length b)); [|short_word]. next_word.
  apply bind_Undef. unfold KeIpiGenericCall. destruct cpus as [|c cs]; [done|].
  apply bind_Undef. unfold set_pat, writemsr_pat. by rewrite Hpat.
Qed.

Lemma get_pat_needs b w : needs 8 (case_get_pat b) b w.
Proof.
  unfold needs, case_get_pat. rewrite !bind_gets. destruct (Nat.leb_spec 8 (length b)).
  - destruct (buffer_write_Some 8 (bytes_of 8 (default 0 (w_pat w !! w_cpu w))) b)
      as (b' & -> & Hl & _); [lia|by rewrite length_bytes_of|]. by repeat eexists.
  - by rewrite buffer_write_None.
Qed.

Lemma write_phys_val_needs b w : mapped_writable w -> needs 16 (case_write_phys_val mapped b) b w.
Proof.
  intros mw. unfold needs, case_write_phys_val. destruct (Nat.leb_spec 16 (length b)); [|short_word].
  next_word. next_word.
  match goal with |- context [write_mapped mapped ?pa (bytes_of 8 ?v)] =>
    destruct (write_mapped_run pa (bytes_of 8 v) w mw) as [m Hm] end.
  { rewrite length_bytes_of. unfold PAGE. lia. }
  rewrite (bind_Ret _ _ _ _ _ Hm). by repeat eexists.
Qed.

(** *** Attaching to a process *)

(** The reference the lookup takes and nothing gives back. *)
Definition acquired (pid : Z) (p : eprocess) (w : windows P) : windows P :=
  with_processes (<[pid := mk_eprocess (DirectoryTableBase p) (S (ep_refs p))]> (w_processes w)) w.

Definition request_pid (b : list Z) : Z := word_of (take 8 b).

Lemma lookup_process_run pid w : PsLookupProcessByProcessId pid w =
  match w_processes w !! pid with
  | Some p => Ret true (acquired pid p w)
  | None => Ret false w
  end.
Proof.
  unfold PsLookupProcessByProcessId. rewrite bind_gets.
  by destruct (w_processes w !! pid).
Qed.

Lemma attach_run pid p w : KeStackAttachProcess pid (acquired pid p w) =
  Ret (w_cr3 w) (with_cr3 (DirectoryTableBase p) (acquired pid p w)).
Proof.
  unfold KeStackAttachProcess. rewrite !bind_gets. simpl. by rewrite lookup_insert_eq.
Qed.

Lemma detach_acquired v pid p w :
  with_cr3 (w_cr3 w) (with_cr3 v (acquired pid p w)) = acquired pid p w.
Proof. by destruct w. Qed.

Lemma get_cr3_run b w : (8 <= length b)%nat -> exists b', case_get_cr3 b w =
    Ret (mk_answer STATUS_SUCCESS 8 b')
      match w_processes w !! request_pid b with
      | Some p => acquired (request_pid b) p w
      | None => w
      end /\
  length b' = length b /\
  take 8 b' = bytes_of 8 match w_processes w !! request_pid b with
                         | Some p => DirectoryTableBase p | None => 0 end.
Proof.
  intros Hl. unfold case_get_cr3. next_word. change (word_of (take 8 (drop (8 * 0) b))) with (request_pid b).
  set (root := match w_processes w !! request_pid b with
               | Some p => DirectoryTableBase p | None => 0 end).
  destruct (buffer_write_Some 8 (bytes_of 8 root) b Hl) as (b' & Hb' & Hlb & Htake);
    [by rewrite length_bytes_of|].
  rewrite length_bytes_of in Htake. exists b'. split; [|done].
  unfold bind at 1. rewrite lookup_process_run. subst root.
  destruct (w_processes w !! request_pid b) as [p|].
  - rewrite bind_assoc, (bind_Ret _ _ _ _ _ (attach_run _ _ _)), bind_assoc, bind_gets.
    unfold KeUnstackDetachProcess. rewrite bind_assoc, bind_modify, bind_ret_l. simpl w_cr3.
    by rewrite Hb', detach_acquired.
  - by rewrite bind_ret_l, Hb'.
Qed.

Lemma writecr3_run v w : writecr3 v w =
  if cr3_ok (w_cr3_reserved w) v then Ret tt (with_cr3 v w) else Undef.
Proof. unfold writecr3. rewrite bind_gets. by destruct (cr3_ok _ v). Qed.

(** The root a request names. *)
Definition request_root (b : list Z) : Z := word_of (take 8 (drop 8 b)).

Lemma set_cr3_run b w p : (16 <= length b)%nat -> w_processes w !! request_pid b = Some p ->
  cr3_ok (w_cr3_reserved w) (request_root b) = true ->
  case_set_cr3 cpus b w = case_flush_tlb cpus b (acquired (request_pid b) p w).
Proof.
  intros Hl Hp Hok. unfold case_set_cr3. next_word.
  change (word_of (take 8 (drop (8 * 0) b))) with (request_pid b).
  unfold bind at 1. rewrite lookup_process_run, Hp.
  rewrite bind_assoc, (bind_Ret _ _ _ _ _ (attach_run _ _ _)), bind_assoc.
  next_word. change (word_of (take 8 (drop (8 * 1) b))) with (request_root b).
  unfold bind. rewrite writecr3_run. change (w_cr3_reserved (with_cr3 _ _)) with (w_cr3_reserved w).
  rewrite Hok. by destruct w.
Qed.

Lemma get_cr3_needs b w : needs 8 (case_get_cr3 b) b w.
Proof.
  unfold needs. destruct (Nat.leb_spec 8 (length b)) as [Hl|Hl].
  - destruct (get_cr3_run b w Hl) as (b' & -> & Hb' & _). by repeat eexists.
  - unfold case_get_cr3. short_word.
Qed.

(** Without the second word of the buffer, or with a root the processor
    refuses, the request for a process ends in the load of CR3. *)
Lemma set_cr3_faults b w p : w_processes w !! request_pid b = Some p ->
  (length b < 16)%nat \/ cr3_ok (w_cr3_reserved w) (request_root b) = false ->
  case_set_cr3 cpus b w = Undef.
Proof.
  intros Hp Hbad. unfold case_set_cr3.
  destruct (Nat.leb_spec 8 (length b)); [|short_word]. next_word.
  change (word_of (take 8 (drop (8 * 0) b))) with (request_pid b).
  unfold bind at 1. rewrite lookup_process_run, Hp.
  rewrite bind_assoc, (bind_Ret _ _ _ _ _ (attach_run _ _ _)), bind_assoc.
  destruct (Nat.leb_spec 16 (length b)); [|short_word]. next_word.
  destruct Hbad as [?|Hbad]; [lia|].
  change (word_of (take 8 (drop (8 * 1) b))) with (request_root b).
  do 2 apply bind_Undef. rewrite writecr3_run.
  change (w_cr3_reserved (with_cr3 _ _)) with (w_cr3_reserved w). by rewrite Hbad.
Qed.

Lemma set_cr3_needs b w : refused PTEDITOR_SET_CR3 b w = false ->
  needs (if found w b then 16 else 8) (case_set_cr3 cpus b) b w.
Proof.
  unfold refused. change (PTEDITOR_SET_CR3 =? PTEDITOR_SET_PAT) with false.
  rewrite Z.eqb_refl. change (word_of (take 8 (drop 8 b))) with (request_root b).
  unfold found. change (word_of (take 8 b)) with (request_pid b).
  destruct (w_processes w !! request_pid b) as [p|] eqn:Hp; simpl; intros Hok.
  - apply negb_false_iff in Hok. unfold needs. destruct (Nat.leb_spec 16 (length b)) as [Hl|Hl].
    + pose proof (flush_tlb_needs b (acquired (request_pid b) p w)) as Hf. unfold needs in Hf.
      rewrite (proj2 (Nat.leb_le 8 _)) in Hf by lia. by rewrite (set_cr3_run b w p).
    + apply (set_cr3_faults b w p); auto.
  - pose proof (flush_tlb_needs b w) as Hf. unfold needs in *.
    unfold case_set_cr3. destruct (Nat.leb_spec 8 (length b)); [|short_word]. next_word.
    change (word_of (take 8 (drop (8 * 0) b))) with (request_pid b).
    unfold bind at 1. rewrite lookup_process_run, Hp. by rewrite bind_ret_l.
Qed.

Lemma dispatch_needs code b w : mapped_writable w -> refused code b w = false ->
  needs (needed code (found w b)) (DispatchDeviceCtl cpus mapped code b) b w \/
  code ∉ codes.
Proof.
  intros mw Hok. destruct (decide (code ∈ codes)) as [Hc|]; [left|by right].
  unfold codes in Hc. rewrite !elem_of_cons in Hc.
  destruct Hc as [->|[->|[->|[->|[->|[->|[->|[->|[->|Hc]]]]]]]]]; [..|by apply elem_of_nil in Hc].
  - by apply write_page_needs.
  - apply (read_needs PAGE 4096 b w). unfold PAGE. lia.
  - apply get_cr3_needs.
  - pose proof (set_cr3_needs b w Hok) as Hn. by destruct (found w b).
  - apply flush_tlb_needs.
  - by apply (read_needs 8).
  - by apply write_phys_val_needs.
  - apply get_pat_needs.
  - by apply set_pat_needs.
Qed.

Lemma dispatch_faults code b w : refused code b w = true ->
  DispatchDeviceCtl cpus mapped code b w = Undef.
Proof.
  intros Href. assert (code = PTEDITOR_SET_PAT \/ code = PTEDITOR_SET_CR3) as [-> | ->].
  { unfold refused in Href. destruct (Z.eqb_spec code PTEDITOR_SET_PAT); [by left|].
    destruct (Z.eqb_spec code PTEDITOR_SET_CR3); [by right|done]. }
  - by apply (set_pat_faults b w).
  - revert Href. unfold refused. change (PTEDITOR_SET_CR3 =? PTEDITOR_SET_PAT) with false.
    rewrite Z.eqb_refl, andb_true_iff, negb_true_iff. intros [Hfound Hbad].
    apply bool_decide_eq_true_1 in Hfound as [p Hp]. apply (set_cr3_faults b w p); auto.
Qed.

(** C34: a request reaches past the end of its system buffer exactly when the
    buffer is shorter than its control code needs: the driver checks no
    length, and no value: a request with a long enough buffer fails exactly
    when it makes the processor fault, by a PAT or a root of paging with
    reserved bits.  Every other request with a long enough buffer and a code the
    driver knows succeeds and keeps the length of the buffer; every code it does
    not know is refused and changes nothing. *)
Theorem dispatch_device_ctl_bounds code b w : mapped_writable w ->
  (code ∈ codes ->
     (DispatchDeviceCtl cpus mapped code b w = Undef <->
        (length b < needed code (found w b))%nat \/ refused code b w = true) /\
     ((needed code (found w b) <= length b)%nat -> refused code b w = false -> exists r w',
        DispatchDeviceCtl cpus mapped code b w = Ret r w' /\ a_status r = STATUS_SUCCESS /\
        length (a_buffer r) = length b)) /\
  (code ∉ codes ->
     DispatchDeviceCtl cpus mapped code b w = Ret (mk_answer STATUS_INVALID_PARAMETER 0 b) w).
Proof.
  intros mw. split; intros Hc.
  - destruct (refused code b w) eqn:Href.
    { split; [|done]. split; [by right|]. intros _. by apply dispatch_faults. }
    destruct (dispatch_needs code b w mw Href) as [Hn|]; [|done].
    apply needs_dispatch in Hn as [H1 H2]. split; [|auto]. rewrite H1. split; [by left|].
    by intros [?|?].
  - unfold codes in Hc. rewrite !not_elem_of_cons in Hc. unfold DispatchDeviceCtl.
    repeat match goal with
    | |- context [?x =? ?y] => destruct (Z.eqb_spec x y); [tauto|]
    end. done.
Qed.

(** The request to set the root of a process's page tables, to one that the
    processor takes, has no effect on it: the driver loads CR3 while it is attached to the process and
    detaching restores the old one, so the root read afterwards is the old
    one.  The case then runs into the next, which invalidates the TLB entry of
    the process id as if it were an address; and the lookup's reference to the
    process is never given back. *)
Theorem set_cr3_undone b p w : (16 <= length b)%nat ->
  w_processes w !! request_pid b = Some p ->
  cr3_ok (w_cr3_reserved w) (request_root b) = true ->
  exists r w', DispatchDeviceCtl cpus mapped PTEDITOR_SET_CR3 b w = Ret r w' /\
    w_cr3 w' = w_cr3 w /\ w_mem w' = w_mem w /\
    (forall pid, DirectoryTableBase <$> w_processes w' !! pid =
                 DirectoryTableBase <$> w_processes w !! pid) /\
    w_invlpg w' = (rev (map (fun c => (c, request_pid b)) cpus) ++ w_invlpg w)%list /\
    ep_refs <$> w_processes w' !! request_pid b = Some (S (ep_refs p)) /\
    (forall b2, (8 <= length b2)%nat -> request_pid b2 = request_pid b ->
       exists r2 w2, DispatchDeviceCtl cpus mapped PTEDITOR_GET_CR3 b2 w' = Ret r2 w2 /\
         take 8 (a_buffer r2) = bytes_of 8 (DirectoryTableBase p)).
Proof.
  intros Hl Hp Hok. set (w1 := acquired (request_pid b) p w).
  set (w2 := with_invlpg (rev (map (fun c => (c, request_pid b)) cpus) ++ w_invlpg w1)%list w1).
  exists (mk_answer STATUS_SUCCESS 0 b), w2. split.
  { change (DispatchDeviceCtl _ _ _ _ _) with (case_set_cr3 cpus b w).
    rewrite (set_cr3_run b w p) by done. unfold case_flush_tlb. next_word.
    by rewrite (bind_Ret _ _ _ _ _ (flush_run _ _)). }
  assert (w_processes w2 !! request_pid b =
    Some (mk_eprocess (DirectoryTableBase p) (S (ep_refs p)))) as Hp2.
  { subst w2 w1. simpl. by rewrite lookup_insert_eq. }
  split; [done|]. split; [done|]. split.
  { intros pid. subst w2 w1. simpl. destruct (decide (pid = request_pid b)) as [->|Hne].
    - by rewrite lookup_insert_eq, Hp.
    - by rewrite lookup_insert_ne by done. }
  split; [done|]. split; [by rewrite Hp2|]. intros b2 Hb2 Hpid.
  destruct (get_cr3_run b2 w2 Hb2) as (b' & Hrun & _ & Ht). rewrite Hpid, Hp2 in Ht.
  eexists _, _. split; [exact Hrun|done].
Qed.
End driver_props.

(** ** Loading *)

Lemma set_routines n l : 
  length (foldl (fun l i => <[i := DispatchPassThru_fn]> l) l (seq 0 n)) = length l /\
  forall i, (i < length l)%nat ->
    foldl (fun l i => <[i := DispatchPassThru_fn]> l) l (seq 0 n) !! i =
      if (i <? n)%nat then Some DispatchPassThru_fn else l !! i.
Proof.
  induction n as [|n [IHl IH]]; [done|]. rewrite seq_S, foldl_app. cbn [foldl Nat.add].
  split; [by rewrite length_insert|]. intros i Hi.
  destruct (decide (i = n)) as [->|Hne].
  - rewrite list_lookup_insert_eq by lia. by rewrite (proj2 (Nat.ltb_lt _ _)) by lia.
  - rewrite list_lookup_insert_ne, IH by done.
    by destruct (Nat.ltb_spec i n), (Nat.ltb_spec i (S n)); try lia.
Qed.

(** Loading the driver creates its device and its link or neither of
    them; a loaded driver dispatches device control to its handler and every
    other major function except the last, which the loop of [DriverEntry]
    leaves to the system, to the routine that accepts create, close and
    cleanup; and unloading it deletes the link and the device. *)
Theorem driver_load create_device create_link d :
  length (MajorFunction d) = S IRP_MJ_MAXIMUM_FUNCTION -> d_device d = false -> d_link d = false ->
  exists status d', DriverEntry create_device create_link d = Ret status d' /\
    NT_SUCCESS status = NT_SUCCESS create_device && NT_SUCCESS create_link /\
    d_device d' = NT_SUCCESS status /\ d_link d' = NT_SUCCESS status /\
    (forall i, (i <= IRP_MJ_MAXIMUM_FUNCTION)%nat -> MajorFunction d' !! i =
       if negb (NT_SUCCESS status) then MajorFunction d !! i
       else if (i =? IRP_MJ_DEVICE_CONTROL)%nat then Some DispatchDeviceCtl_fn
       else if (i =? IRP_MJ_MAXIMUM_FUNCTION)%nat then MajorFunction d !! i
       else Some DispatchPassThru_fn) /\
    DriverUnload d' = true /\
    exists d'', Unload d' = Ret tt d'' /\ d_device d'' = false /\ d_link d'' = false.
Proof.
  intros Hlen Hdev Hlink. unfold DriverEntry, IoCreateDevice, IoCreateSymbolicLink.
  autorewrite with monad.
  destruct (NT_SUCCESS create_device) eqn:E1; simpl; autorewrite with monad; rewrite ?E1; simpl.
  2: { do 2 eexists. split; [reflexivity|]. rewrite E1. simpl.
       repeat (split; [done|]). by eexists. }
  destruct (NT_SUCCESS create_link) eqn:E2; simpl; autorewrite with monad; rewrite ?E2; simpl.
  2: { do 2 eexists. split; [reflexivity|]. rewrite E2. simpl.
       repeat (split; [done|]). by eexists. }
  do 2 eexists. split; [reflexivity|]. rewrite E2. cbn [negb andb].
  split; [done|]. split; [done|]. split; [done|]. split; [|split; [done|by eexists]].
  intros i Hi. cbn [MajorFunction with_major]. unfold set_major_functions.
  destruct (set_routines IRP_MJ_MAXIMUM_FUNCTION (MajorFunction d)) as [Hl Hlook].
  destruct (Nat.eqb_spec i IRP_MJ_DEVICE_CONTROL) as [->|Hne].
  - rewrite list_lookup_insert_eq; [done|]. cbn in *. lia.
  - rewrite list_lookup_insert_ne by done. cbn [MajorFunction with_link with_device with_unload].
    rewrite Hlook by lia.
    destruct (Nat.ltb_spec i IRP_MJ_MAXIMUM_FUNCTION), (Nat.eqb_spec i IRP_MJ_MAXIMUM_FUNCTION); (done || lia).
Qed.

(** ** A machine

    Its physical addresses have 40 bits. *)

Definition driver_mapped (pa : Z) : bool := (0 <=? pa) && (pa + 4096 <=? 0x8000).

Definition windows_machine : windows ram := {|
  w_mem := mk_ram 0x8000 ∅;
  w_processes := {[ 4 := mk_eprocess 0x1000 1; 8 := mk_eprocess 0x2000 1 ]};
  w_cr3 := 0x2000;
  w_cpu := 1;
  w_pat := ∅;
  w_invlpg := [];
  w_cr3_reserved := Z.shiftl (Z.ones 24) 40 |}.

(** Process 4, and a new root. *)
Definition set_cr3_request : list Z := (bytes_of 8 4 ++ bytes_of 8 0x5000)%list.

Lemma windows_machine_writable : mapped_writable driver_mapped windows_machine.
Proof.
  intros pa bs Hpa Hl. unfold driver_mapped in Hpa.
  apply andb_true_iff in Hpa as [H1%Z.leb_le H2%Z.leb_le].
  unfold PAGE in Hl. simpl. unfold ram_ok. simpl.
  destruct (Z.leb_spec 0 pa); [|lia].
  destruct (Z.leb_spec (pa + Z.of_nat (length bs)) 0x8000); [|lia]. by eexists.
Qed.

Lemma dispatch_device_ctl_bounds_witness :
  mapped_writable driver_mapped windows_machine /\
  DispatchDeviceCtl [0; 1] driver_mapped PTEDITOR_READ_PAGE (bytes_of 8 0x1000) windows_machine = Undef /\
  DispatchDeviceCtl [0; 1] driver_mapped PTEDITOR_SET_PAT (bytes_of 8 0x80000000) windows_machine = Undef /\
  exists r w', DispatchDeviceCtl [0; 1] driver_mapped PTEDITOR_SET_PAT (bytes_of 8 0x7040600070406)
    windows_machine = Ret r w' /\ a_status r = STATUS_SUCCESS.
Proof.
  split; [exact windows_machine_writable|].
  destruct (dispatch_device_ctl_bounds [0; 1] driver_mapped PTEDITOR_READ_PAGE (bytes_of 8 0x1000)
    windows_machine windows_machine_writable) as [H _].
  destruct H as [H _]; [right; left|]. split.
  { apply H. left. rewrite length_bytes_of. apply Nat.ltb_lt. vm_compute. reflexivity. }
  split.
  - destruct (dispatch_device_ctl_bounds [0; 1] driver_mapped PTEDITOR_SET_PAT
      (bytes_of 8 0x80000000) windows_machine windows_machine_writable) as [H2 _].
    destruct H2 as [H2 _]; [do 8 right; left|]. apply H2. right. vm_compute. reflexivity.
  - destruct (dispatch_device_ctl_bounds [0; 1] driver_mapped PTEDITOR_SET_PAT
      (bytes_of 8 0x7040600070406) windows_machine windows_machine_writable) as [H3 _].
    destruct H3 as [_ H3]; [do 8 right; left|].
    destruct H3 as (r & w' & Hrun & Hs & _); [apply Nat.leb_le; vm_compute; reflexivity
      |vm_compute; reflexivity|].
    exists r, w'. split; [exact Hrun|exact Hs].
Defined.

Lemma set_cr3_undone_witness :
  (16 <= length set_cr3_request)%nat /\
  exists r w', DispatchDeviceCtl [0; 1] driver_mapped PTEDITOR_SET_CR3 set_cr3_request windows_machine
      = Ret r w' /\
    w_cr3 w' = 0x2000 /\ w_invlpg w' = [(1, 4); (0, 4)].
Proof.
  split; [vm_compute; lia|].
  destruct (set_cr3_undone [0; 1] driver_mapped set_cr3_request (mk_eprocess 0x1000 1) windows_machine)
    as (r & w' & H1 & H2 & _ & _ & H3 & _); [vm_compute; lia|reflexivity|vm_compute; reflexivity|].
  exists r, w'. split; [exact H1|]. split; [exact H2|]. rewrite H3. reflexivity.
Defined.

Lemma driver_load_witness :
  exists d', DriverEntry 0 0 (mk_driver (repeat IopInvalidDeviceRequest 28) false false false)
      = Ret 0 d' /\
    MajorFunction d' !! 14%nat = Some DispatchDeviceCtl_fn /\
    MajorFunction d' !! 27%nat = Some IopInvalidDeviceRequest.
Proof.
  destruct (driver_load 0 0 (mk_driver (repeat IopInvalidDeviceRequest 28) false false false)
    eq_refl eq_refl eq_refl) as (status & d' & H & Hs & _ & _ & Hm & _).
  assert (status = 0) as -> by (vm_compute in H; by injection H).
  exists d'. split; [exact H|]. split.
  - rewrite Hm by (vm_compute; lia). reflexivity.
  - rewrite Hm by (vm_compute; lia). reflexivity.
Defined.
