(* ===== verification/Windows.v ===== *)
(** * The library on Windows

    The branches of [ptedit.c] for Windows: the library opens the driver's
    device and sends it requests with [DeviceIoControl]; its only
    implementation of [ptedit_resolve] and [ptedit_update] is the walker, which
    reads and writes physical memory through the driver. *)

From stdpp Require Import base tactics numbers list gmap strings.
From S2P Require Import Prelude Entry Print MemType PhysMem Walk Pte Driver.
Local Open Scope Z_scope.

(** The control codes of [module/pteditor.h]. *)
Module Codes.
Definition PTEDITOR_READ_PAGE : Z := CTL_CODE 0x801 FILE_ANY_ACCESS.
Definition PTEDITOR_WRITE_PAGE : Z := CTL_CODE 0x802 FILE_READ_DATA.
Definition PTEDITOR_GET_CR3 : Z := CTL_CODE 0x803 FILE_ANY_ACCESS.
Definition PTEDITOR_FLUSH_TLB : Z := CTL_CODE 0x804 FILE_ANY_ACCESS.
Definition PTEDITOR_READ_PHYS_VAL : Z := CTL_CODE 0x805 FILE_ANY_ACCESS.
Definition PTEDITOR_WRITE_PHYS_VAL : Z := CTL_CODE 0x806 FILE_ANY_ACCESS.
Definition PTEDITOR_SET_CR3 : Z := CTL_CODE 0x807 FILE_ANY_ACCESS.
Definition PTEDITOR_SET_PAT : Z := CTL_CODE 0x808 FILE_ANY_ACCESS.
Definition PTEDITOR_GET_PAT : Z := CTL_CODE 0x809 FILE_ANY_ACCESS.
End Codes.

(** ** State *)

Definition INVALID_HANDLE_VALUE : Z := -1.

(** [ptedit_resolve] and [ptedit_update] are null until an implementation is
    installed. *)
Inductive pointers := pointers_null | pointers_user.

(** The globals of the library, the open handles of the process, what it has
    written to [stderr], the driver object and the machine. *)
Record client (P : Type) := mk_client {
  ptedit_fd : Z;
  ptedit_umem : Z;
  ptedit_pagesize : Z;
  ptedit_paging_root : Z;
  ptedit_paging_definition : ptedit_paging_definition_t;
  c_pointers : pointers;
  c_handles : list Z;
  c_stderr : list string;
  c_driver : driver_object;
  c_windows : windows P }.
Arguments mk_client {P}.
Arguments ptedit_fd {P} c.
Arguments ptedit_umem {P} c.
Arguments ptedit_pagesize {P} c.
Arguments ptedit_paging_root {P} c.
Arguments ptedit_paging_definition {P} c.
Arguments c_pointers {P} c.
Arguments c_handles {P} c.
Arguments c_stderr {P} c.
Arguments c_driver {P} c.
Arguments c_windows {P} c.

Section setters.
Context {P : Type}.
Definition with_fd v (c : client P) := let 'mk_client _ u p r d i h e o w := c in mk_client v u p r d i h e o w.
Definition with_umem v (c : client P) := let 'mk_client f _ p r d i h e o w := c in mk_client f v p r d i h e o w.
Definition with_pagesize v (c : client P) := let 'mk_client f u _ r d i h e o w := c in mk_client f u v r d i h e o w.
Definition with_root v (c : client P) := let 'mk_client f u p _ d i h e o w := c in mk_client f u p v d i h e o w.
Definition with_definition v (c : client P) := let 'mk_client f u p r _ i h e o w := c in mk_client f u p r v i h e o w.
Definition with_pointers v (c : client P) := let 'mk_client f u p r d _ h e o w := c in mk_client f u p r d v h e o w.
Definition with_handles v (c : client P) := let 'mk_client f u p r d i _ e o w := c in mk_client f u p r d i v e o w.
Definition with_stderr v (c : client P) := let 'mk_client f u p r d i h _ o w := c in mk_client f u p r d i h v o w.
Definition with_windows (v : windows P) (c : client P) : client P := let 'mk_client f u p r d i h e o _ := c in mk_client f u p r d i h e o v.
End setters.

Section windows.
Context {P : Type} `{PhysMem P}.
(** The parameters of [Driver]; the process id of the caller; the page size;
    the handle a process with these handles gets next; the bytes of a buffer of
    this length that the system does not initialise. *)
Variable cpus : list Z.
Variable mapped : Z -> bool.
Variable current_pid dwPageSize : Z.
Variable new_handle : list Z -> Z.
Variable pool : nat -> list Z.
Abbreviation WM := (M (client P)).

(** *** The system *)

(** The driver's object is there when its link and device are. *)
Definition device_exists (d : driver_object) : bool := d_link d && d_device d.

(** [CreateFile] on the device: the system sends [IRP_MJ_CREATE]. *)
Definition CreateFile : WM Z :=
  let* d := gets c_driver in
  if device_exists d &&
     match MajorFunction d !! Z.to_nat IRP_MJ_CREATE with
     | Some DispatchPassThru_fn => NT_SUCCESS (fst (DispatchPassThru IRP_MJ_CREATE))
     | _ => false
     end then
    let* hs := gets c_handles in
    let h := new_handle hs in
    modify (with_handles (h :: hs)) ;;;
    ret h
  else ret INVALID_HANDLE_VALUE.

(** Closing what is no open handle fails and does nothing. *)
Definition CloseHandle (h : Z) : WM unit :=
  let* hs := gets c_handles in
  modify (with_handles (filter (fun x => x <> h) hs)).

(** Running the driver on the machine. *)
Definition driver {A} (m : M (windows P) A) : WM A := fun c =>
  match m (c_windows c) with
  | Ret x w => Ret x (with_windows w c)
  | Sleep w => Sleep (with_windows w c)
  | Undef => Undef
  end.

(** The handler of requests; any other routine refuses the request. *)
Definition dispatch (code : Z) (b : list Z) : WM answer :=
  let* d := gets c_driver in
  match MajorFunction d !! IRP_MJ_DEVICE_CONTROL with
  | Some DispatchDeviceCtl_fn => driver (DispatchDeviceCtl cpus mapped code b)
  | _ => ret (mk_answer STATUS_INVALID_PARAMETER 0 b)
  end.

(** [DeviceIoControl] with a code of [METHOD_BUFFERED]: the system's buffer is as long
    as the longer of the caller's buffers and starts with the input; when the
    request succeeds, as many bytes as the driver says are copied to the
    output, which the call here takes and returns.  The access bits of the
    codes are granted to a handle opened with [GENERIC_ALL]. *)
Definition DeviceIoControl (h code : Z) (input output : list Z) : WM (list Z) :=
  let* hs := gets c_handles in
  if negb (bool_decide (h ∈ hs)) then ret output
  else
    let n := Nat.max (length input) (length output) in
    let* r := dispatch code (input ++ pool (n - length input)) in
    if negb (NT_SUCCESS (a_status r)) then ret output
    else
      let k := Z.to_nat (a_information r) in
      if (k <=? length output)%nat then ret (take k (a_buffer r) ++ drop k output) else undef.

(** *** Requests of the library *)

Definition print_error (s : string) : WM unit :=
  let* e := gets c_stderr in modify (with_stderr (e ++ [s])).
(** The colours are empty here. *)
Definition NO_WINDOWS_SUPPORT (func : string) : WM unit :=
  print_error ("[-]Error: " +:+ func +:+ " not supported on Windows").

(** The request [code], with words as the input and one word as the output. *)
Definition request (code : Z) (input : list Z) (output : Z) : WM Z :=
  let* fd := gets ptedit_fd in
  let* out := DeviceIoControl fd code (concat (map (bytes_of 8) input)) (bytes_of 8 output) in
  ret (word_of out).

Definition ptedit_phys_read_pread (address : Z) : WM Z :=
  request Codes.PTEDITOR_READ_PHYS_VAL [address] 0.

(** A request whose input is its output too; the caller ignores the result. *)
Definition request_in_place (code : Z) (info : list Z) : WM unit :=
  let* fd := gets ptedit_fd in
  let b := concat (map (bytes_of 8) info) in
  let* _ := DeviceIoControl fd code b b in
  ret tt.

Definition ptedit_phys_write_pwrite (address value : Z) : WM unit :=
  request_in_place Codes.PTEDITOR_WRITE_PHYS_VAL [address; value].

Definition ptedit_get_paging_root (pid_ : Z) : WM Z :=
  let pid_ := if pid_ =? 0 then current_pid else pid_ in
  let* cr3 := request Codes.PTEDITOR_GET_CR3 [pid_] 0 in
  ret (Z.land cr3 (wrap64 (Z.lnot 0xfff))).

Definition ptedit_set_paging_root (pid_ root : Z) : WM unit :=
  let pid_ := if pid_ =? 0 then current_pid else pid_ in
  request_in_place Codes.PTEDITOR_SET_CR3 [pid_; root].

Definition ptedit_invalidate_tlb (address : Z) : WM unit :=
  request_in_place Codes.PTEDITOR_FLUSH_TLB [address].

(** It returns no value: a caller that uses one has undefined behaviour. *)
Definition ptedit_switch_tlb_invalidation (implementation : Z) : WM unit :=
  NO_WINDOWS_SUPPORT "ptedit_switch_tlb_invalidation".

Definition ptedit_full_serializing_barrier : WM unit :=
  let* root := ptedit_get_paging_root 0 in
  ptedit_set_paging_root 0 root.

(** [ptedit_get_mts] and [ptedit_set_mts]; both send the code that reads. *)
Definition win_get_mts : WM Z := request Codes.PTEDITOR_GET_PAT [0] 0.
Definition win_set_mts (mts : Z) : WM unit := request_in_place Codes.PTEDITOR_GET_PAT [mts].

#[export] Instance win_mts : MtsOps (client P) := {
  ptedit_get_mts := win_get_mts;
  ptedit_set_mts := win_set_mts }.

(** [SYSTEM_INFO.dwPageSize], as an [int]. *)
Definition ptedit_get_pagesize : WM Z := ret (to_int dwPageSize).

(** The page is read into the caller's buffer of a page. *)
Definition ptedit_read_physical_page (pfn : Z) (buffer : list Z) : WM (list Z) :=
  let* pagesize := gets ptedit_pagesize in
  let* fd := gets ptedit_fd in
  if (length buffer <? PAGE)%nat then undef
  else
    let* b := DeviceIoControl fd Codes.PTEDITOR_READ_PAGE
                (bytes_of 8 (wrap64 (pfn * pagesize))) (take PAGE buffer) in
    ret (b ++ drop PAGE buffer).

Definition ptedit_write_physical_page (pfn : Z) (content : list Z) : WM unit :=
  let* pagesize := gets ptedit_pagesize in
  if negb (pagesize =? 4096) then
    print_error "[-]Error: page sizes other than 4096 not supported on Windows"
  else if (length content <? PAGE)%nat then undef
  else
    let* fd := gets ptedit_fd in
    let page := take PAGE content ++ bytes_of 8 (wrap64 (pfn * pagesize)) in
    let* _ := DeviceIoControl fd Codes.PTEDITOR_WRITE_PAGE page page in
    ret tt.

Definition ptedit_pmap (physical length : Z) : WM Z :=
  NO_WINDOWS_SUPPORT "ptedit_pmap" ;;; ret 0.

(** *** Resolving and updating *)

Definition ptedit_resolve_kernel (address pid_ : Z) : WM ptedit_entry_t :=
  NO_WINDOWS_SUPPORT "ptedit_resolve_kernel" ;;;
  ret (set_pid (wrap64 pid_) (set_vaddr address zero_entry)).

Definition ptedit_update_kernel (address pid_ : Z) (vm : ptedit_entry_t) : WM ptedit_entry_t :=
  NO_WINDOWS_SUPPORT "ptedit_update_kernel" ;;;
  ret (set_pid (wrap64 pid_) (set_vaddr address vm)).

Definition ptedit_resolve_user (address pid_ : Z) : WM ptedit_entry_t :=
  let* d := gets ptedit_paging_definition in
  ptedit_resolve_user_ext X86_64 d (gets ptedit_paging_root) ptedit_get_paging_root
    ptedit_phys_read_pread address pid_.

(** The calls through the pointers. *)
Definition call_resolve (address pid_ : Z) : WM ptedit_entry_t :=
  let* f := gets c_pointers in
  match f with
  | pointers_null => undef
  | pointers_user => ptedit_resolve_user address pid_
  end.

Definition ptedit_update_user (address pid_ : Z) (vm : ptedit_entry_t) : WM ptedit_entry_t :=
  let* d := gets ptedit_paging_definition in
  ptedit_update_user_ext X86_64 d (gets ptedit_paging_root) ptedit_get_paging_root
    call_resolve ptedit_invalidate_tlb ptedit_phys_write_pwrite address pid_ vm ;;;
  ptedit_invalidate_tlb address ;;;
  ret vm.

Definition call_update (address pid_ : Z) (vm : ptedit_entry_t) : WM ptedit_entry_t :=
  let* f := gets c_pointers in
  match f with
  | pointers_null => undef
  | pointers_user => ptedit_update_user address pid_ vm
  end.

#[export] Instance win_pte : PteAccess (client P) := {
  ptedit_resolve := call_resolve;
  ptedit_update := call_update }.

(** *** Initialisation *)

Definition PTEDIT_IMPL_KERNEL : Z := 0.
Definition PTEDIT_IMPL_USER_PREAD : Z := 1.
Definition PTEDIT_IMPL_USER : Z := 2.

Definition ptedit_use_implementation (implementation : Z) : WM unit :=
  if implementation =? PTEDIT_IMPL_KERNEL then
    print_error "[-]Error: PTEditor implementation not supported on Windows"
  else if implementation =? PTEDIT_IMPL_USER_PREAD then
    modify (with_pointers pointers_user) ;;;
    let* root := ptedit_get_paging_root 0 in
    modify (with_root root)
  else if implementation =? PTEDIT_IMPL_USER then
    print_error "[-]Error: PTEditor implementation not supported on Windows"
  else print_error ("[-] Error: PTEditor implementation not supported!" +:+ newline).

Definition ptedit_init : WM Z :=
  let* fd := CreateFile in
  modify (with_fd fd) ;;;
  if fd =? INVALID_HANDLE_VALUE then
    print_error ("[-]Error: Could not open PTEditor device: \\.\PTEditorLink" +:+ newline) ;;;
    ret (-1)
  else
    modify (with_umem 0) ;;;
    ptedit_use_implementation PTEDIT_IMPL_USER_PREAD ;;;
    let* pagesize := ptedit_get_pagesize in
    modify (with_pagesize pagesize) ;;;
    modify (with_definition def_x86) ;;;
    ret 0.

Definition ptedit_cleanup : WM unit :=
  let* fd := gets ptedit_fd in
  CloseHandle fd.
End windows.
