(* ===== verification/WinImpl.v ===== *)
(** * The library on Windows: what its requests do

    The requests of [Windows] answered by [Driver]; the interfaces of the
    walker and of the functions on page-table entries, discharged for the library on Windows;
    and the theorems about initialisation, resolving, updating and the
    requests that have no effect. *)

From stdpp Require Import base tactics numbers list gmap strings.
From S2P Require Import Prelude Entry Print MemType PhysMem Walk Mmu Update Pte Driver Windows.
Local Open Scope Z_scope.

Section impl.
Context {P : Type} `{PhysMemLaws P}.
Variable cpus : list Z.
Variable mapped : Z -> bool.
Variable current_pid dwPageSize : Z.
Variable new_handle : list Z -> Z.
Variable pool : nat -> list Z.
Hypothesis pool_length : forall n, length (pool n) = n.
Implicit Types c : client P.

Lemma with_windows_id c : with_windows (c_windows c) c = c.
Proof. by destruct c. Qed.

Lemma pool_0 : pool 0 = [].
Proof. apply length_zero_iff_nil, pool_length. Qed.

(** The library's handle is open, and the driver that serves it is loaded. *)
Definition connected c : Prop :=
  ptedit_fd c ∈ c_handles c /\
  MajorFunction (c_driver c) !! IRP_MJ_DEVICE_CONTROL = Some DispatchDeviceCtl_fn.

Lemma connected_windows w c : connected c -> connected (with_windows w c).
Proof. by destruct c. Qed.

(** ** Requests *)

(** The system's buffer. *)
Definition system_buffer (input output : list Z) : list Z :=
  input ++ pool (Nat.max (length input) (length output) - length input).

Lemma dio_run code input output r w c : connected c ->
  DispatchDeviceCtl cpus mapped code (system_buffer input output) (c_windows c) = Ret r w ->
  NT_SUCCESS (a_status r) = true -> (Z.to_nat (a_information r) <= length output)%nat ->
  DeviceIoControl cpus mapped pool (ptedit_fd c) code input output c =
    Ret (take (Z.to_nat (a_information r)) (a_buffer r) ++
         drop (Z.to_nat (a_information r)) output) (with_windows w c).
Proof.
  intros [Hh Hm] Hrun Hst Hk. unfold DeviceIoControl. rewrite bind_gets, bool_decide_true by done.
  cbn [negb]. unfold dispatch. rewrite bind_assoc, bind_gets, Hm. fold (system_buffer input output).
  assert (Hd : driver (DispatchDeviceCtl cpus mapped code (system_buffer input output)) c
    = Ret r (with_windows w c)) by (unfold driver; by rewrite Hrun).
  rewrite (bind_Ret _ _ _ _ _ Hd), Hst. cbn [negb].
  by rewrite (proj2 (Nat.leb_le _ _) Hk).
Qed.

(** The words a request is made of. *)
Lemma buffer_words z rest : buffer_word 0 (bytes_of 8 z ++ rest) = Some (wrap64 z).
Proof.
  rewrite buffer_word_Some by (rewrite length_app, length_bytes_of; lia).
  f_equal. change (drop (8 * 0) ?l) with l. rewrite take_app_le by by rewrite length_bytes_of.
  rewrite take_ge by by rewrite length_bytes_of. apply word_of_bytes_of.
Qed.

Lemma buffer_words_1 y z rest :
  buffer_word 1 (bytes_of 8 y ++ bytes_of 8 z ++ rest) = Some (wrap64 z).
Proof.
  pose proof (buffer_words z rest) as Hb. unfold buffer_word in *.
  rewrite !length_app, !length_bytes_of in *. simpl Nat.leb in *.
  by rewrite (drop_app_length' (bytes_of 8 y)) by by rewrite length_bytes_of.
Qed.

Lemma bytes_of_word bs : Forall byte_ok bs -> bytes_of (length bs) (word_of bs) = bs.
Proof.
  induction 1 as [|b bs Hb Hbs IH]; [done|]. cbn [length bytes_of word_of].
  unfold byte_ok in Hb. f_equal.
  - apply Z.bits_inj'. intros i Hi. bits_at.
  - transitivity (bytes_of (length bs) (word_of bs)); [f_equal|exact IH]. apply Z.bits_inj'. intros i Hi. bits_at.
Qed.

(** ** Memory *)

(** A word as the driver reads it: what cannot be read of it stays as it was
    in the system's buffer, which holds the address. *)
#[export] Instance win_walk_mem : WalkMem (client P) := {
  wm_get c p :=
    let bs := default [] (pm_read (w_mem (c_windows c)) p 8) in
    word_of (bs ++ drop (length bs) (bytes_of 8 p));
  wm_put p v c :=
    if mapped p then
      match store64 (w_mem (c_windows c)) p v with
      | Some m => with_windows (with_mem m (c_windows c)) c
      | None => c
      end
    else c;
  wm_writable c p := mapped p = true /\ is_Some (store64 (w_mem (c_windows c)) p 0) }.

Lemma read_length (m : P) p n : (length (default [] (pm_read m p n)) <= n)%nat.
Proof. destruct (pm_read m p n) as [bs|] eqn:E; simpl; [by apply (pm_read_ok _ _ _ _ E)|lia]. Qed.

(** A request of one word that answers with one. *)
Lemma request_word_run code z b w c : connected c ->
  DispatchDeviceCtl cpus mapped code (bytes_of 8 z) (c_windows c) =
    Ret (mk_answer STATUS_SUCCESS 8 b) w -> length b = 8%nat ->
  request cpus mapped pool code [z] 0 c = Ret (word_of b) (with_windows w c).
Proof.
  intros Hc Hrun Hl. unfold request. rewrite bind_gets. cbn [map concat]. rewrite app_nil_r.
  assert (Hb : system_buffer (bytes_of 8 z) (bytes_of 8 0) = bytes_of 8 z).
  { unfold system_buffer. rewrite !length_bytes_of, Nat.max_id, Nat.sub_diag, pool_0. apply app_nil_r. }
  rewrite <- Hb in Hrun.
  rewrite (bind_Ret _ _ _ _ _ (dio_run _ _ _ _ _ _ Hc Hrun eq_refl
    (eq_ind_r (fun n => (Z.to_nat 8 <= n)%nat) (le_n 8) (length_bytes_of 8 0)))).
  unfold ret. cbn [a_information a_buffer]. do 2 f_equal.
  change (Z.to_nat 8) with 8%nat. rewrite (take_ge b) by lia. rewrite drop_ge by (simpl; lia). apply app_nil_r.
Qed.

Lemma win_phys_read_run p c : connected c -> u64 p ->
  ptedit_phys_read_pread cpus mapped pool p c = Ret (wm_get c p) c.
Proof.
  intros Hc Hp. pose proof (read_length (w_mem (c_windows c)) p 8) as Hl.
  rewrite <- (with_windows_id c) at 3. apply request_word_run; [done| |].
  - change (DispatchDeviceCtl _ _ _ ?b) with (case_read_phys_val b).
    unfold case_read_phys_val, copy_physical. rewrite <- (app_nil_r (bytes_of 8 p)) at 1.
    rewrite buffer_words, wrap64_id by done. cbn [defined].
    rewrite bind_ret_l, bind_assoc, bind_gets. unfold buffer_write.
    by rewrite (proj2 (Nat.leb_le _ _)) by by rewrite length_bytes_of.
  - rewrite length_app, length_drop, length_bytes_of. lia.
Qed.

Lemma system_buffer_same (b : list Z) : system_buffer b b = b.
Proof. unfold system_buffer. rewrite Nat.max_id, Nat.sub_diag, pool_0. apply app_nil_r. Qed.

Lemma in_place_run code info r w c : connected c ->
  DispatchDeviceCtl cpus mapped code (concat (map (bytes_of 8) info)) (c_windows c) = Ret r w ->
  NT_SUCCESS (a_status r) = true -> 
  (Z.to_nat (a_information r) <= length (concat (map (bytes_of 8) info)))%nat ->
  request_in_place cpus mapped pool code info c = Ret tt (with_windows w c).
Proof.
  intros Hc Hrun Hst Hi. unfold request_in_place. rewrite bind_gets.
  set (b := concat (map (bytes_of 8) info)) in *.
  rewrite <- (system_buffer_same b) in Hrun. by rewrite (bind_Ret _ _ _ _ _ (dio_run _ _ _ _ _ _ Hc Hrun Hst Hi)).
Qed.

Lemma bytes_of_wrap64 v : bytes_of 8 (wrap64 v) = bytes_of 8 v.
Proof.
  pose proof (bytes_of_word (bytes_of 8 v) (bytes_of_ok 8 v)) as Hb.
  by rewrite length_bytes_of, word_of_bytes_of in Hb.
Qed.

Lemma win_phys_write_run p v c : connected c -> mapped_writable mapped (c_windows c) -> u64 p ->
  ptedit_phys_write_pwrite cpus mapped pool p v c = Ret tt (wm_put p v c).
Proof.
  intros Hc mw Hp. unfold ptedit_phys_write_pwrite.
  set (w := if mapped p then match store64 (w_mem (c_windows c)) p v with
            | Some m => with_mem m (c_windows c) | None => c_windows c end else c_windows c).
  rewrite (in_place_run _ _ (mk_answer STATUS_SUCCESS 0 (concat (map (bytes_of 8) [p; v]))) w);
    try done; [| |simpl; lia].
  - f_equal. unfold w. simpl. destruct (mapped p); [|by rewrite with_windows_id].
    destruct (store64 _ p v); [done|by rewrite with_windows_id].
  - change (DispatchDeviceCtl _ _ _ ?b) with (case_write_phys_val mapped b).
    cbn [map concat]. unfold case_write_phys_val.
    rewrite buffer_words_1. cbn [defined]. rewrite bind_ret_l, buffer_words. cbn [defined].
    rewrite bind_ret_l, bytes_of_wrap64, wrap64_id by done. unfold write_mapped, w.
    destruct (mapped p) eqn:E; [|done].
    destruct (mw p (bytes_of 8 v) E) as [m Hm]; [by rewrite length_bytes_of; unfold PAGE; lia|].
    unfold store64. by rewrite bind_assoc, bind_gets, Hm.
Qed.

#[export] Instance win_walk_mem_laws : WalkMemLaws (client P).
Proof.
  split.
  - intros p v c Hv [Hm Hst]. simpl. rewrite Hm.
    destruct (store64 (w_mem (c_windows c)) p v) as [m|] eqn:E.
    + destruct c as [? ? ? ? ? ? ? ? ? w]. simpl in *.
      pose proof (pm_read_written _ _ _ _ (bytes_of_ok 8 v) E) as Hr.
      rewrite length_bytes_of in Hr. rewrite Hr. change (default [] (Some ?l)) with l. rewrite length_bytes_of.
      rewrite drop_ge by (simpl; lia). rewrite app_nil_r.
      by apply word_of_bytes_of_u64.
    + apply (store64_any _ _ 0 v) in Hst as [? Hs]. by rewrite E in Hs.
  - intros p v c q Hd. simpl. destruct (mapped p); [|done].
    destruct (store64 (w_mem (c_windows c)) p v) as [m|] eqn:E; [|done].
    destruct c as [? ? ? ? ? ? ? ? ? w]. simpl in *.
    by rewrite (pm_read_elsewhere _ _ _ _ q 8 E) by by rewrite length_bytes_of.
  - intros p v c q. simpl. destruct (mapped p); [|done].
    destruct (store64 (w_mem (c_windows c)) p v) as [m|] eqn:E; [|done].
    destruct c as [? ? ? ? ? ? ? ? ? w]. simpl in *.
    by rewrite (store64_writable _ _ _ _ _ 0 0 E).
Qed.

(** ** Invalidating, and the roots of paging *)

Definition invalidated (addr : Z) (w : windows P) : windows P :=
  with_invlpg (rev (map (fun cpu => (cpu, addr)) cpus) ++ w_invlpg w)%list w.

Lemma case_flush_run b addr (w : windows P) : buffer_word 0 b = Some addr ->
  case_flush_tlb cpus b w = Ret (mk_answer STATUS_SUCCESS 0 b) (invalidated addr w).
Proof.
  intros Hb. unfold case_flush_tlb. rewrite Hb. cbn [defined]. rewrite bind_ret_l.
  by rewrite (bind_Ret _ _ _ _ _ (flush_run cpus addr w)).
Qed.

Lemma win_invalidate_run addr c : connected c -> ptedit_invalidate_tlb cpus mapped pool addr c =
  Ret tt (with_windows (invalidated (wrap64 addr) (c_windows c)) c).
Proof.
  intros Hc. eapply in_place_run; [done|..].
  - change (DispatchDeviceCtl _ _ _ ?b) with (case_flush_tlb (P := P) cpus b).
    apply case_flush_run. apply buffer_words.
  - done.
  - simpl; lia.
Qed.

(** The process a call is about, and its reference the driver keeps. *)
Definition pid_of (pid : Z) : Z := if pid =? 0 then current_pid else pid.
Definition looked_up (pid : Z) (w : windows P) : windows P :=
  match w_processes w !! pid with Some p => acquired pid p w | None => w end.
Definition directory (pid : Z) (w : windows P) : Z :=
  match w_processes w !! pid with Some p => wrap64 (DirectoryTableBase p) | None => 0 end.
(** The root that [ptedit_get_paging_root] makes of a CR3. *)
Definition root_of (cr3 : Z) : Z := Z.land cr3 (wrap64 (Z.lnot 0xfff)).

Lemma request_pid_words pid rest : u64 pid -> request_pid (bytes_of 8 pid ++ rest) = pid.
Proof.
  intros Hp. pose proof (buffer_words pid rest) as Hb. rewrite wrap64_id in Hb by done.
  rewrite buffer_word_Some in Hb by (rewrite length_app, length_bytes_of; lia).
  by injection Hb.
Qed.

Lemma win_get_root_run pid c : connected c -> u64 (pid_of pid) ->
  ptedit_get_paging_root cpus mapped current_pid pool pid c =
    Ret (root_of (directory (pid_of pid) (c_windows c)))
      (with_windows (looked_up (pid_of pid) (c_windows c)) c).
Proof.
  intros Hc Hp. unfold ptedit_get_paging_root. fold (pid_of pid).
  destruct (get_cr3_run (bytes_of 8 (pid_of pid)) (c_windows c)) as (b & Hrun & Hl & Ht);
    [rewrite length_bytes_of; lia|].
  pose proof (request_pid_words (pid_of pid) [] Hp) as Hpid. rewrite app_nil_r in Hpid.
  rewrite Hpid in Hrun, Ht. rewrite length_bytes_of in Hl. rewrite take_ge in Ht by lia.
  rewrite (bind_Ret _ _ _ _ _ (request_word_run PTEDITOR_GET_CR3 _ _ _ _ Hc Hrun Hl)).
  rewrite Ht, word_of_bytes_of. unfold root_of, directory, looked_up.
  by destruct (w_processes (c_windows c) !! pid_of pid).
Qed.

Lemma win_set_root_run pid root c : connected c -> u64 (pid_of pid) ->
  cr3_ok (w_cr3_reserved (c_windows c)) (wrap64 root) = true ->
  ptedit_set_paging_root cpus mapped current_pid pool pid root c =
    Ret tt (with_windows (invalidated (pid_of pid) (looked_up (pid_of pid) (c_windows c))) c).
Proof.
  intros Hc Hp Hok. unfold ptedit_set_paging_root. fold (pid_of pid).
  set (b := bytes_of 8 (pid_of pid) ++ bytes_of 8 root ++ []).
  eapply (in_place_run _ _ (mk_answer STATUS_SUCCESS 0 b)); [done| |done|simpl; lia].
  change (concat (map (bytes_of 8) [pid_of pid; root])) with b.
  change (DispatchDeviceCtl _ _ _ b) with (case_set_cr3 (P := P) cpus b).
  assert (Hl : length b = 16%nat) by (unfold b; by rewrite !length_app, !length_bytes_of).
  assert (Hpid : request_pid b = pid_of pid) by by apply request_pid_words.
  assert (Hroot : request_root b = wrap64 root).
  { unfold request_root, b. rewrite app_nil_r, drop_app_length' by by rewrite length_bytes_of.
    rewrite take_ge by by rewrite length_bytes_of. apply word_of_bytes_of. }
  assert (Hw : buffer_word 0 b = Some (pid_of pid)) by (unfold b; by rewrite buffer_words, wrap64_id).
  unfold looked_up. destruct (w_processes (c_windows c) !! pid_of pid) as [p|] eqn:E.
  - rewrite (set_cr3_run cpus b (c_windows c) p) by (lia || by rewrite ?Hpid, ?Hroot).
    rewrite Hpid. by apply case_flush_run.
  - unfold case_set_cr3. rewrite Hw. cbn [defined]. rewrite bind_ret_l.
    unfold bind at 1. rewrite lookup_process_run, E, bind_ret_l. by apply case_flush_run.
Qed.

(** ** Resolving and updating *)

Definition own_root c : Z := Z.land (ptedit_paging_root c) (wrap64 (Z.lnot 1)).

(** The library is initialised; [r] is the root of the own process. *)
Definition user_mode (r : Z) c : Prop :=
  connected c /\ mapped_writable mapped (c_windows c) /\ own_root c = r /\
  c_pointers c = pointers_user /\ ptedit_paging_definition c = def_x86.

Lemma user_mode_windows r w c : mapped_writable mapped w -> user_mode r c ->
  user_mode r (with_windows w c).
Proof. intros Hw (Hc & _ & Hrest). split; [by apply connected_windows|]. by destruct c. Qed.

Lemma mapped_writable_mem m p v (w : windows P) : store64 (w_mem w) p v = Some m ->
  mapped_writable mapped w -> mapped_writable mapped (with_mem m w).
Proof. intros Hst mw pa bs Hpa Hl. cbn [w_mem with_mem]. eapply (pm_writable _ _ _ _ pa bs bs Hst); auto. Qed.

Lemma win_user_mode_put r p v c : user_mode r c -> user_mode r (wm_put p v c).
Proof.
  intros Hc. simpl. destruct (mapped p); [|done].
  destruct (store64 (w_mem (c_windows c)) p v) as [m|] eqn:E; [|done].
  apply user_mode_windows; [|done]. eapply mapped_writable_mem; [exact E|]. apply Hc.
Qed.

Lemma win_user_mode_invalidate r addr c : user_mode r c -> exists c',
  ptedit_invalidate_tlb cpus mapped pool addr c = Ret tt c' /\ user_mode r c' /\
  forall p, wm_get c' p = wm_get c p.
Proof.
  intros Hc. eexists. split; [apply win_invalidate_run, Hc|]. split.
  - apply user_mode_windows; [apply Hc|done].
  - by destruct c.
Qed.

Definition get_root := ptedit_get_paging_root cpus mapped current_pid pool.
Definition win_resolve : Z -> Z -> M (client P) ptedit_entry_t :=
  resolve X86_64 def_x86 (ptedit_phys_read_pread cpus mapped pool) (gets ptedit_paging_root) get_root.
Definition win_update : Z -> Z -> ptedit_entry_t -> M (client P) unit :=
  update X86_64 def_x86 (ptedit_phys_read_pread cpus mapped pool)
    (ptedit_phys_write_pwrite cpus mapped pool) (gets ptedit_paging_root) get_root
    (ptedit_invalidate_tlb cpus mapped pool).

Lemma call_resolve_win r addr pid c : user_mode r c ->
  call_resolve cpus mapped current_pid pool addr pid c = win_resolve addr pid c.
Proof.
  intros (_ & _ & _ & Hp & Hd). unfold call_resolve. rewrite bind_gets, Hp.
  unfold ptedit_resolve_user. by rewrite bind_gets, Hd.
Qed.

Lemma call_update_win r addr pid vm c : user_mode r c ->
  call_update cpus mapped current_pid pool addr pid vm c =
    (win_update addr pid vm ;;; ptedit_invalidate_tlb cpus mapped pool addr ;;; ret vm) c.
Proof.
  intros Hc. pose proof (call_resolve_win r addr pid c Hc) as Hres.
  destruct Hc as (_ & _ & _ & Hp & Hd). unfold call_update. rewrite bind_gets, Hp.
  unfold ptedit_update_user. rewrite bind_gets, Hd.
  unfold win_update, update, ptedit_update_user_ext. unfold bind at 1. unfold bind at 1.
  rewrite Hres. unfold bind at 4. by unfold bind at 4.
Qed.

Definition user_entry c (addr : Z) : ptedit_entry_t :=
  resolve_fun X86_64 def_x86 (wm_get c) addr 0 (own_root c).
Definition user_slot c (lv : level) (addr : Z) : Z :=
  slot_of X86_64 def_x86 (own_root c) lv addr (user_entry c addr).

Record user_ready c (addr pid : Z) : Prop := {
  ur_pid : pid = 0;
  ur_mode : user_mode (own_root c) c;
  ur_valid : level_valid PTE (user_entry c addr) = true;
  ur_u64 : u64 (pte (user_entry c addr));
  ur_writable : wm_writable c (user_slot c PTE addr);
  ur_disjoint lv : level_valid lv (user_entry c addr) = true -> lv <> PTE ->
    disjoint_ranges (user_slot c PTE addr) 8 (user_slot c lv addr) 8 }.

Lemma win_user_mode_root r c : user_mode r c ->
  walk_root (gets ptedit_paging_root) get_root 0 c = Ret r c.
Proof. intros (_ & _ & <- & _). done. Qed.

Lemma resolve_run addr c : user_mode (own_root c) c ->
  call_resolve cpus mapped current_pid pool addr 0 c = Ret (user_entry c addr) c.
Proof.
  intros Hc. rewrite (call_resolve_win (own_root c)) by done.
  by apply (resolve_ready X86_64 def_x86 (ptedit_phys_read_pread cpus mapped pool)
    (gets ptedit_paging_root) get_root 0 (own_root c) (user_mode (own_root c))
    (fun c p Hc Hp => win_phys_read_run p c (proj1 Hc) Hp) (win_user_mode_root (own_root c))).
Qed.

Lemma update_run addr vm c : user_ready c addr 0 -> valid vm = PTEDIT_VALID_MASK_PTE ->
  u64 (pte vm) -> exists c', call_update cpus mapped current_pid pool addr 0 vm c = Ret vm c' /\
    user_ready c' addr 0 /\ user_entry c' addr = set_pte (pte vm) (user_entry c addr) /\
    forall q, disjoint_ranges (user_slot c PTE addr) 8 q 8 -> wm_get c' q = wm_get c q.
Proof.
  intros [_ Hmode Hval Hu64 Hw Hd] Hv Hpte.
  set (r := own_root c) in *. set (slot := user_slot c PTE addr) in *.
  set (ready := fun c => user_mode r c /\ wm_writable c slot).
  assert (Hinv : forall c addr, ready c -> exists c',
    ptedit_invalidate_tlb cpus mapped pool addr c = Ret tt c' /\ ready c' /\
    forall p, wm_get c' p = wm_get c p).
  { intros c0 addr0 [Hm Hw0]. pose proof (win_invalidate_run addr0 c0 (proj1 Hm)) as Hrun.
    eexists. split; [exact Hrun|]. split; [|by destruct c0]. split; [|by destruct c0].
    apply user_mode_windows; [apply Hm|done]. }
  assert (Hput : forall c p v, ready c -> ready (wm_put p v c)).
  { intros c0 p v [Hm Hw0]. split; [by apply win_user_mode_put|]. by apply wm_put_writable. }
  destruct (update_twice_run X86_64 def_x86 (ptedit_phys_read_pread cpus mapped pool)
    (ptedit_phys_write_pwrite cpus mapped pool) (gets ptedit_paging_root) get_root
    (ptedit_invalidate_tlb cpus mapped pool) 0 r ready eq_refl
    (fun c p Hc Hp => win_phys_read_run p c (proj1 (proj1 Hc)) Hp)
    (fun c p v Hc Hp => win_phys_write_run p v c (proj1 (proj1 Hc)) (proj1 (proj2 (proj1 Hc))) Hp) Hput
    (fun c Hc => win_user_mode_root r c (proj1 Hc)) Hinv addr vm c)
    as (c' & Hrun & Hready & Hentry & Hsame); try done.
  assert (Hroot : own_root c' = r) by apply Hready.
  assert (Hentry' : user_entry c' addr = set_pte (pte vm) (user_entry c addr))
    by (unfold user_entry at 1; by rewrite Hroot).
  assert (Hslots : forall lv, user_slot c' lv addr = user_slot c lv addr).
  { intros lv. unfold user_slot. rewrite Hentry', Hroot. by destruct lv. }
  exists c'. split; [by rewrite (call_update_win r)|]. split; [|done].
  split; rewrite ?Hroot, ?Hentry', ?Hslots; try done; [apply Hready..|].
  intros lv. rewrite !Hslots. apply Hd.
Qed.

(** The functions of [Pte] work on Windows as they do elsewhere. *)
#[export, refine] Instance win_pte_laws :
    PteLaws (H := win_pte cpus mapped current_pid pool) (client P) := {
  pte_ready := user_ready;
  pte_entry c addr _ := user_entry c addr;
  pte_ok _ := True }.
Proof.
  - intros c addr pid [-> Hc _ _ _ _]. by apply resolve_run.
  - intros c addr pid [_ _ Hv Hu _ _]. done.
  - intros c addr pid vm Hc Hv Hpte _ _ _. pose proof (ur_pid _ _ _ Hc) as ->.
    destruct (update_run addr vm c Hc Hv Hpte) as (c' & Hrun & Hr & He & _).
    by exists vm, c'.
  - intros c addr pid _. unfold user_entry, resolve_fun. by repeat case_match.
Defined.

(** ** Initialisation *)

(** What initialisation leaves behind when the device is there. *)
Definition initialised c : client P :=
  let h := new_handle (c_handles c) in
  let w := c_windows c in
  mk_client h 0 (to_int dwPageSize) (root_of (directory current_pid w)) def_x86 pointers_user
    (h :: c_handles c) (c_stderr c) (c_driver c) (looked_up current_pid w).

(** A device of a loaded driver. *)
Definition device_ready (d : driver_object) : Prop :=
  device_exists d = true /\
  MajorFunction d !! Z.to_nat IRP_MJ_CREATE = Some DispatchPassThru_fn /\
  MajorFunction d !! IRP_MJ_DEVICE_CONTROL = Some DispatchDeviceCtl_fn.

Lemma win_init_run c : device_ready (c_driver c) -> u64 current_pid ->
  new_handle (c_handles c) <> INVALID_HANDLE_VALUE ->
  ptedit_init cpus mapped current_pid dwPageSize new_handle pool c = Ret 0 (initialised c) /\
  connected (initialised c).
Proof.
  intros (Hdev & Hcreate & Hctl) Hpid Hh. split; [|split; [by left|done]].
  unfold ptedit_init, CreateFile. rewrite bind_assoc, bind_gets, Hdev, Hcreate. cbn [andb].
  change (NT_SUCCESS (fst (DispatchPassThru IRP_MJ_CREATE))) with true. cbv iota.
  rewrite bind_assoc, bind_gets, bind_assoc, bind_modify, bind_ret_l, bind_modify.
  apply Z.eqb_neq in Hh. rewrite Hh, bind_modify.
  change (ptedit_use_implementation _ _ _ _ PTEDIT_IMPL_USER_PREAD) with
    (modify (with_pointers pointers_user) ;;;
     let* root := ptedit_get_paging_root cpus mapped current_pid pool 0 in
     modify (with_root root)).
  rewrite !bind_assoc, bind_modify.
  set (c1 := with_pointers _ _). destruct c as [f u p r d i hs e o w].
  assert (Hc1 : connected c1) by (split; [by left|done]).
  pose proof (win_get_root_run 0 c1 Hc1 Hpid) as Hroot.
  change (pid_of 0) with current_pid in Hroot. cbn [c_windows] in Hroot.
  rewrite bind_assoc. rewrite (bind_Ret _ _ _ _ _ Hroot), bind_modify.
  unfold ptedit_get_pagesize. by rewrite bind_ret_l, !bind_modify.
Qed.
End impl.
