(* ===== verification/WinProps.v ===== *)
(** * The library on Windows: theorems

    What a program that uses the library on Windows gets: translations,
    physical pages, and which requests do nothing. *)

From stdpp Require Import base tactics numbers list gmap strings.
From S2P Require Import Prelude Entry Print MemType PhysMem Walk Mmu Update Pte Driver Windows WinImpl.
Local Open Scope Z_scope.

Section theorems.
Context {P : Type} `{PhysMemLaws P}.
Variable cpus : list Z.
Variable mapped : Z -> bool.
Variable current_pid dwPageSize : Z.
Variable new_handle : list Z -> Z.
Variable pool : nat -> list Z.
Hypothesis pool_length : forall n, length (pool n) = n.
Implicit Types c : client P.

Abbreviation init := (ptedit_init cpus mapped current_pid dwPageSize new_handle pool).
Abbreviation resolve := (call_resolve cpus mapped current_pid pool).
Abbreviation update := (call_update cpus mapped current_pid pool).

(** ** Translations *)

Definition memory c (p : Z) : Z := default 0 (load64 (w_mem (c_windows c)) p).
(** The word at an address can be read. *)
Definition readable c (p : Z) : Prop :=
  exists bs, pm_read (w_mem (c_windows c)) p 8 = Some bs /\ length bs = 8%nat.

Lemma read_readable c p : readable c p -> wm_get (WalkMem := win_walk_mem mapped) c p = memory c p.
Proof.
  intros (bs & Hr & Hl). simpl wm_get. unfold memory, load64. rewrite Hr.
  change (default [] (Some bs)) with bs. rewrite drop_ge by (rewrite Hl; simpl; lia).
  by rewrite app_nil_r.
Qed.

Lemma root_of_even cr3 : Z.land (root_of cr3) (wrap64 (Z.lnot 1)) = root_of cr3.
Proof.
  unfold root_of. rewrite <- Z.land_assoc. f_equal.
Qed.

Lemma loaded_device create_device create_link d0 status d :
  DriverEntry create_device create_link d0 = Ret status d -> NT_SUCCESS status = true ->
  length (MajorFunction d0) = S IRP_MJ_MAXIMUM_FUNCTION -> d_device d0 = false -> d_link d0 = false ->
  device_ready d.
Proof.
  intros Hrun Hs Hl Hd Hk.
  destruct (driver_load create_device create_link d0 Hl Hd Hk)
    as (st & d' & Hrun' & _ & Hdev & Hlink & Hm & _).
  rewrite Hrun in Hrun'. injection Hrun' as <- <-. rewrite Hs in Hdev, Hlink.
  unfold device_ready, device_exists. rewrite Hdev, Hlink. split; [done|].
  rewrite !Hm, Hs by (vm_compute; lia). done.
Qed.

(** C37: once the driver is loaded, a program on Windows that initialises the
    library and resolves one of its addresses gets entries that describe the
    physical address the processor translates it to, by its own page tables,
    provided that the tables can be read, that no 1 GB page maps the address,
    and that physical memory is at most 2^40 bytes. *)
Theorem windows_resolve_translates create_device create_link d0 status p addr c :
  DriverEntry create_device create_link d0 = Ret status (c_driver c) -> NT_SUCCESS status = true ->
  length (MajorFunction d0) = S IRP_MJ_MAXIMUM_FUNCTION -> d_device d0 = false -> d_link d0 = false ->
  u64 current_pid -> new_handle (c_handles c) <> INVALID_HANDLE_VALUE ->
  w_processes (c_windows c) !! current_pid = Some p ->
  let root := root_of (wrap64 (DirectoryTableBase p)) in
  0 < root < 2 ^ 52 ->
  Forall (readable c) (walk_reads X86_64 def_x86 (memory c) addr root) ->
  (forall l, reached (memory c) root addr l = true -> small_frame (mmu_entry (memory c) root addr l)) ->
  reached (memory c) root addr PMD && Z.testbit (mmu_entry (memory c) root addr PUD) 7 = false ->
  exists e c', init c = Ret 0 c' /\ resolve addr 0 c' = Ret e c' /\
    w_mem (c_windows c') = w_mem (c_windows c) /\
    entry_physical e = x86_mmu (memory c) root addr.
Proof.
  intros Hload Hst Hl Hdv Hlk Hpid Hh Hp root Hroot Hread Hframe Hlarge.
  pose proof (loaded_device _ _ _ _ _ Hload Hst Hl Hdv Hlk) as Hdev.
  destruct (win_init_run cpus mapped current_pid dwPageSize new_handle pool pool_length c Hdev Hpid Hh)
    as [Hinit Hc].
  set (c' := initialised current_pid dwPageSize new_handle c) in *.
  assert (Hmem : w_mem (c_windows c') = w_mem (c_windows c)) by (simpl; unfold looked_up; by rewrite Hp).
  assert (Hown : own_root c' = root)
    by (unfold own_root; simpl; unfold directory; rewrite Hp; apply root_of_even).
  exists (resolve_fun X86_64 def_x86 (memory c) addr 0 root), c'. split; [done|].
  split; [|split; [done|by apply (result_physical (memory c) root addr 0 Hroot)]].
  unfold call_resolve, ptedit_resolve_user, ptedit_resolve_user_ext.
  rewrite bind_gets. change (c_pointers c') with pointers_user. cbv iota. rewrite bind_gets.
  change (ptedit_paging_definition c') with def_x86.
  assert (Hwr : walk_root (gets ptedit_paging_root)
    (ptedit_get_paging_root cpus mapped current_pid pool) 0 c' = Ret root c') by by rewrite <- Hown.
  rewrite (bind_Ret _ _ _ _ _ Hwr). apply resolve_from_root_fun.
  pose proof (walk_reads_u64 X86_64 def_x86 (memory c) addr root) as Hu64.
  rewrite Forall_forall in Hread, Hu64. apply Forall_forall. intros q Hq.
  apply Hu64 in Hq as Hqu. apply Hread in Hq. rewrite (win_phys_read_run _ mapped) by done. f_equal.
  rewrite read_readable; unfold memory, readable; by rewrite Hmem.
Qed.

(** ** Physical pages *)

Lemma system_page_buffer pa (buffer : list Z) : length buffer = PAGE ->
  system_buffer pool (bytes_of 8 pa) buffer = bytes_of 8 pa ++ pool (PAGE - 8).
Proof.
  intros Hl. unfold system_buffer. rewrite Hl, length_bytes_of. by rewrite Nat.max_r by (vm_compute; lia).
Qed.

Lemma page_buffer_length pa : length (bytes_of 8 pa ++ pool (PAGE - 8)) = PAGE.
Proof. rewrite length_app, length_bytes_of, pool_length. vm_compute. lia. Qed.

Lemma read_page_runs pfn buffer c : connected c -> length buffer = PAGE ->
  let pa := wrap64 (pfn * ptedit_pagesize c) in
  let bs := default [] (pm_read (w_mem (c_windows c)) pa PAGE) in
  (length bs = PAGE \/ bs = []) ->
  ptedit_read_physical_page cpus mapped pool pfn buffer c =
    Ret (bs ++ drop (length bs) (bytes_of 8 pa ++ pool (PAGE - 8))) c.
Proof.
  intros Hc Hl pa bs Hlen. unfold ptedit_read_physical_page. rewrite !bind_gets. fold pa.
  rewrite (proj2 (Nat.ltb_ge _ _)) by lia. rewrite (take_ge buffer), (drop_ge buffer) by lia.
  pose proof (page_buffer_length pa) as Hpl. pose proof (system_page_buffer pa buffer Hl) as Hsb.
  set (out := bs ++ drop (length bs) (bytes_of 8 pa ++ pool (PAGE - 8))).
  assert (Hout : length out = PAGE).
  { unfold out. rewrite length_app, length_drop, Hpl. destruct Hlen as [->| ->]; simpl length; lia. }
  assert (Hd : DispatchDeviceCtl cpus mapped PTEDITOR_READ_PAGE
    (system_buffer pool (bytes_of 8 pa) buffer) (c_windows c) =
    Ret (mk_answer STATUS_SUCCESS 4096 out) (c_windows c)).
  { rewrite Hsb. change (DispatchDeviceCtl _ _ _ ?b) with (case_read_page b).
    unfold case_read_page, copy_physical. rewrite buffer_words, wrap64_id by apply u64_wrap64.
    cbn [defined]. rewrite bind_ret_l, bind_assoc, bind_gets. fold bs. unfold buffer_write.
    by rewrite (proj2 (Nat.leb_le _ _)) by lia. }
  rewrite (bind_Ret _ _ _ _ _ (dio_run _ _ _ _ _ _ _ _ _ Hc Hd eq_refl
    (eq_ind_r (fun n => (PAGE <= n)%nat) (le_n _) Hl))).
  rewrite with_windows_id. unfold ret. cbn [a_information a_buffer].
  change (Z.to_nat 4096) with PAGE. rewrite (take_ge out), (drop_ge buffer) by lia.
  by rewrite !app_nil_r.
Qed.

Lemma win_read_page_run pfn buffer c bs : connected c -> length buffer = PAGE ->
  pm_read (w_mem (c_windows c)) (wrap64 (pfn * ptedit_pagesize c)) PAGE = Some bs ->
  length bs = PAGE ->
  ptedit_read_physical_page cpus mapped pool pfn buffer c = Ret bs c.
Proof.
  intros Hc Hl Hr Hbl. rewrite read_page_runs by (done || (rewrite Hr; by left)). rewrite Hr.
  change (default [] (Some bs)) with bs.
  rewrite drop_ge by (rewrite page_buffer_length; lia). by rewrite app_nil_r.
Qed.

(** C35: on Windows a page that can be read is read; but the driver ignores the
    status of the copy and always answers with a full page: for a page that
    cannot be read, the caller gets the address it asked for and 4088 bytes
    of the system's memory that nothing has initialised. *)
Theorem windows_read_page pfn buffer c : connected c -> length buffer = PAGE ->
  let pa := wrap64 (pfn * ptedit_pagesize c) in
  (forall bs, pm_read (w_mem (c_windows c)) pa PAGE = Some bs -> length bs = PAGE ->
     ptedit_read_physical_page cpus mapped pool pfn buffer c = Ret bs c) /\
  (pm_read (w_mem (c_windows c)) pa PAGE = None ->
     ptedit_read_physical_page cpus mapped pool pfn buffer c =
       Ret (bytes_of 8 pa ++ pool (PAGE - 8)) c).
Proof.
  intros Hc Hl pa. split.
  - intros bs. by apply win_read_page_run.
  - intros Hr. fold pa in Hr. rewrite read_page_runs by (done || (fold pa; rewrite Hr; by right)).
    fold pa. by rewrite Hr.
Qed.

Lemma content_paddr_words (page : list Z) pa : length page = PAGE ->
  content_paddr (page ++ bytes_of 8 pa) = Some (wrap64 pa).
Proof.
  intros Hl. unfold content_paddr. rewrite length_app, length_bytes_of, Hl, Nat.leb_refl.
  f_equal. rewrite <- Hl, drop_app_length, take_ge by by rewrite length_bytes_of.
  apply word_of_bytes_of.
Qed.

(** A page that is written, if the system has a virtual address for it. *)
Lemma win_write_page_run pfn content c : connected c -> ptedit_pagesize c = 4096 ->
  mapped_writable mapped (c_windows c) -> length content = PAGE ->
  let pa := wrap64 (pfn * 4096) in
  exists c', ptedit_write_physical_page cpus mapped pool pfn content c = Ret tt c' /\ connected c' /\
    ptedit_pagesize c' = 4096 /\
    if mapped pa
    then pm_write (w_mem (c_windows c)) pa content = Some (w_mem (c_windows c'))
    else c' = c.
Proof.
  intros Hc Hps mw Hl pa. unfold ptedit_write_physical_page. rewrite bind_gets, Hps.
  change (negb (4096 =? 4096)) with false. cbv iota.
  rewrite (proj2 (Nat.ltb_ge _ _)) by lia. rewrite bind_gets, take_ge by lia. fold pa.
  set (page := content ++ bytes_of 8 pa). cbv zeta.
  assert (Hpa : content_paddr page = Some pa)
    by (unfold page; rewrite content_paddr_words by done; by rewrite wrap64_id by apply u64_wrap64).
  assert (Hd : exists w, DispatchDeviceCtl cpus mapped PTEDITOR_WRITE_PAGE
    (system_buffer pool page page) (c_windows c) = Ret (mk_answer STATUS_SUCCESS 0 page) w /\
    if mapped pa then pm_write (w_mem (c_windows c)) pa content = Some (w_mem w) else w = c_windows c).
  { rewrite (system_buffer_same pool pool_length).
    change (DispatchDeviceCtl _ _ _ ?b) with (case_write_page mapped b).
    unfold case_write_page. rewrite Hpa. cbn [defined]. rewrite bind_ret_l.
    unfold page at 1 3. rewrite <- Hl, take_app_length. unfold write_mapped.
    destruct (mapped pa) eqn:E; [|by eexists].
    destruct (mw pa content E) as [m Hm]; [by rewrite Hl|].
    rewrite bind_assoc, bind_gets, Hm. by eexists. }
  destruct Hd as (w & Hd & Hw).
  rewrite (bind_Ret _ _ _ _ _ (dio_run _ _ _ _ _ _ _ _ _ Hc Hd eq_refl (Nat.le_0_l _))).
  exists (with_windows w c). split; [done|]. split; [by apply connected_windows|].
  split; [by destruct c|]. destruct (mapped pa); [by destruct c|]. by rewrite Hw, with_windows_id.
Qed.

(** On Windows a physical page that is written is read back, and other memory
    stays; a page the system has no virtual address for stays as it was, and the
    caller is not told. *)
Theorem windows_page_roundtrip pfn content buffer c : connected c -> ptedit_pagesize c = 4096 ->
  mapped_writable mapped (c_windows c) -> length content = PAGE -> Forall byte_ok content ->
  length buffer = PAGE ->
  let pa := wrap64 (pfn * 4096) in
  exists c', ptedit_write_physical_page cpus mapped pool pfn content c = Ret tt c' /\
    if mapped pa
    then ptedit_read_physical_page cpus mapped pool pfn buffer c' = Ret content c' /\
         forall a n, disjoint_ranges pa PAGE a n ->
           pm_read (w_mem (c_windows c')) a n = pm_read (w_mem (c_windows c)) a n
    else c' = c.
Proof.
  intros Hc Hps mw Hl Hok Hb pa.
  destruct (win_write_page_run pfn content c Hc Hps mw Hl) as (c' & Hrun & Hc' & Hps' & Hw). fold pa in Hw.
  exists c'. split; [done|]. destruct (mapped pa); [|done]. split.
  - apply (win_read_page_run pfn buffer c' content Hc' Hb); [|done]. rewrite Hps'. fold pa.
    rewrite <- Hl. by apply (pm_read_written _ _ _ _ Hok Hw).
  - intros a n Hd. eapply pm_read_elsewhere; [exact Hw|]. by rewrite Hl.
Qed.

(** ** Requests without effect *)

Lemma get_mts_run c : connected c ->
  MemType.ptedit_get_mts (MtsOps := win_mts cpus mapped pool) c =
    Ret (wrap64 (default 0 (w_pat (c_windows c) !! w_cpu (c_windows c)))) c.
Proof.
  intros Hc. transitivity (Ret (word_of (bytes_of 8 (default 0 (w_pat (c_windows c) !! w_cpu (c_windows c)))))
    (with_windows (c_windows c) c)); [|by rewrite word_of_bytes_of, with_windows_id].
  apply (request_word_run cpus mapped pool pool_length); [done..| |by rewrite length_bytes_of].
  change (DispatchDeviceCtl _ _ _ ?b) with (case_get_pat (P := P) b).
  unfold case_get_pat. rewrite !bind_gets. unfold buffer_write.
  rewrite (proj2 (Nat.leb_le _ _)) by by rewrite length_bytes_of.
  rewrite drop_ge by by rewrite !length_bytes_of. by rewrite app_nil_r.
Qed.

Lemma set_mts_run v c : connected c ->
  MemType.ptedit_set_mts (MtsOps := win_mts cpus mapped pool) v c = Ret tt c.
Proof.
  intros Hc. simpl. unfold win_set_mts. rewrite <- (with_windows_id c) at 2.
  destruct (buffer_write_Some 8 (bytes_of 8 (default 0 (w_pat (c_windows c) !! w_cpu (c_windows c))))
    (bytes_of 8 v ++ [])) as (b' & Hb & Hl & _);
    [rewrite app_nil_r, length_bytes_of; lia|by rewrite length_bytes_of|].
  eapply (in_place_run _ _ _ pool_length _ _ (mk_answer STATUS_SUCCESS 8 b')); [done| |done|].
  - change (DispatchDeviceCtl _ _ _ ?b) with (case_get_pat (P := P) b). cbn [map concat].
    unfold case_get_pat. by rewrite !bind_gets, Hb.
  - cbn [map concat]. rewrite app_nil_r, length_bytes_of. simpl. lia.
Qed.

Lemma set_mt_run mt value c : connected c -> 0 <= mt < 4 ->
  MemType.ptedit_set_mt (H := win_mts cpus mapped pool) X86_64 mt value c = Ret tt c.
Proof.
  intros Hc Hmt. unfold MemType.ptedit_set_mt. rewrite (bind_Ret _ _ _ _ _ (get_mts_run c Hc)).
  assert (mt = 0 \/ mt = 1 \/ mt = 2 \/ mt = 3) as Hcases by lia.
  destruct Hcases as [-> |[-> |[-> | ->]]]; cbn [slot_matches MemType.slot_mask];
    match goal with |- context [shl_int ?x ?y] =>
      let v := eval vm_compute in (shl_int x y) in change (shl_int x y) with v end;
    cbn [defined]; rewrite bind_ret_l; unfold shl64; cbn [andb Z.leb Z.ltb Z.mul];
    apply set_mts_run, Hc.
Qed.

(** On Windows the functions that set something leave everything as it
    was: [ptedit_set_mts] sends the request to read the memory types, so it and
    [ptedit_set_mt] change no CPU's register, and after
    [ptedit_set_paging_root], to a root that the processor takes, every process has the root it had; what it
    does is to invalidate the TLB for the process id, taken as an address, and
    to keep a reference to the process. *)
Theorem windows_settings_lost pid root mt value mts c : connected c -> u64 (pid_of current_pid pid) ->
  0 <= mt < 4 -> cr3_ok (w_cr3_reserved (c_windows c)) (wrap64 root) = true ->
  MemType.ptedit_set_mts (MtsOps := win_mts cpus mapped pool) mts c = Ret tt c /\
  MemType.ptedit_set_mt (H := win_mts cpus mapped pool) X86_64 mt value c = Ret tt c /\
  exists c', ptedit_set_paging_root cpus mapped current_pid pool pid root c = Ret tt c' /\
    w_mem (c_windows c') = w_mem (c_windows c) /\ w_pat (c_windows c') = w_pat (c_windows c) /\
    w_cr3 (c_windows c') = w_cr3 (c_windows c) /\
    w_invlpg (c_windows c') =
      (rev (map (fun cpu => (cpu, pid_of current_pid pid)) cpus) ++ w_invlpg (c_windows c))%list /\
    (ep_refs <$> w_processes (c_windows c') !! pid_of current_pid pid) =
      (S ∘ ep_refs) <$> w_processes (c_windows c) !! pid_of current_pid pid /\
    forall pid', u64 (pid_of current_pid pid') -> exists r c1 c2,
      ptedit_get_paging_root cpus mapped current_pid pool pid' c = Ret r c1 /\
      ptedit_get_paging_root cpus mapped current_pid pool pid' c' = Ret r c2.
Proof.
  intros Hc Hp Hmt Hok. split; [by apply set_mts_run|]. split; [by apply set_mt_run|].
  eexists. split; [by apply (win_set_root_run cpus mapped current_pid pool pool_length)|].
  set (c' := with_windows _ c).
  assert (Hw : c_windows c' = invalidated cpus (pid_of current_pid pid)
    (looked_up (pid_of current_pid pid) (c_windows c))) by by destruct c.
  assert (Hc' : connected c') by by apply connected_windows.
  rewrite Hw. unfold invalidated, looked_up. 
  destruct (w_processes (c_windows c) !! pid_of current_pid pid) as [p|] eqn:E; simpl;
    rewrite ?E, ?lookup_insert_eq; repeat (split; [done|]); intros pid' Hp'; do 3 eexists;
    (split; [by apply (win_get_root_run cpus mapped current_pid pool pool_length)|]);
    rewrite (win_get_root_run cpus mapped current_pid pool pool_length) by done; do 2 f_equal;
    rewrite Hw; unfold directory, invalidated, looked_up; rewrite E; simpl; [|done].
  destruct (decide (pid_of current_pid pid' = pid_of current_pid pid)) as [->|Hne].
  - by rewrite lookup_insert_eq, E.
  - by rewrite lookup_insert_ne.
Qed.

(** ** Initialisation *)

(** On Windows initialisation opens the device of a loaded driver, which
    cleaning up closes again; without the device it fails with -1, opens
    nothing and says so. *)
Theorem windows_init_cleanup c : u64 current_pid ->
  new_handle (c_handles c) ∉ c_handles c -> INVALID_HANDLE_VALUE ∉ c_handles c ->
  new_handle (c_handles c) <> INVALID_HANDLE_VALUE ->
  (device_ready (c_driver c) -> exists c' c'',
     init c = Ret 0 c' /\ connected c' /\ ptedit_cleanup c' = Ret tt c'' /\
     c_handles c'' = c_handles c /\ c_stderr c'' = c_stderr c) /\
  (device_exists (c_driver c) = false -> exists c' c'',
     init c = Ret (-1) c' /\ c_handles c' = c_handles c /\
     c_stderr c' = c_stderr c ++ ["[-]Error: Could not open PTEditor device: \\.\PTEditorLink" +:+ newline] /\
     ptedit_cleanup c' = Ret tt c'' /\ c_handles c'' = c_handles c).
Proof.
  intros Hpid Hfresh Hinv Hh.
  assert (Hkeep : forall x (l : list Z), x ∉ l -> filter (fun y => y <> x) l = l).
  { intros x l. induction l as [|y l IH]; intros Hx; [done|].
    rewrite elem_of_cons in Hx. rewrite filter_cons_True by (intros ->; tauto). f_equal. tauto. }
  split.
  - intros Hdev.
    destruct (win_init_run cpus mapped current_pid dwPageSize new_handle pool pool_length c Hdev Hpid Hh)
      as [Hinit Hc].
    do 2 eexists. split; [exact Hinit|]. split; [exact Hc|]. split; [reflexivity|].
    split; [|done]. cbn [initialised ptedit_fd c_handles with_handles].
    rewrite filter_cons_False by tauto. by apply Hkeep.
  - intros Hdev. destruct c as [f u p r d i hs e o w]. simpl in Hdev.
    assert (Hinit : init (mk_client f u p r d i hs e o w) =
      Ret (-1) (mk_client INVALID_HANDLE_VALUE u p r d i hs
        (e ++ ["[-]Error: Could not open PTEditor device: \\.\PTEditorLink" +:+ newline]) o w)).
    { unfold ptedit_init, CreateFile. rewrite bind_assoc, bind_gets. simpl c_driver. by rewrite Hdev. }
    do 2 eexists. split; [exact Hinit|]. do 2 (split; [done|]). split; [reflexivity|].
    simpl. by apply Hkeep.
Qed.
End theorems.

(** ** On a machine *)

(** The memory of [windows_machine] with the tables of [memory_4k]: process 4
    has a page at 0x40201000. *)
Definition win_ram : ram :=
  foldl (fun m av => default m (store64 m (fst av) (snd av))) (mk_ram 0x8000 ∅)
    [(0x1000, 0x2067); (0x2008, 0x3067); (0x3008, 0x4067); (0x4008, 0x12345067)].

Definition blank_driver : driver_object :=
  mk_driver (repeat IopInvalidDeviceRequest 28) false false false.
Definition loaded_driver : driver_object :=
  match DriverEntry 0 0 blank_driver with Ret _ d => d | _ => blank_driver end.

Definition next_handle (hs : list Z) : Z := foldr Z.max 0 hs + 4.
Definition zero_pool (n : nat) : list Z := repeat 0 n.

Definition program : client ram := {|
  ptedit_fd := 0; ptedit_umem := 0; ptedit_pagesize := 0; ptedit_paging_root := 0;
  ptedit_paging_definition := def_x86; c_pointers := pointers_null; c_handles := [4; 8];
  c_stderr := []; c_driver := loaded_driver;
  c_windows := with_mem win_ram windows_machine |}.
Definition running : client ram := initialised 4 4096 next_handle program.

Lemma zero_pool_length n : length (zero_pool n) = n.
Proof. apply repeat_length. Qed.

Lemma running_connected : connected running.
Proof. split; [vm_compute; left|vm_compute; reflexivity]. Qed.

Lemma program_entries (l : level) : small_frame (mmu_entry (memory program) 0x1000 0x40201234 l).
Proof. destruct l; split; vm_compute; done. Qed.

Lemma windows_resolve_translates_witness :
  (exists e c', ptedit_init [0; 1] driver_mapped 4 4096 next_handle zero_pool program = Ret 0 c' /\
     call_resolve [0; 1] driver_mapped 4 zero_pool 0x40201234 0 c' = Ret e c' /\
     w_mem (c_windows c') = w_mem (c_windows program) /\
     entry_physical e = x86_mmu (memory program) 0x1000 0x40201234) /\
  x86_mmu (memory program) 0x1000 0x40201234 = Some 0x12345234.
Proof.
  split; [|vm_compute; reflexivity].
  apply (windows_resolve_translates [0; 1] driver_mapped 4 4096 next_handle zero_pool zero_pool_length
    0 0 blank_driver 0 (mk_eprocess 0x1000 1) 0x40201234 program); try reflexivity; try done.
  - replace (walk_reads _ _ _ _ _) with [0x1000; 0x2008; 0x3008; 0x4008] by (vm_compute; reflexivity).
    repeat (apply Forall_cons; split; [eexists; split; [vm_compute; reflexivity|vm_compute; reflexivity]|]).
    done.
  - intros l _. apply program_entries.
Defined.

Lemma windows_read_page_witness :
  exists out, ptedit_read_physical_page [0; 1] driver_mapped zero_pool 0x100 (repeat 0 PAGE) running
      = Ret out running /\ take 8 out = bytes_of 8 0x100000.
Proof.
  destruct (windows_read_page [0; 1] driver_mapped zero_pool zero_pool_length 0x100 (repeat 0 PAGE)
    running running_connected (repeat_length _ _)) as [_ H].
  eexists. split; [apply H; vm_compute; reflexivity|]. vm_compute. reflexivity.
Defined.

Lemma windows_settings_lost_witness :
  exists c', ptedit_set_paging_root [0; 1] driver_mapped 4 zero_pool 8 0x5000 running = Ret tt c' /\
    w_cr3 (c_windows c') = 0x2000 /\ w_invlpg (c_windows c') = [(1, 8); (0, 8)].
Proof.
  destruct (windows_settings_lost [0; 1] driver_mapped 4 zero_pool zero_pool_length 8 0x5000 1 6 0 running
    running_connected) as (_ & _ & c' & Hrun & _ & _ & Hcr3 & Hlog & _); [split; vm_compute; done|lia|vm_compute; reflexivity|].
  exists c'. split; [exact Hrun|]. split; [exact Hcr3|exact Hlog].
Defined.

Lemma windows_page_roundtrip_witness :
  exists c', ptedit_write_physical_page [0; 1] driver_mapped zero_pool 5 (repeat 7 PAGE) running = Ret tt c' /\
    ptedit_read_physical_page [0; 1] driver_mapped zero_pool 5 (repeat 0 PAGE) c' = Ret (repeat 7 PAGE) c'.
Proof.
  destruct (windows_page_roundtrip [0; 1] driver_mapped zero_pool zero_pool_length 5 (repeat 7 PAGE)
    (repeat 0 PAGE) running running_connected eq_refl) as (c' & Hrun & Hread & _);
    [|apply repeat_length| |apply repeat_length|].
  - intros pa bs Hpa Hl. unfold driver_mapped in Hpa.
    apply andb_true_iff in Hpa as [H1%Z.leb_le H2%Z.leb_le].
    unfold PAGE in Hl. simpl. unfold ram_ok.
    change (ram_size _) with 0x8000.
    destruct (Z.leb_spec 0 pa); [|lia].
    destruct (Z.leb_spec (pa + Z.of_nat (length bs)) 0x8000); [|lia]. by eexists.
  - apply Forall_forall. intros x Hx. apply list_elem_of_In, repeat_spec in Hx as ->. done.
  - exists c'. split; [exact Hrun|exact Hread].
Defined.

Lemma windows_init_cleanup_witness :
  exists c', ptedit_init [0; 1] driver_mapped 4 4096 next_handle zero_pool program = Ret 0 c' /\
    connected c'.
Proof.
  destruct (windows_init_cleanup [0; 1] driver_mapped 4 4096 next_handle zero_pool zero_pool_length program)
    as [H _]; [done|by rewrite list_elem_of_In; vm_compute; intuition lia|
               by rewrite list_elem_of_In; vm_compute; intuition lia|done|].
  destruct H as (c' & _ & Hinit & Hc & _); [repeat split; vm_compute; reflexivity|].
  by exists c'.
Defined.
