(* ===== verification/ServiceLoader.v ===== *)
(** * The loader of the Windows driver

    [driver/PTEditorLoader/PTEditorLoader.cpp]: installs the driver as a
    service and starts it, or stops and deletes the service.  What the program
    does is a tree of its calls to the system, each of which the system
    answers as it likes; what the service manager documents is an interface of
    this file. *)

From stdpp Require Import base tactics numbers list strings.
From S2P Require Import Prelude Print PhysMem Driver Windows WinImpl WinProps.
Local Open Scope Z_scope.

(** ** Programs that call the system *)

(** The calls, with the type of their answers; [None] is
    [INVALID_HANDLE_VALUE] or a null handle.  The answers of [StartService],
    [ControlService] and [DeleteService] are ignored by the program. *)
Inductive api : Type -> Type :=
| CreateFile_driver : api (option Z)
| CreateFile_device : api (option Z)
| CloseFile (h : Z) : api unit
| GetFullPathName : api string
| OpenSCManager : api (option Z)
| CreateService (manager : Z) (path : string) : api (option Z)
| OpenService (manager : Z) : api (option Z)
| StartService (h : Z) : api unit
| ControlService_stop (h : Z) : api unit
| DeleteService (h : Z) : api unit
| CloseServiceHandle (h : Z) : api unit
| Printf (s : string) : api unit.

Inductive prog (A : Type) : Type :=
| Done (a : A)
| Call {X : Type} (e : api X) (k : X -> prog A).
Arguments Done {A} a.
Arguments Call {A X} e k.

Declare Scope prog_scope.
Delimit Scope prog_scope with prog.
Notation "'call' x <- e 'in' k" := (Call e (fun x => k))
  (at level 10, x binder, e at level 100, k at level 200) : prog_scope.
Notation "e ;;; k" := (Call e (fun _ => k)) (at level 199, right associativity) : prog_scope.
Local Open Scope prog_scope.

(** A call and its answer. *)
Inductive event :=
| Event {X : Type} (e : api X) (answer : X).

Section run.
Context {S : Type} (handler : forall X, api X -> S -> X * S).

Fixpoint run {A} (p : prog A) (s : S) : A * S * list event :=
  match p with
  | Done a => (a, s, [])
  | Call e k =>
      let '(x, s) := handler _ e s in
      let '(a, s, t) := run (k x) s in
      (a, s, Event e x :: t)
  end.
End run.

(** ** The program *)

(** The text of a line, which [printf] ends with a newline. *)
Definition printf_line (s : string) : api unit := Printf (s +:+ newline).

(** Lines 82 to 95, with a handle of the service. *)
Definition control (unload : bool) (hSCManager hService : Z) : prog Z :=
  let finish := CloseServiceHandle hService ;;; CloseServiceHandle hSCManager ;;; Done 0 in
  if negb unload then
    printf_line "[+] Starting service" ;;;
    StartService hService ;;;
    finish
  else
    printf_line "[+] Stopping service" ;;;
    ControlService_stop hService ;;;
    DeleteService hService ;;;
    finish.

(** Lines 48 to 95. *)
Definition with_manager (unload : bool) (driverPath : string) (hSCManager : option Z) : prog Z :=
  printf_line (if unload then "[+] Unload PTEditor driver" else "[+] Load PTEditor driver") ;;;
  match hSCManager with
  | None => Done 0
  | Some hSCManager =>
      printf_line (if negb unload then "[+] Creating service" else "[+] Connecting to service") ;;;
      call hService <- CreateService hSCManager driverPath in
      match hService with
      | Some hService => control unload hSCManager hService
      | None =>
          printf_line "[+] Service not running, try to open service" ;;;
          call hService <- OpenService hSCManager in
          match hService with
          | Some hService => control unload hSCManager hService
          | None => CloseServiceHandle hSCManager ;;; Done 0
          end
      end
  end.

(** Lines 32 to 46: is the driver loaded? *)
Definition check_loaded (unload : bool) (program driverPath : string) : prog Z :=
  call fd <- CreateFile_device in
  match fd with
  | None =>
      if unload then printf_line "[-] Could not unload driver, driver is not loaded" ;;; Done 1
      else call m <- OpenSCManager in with_manager unload driverPath m
  | Some fd =>
      CloseFile fd ;;;
      if negb unload then
        printf_line ("[+] PTEditor driver is already loaded. To unload the driver, run " +:+
                     program +:+ " --unload") ;;; Done 0
      else call m <- OpenSCManager in with_manager unload driverPath m
  end.

Definition unload_option (argv : list string) : bool :=
  match argv !! 1%nat with Some a => String.eqb a "--unload" | None => false end.

(** [main]; [argv] has [argc] elements. *)
Definition loader (argv : list string) : prog Z :=
  let unload := unload_option argv in
  call fd <- CreateFile_driver in
  match fd with
  | None => printf_line "[-] Could not find driver PTEdit.sys in current directory" ;;; Done 1
  | Some fd =>
      CloseFile fd ;;;
      call driverPath <- GetFullPathName in
      printf_line ("[+] Found driver: " +:+ driverPath) ;;;
      check_loaded unload (default "" (argv !! 0%nat)) driverPath
  end.

(** ** What the system documents *)

(** The part of the system the program is about: whether the file of the
    driver is there, whether the user may create services, whether the service
    is in the database and not marked for deletion, and the driver object
    while the driver is loaded. *)
Record view := mk_view {
  v_file : bool;
  v_admin : bool;
  v_installed : bool;
  v_driver : option driver_object }.

Definition with_installed b v := mk_view (v_file v) (v_admin v) b (v_driver v).
Definition with_driver d v := mk_view (v_file v) (v_admin v) (v_installed v) d.

Section system.
(** What [IoCreateDevice] and [IoCreateSymbolicLink] return to the driver. *)
Variables create_device create_link : Z.

Definition blank : driver_object :=
  mk_driver (repeat IopInvalidDeviceRequest (S IRP_MJ_MAXIMUM_FUNCTION)) false false false.

(** Starting the service of a driver calls its entry point. *)
Definition started : option driver_object :=
  match DriverEntry create_device create_link blank with
  | Ret status d => if NT_SUCCESS status then Some d else None
  | _ => None
  end.

(** The effect of a call on the view. *)
Definition effect {X} (e : api X) (v : view) : view :=
  match e with
  | CreateService _ _ => with_installed true v
  | StartService _ =>
      match v_driver v with
      | None => if v_installed v then with_driver started v else v
      | Some _ => v
      end
  | ControlService_stop _ => with_driver None v
  | DeleteService _ => with_installed false v
  | _ => v
  end.

(** The answers: a file or device that exists can be opened, the manager can
    be opened by who may create services, a service is created unless it is there and
    opened if it is. *)
Definition answered {X} (e : api X) (v : view) : X -> Prop :=
  match e in api X return X -> Prop with
  | CreateFile_driver => fun x => bool_decide (is_Some x) = v_file v
  | CreateFile_device => fun x =>
      bool_decide (is_Some x) = match v_driver v with Some d => device_exists d | None => false end
  | OpenSCManager => fun x => bool_decide (is_Some x) = v_admin v
  | CreateService _ _ => fun x => bool_decide (is_Some x) = negb (v_installed v)
  | OpenService _ => fun x => bool_decide (is_Some x) = v_installed v
  | _ => fun _ => True
  end.

Class ServiceControl (S : Type) := {
  sc_handler : forall X, api X -> S -> X * S;
  sc_view : S -> view }.

(** No other process uses the service meanwhile. *)
Class ServiceControlLaws (S : Type) `{ServiceControl S} := {
  sc_effect X (e : api X) s : sc_view (snd (sc_handler X e s)) = effect e (sc_view s);
  sc_answered X (e : api X) s : answered e (sc_view s) (fst (sc_handler X e s)) }.
End system.

(** ** Handles *)

Inductive handle_kind := FileHandle | ServiceHandle.

(** The open handles, latest first: a call may use and close only open handles of
    its kind, [None] says that it does not keep to that. *)
Definition take_handle (k : handle_kind) (h : Z) (hs : list (handle_kind * Z))
    : option (list (handle_kind * Z)) :=
  match hs with
  | (k', h') :: hs =>
      if (match k, k' with
          | FileHandle, FileHandle | ServiceHandle, ServiceHandle => true | _, _ => false end)
         && (h =? h') then Some hs else None
  | [] => None
  end.

Definition acquire (k : handle_kind) (x : option Z) (hs : list (handle_kind * Z)) :=
  Some (match x with Some h => (k, h) :: hs | None => hs end).

Definition use (k : handle_kind) (h : Z) (hs : list (handle_kind * Z)) :=
  match take_handle k h hs with Some _ => Some hs | None => None end.

Definition handle_step (ev : event) (hs : list (handle_kind * Z))
    : option (list (handle_kind * Z)) :=
  match ev with
  | @Event X e x =>
      match e in api X return X -> option (list (handle_kind * Z)) with
      | CreateFile_driver => fun x => acquire FileHandle x hs
      | CreateFile_device => fun x => acquire FileHandle x hs
      | CloseFile h => fun _ => take_handle FileHandle h hs
      | OpenSCManager => fun x => acquire ServiceHandle x hs
      | CreateService m _ => fun x => use ServiceHandle m hs ≫= acquire ServiceHandle x
      | OpenService m => fun x => use ServiceHandle m hs ≫= acquire ServiceHandle x
      | StartService h => fun _ => use ServiceHandle h hs
      | ControlService_stop h => fun _ => use ServiceHandle h hs
      | DeleteService h => fun _ => use ServiceHandle h hs
      | CloseServiceHandle h => fun _ => take_handle ServiceHandle h hs
      | _ => fun _ => Some hs
      end x
  end.

Fixpoint handles_after (t : list event) (hs : list (handle_kind * Z))
    : option (list (handle_kind * Z)) :=
  match t with
  | [] => Some hs
  | ev :: t => handle_step ev hs ≫= handles_after t
  end.

(** * Theorems *)

Section any_system.
Context {S : Type} (handler : forall X, api X -> S -> X * S).

Lemma take_handle_head k h hs : take_handle k h ((k, h) :: hs) = Some hs.
Proof. cbn [take_handle]. rewrite Z.eqb_refl. by destruct k. Qed.

Lemma use_handle_head k h hs : use k h ((k, h) :: hs) = Some ((k, h) :: hs).
Proof. unfold use. by rewrite take_handle_head. Qed.

(** Runs a call, for each answer of the system. *)
Ltac run_calls :=
  repeat (cbn [run printf_line];
    match goal with
    | |- context [handler ?X ?e ?s] => destruct (handler X e s) as [[?h|] ?s] || destruct (handler X e s) as [?x ?s]
    end).
Ltac follow_handles :=
  cbn [handles_after handle_step acquire printf_line mbind option_bind];
  repeat (rewrite ?use_handle_head, ?take_handle_head; cbn [mbind option_bind handles_after handle_step acquire printf_line]).

Lemma control_handles unload m h s :
  handles_after (snd (run handler (control unload m h) s)) [(ServiceHandle, h); (ServiceHandle, m)] = Some [].
Proof.
  unfold control. destruct unload; cbn [negb]; run_calls; cbn [snd]; by follow_handles.
Qed.

(** The rest of a program that runs a call first. *)
Lemma run_call {A X} (e : api X) (k : X -> prog A) s : run handler (Call e k) s =
  let r := run handler (k (fst (handler X e s))) (snd (handler X e s)) in
  (fst (fst r), snd (fst r), Event e (fst (handler X e s)) :: snd r).
Proof.
  cbn [run]. destruct (handler X e s) as [x s1]. simpl.
  by destruct (run handler (k x) s1) as [[b s2] t].
Qed.

(** The trace of a run. *)
Abbreviation trace p s := (snd (run handler p s)).

Ltac next_call :=
  rewrite run_call; cbn [snd fst]; follow_handles;
  try match goal with
  | |- context [match fst (handler ?X ?e ?s) with Some _ => _ | None => _ end] =>
      destruct (fst (handler X e s)); follow_handles
  end.

Lemma with_manager_handles unload path m s :
  handles_after (trace (with_manager unload path m) s)
    (match m with Some m => [(ServiceHandle, m)] | None => [] end) = Some [].
Proof.
  unfold with_manager. destruct m as [m|]; repeat first [done|apply control_handles|next_call].
Qed.

Lemma check_loaded_handles unload program path s :
  handles_after (trace (check_loaded unload program path) s) [] = Some [].
Proof.
  unfold check_loaded. next_call.
  - next_call. destruct unload; cbn [negb].
    + rewrite run_call. cbn [snd]. cbn [handles_after handle_step acquire mbind option_bind].
      apply with_manager_handles.
    + by next_call.
  - destruct unload; [by next_call|].
    rewrite run_call. cbn [snd]. cbn [handles_after handle_step acquire mbind option_bind].
    apply with_manager_handles.
Qed.

(** C36: whatever the system answers, the loader of the driver uses and
    closes only handles that are open and of the right kind, and in the end it
    has closed all handles it opened. *)
Theorem loader_handles argv s : handles_after (trace (loader argv) s) [] = Some [].
Proof.
  unfold loader. next_call; [|by next_call].
  next_call. next_call. next_call. apply check_loaded_handles.
Qed.
End any_system.

(** ** What the program brings about *)

Section outcome.
Variables create_device create_link : Z.
Context {S : Type} `{ServiceControlLaws create_device create_link S}.
Implicit Types s : S.
Abbreviation after p s := (sc_view (snd (fst (run sc_handler p s)))).
Abbreviation exit_code p s := (fst (fst (run sc_handler p s))).
Abbreviation started := (started create_device create_link).

(** The driver once its service was started. *)
Definition driver_started (v : view) : option driver_object :=
  match v_driver v with None => started | Some d => Some d end.

Lemma view_call {A X} (e : api X) (k : X -> prog A) s :
  exists x s1, sc_view s1 = effect create_device create_link e (sc_view s) /\ answered e (sc_view s) x /\
    exit_code (Call e k) s = exit_code (k x) s1 /\ after (Call e k) s = after (k x) s1.
Proof.
  exists (fst (sc_handler X e s)), (snd (sc_handler X e s)).
  refine (conj (sc_effect create_device create_link X e s) (conj (sc_answered create_device create_link X e s) _)).
  by rewrite run_call.
Qed.

(** Follows a call: the state and view after it, and the answer. *)
Tactic Notation "follow" "as" ident(x) ident(s1) ident(Hv) ident(Hx) :=
  match goal with
  | |- context [exit_code (Call ?e ?k) ?s] =>
      let Hc := fresh "Hc" in let Ha := fresh "Ha" in
      destruct (view_call e k s) as (x & s1 & Hv & Hx & Hc & Ha);
      rewrite Hc, Ha; clear Hc Ha; cbn [effect answered printf_line] in Hv, Hx
  end.
(** The same for a call that prints. *)
Tactic Notation "follow" ident(s1) ident(Hv) :=
  let x := fresh "x" in let Hx := fresh "Hx" in follow as x s1 Hv Hx; clear Hx x.

Lemma control_outcome unload m h s : v_installed (sc_view s) = true ->
  exit_code (control unload m h) s = 0 /\
  after (control unload m h) s =
    if unload then with_installed false (with_driver None (sc_view s))
    else with_driver (driver_started (sc_view s)) (sc_view s).
Proof.
  intros Hi. unfold control. destruct unload; cbn [negb].
  - follow s1 H1. follow s2 H2. follow s3 H3. follow s4 H4. follow s5 H5. cbn [run fst snd].
    split; [done|]. by rewrite H5, H4, H3, H2, H1.
  - follow s1 H1. follow s2 H2. follow s3 H3. follow s4 H4. cbn [run fst snd].
    split; [done|]. rewrite H4, H3, H2, H1, Hi. unfold driver_started.
    destruct (sc_view s) as [f a i d]. by destruct d.
Qed.

Lemma with_manager_outcome unload path m s :
  exit_code (with_manager unload path m) s = 0 /\
  after (with_manager unload path m) s =
    match m with
    | None => sc_view s
    | Some _ =>
        if unload then with_installed false (with_driver None (sc_view s))
        else with_driver (driver_started (sc_view s)) (with_installed true (sc_view s))
    end.
Proof.
  unfold with_manager. follow s1 H1. destruct m as [m|]; [|by rewrite <- H1].
  follow s2 H2. follow as r s3 H3 Hr. rewrite H2, H1 in Hr, H3. destruct r as [h|].
  - destruct (control_outcome unload m h s3) as [-> ->]; [by rewrite H3|].
    rewrite H3. by destruct unload.
  - follow s4 H4. follow as r s5 H5 Hr'. rewrite H4, H3 in Hr', H5. destruct r as [h|]; [|done].
    destruct (control_outcome unload m h s5) as [-> ->]; [by rewrite H5|].
    rewrite H5. by destruct unload.
Qed.

(** What the program leaves behind when it goes on to the service manager. *)
Definition managed (unload : bool) (v : view) : view :=
  if negb (v_admin v) then v
  else if unload then with_installed false (with_driver None v)
  else with_driver (driver_started v) (with_installed true v).

Lemma manager_outcome unload path s :
  exit_code (call m <- OpenSCManager in with_manager unload path m) s = 0 /\
  after (call m <- OpenSCManager in with_manager unload path m) s = managed unload (sc_view s).
Proof.
  follow as m s1 H1 Hm. destruct (with_manager_outcome unload path m s1) as [-> ->]. split; [done|].
  rewrite H1. unfold managed. rewrite <- Hm. by destruct m, unload.
Qed.

(** Whether the device can be opened. *)
Definition device_there (v : view) : bool :=
  match v_driver v with Some d => device_exists d | None => false end.

(** What the loader leaves behind, and its exit code: without the
    driver's file, and when it has nothing to unload, it fails with 1 and
    changes nothing; asked to load a driver that is loaded it does nothing;
    otherwise, if the user may create services, the service is installed and
    the driver started, or the driver stopped and the service gone.  The exit
    code is 0 also when the user may not, or when the driver did not start. *)
Theorem loader_run argv s :
  let v := sc_view s in let unload := unload_option argv in
  (exit_code (loader argv) s, after (loader argv) s) =
    if negb (v_file v) then (1, v)
    else if unload then if device_there v then (0, managed true v) else (1, v)
    else if device_there v then (0, v) else (0, managed false v).
Proof.
  unfold loader. cbv zeta. set (unload := unload_option argv).
  follow as fd s1 H1 Hfd. rewrite <- Hfd. destruct fd as [fd|]; cbn [negb].
  2: { follow s2 H2. cbn [run fst snd]. by rewrite H2, H1. }
  follow s2 H2. follow as path s3 H3 Hpath. follow s4 H4. unfold check_loaded.
  follow as dev s5 H5 Hdev. rewrite H4, H3, H2, H1 in Hdev, H5. unfold device_there. rewrite <- Hdev.
  change (bool_decide (is_Some (Some fd))) with true. cbn [negb]. destruct dev as [dev|].
  - change (bool_decide (is_Some (Some dev))) with true. follow s6 H6. rewrite H5 in H6.
    destruct unload; cbn [negb].
    + destruct (manager_outcome true path s6) as [-> ->]. by rewrite H6.
    + follow s7 H7. cbn [run fst snd]. by rewrite H7, H6.
  - change (bool_decide (is_Some (@None Z))) with false. destruct unload.
    + follow s6 H6. cbn [run fst snd]. by rewrite H6, H5.
    + destruct (manager_outcome false path s5) as [-> ->]. by rewrite H5.
Qed.


Lemma started_ready : NT_SUCCESS create_device = true -> NT_SUCCESS create_link = true ->
  exists d, started = Some d /\ device_ready d.
Proof.
  intros Hd Hl. destruct (driver_load create_device create_link blank eq_refl eq_refl eq_refl)
    as (st & d & Hrun & Hst & _). rewrite Hd, Hl in Hst. exists d. split.
  - unfold ServiceLoader.started. by rewrite Hrun, Hst.
  - by apply (loaded_device _ _ _ _ _ Hrun Hst).
Qed.

(** When the loader has loaded the driver, [ptedit_init] succeeds in every
    program on that system; and when the loader is run again with [--unload], the
    driver is gone. *)
Theorem loader_then_init argv argv' s :
  NT_SUCCESS create_device = true -> NT_SUCCESS create_link = true ->
  v_file (sc_view s) = true -> v_admin (sc_view s) = true -> v_driver (sc_view s) = None ->
  unload_option argv = false -> unload_option argv' = true ->
  let s1 := snd (fst (run sc_handler (loader argv) s)) in
  exists d, v_driver (sc_view s1) = Some d /\
    (forall (P : Type) (HP : PhysMem P) (HL : PhysMemLaws P) cpus mapped pid pagesize new_handle pool (c : client P),
       (forall n, length (pool n) = n) -> u64 pid ->
       new_handle (c_handles c) <> INVALID_HANDLE_VALUE -> c_driver c = d ->
       exists c', ptedit_init cpus mapped pid pagesize new_handle pool c = Ret 0 c' /\ connected c') /\
    let r := run sc_handler (loader argv') s1 in
    fst (fst r) = 0 /\ v_driver (sc_view (snd (fst r))) = None /\
    v_installed (sc_view (snd (fst r))) = false.
Proof.
  intros Hd Hl Hf Ha Hn Hu Hu' s1. destruct (started_ready Hd Hl) as (d & Hst & Hdev).
  assert (Hs1 : sc_view s1 = with_driver (Some d) (with_installed true (sc_view s))).
  { pose proof (loader_run argv s) as Hrun. cbv zeta in Hrun.
    unfold device_there in Hrun. rewrite Hf, Hu, Hn in Hrun. cbn [negb] in Hrun.
    assert (Hafter : sc_view s1 = managed false (sc_view s)) by exact (f_equal snd Hrun).
    rewrite Hafter. unfold managed, driver_started. by rewrite Ha, Hn, Hst. }
  exists d. rewrite Hs1. split; [done|]. split.
  - intros P HP HL cpus mapped pid pagesize new_handle pool c Hpool Hpid Hh <-.
    eexists. by apply win_init_run.
  - pose proof (loader_run argv' s1) as Hrun. cbv zeta in Hrun |- *.
    rewrite Hs1, Hu' in Hrun. unfold device_there in Hrun. cbn [v_file with_driver with_installed v_driver] in Hrun.
    rewrite Hf, (proj1 Hdev) in Hrun. cbn [negb] in Hrun.
    split; [exact (f_equal fst Hrun)|].
    assert (Hafter : sc_view (snd (fst (run sc_handler (loader argv') s1))) = _) by exact (f_equal snd Hrun).
    rewrite Hafter. unfold managed. cbn [snd negb v_admin with_driver with_installed]. by rewrite Ha.
Qed.
End outcome.

(** ** A system *)

(** The view itself, and the next handle. *)
Definition desk_answer {X} (e : api X) (v : view) (n : Z) : X :=
  let opened (b : bool) := if b then Some n else None in
  match e in api X return X with
  | CreateFile_driver => opened (v_file v)
  | CreateFile_device => opened (device_there v)
  | OpenSCManager => opened (v_admin v)
  | CreateService _ _ => opened (negb (v_installed v))
  | OpenService _ => opened (v_installed v)
  | GetFullPathName => "C:\PTEdit.sys"
  | CloseFile _ | StartService _ | ControlService_stop _ | DeleteService _
  | CloseServiceHandle _ | Printf _ => tt
  end.

#[export] Instance desk : ServiceControl (view * Z) := {
  sc_handler X e s := (desk_answer e (fst s) (snd s), (effect 0 0 e (fst s), snd s + 4));
  sc_view := fst }.

#[export] Instance desk_laws : ServiceControlLaws 0 0 (view * Z).
Proof.
  split; [done|]. intros X e [v n]. destruct e; simpl; try done; unfold device_there;
    repeat case_match; done.
Qed.

(** A system with the driver's file, where the user may create services. *)
Definition fresh_system : view * Z := (mk_view true true false None, 100).
Definition guest_system : view * Z := (mk_view true false false None, 100).

Lemma loader_run_witness :
  fst (fst (run sc_handler (loader ["PTEditorLoader.exe"]) guest_system)) = 0 /\
  v_driver (sc_view (snd (fst (run sc_handler (loader ["PTEditorLoader.exe"]) guest_system)))) = None.
Proof.
  pose proof (loader_run 0 0 ["PTEditorLoader.exe"] guest_system) as H.
  apply (f_equal fst) in H as H1. apply (f_equal (fun r => v_driver (snd r))) in H as H2.
  split; [exact H1|exact H2].
Defined.

Lemma loader_then_init_witness :
  exists d, v_driver (sc_view (snd (fst (run sc_handler (loader ["PTEditorLoader.exe"]) fresh_system)))) =
    Some d /\ device_exists d = true.
Proof.
  destruct (loader_then_init 0 0 (S := view * Z) (H := desk) (H0 := desk_laws) ["PTEditorLoader.exe"] ["PTEditorLoader.exe"; "--unload"] fresh_system
    eq_refl eq_refl eq_refl eq_refl eq_refl eq_refl eq_refl) as (d & Hd & _).
  exists d. split; [exact Hd|]. vm_compute in Hd. injection Hd as <-. reflexivity.
Defined.
